(* ===== verification/_CoqProject ===== *)
-Q . S2P
Prelude.v
Wire.v
Decimals.v
Calendar.v
SocketInfo.v
Skeleton.v
Handlers.v
Reactor.v
Invariant.v
Safety.v
ApiSafety.v
HandlerSafety.v
Reachable.v
SkeletonProps.v
Framing.v
Http.v
Requests.v
UdpSync.v
Packets.v
Options.v
TimeUtil.v
TimeDemo.v
Bf.v
Backends.v
EndToEnd.v
Clients.v
Erase.v
SumServer.v
LvPrograms.v
HttpPrograms.v
UdpPrograms.v
Timers.v
SyncClient.v
Demo.v
SumDemo.v
NfServer.v
NfThreads.v
NfOwnership.v
NfSteps.v
NfReach.v
NfRouting.v
NfProps.v
NfClient.v
NfPool.v
NfDemo.v
NfMessages.v
NfPrograms.v
NfExchange.v
NfMulti.v
NfProgDemo.v
LeMem.v
LeSocket.v
LeRead.v
LeFrame.v
LeQueues.v
LeQuiet.v
LeSync.v
LeAdmin.v
LeStart.v
LeDemo.v
CnList.v
CnHash.v
CnSocket.v
CnProcess.v
CnService.v
CnDemo.v
IosContext.v
IosDemo.v
ZxPool.v
ZxEvent.v
ZxSocket.v
ZxDemo.v
ZxServer.v
ZxServerDemo.v
Zxbnf.v
ZxbnfSocket.v
ZxbnfDemo.v
NgSocket.v
NgService.v
NgDemo.v
