(* ===== verification/Prelude.v ===== *)
(** * kknf: a verification of the asynchronous network framework and its programs

    The repository holds several generations of one network framework.  This
    development verifies eight of them: the asynchronous one under
    [src/aanf/asio-based2/include], header files built on [boost::asio], with the
    programs under [src/aanf/asio-based3] and [src/aanf/asio-based2/test] that are
    written on it; the one with threads under [src/all-sync], header files built on
    [epoll] and pthreads; the earlier one under [src/aanf/libevent-based/src], built
    on [libevent]; and five sketches of what came before: [src/c_nf] and
    [src/zxb_ios] in C, [src/cppnf], [src/nf] and [src/zxbnf] in C++, all on [epoll].

    ** The program

    A program derives from [Skeleton].  The skeleton keeps the sockets in three
    maps (connections accepted, acceptors, and a pool of connections to other
    servers), starts asynchronous operations on an event loop, and when an
    operation completes its handler starts the next one: accept then read,
    connect then write, write then read, read a length then read a packet, and
    at last hand the packet to the program, which answers or asks other servers.
    A timer sweeps idle connections.  The programs are a client, a front server
    BF that splits a request in two, two back ends BB1 and BB2 that answer, and
    a client and a server over UDP.  A separate class [Client] makes blocking
    exchanges.

    In the generation with threads, class [Server] has a main thread that waits
    with [epoll] and hands a readable connection to the workers of its listening
    socket through a ready list; a worker reads, answers, and gives the connection
    back through the reuse list, with a byte on a local socket that wakes the main
    thread.  Its class [Client] keeps idle connections for the workers and waits
    for several at once.

    In the generation on [libevent], a frame reads packets into blocks of a memory
    pool and puts each into one of several queues, one for each worker thread: it
    looks for the shortest one without their locks; the workers send through queues that the frame empties, and commands
    for the program itself come in as lines of text.

    The generation in C has a hash table, sockets whose objects are linked into a
    pool of idle connections and a list of servers, and functions that process an
    event of a socket.  [cppnf] has a pool of blocks, an engine with a queue of
    timers, sockets with a list of messages to send, and a server that accepts; [nf]
    has several engines, one for each thread, and sockets with such a list too;
    [zxbnf] has messages that are lists of blocks of its pool, and [zxb_ios] contexts
    of descriptors with a list of buffers to write.

    ** The files

    - [Prelude]: computations that change a state and may stop the process, with
      their program logic ([triple] for invariants, [runs] for total
      correctness); [int] and [size_t]; list lemmas.
    - [Wire]: little-endian words in buffers, the byte-order conversion, searches.
    - [Decimals], [Calendar]: what the programs use of the standard library to read
      and print numbers and times: [atoi], [localtime], [mktime], [strftime],
      [sscanf].  A time zone is its offsets at every moment, and the moment the
      system takes for a reading of standard time.
    - [SocketInfo]: [socketinfo.hpp], one record per class, one function per
      operation.
    - [Skeleton]: the data and the operations of class [Skeleton] of
      [skeleton.hpp] that programs call or that start work.  A [shared_ptr] is an
      address in the component [heap] of the state, so that aliasing (one socket
      in a map, in the pool list and bound in a handler) is kept.
    - [Handlers]: the completion handlers of [skeleton.hpp], under their names.
      What a program supplies (its [ProcessData], its callbacks, its timer
      handlers) is the class [Program].
    - [Reactor]: the event loop.  It is not part of the repository: its events
      are whatever answers the system may give to the pending operations
      ([permitted]), in any order; [deliver] is one turn, [call] what a program
      does outside of a handler, [reachable] the states of a run.
    - [Invariant], [Safety], [ApiSafety], [HandlerSafety], [Reachable]: the
      invariant of the skeleton and its preservation, operation by operation.
      The interface between skeleton and program is the class [ProgramSafe]: a
      program promises that what it does in a packet handler keeps the
      invariant; [Reachable] proves the invariant for every such program.  What a
      program may call is every public function, the blocking exchange among them,
      whose new connection is in the client map without being marked as a client's.
    - [Timers]: the handlers of the timer run along their list as it stands, and
      for the programs, none of whose handlers registers another, that is the list
      as it was.
    - [SkeletonProps], [Framing], [Http], [Requests], [UdpSync]: the functional
      theorems of the skeleton: registry, LV framing, HTTP framing, the life of a
      request, UDP and the blocking call.
    - [Packets], [Options]: [test_packet.hpp] and what the [main] functions
      share.
    - [TimeUtil]: the time strings of [all-sync/util.hpp], and in the Modules [Le] and
      [Ng] those of [libevent-based/src/utils.cc] and [nf/util.hpp] with the log lines
      that call them.  [TimeDemo]: a zone and times in it.
    - [Bf], [Backends], [Clients], [UdpPrograms]: [cb_lv_bf.cc],
      [cb_lv_bb1.cc] and [cb_lv_bb2.cc], [cb_lv_c.cc], [udp_b.cc] and
      [udp_c.cc].  Each proves that its program is a [ProgramSafe] one.
    - [EndToEnd]: BF and the two back ends together, on one request.
    - [Erase]: a skeleton less the callbacks of its sockets, and when two programs
      that differ in their callbacks run the same: the class [SameHandlers] is
      what the programs owe each other, [run_erased] what follows.
    - [SumServer]: the front server as the class [RequestTable] of what it keeps
      and the functions [dispatch] is made of, with the way it asks and the way it
      answers as arguments; [LvPrograms] and [HttpPrograms] are instances.
    - [LvPrograms]: [lv_bf.cc], [lv_c.cc] and [lv_c_for_bb1.cc], the programs without
      callbacks.  [HttpPrograms]: [http_bf.cc] and [http_c.cc], the programs over
      HTTP.  [SumDemo]: runs of them.
    - [SyncClient]: [sync_client.hpp].
    - [Demo]: runs of these programs on concrete answers of the system, and each
      theorem with hypotheses applied at one of their states.
    - [NfServer]: [server.hpp], [socket.hpp] and [socketaddr.hpp] of
      [all-sync].  An operation is a critical section of a mutex, or what one
      thread does between two points where others may run; the answers of the
      system calls are its arguments; what the kernel holds (descriptors, the
      epoll set, the bytes of the local socket) is in the state.
    - [NfThreads]: the main thread and the workers as a step relation ([step],
      [reachable]), and the lemmas that count where a socket is.
    - [NfOwnership], [NfSteps], [NfReach]: the invariant (every socket has one
      owner), kept by every operation and in every reachable state.  [sure] is
      the logic of computations that return.
    - [NfRouting]: where the connections that wait or are ready came from, kept in
      every reachable state.
    - [NfProps]: the theorems on the threads and the timer.
    - [NfClient], [NfPool]: [client.hpp] and [socketio.hpp]; the pool of idle
      connections as a queue for each address, the wait, [TCPSend].
    - [NfDemo]: runs of the server and of the client pool.
    - [NfMessages]: packets on a connection, [TCPRecv] of the programs and the
      datagrams of [socketio.hpp].
    - [NfPrograms]: the programs [test_*.cc] of [all-sync], one turn of a loop as
      one definition; what comes on each descriptor is in its state.
    - [NfExchange]: their theorems, and that the end of a turn is a step of
      [NfThreads] ([turn_is_step]).
    - [NfMulti]: the interactive client of three formats, [test_multi_pool_client.cc].
      [NfProgDemo]: runs of the programs.
    - [LeMem]: [memblock.cc], the memory pool and its clients as steps.
    - [LeSocket]: the sockets, [socket.cc], [tcp_socket.cc] and the read handlers
      of the three formats.  The class [BlockSource] is what they ask of a pool;
      [pool_source] shows that the pool of [LeMem] gives it.
    - [LeRead]: the theorems on reading and writing, for any such source.
    - [LeFrame]: [netframe.cc] and [socket_pool.cc]; an event is a call of
      [SocketCallback], and what the system calls answer is its argument.
    - [LeQueues], [LeQuiet]: the queues with the threads that use them as a step
      relation, in which the main thread looks at one queue at a time while the
      workers go on; the states a frame can reach.
    - [LeSync]: [sync_sender_receiver.cc].  [LeAdmin]: the command channel of
      [skeleton.cc].  [LeStart]: the rest of [skeleton.cc], how a program makes its
      sockets and starts its workers.  [LeDemo]: runs of all of these.
    - [CnList]: doubly linked lists in explicit memory, for any objects with links
      (class [Linked]): segments and what the assignments to links do to them.
    - [CnHash], [CnSocket], [CnProcess], [CnService]: [hash.c], [socket_info.c],
      [process.c] and [io_service.c] of [c_nf].  [CnDemo]: states of all of these.
    - [IosContext]: [zxb_context.c] of [zxb_ios], on the lists of [CnList].
      [IosDemo]: a context and its end.
    - [ZxPool], [ZxEvent], [ZxSocket]: [buffer.hpp]; [event.hpp], [timer.hpp] and
      [event_engine.hpp]; the headers of the sockets of [cppnf].  [ZxServer]:
      [server.hpp], on the engine of [ZxEvent]; [ZxServerDemo].
    - [Zxbnf]: [buffer.hpp], [message.hpp] and the connection of [context.hpp] of
      [zxbnf], with the pool of [ZxPool]; [ZxbnfSocket]: its [socket.hpp];
      [ZxbnfDemo].
    - [NgSocket], [NgService]: [socket.hpp] with [messagizor.hpp], and
      [io_service.hpp] with [timer.hpp], of [nf].  [ZxDemo], [NgDemo]: states of both.

    ** The theorems

    - Invariants: no pointer dangles and the maps hold what they should
      ([reachable_well_formed]); the pool never hands out a connection with an
      operation in flight ([client_requests_exclusive]).
      Every reachable state satisfies [wf], which the theorems below assume.
    - Registry: [FindIdle_first] and the lemma [InsertTCPServerSocket_find],
      [DestroySocket_unregisters], [SweepServerSocket_spec].
    - Framing: a packet is delivered whole ([lv_packet_delivered]), a length too
      large closes ([lv_length_too_large]), one too small is a defect
      ([lv_length_too_small]).
    - HTTP: a request that comes at once is delivered
      ([http_request_delivered]); two defects when it does not
      ([http_content_dropped], [http_pieces_overcounted]).
    - Requests: [ToWriteThenRead_client], [ToWriteThenRead_server],
      [request_on_new_connection], [connect_failure_forgets], [HandleAccept_lv]
      and the two defects of error paths [write_error_leaks_connection] and
      [HandleAccept_lost_endpoint]; [ToWriteThenClose_spec].
    - UDP and blocking calls: [UDPToWrite_spec], [udp_front_resent_forever],
      [ToWriteThenReadSync_success], [exchange_fills_buffer],
      [exchange_error_aborts].
    - Programs: a request is answered with the sum of what the two back ends
      answer ([request_answered], from [BF_new_request], [BB1_answer_eq],
      [BB2_answer_eq] and the commutation of the two replies,
      [bb_replies_commute]); the lemmas [BF_rejects], [BB1_answers];
      [client_tick], [udp_server_stops]; the packets' round trip; the listening
      loop and its overflow.
    - Threads: no use of a deleted socket in any interleaving
      ([server_sockets_owned]), routing to the right pool
      ([ready_socket_routed]), a connection that is given back is taken up again or
      waits for a drain that blocks ([reuse_notified]), and the
      defects of the timer and of the drain of the local socket
      ([timeout_never_expires], [local_recv_blocks]).
    - Client of the threads: [idle_pool_queues] and the descriptors
      [TCPWaitToRead] really waits for ([TCPWaitToRead_indices]).
    - Programs of the threads: what is sent is received ([sent_packet_received]);
      a client, BF and both back ends on one request ([sum_answered]); what becomes
      of the connections to the back ends ([bf_turn_connections]); lines
      ([line_echoed]); the interactive client with its three servers
      ([interactive_turn]).
    - Time strings: a time that is printed is read back, but for the summer time
      ([time_string_round_trip]); where log lines have the time in them none is
      ever written ([log_line_undefined], [nf_log_never_returns]).
    - Memory pool: in a pool whose lists have room, blocks lie inside their chunks,
      never overlap and are large enough ([pool_blocks_apart]); the pool as it is
      created has no room for its lists ([created_pool_undefined]); a block that is
      cut beyond the end of a chunk is undefined ([next_chunk_too_small]).
    - Reading and writing on [libevent]: a packet is put together from any pieces
      ([packet_assembled]), lines ([line_then_garbage]), the write handler
      ([write_resends], [write_all]).
    - The frame on [libevent]: the queues between the main thread and the workers
      ([workers_served]); no packet ever gets that far ([frame_never_reads]), and a
      program that was started waits for ever ([started_program_waits]).  The
      blocking senders ([sync_never_succeeds]) and the commands ([admin_lines]).
    - Programs with and without callbacks: when they are the same
      ([lv_bf_equivalent], [lv_client_equivalent]) and what a client can do to the
      ones without ([lv_bf_impersonated]).
    - Programs over HTTP: a request that comes at once goes to both back ends
      ([http_request_served]), one that does not ends the server
      ([http_split_undefined]).
    - The generation in C: the hash table as a table of buckets
      ([hash_table_refines], [ip_port_key_undefined]) when the memory of its items
      was zero ([first_item_links]); the pool of idle connections
      ([idle_pool_refines]) and the removal of idle servers
      ([destroy_idle_undefined]); receiving ([packet_in_one_piece],
      [recv_overruns]) and sending ([send_never_returns]).
    - [cppnf]: the pool ([pool_hands_out_twice]); the flags of events
      ([epoll_events_round_trip]); the timers ([timer_units], [wake_up_on_time],
      [overdue_timer_never_called]); sending ([writable_sends_front]) and receiving
      ([receive_never_starts]); the server ([connection_never_served]).
    - [zxbnf]: seeking in a message ([seek_forward]); a connection never sends
      ([connection_never_sends]); what the codes of the sockets do not tell
      ([results_ambiguous]).
    - [zxb_ios]: a context from its creation to its end ([context_life]), in memory
      that was not zero ([context_not_cleared]), and its descriptors
      ([socket_stays_blocking]).
    - [nf]: sending ([whole_messages_sent], [partial_send_undefined]); loops that do
      not end ([listener_spins], [datagrams_spin]); the timers
      ([timer_early_or_never]) and the contexts ([contexts_keep_first]).

    ** Conventions

    A [BOOST_ASSERT] that fails is [Halt HAssert], [exit] is [Halt HExit], an
    exception nobody catches [Halt HThrow], behaviour the language leaves
    undefined [Halt HUndefined]; signed arithmetic that may leave [int] goes
    through [int_op].  The wall clock and the garbage of uninitialised members
    are parameters.  Fuel is used where a loop does not go along a list.  For [listen_ports], [listen_fuel] is
    larger than the number of ports, so a range that ends below 65535 is always
    finished ([listen_ports_range]); for one that ends there no fuel is enough
    ([listen_ports_never_ends]).  [cut_rest] has the bytes that are left, of which
    each turn takes at least one; the loop over the commands has one turn more
    than the text has bytes, which is enough ([admin_loop_ends]); the walk along a
    chain of the hash table has as many turns as the chain has items
    ([hash_table_refines]); the end of a context takes a turn for each buffer, and
    seeking one for each buffer of the message, and one more ([context_life],
    [seek_forward]).  The loops of [c_nf] that do not end are proved so for
    any fuel; those of [nf] and [cppnf] take one answer of the system a turn, and
    a result [None] is a loop that waits for the next answer.

    Much of the [libevent] generation, of [c_nf], [cppnf], [nf] and [zxbnf] does not
    compile as it stands; the comment
    at the top of each of its files says how such text is read.

    ** Not modelled

    What log lines say, other than their times; the release of objects
    ([shared_ptr] counts) and the lifetime of buffers handed to the event loop; the
    inside of [boost::asio], whose operations appear as pending operations and
    answers; [getopt], whose pairs are the argument of each [main];
    [Client::UDPToWriteThenReadSync], which uses a variable that is not declared.  Of
    [all-sync]: the [main] functions that start threads, and the mutexes themselves:
    a critical section is one step, and [StopServer]'s unsynchronised flag is read
    once a turn.  The memory of a new [Server] is taken to hold a null [udp_socket_],
    which the constructor forgets.  Of the [libevent] generation: the messages and
    the code [protoc] generates, [LoadConfig], which reads settings of a library into
    types they do not have, the monitors for signals and timers, and the test
    programs.  The first asio generation ([aanf/asio-based]), whose text has no one
    reading: it compares iterators of different types and names members no class
    has.  The skeletons of [asio-based3] and [all-async], which were left in the middle
    of a change: they use a class [SocketInfo] that no header beside them declares and
    lack the functions that start a read; the programs beside them are modelled (those
    of [all-async] are the same files), and so is [asio-based3/sync_client.hpp], a copy.
    Of [c_nf]: the functions without a body; its copies in [zxb_ios].  Of [zxb_ios]:
    [zxb_ios.c], which is two unfinished functions.  Of [cppnf]: what is declared
    without a body, the datagram server and the example, whose branches are empty.  Of
    [nf]: the pool of back ends, which uses operations its container does not have, the
    abstract processors, and the creation of listeners and threads.  Of [zxbnf]: the
    contexts, which use members no class has; [cnf] is one empty header. *)

From stdpp Require Export base gmap sets list strings numbers.
From Stdlib Require Export ZArith Lia.
From Stdlib Require Export Strings.Byte.

#[global] Open Scope Z_scope.

(** ** State, error and undefined behaviour

    Every routine of the program is a computation of the monad [M S]: it reads
    and writes an explicit state [S], and either returns a value or stops the
    process.  The reasons to stop are the ones the C++ code has: a failed
    [BOOST_ASSERT]/[assert] (which calls [abort]), a call of [exit], an
    exception nobody catches, and a step whose behaviour the language leaves
    undefined (an access outside the bounds of a buffer, a signed overflow). *)

Inductive halt :=
| HAssert
| HExit (code : Z)
| HThrow
| HUndefined.

#[global] Instance halt_eq_dec : EqDecision halt.
Proof. solve_decision. Defined.

Inductive outcome (S A : Type) :=
| Ret (a : A) (s : S)
| Halt (h : halt) (s : S).
Arguments Ret {S A} a s.
Arguments Halt {S A} h s.

Definition M (S A : Type) : Type := S -> outcome S A.

Definition ret {S A} (a : A) : M S A := fun s => Ret a s.

Definition bindM {S A B} (m : M S A) (k : A -> M S B) : M S B :=
  fun s => match m s with
           | Ret a s' => k a s'
           | Halt h s' => Halt h s'
           end.

Definition gets {S A} (f : S -> A) : M S A := fun s => Ret (f s) s.
Definition modify {S} (f : S -> S) : M S unit := fun s => Ret tt (f s).
Definition stop {S A} (h : halt) : M S A := fun s => Halt h s.

(** [BOOST_ASSERT(b)] and [assert(b)]. *)
Definition assert_ {S} (b : bool) : M S unit := if b then ret tt else stop HAssert.

Definition of_option {S A} (h : halt) (o : option A) : M S A :=
  match o with Some a => ret a | None => stop h end.

Declare Scope kk_scope.
Delimit Scope kk_scope with kk.
#[global] Open Scope kk_scope.

Notation "'let!' x := m 'in' k" := (bindM m (fun x => k))
  (at level 10, x name, m at level 100, k at level 200) : kk_scope.
Notation "'let!' ' x := m 'in' k" := (bindM m (fun y => match y with x => k end))
  (at level 10, x pattern, m at level 100, k at level 200) : kk_scope.
Notation "m ;;! k" := (bindM m (fun _ => k))
  (at level 199, right associativity) : kk_scope.

(** A [for] loop over a list of items. *)
Fixpoint forM {S A} (l : list A) (f : A -> M S unit) : M S unit :=
  match l with
  | [] => ret tt
  | x :: l' => f x ;;! forM l' f
  end.

(** *** Program logic

    [triple P m Q]: started in a state of [P], [m] either stops the process or
    returns in [Q] (partial correctness: for the invariants).  [runs m s Q]:
    started in [s], [m] returns, and in [Q] (total correctness: for the
    functional theorems). *)

Definition triple {S A} (P : S -> Prop) (m : M S A) (Q : A -> S -> Prop) : Prop :=
  forall s, P s -> match m s with Ret a s' => Q a s' | Halt _ _ => True end.

Definition runs {S A} (m : M S A) (s : S) (Q : A -> S -> Prop) : Prop :=
  match m s with Ret a s' => Q a s' | Halt _ _ => False end.

(** An invariant a computation keeps, whatever it returns. *)
Abbreviation preserves Inv m := (triple Inv m (fun _ => Inv)).

Section logic.
  Context {S : Type}.
  Implicit Types P : S -> Prop.

Lemma triple_conseq {A} P P' (m : M S A) (Q Q' : A -> S -> Prop) :
  triple P' m Q' -> (forall s, P s -> P' s) -> (forall a s, Q' a s -> Q a s) ->
  triple P m Q.
Proof. intros H HP HQ s Hs. specialize (H s (HP s Hs)). destruct (m s); auto. Qed.

Lemma triple_post {A} P (m : M S A) (Q Q' : A -> S -> Prop) :
  triple P m Q' -> (forall a s, Q' a s -> Q a s) -> triple P m Q.
Proof. intros H HQ. by eapply triple_conseq. Qed.

Lemma triple_and {A} P P' (m : M S A) (Q Q' : A -> S -> Prop) :
  triple P m Q -> triple P' m Q' ->
  triple (fun s => P s /\ P' s) m (fun a s => Q a s /\ Q' a s).
Proof.
  intros H H' s [Hs Hs']. specialize (H s Hs). specialize (H' s Hs'). by destruct (m s).
Qed.

Lemma triple_bind {A B} P (m : M S A) (k : A -> M S B) R Q :
  triple P m R -> (forall a, triple (R a) (k a) Q) -> triple P (bindM m k) Q.
Proof.
  intros Hm Hk s Hs. unfold bindM. specialize (Hm s Hs).
  destruct (m s) as [a s'|]; [apply Hk, Hm | done].
Qed.

Lemma triple_ret {A} P (a : A) Q : (forall s, P s -> Q a s) -> triple P (ret a) Q.
Proof. intros H s Hs. by apply H. Qed.

Lemma triple_gets {A} P (f : S -> A) Q : (forall s, P s -> Q (f s) s) -> triple P (gets f) Q.
Proof. intros H s Hs. by apply H. Qed.

Lemma triple_modify P (f : S -> S) Q : (forall s, P s -> Q tt (f s)) -> triple P (modify f) Q.
Proof. intros H s Hs. by apply H. Qed.

Lemma triple_stop {A} P h (Q : A -> S -> Prop) : triple P (stop h) Q.
Proof. by intros s Hs. Qed.

Lemma triple_assert P b Q : (forall s, P s -> b = true -> Q tt s) -> triple P (assert_ b) Q.
Proof. intros H s Hs. destruct b; simpl; auto. Qed.

Lemma triple_of_option {A} P h (o : option A) Q :
  (forall s a, P s -> o = Some a -> Q a s) -> triple P (of_option h o) Q.
Proof. intros H s Hs. destruct o; simpl; auto. Qed.

Lemma triple_forM {A} P (l : list A) f :
  (forall x, triple P (f x) (fun _ => P)) -> triple P (forM l f) (fun _ => P).
Proof.
  intros H. induction l as [|x l IH]; simpl.
  - by apply triple_ret.
  - eapply triple_bind; [apply H | intros []; exact IH].
Qed.

Lemma runs_bind {A B} (m : M S A) (k : A -> M S B) s R Q :
  runs m s R -> (forall a s', R a s' -> runs (k a) s' Q) -> runs (bindM m k) s Q.
Proof. unfold runs, bindM. destruct (m s); [|done]. intros H1 H2. by apply H2. Qed.

Lemma runs_ret_eq {A} (m : M S A) s a s' (Q : A -> S -> Prop) :
  m s = Ret a s' -> Q a s' -> runs m s Q.
Proof. unfold runs. by intros ->. Qed.

(** One step of a computation that is run. *)
Lemma runs_step {A B} (m : M S A) (k : A -> M S B) s a s' Q :
  m s = Ret a s' -> runs (k a) s' Q -> runs (bindM m k) s Q.
Proof. unfold runs, bindM. by intros ->. Qed.

Lemma runs_gets {A B} (f : S -> A) (k : A -> M S B) s Q :
  runs (k (f s)) s Q -> runs (bindM (gets f) k) s Q.
Proof. done. Qed.

Lemma runs_modify {B} (f : S -> S) (k : unit -> M S B) s Q :
  runs (k tt) (f s) Q -> runs (bindM (modify f) k) s Q.
Proof. done. Qed.

Lemma bind_Ret {A B} (m : M S A) (k : A -> M S B) s a s' :
  m s = Ret a s' -> bindM m k s = k a s'.
Proof. unfold bindM. by intros ->. Qed.

(** The equations of the primitive computations at the head of a bind. *)
Lemma bind_gets {A B} (f : S -> A) (k : A -> M S B) s : bindM (gets f) k s = k (f s) s.
Proof. done. Qed.
Lemma bind_modify {B} (f : S -> S) (k : unit -> M S B) s : bindM (modify f) k s = k tt (f s).
Proof. done. Qed.
Lemma bind_ret {A B} (a : A) (k : A -> M S B) s : bindM (ret a) k s = k a s.
Proof. done. Qed.
Lemma bind_assert {B} b (k : unit -> M S B) s : b = true -> bindM (assert_ b) k s = k tt s.
Proof. by intros ->. Qed.
Lemma bind_of_option {A B} h (o : option A) a (k : A -> M S B) s :
  o = Some a -> bindM (of_option h o) k s = k a s.
Proof. by intros ->. Qed.

Lemma bind_bind_Ret {A B C} (m : M S A) (k : A -> M S B) (k' : B -> M S C) s a s' :
  m s = Ret a s' -> bindM (bindM m k) k' s = bindM (k a) k' s'.
Proof. unfold bindM. by intros ->. Qed.

Lemma bind_Ret_inv {A B} (m : M S A) (k : A -> M S B) s b s' :
  bindM m k s = Ret b s' -> exists a s1, m s = Ret a s1 /\ k a s1 = Ret b s'.
Proof. unfold bindM. destruct (m s) as [a s1|]; [eauto | done]. Qed.
End logic.

(** *** Runs *)

(** The state a run ends in. *)
Definition after {S A} (m : M S A) (s : S) : S :=
  match m s with Ret _ s' => s' | Halt _ s' => s' end.

Definition returned {S A} (m : M S A) (s : S) : bool :=
  match m s with Ret _ _ => true | Halt _ _ => false end.

Lemma after_returned {S A} (m : M S A) s :
  returned m s = true -> exists a, m s = Ret a (after m s).
Proof. unfold returned, after. destruct (m s); [eauto|done]. Qed.

(** In an equation [E] on a computation that returned: passing over a [gets] at
    its head, or splitting off its first step. *)
Ltac step_gets E :=
  let E0 := fresh in apply bind_Ret_inv in E as (? & ? & E0 & E);
  unfold gets in E0; injection E0 as <- <-.
Tactic Notation "step_ret" hyp(E) "as" simple_intropattern(a) ident(s) ident(E0) :=
  apply bind_Ret_inv in E as (a & s & E0 & E).

Create HintDb triple.
#[export] Hint Resolve triple_stop : triple.

(** One step of the verification-condition generator for [triple]. *)
Ltac tstep :=
  lazymatch goal with
  | |- triple _ (bindM _ _) _ => eapply triple_bind; [| intros ?]
  | |- triple _ (ret _) _ => apply triple_ret; intros ? ?
  | |- triple _ (gets _) _ => apply triple_gets; intros ? ?
  | |- triple _ (modify _) _ => apply triple_modify; intros ? ?
  | |- triple _ (stop _) _ => apply triple_stop
  | |- triple _ (assert_ _) _ => apply triple_assert; intros ? ? ?
  | |- triple _ (of_option _ _) _ => apply triple_of_option; intros ? ? ? ?
  | |- triple _ (match ?x with _ => _ end) _ => destruct x eqn:?
  end.

(** ** Machine integers

    [int] is 32 bits and two's complement, [size_t] is 64 bits: conversions
    wrap, signed arithmetic that leaves the range is undefined. *)

Definition int_min : Z := - 2 ^ 31.
Definition int_max : Z := 2 ^ 31 - 1.
Definition in_int (z : Z) : bool := (int_min <=? z) && (z <=? int_max).
Definition to_int (z : Z) : Z :=
  let u := z mod 2 ^ 32 in if u <? 2 ^ 31 then u else u - 2 ^ 32.
Definition to_size (z : Z) : Z := z mod 2 ^ 64.

(** The result of a signed [int] operation whose exact value is [z]. *)
Definition int_op {S} (z : Z) : M S Z := if in_int z then ret z else stop HUndefined.

Lemma in_int_spec z : in_int z = true <-> int_min <= z <= int_max.
Proof. unfold in_int. rewrite andb_true_iff, !Z.leb_le. tauto. Qed.

Lemma to_int_range z : int_min <= to_int z <= int_max.
Proof.
  unfold to_int, int_min, int_max.
  pose proof (Z.mod_pos_bound z (2 ^ 32) ltac:(lia)).
  destruct (Z.ltb_spec (z mod 2 ^ 32) (2 ^ 31)); lia.
Qed.

Lemma mod_neg_small z n : - n <= z < 0 -> z mod n = z + n.
Proof. intros H. symmetry. apply (Z.mod_unique z n (-1)); lia. Qed.

Lemma to_int_id z : int_min <= z <= int_max -> to_int z = z.
Proof.
  unfold to_int, int_min, int_max. intros H. destruct (Z_lt_ge_dec z 0).
  - rewrite mod_neg_small by lia.
    destruct (Z.ltb_spec (z + 2 ^ 32) (2 ^ 31)); lia.
  - rewrite Z.mod_small by lia. destruct (Z.ltb_spec z (2 ^ 31)); lia.
Qed.

Lemma to_int_mod z : to_int (z mod 2 ^ 32) = to_int z.
Proof. unfold to_int. by rewrite Z.mod_mod by lia. Qed.

Lemma to_size_id z : 0 <= z < 2 ^ 64 -> to_size z = z.
Proof. intros H. unfold to_size. by apply Z.mod_small. Qed.

Lemma to_size_neg z : - 2 ^ 64 <= z < 0 -> to_size z = z + 2 ^ 64.
Proof. apply mod_neg_small. Qed.

(** ** Bytes and lists *)

#[global] Instance byte_eq_dec : EqDecision byte := Byte.byte_eq_dec.
#[global] Instance byte_countable : Countable byte.
Proof. refine (inj_countable Byte.to_N Byte.of_N _). intros b. apply Byte.of_to_N. Defined.

Definition Zb (b : byte) : Z := Z.of_N (Byte.to_N b).
Definition bZ (z : Z) : byte :=
  match Byte.of_N (Z.to_N (z mod 256)) with Some b => b | None => x00 end.

Lemma Zb_range b : 0 <= Zb b < 256.
Proof. unfold Zb. pose proof (Byte.to_N_bounded b). lia. Qed.

Lemma bZ_Zb b : bZ (Zb b) = b.
Proof. by destruct b. Qed.

Lemma Zb_bZ z : Zb (bZ z) = z mod 256.
Proof.
  unfold Zb, bZ. pose proof (Z.mod_pos_bound z 256 ltac:(lia)) as Hz.
  destruct (Byte.of_N (Z.to_N (z mod 256))) as [b|] eqn:E.
  - apply Byte.to_of_N in E. lia.
  - apply Byte.of_N_None_iff in E. lia.
Qed.

(** The length of a list as an integer. *)
Definition zlen {A} (l : list A) : Z := Z.of_nat (length l).

Lemma zlen_nonneg {A} (l : list A) : 0 <= zlen l.
Proof. unfold zlen. lia. Qed.

Lemma zlen_app {A} (l k : list A) : zlen (l ++ k) = zlen l + zlen k.
Proof. unfold zlen. rewrite length_app. lia. Qed.

Lemma zlen_cons {A} (x : A) (l : list A) : zlen (x :: l) = 1 + zlen l.
Proof. unfold zlen. simpl. lia. Qed.

Lemma zlen_replicate {A} n (x : A) : 0 <= n -> zlen (replicate (Z.to_nat n) x) = n.
Proof. intros. unfold zlen. rewrite length_replicate. lia. Qed.

(** [list::remove(x)]: every occurrence goes. *)
Definition remove_all {A} `{EqDecision A} (x : A) (l : list A) : list A :=
  filter (fun y => y <> x) l.

Lemma elem_of_remove_all {A} `{EqDecision A} (x y : A) l :
  y ∈ remove_all x l <-> y <> x /\ y ∈ l.
Proof. unfold remove_all. by rewrite list_elem_of_filter. Qed.

Lemma remove_all_not_in {A} `{EqDecision A} (x : A) l : x ∉ remove_all x l.
Proof. rewrite elem_of_remove_all. naive_solver. Qed.

Lemma remove_all_id {A} `{EqDecision A} (x : A) l : x ∉ l -> remove_all x l = l.
Proof.
  unfold remove_all. induction l as [|y l IH]; [done|]. rewrite not_elem_of_cons. intros [Hy Hl].
  rewrite filter_cons_True by congruence. by rewrite IH.
Qed.

Lemma remove_all_snoc {A} `{EqDecision A} (x : A) l :
  x ∉ l -> remove_all x (l ++ [x]) = l.
Proof.
  intros Hl. unfold remove_all. rewrite list.filter_app, filter_cons_False by naive_solver.
  rewrite app_nil_r. by apply remove_all_id.
Qed.

(** [erase] of the last element, by position. *)
Lemma delete_snoc {A} (l : list A) x : delete (length l) (l ++ [x]) = l.
Proof.
  rewrite delete_take_drop, take_app_length, drop_ge by (rewrite length_app; simpl; lia).
  apply app_nil_r.
Qed.
