(* ===== verification/Wire.v ===== *)
(** * Memory representation of integers, and the [std::] searches

    The program reads and writes 32-bit integers directly in byte buffers
    (through a cast of the address of a byte to [int] pointer) and converts them with
    [socket_ops::network_to_host_long], which swaps the bytes on the
    little-endian hosts the program runs on.  This file holds both, and the
    two standard algorithms the HTTP reader uses, [std::search] and
    [std::find]. *)

From S2P Require Import Prelude.

(** ** 32-bit integers in memory *)

Definition le32_enc (z : Z) : list byte :=
  [bZ z; bZ (z / 2 ^ 8); bZ (z / 2 ^ 16); bZ (z / 2 ^ 24)].

Definition le32_dec (l : list byte) : option Z :=
  match l with
  | b0 :: b1 :: b2 :: b3 :: _ =>
      Some (to_int (Zb b0 + 2 ^ 8 * Zb b1 + 2 ^ 16 * Zb b2 + 2 ^ 24 * Zb b3))
  | _ => None
  end.

(** Reading an [int] at [&buf[off]]: [None] when the four bytes are not all inside. *)
Definition load32 (buf : list byte) (off : nat) : option Z := le32_dec (drop off buf).

(** Writing the [int] [z] at [&buf[off]]. *)
Definition store32 (buf : list byte) (off : nat) (z : Z) : option (list byte) :=
  if decide (off + 4 <= length buf)%nat
  then Some (take off buf ++ le32_enc z ++ drop (off + 4) buf)
  else None.

(** [network_to_host_long] and [host_to_network_long], on the [int] they are
    assigned to. *)
Definition bswap32 (z : Z) : Z :=
  match le32_dec (rev (le32_enc z)) with Some v => v | None => 0 end.

(** [new std::vector<char>(n)]: [n] zero bytes. *)
Definition zeros (n : Z) : list byte := replicate (Z.to_nat n) x00.

(** Copying [data] over a buffer from position [off]: [None] when a byte
    falls outside the buffer. *)
Definition overwrite (buf : list byte) (off : nat) (data : list byte) : option (list byte) :=
  if decide (off + length data <= length buf)%nat
  then Some (take off buf ++ data ++ drop (off + length data) buf)
  else None.

(** The bytes of the packet with content [body]. *)
Definition lv_packet (body : list byte) : list byte := le32_enc (bswap32 (4 + zlen body)) ++ body.

Lemma length_le32_enc z : length (le32_enc z) = 4%nat.
Proof. done. Qed.

Lemma le32_dec_enc_app z rest : le32_dec (le32_enc z ++ rest) = Some (to_int z).
Proof.
  unfold le32_enc, le32_dec. cbn [app]. f_equal. rewrite !Zb_bZ.
  rewrite <- (to_int_mod z), <- (to_int_mod (_ + _)). f_equal.
  change (2 ^ 8) with 256. change (2 ^ 16) with 65536. change (2 ^ 24) with 16777216.
  change (2 ^ 32) with 4294967296.
  Z.div_mod_to_equations. lia.
Qed.

Lemma le32_dec_enc z : int_min <= z <= int_max -> le32_dec (le32_enc z) = Some z.
Proof. intros H. rewrite <- (app_nil_r (le32_enc z)), le32_dec_enc_app. by rewrite to_int_id. Qed.

Lemma bZ_congr z z' : z mod 256 = z' mod 256 -> bZ z = bZ z'.
Proof. unfold bZ. by intros ->. Qed.

Ltac bytes_congr :=
  repeat lazymatch goal with
    | |- bZ _ = bZ _ => apply bZ_congr
    | |- @cons byte ?x ?l = @cons byte ?y ?k =>
        apply (f_equal2 (@cons byte) (x1 := x) (y1 := y) (x2 := l) (y2 := k))
    | |- @nil byte = @nil byte => reflexivity
    end.

Lemma le32_enc_congr z z' : z mod 2 ^ 32 = z' mod 2 ^ 32 -> le32_enc z = le32_enc z'.
Proof.
  intros H. unfold le32_enc.
  change (2 ^ 8) with 256. change (2 ^ 16) with 65536. change (2 ^ 24) with 16777216.
  change (2 ^ 32) with 4294967296 in H.
  bytes_congr; Z.div_mod_to_equations; lia.
Qed.

Lemma to_int_congr z : to_int z mod 2 ^ 32 = z mod 2 ^ 32.
Proof.
  unfold to_int. destruct (z mod 2 ^ 32 <? 2 ^ 31).
  - by rewrite Z.mod_mod by lia.
  - change (2 ^ 32) with 4294967296. Z.div_mod_to_equations. lia.
Qed.

Lemma le32_enc_to_int z : le32_enc (to_int z) = le32_enc z.
Proof. apply le32_enc_congr, to_int_congr. Qed.

Lemma le32_enc_dec b0 b1 b2 b3 v :
  le32_dec [b0; b1; b2; b3] = Some v -> le32_enc v = [b0; b1; b2; b3].
Proof.
  cbn [le32_dec]. intros [= <-]. rewrite le32_enc_to_int. unfold le32_enc.
  pose proof (Zb_range b0). pose proof (Zb_range b1). pose proof (Zb_range b2).
  pose proof (Zb_range b3).
  transitivity [bZ (Zb b0); bZ (Zb b1); bZ (Zb b2); bZ (Zb b3)]; [|by rewrite !bZ_Zb].
  change (2 ^ 8) with 256. change (2 ^ 16) with 65536. change (2 ^ 24) with 16777216.
  bytes_congr; Z.div_mod_to_equations; lia.
Qed.

Lemma bswap32_range z : int_min <= bswap32 z <= int_max.
Proof. unfold bswap32. cbn. apply to_int_range. Qed.

Lemma le32_enc_bswap z : le32_enc (bswap32 z) = rev (le32_enc z).
Proof. unfold bswap32. cbn [le32_enc rev app]. by apply le32_enc_dec. Qed.

Lemma bswap32_involutive z : int_min <= z <= int_max -> bswap32 (bswap32 z) = z.
Proof.
  intros H. unfold bswap32 at 1. rewrite le32_enc_bswap, rev_involutive.
  by rewrite le32_dec_enc.
Qed.

Lemma load32_app_enc pre z rest :
  int_min <= z <= int_max -> load32 (pre ++ le32_enc z ++ rest) (length pre) = Some z.
Proof.
  intros H. unfold load32. rewrite drop_app_length, le32_dec_enc_app. by rewrite to_int_id.
Qed.

Lemma load32_0_enc z rest :
  int_min <= z <= int_max -> load32 (le32_enc z ++ rest) 0 = Some z.
Proof. apply (load32_app_enc []). Qed.

Lemma load32_Some buf off v : load32 buf off = Some v -> (off + 4 <= length buf)%nat.
Proof.
  unfold load32. intros H.
  assert (4 <= length (drop off buf))%nat; [|rewrite length_drop in *; lia].
  destruct (drop off buf) as [|? [|? [|? [|? ?]]]]; simplify_eq/=; lia.
Qed.

Lemma load32_is_Some buf off : (off + 4 <= length buf)%nat -> is_Some (load32 buf off).
Proof.
  unfold load32. intros H.
  assert (4 <= length (drop off buf))%nat by (rewrite length_drop; lia).
  destruct (drop off buf) as [|? [|? [|? [|? ?]]]]; simpl in *; try lia. eauto.
Qed.

(** Of a prefix, the words that are inside can be read. *)
Lemma load32_take buf off j :
  load32 (take j buf) off = if decide (off + 4 <= j)%nat then load32 buf off else None.
Proof.
  unfold load32. rewrite skipn_firstn_comm. generalize (drop off buf). intros l. case_decide as H.
  - replace (j - off)%nat with (4 + (j - off - 4))%nat by lia.
    by destruct l as [|a [|b [|c [|d l]]]].
  - assert (length (take (j - off) l) < 4)%nat as Hl by (rewrite length_take; lia).
    destruct (take (j - off) l) as [|a [|b [|c [|d k]]]]; simpl in *; try done. lia.
Qed.

Lemma load32_range buf off v : load32 buf off = Some v -> int_min <= v <= int_max.
Proof.
  unfold load32. destruct (drop off buf) as [|? [|? [|? [|? ?]]]]; try done.
  cbn [le32_dec]. intros [= <-]. apply to_int_range.
Qed.

Lemma load32_take_enc buf v : load32 buf 0 = Some v -> take 4 buf = le32_enc v.
Proof.
  unfold load32. rewrite drop_0. destruct buf as [|b0 [|b1 [|b2 [|b3 ?]]]]; try done.
  intros H. symmetry. apply le32_enc_dec. exact H.
Qed.

Lemma zlen_zeros n : 0 <= n -> zlen (zeros n) = n.
Proof. apply zlen_replicate. Qed.

Lemma length_overwrite buf off data buf' :
  overwrite buf off data = Some buf' -> length buf' = length buf.
Proof.
  unfold overwrite. case_decide; [|done]. intros [= <-].
  rewrite !length_app, length_take, length_drop. lia.
Qed.

Lemma overwrite_tail pre old data :
  length data = length old -> overwrite (pre ++ old) (length pre) data = Some (pre ++ data).
Proof.
  intros H. unfold overwrite. rewrite decide_True by (rewrite length_app; lia).
  rewrite take_app_length, drop_ge by (rewrite length_app; lia). by rewrite app_nil_r.
Qed.

(** ** Objects of packed classes: 32-bit members one behind the other *)

Definition words (l : list Z) : list byte := concat (map le32_enc l).

Definition int32 (z : Z) : Prop := int_min <= z <= int_max.

Lemma words_load l k z :
  Forall int32 l -> l !! k = Some z -> load32 (words l) (4 * k) = Some z.
Proof.
  intros Hl. revert k. induction Hl as [|x l Hx Hl IH]; intros k Hk; [done|].
  unfold words. cbn [map concat]. destruct k as [|k]; simplify_eq/=.
  - by apply load32_0_enc.
  - replace (S (k + S (k + S (k + S (k + 0)))))%nat with (4 + 4 * k)%nat by lia.
    unfold load32. rewrite <- drop_drop. change (drop 4 (le32_enc x ++ ?r)) with r.
    by apply IH.
Qed.

Lemma length_words l : length (words l) = (4 * length l)%nat.
Proof. unfold words. induction l as [|x l IH]; [done|]. cbn [map concat]. rewrite length_app, IH. simpl. lia. Qed.

Lemma int32_small z : 0 <= z < 100 -> int32 z.
Proof. unfold int32, int_min, int_max. lia. Qed.

(** ** [std::search] and [std::find] *)

(** [std::equal(key, key_end, hay)] when [hay] is at least as long. *)
Fixpoint starts_with (key hay : list byte) : bool :=
  match key, hay with
  | [], _ => true
  | k :: key', h :: hay' => bool_decide (k = h) && starts_with key' hay'
  | _ :: _, [] => false
  end.

(** The offset of the first occurrence of [key], [None] for [end()]. *)
Fixpoint search (key hay : list byte) : option nat :=
  if starts_with key hay then Some 0%nat
  else match hay with
       | [] => None
       | _ :: hay' => S <$> search key hay'
       end.

(** [std::find(it, end, c)], as the offset from [it] ([length] for [end]). *)
Fixpoint find_byte (c : byte) (l : list byte) : nat :=
  match l with
  | [] => 0
  | x :: l' => if bool_decide (x = c) then 0 else S (find_byte c l')
  end%nat.

Lemma starts_with_spec key hay :
  starts_with key hay = true <-> exists rest, hay = key ++ rest.
Proof.
  revert hay. induction key as [|k key IH]; intros hay; simpl.
  - split; eauto.
  - destruct hay as [|h hay]; [split; [done | intros [? [=]]]|].
    rewrite andb_true_iff, bool_decide_eq_true, IH. naive_solver.
Qed.

Lemma search_Some key hay n :
  search key hay = Some n ->
  exists pre rest, hay = pre ++ key ++ rest /\ length pre = n /\
    forall m, (m < n)%nat -> starts_with key (drop m hay) = false.
Proof.
  revert n. induction hay as [|h hay IH]; intros n; cbn [search].
  - destruct (starts_with key []) eqn:E; [|done]. intros [= <-].
    apply starts_with_spec in E as [r Hr]. exists [], r. split_and!; [done..|lia].
  - destruct (starts_with key (h :: hay)) eqn:E.
    + intros [= <-]. apply starts_with_spec in E as [r Hr].
      exists [], r. split_and!; [done..|lia].
    + intros (m & Hm & ->)%fmap_Some. destruct (IH m Hm) as (pre & rest & -> & <- & Hmin).
      exists (h :: pre), rest. split_and!; [done..|].
      intros [|j] Hj; [done|]. apply Hmin. lia.
Qed.

Lemma search_None key hay :
  search key hay = None -> forall pre rest, hay <> pre ++ key ++ rest.
Proof.
  induction hay as [|h hay IH]; cbn [search];
    (destruct (starts_with key _) eqn:E; [done|]); intros Hs pre rest Heq.
  - destruct pre; [|done]. assert (starts_with key [] = true); [|congruence].
    apply starts_with_spec. eauto.
  - destruct pre as [|p pre].
    + assert (starts_with key (h :: hay) = true); [|congruence].
      apply starts_with_spec. eauto.
    + simplify_eq/=. destruct (search key _) eqn:Es; [done|]. by eapply IH.
Qed.

Lemma search_is_Some key pre rest : is_Some (search key (pre ++ key ++ rest)).
Proof.
  destruct (search key (pre ++ key ++ rest)) eqn:E; [eauto|].
  by edestruct (search_None _ _ E).
Qed.

(** Where a search stops depends on the bytes up to there. *)
Lemma starts_with_app key l rest :
  (length key <= length l)%nat -> starts_with key (l ++ rest) = starts_with key l.
Proof.
  revert l. induction key as [|k key IH]; intros [|x l] H; simpl in *; try done; try lia.
  f_equal. apply IH. lia.
Qed.

Lemma search_short key hay : (length hay < length key)%nat -> search key hay = None.
Proof.
  intros H. destruct (search key hay) as [n|] eqn:E; [|done].
  destruct (search_Some _ _ _ E) as (pre & rest & -> & _). rewrite !length_app in H. lia.
Qed.

Lemma search_prefix key l rest n : search key l = Some n -> search key (l ++ rest) = Some n.
Proof.
  revert n. induction l as [|x l IH]; intros n.
  - simpl. destruct key; [|done]. simpl. intros [= <-]. by destruct rest.
  - intros H. pose proof (search_Some _ _ _ H) as (pre & r & Hl & _).
    assert (Hk : (length key <= length (x :: l))%nat) by (rewrite Hl, !length_app; lia).
    rewrite <- app_comm_cons. cbn [search] in *.
    pose proof (starts_with_app key (x :: l) rest Hk) as Hs. rewrite <- app_comm_cons in Hs. rewrite Hs.
    destruct (starts_with key (x :: l)); [done|].
    apply fmap_Some in H as (m & Hm & ->). by rewrite (IH m Hm).
Qed.

Lemma app_eq_split {A} (pre key rest l1 l2 : list A) x :
  x ∉ key -> pre ++ key ++ rest = l1 ++ x :: l2 ->
  (exists k, l1 = pre ++ key ++ k) \/ (exists k, l2 = k ++ key ++ rest).
Proof.
  intros Hx. revert pre. induction l1 as [|y l1 IH]; intros pre H.
  - destruct pre as [|z pre]; simpl in H.
    + destruct key as [|z key]; [left; by exists []|]. simplify_eq/=. destruct Hx. by left.
    + simplify_eq. right. by exists pre.
  - destruct pre as [|z pre]; simpl in H.
    + left. clear IH. revert y l1 H. induction key as [|z key IH]; intros y l1 H; [by exists (y :: l1)|].
      simplify_eq/=. destruct l1 as [|w l1]; simpl in *.
      * destruct key as [|w key]; [by exists []|]. simplify_eq/=. destruct Hx. right. by left.
      * destruct key as [|w' key]; [by exists (w :: l1)|].
        destruct (IH ltac:(intros ?; apply Hx; by right) w l1 ltac:(done)) as [k Hk].
        exists k. by f_equal.
    + simplify_eq. destruct (IH pre ltac:(done)) as [[k ->]|[k ->]]; [left; by exists k|right; by exists k].
Qed.

(** A byte the key does not have splits the search. *)
Lemma search_skip key l1 x l2 :
  x ∉ key -> search key l1 = None -> search key l2 = None -> search key (l1 ++ x :: l2) = None.
Proof.
  intros Hx H1 H2. destruct (search key (l1 ++ x :: l2)) as [n|] eqn:E; [|reflexivity].
  destruct (search_Some _ _ _ E) as (pre & rest & Heq & _).
  destruct (app_eq_split pre key rest l1 l2 x Hx (eq_sym Heq)) as [[k ->]|[k ->]].
  - by edestruct (search_None _ _ H1).
  - by edestruct (search_None _ _ H2).
Qed.

Lemma search_zeros key l n :
  x00 ∉ key -> key <> [] -> search key l = None -> search key (l ++ zeros n) = None.
Proof.
  intros Hx Hk Hl. unfold zeros. induction (Z.to_nat n) as [|m IH]; [by rewrite app_nil_r|].
  simpl. apply search_skip; [done..|]. clear IH. induction m as [|m IH]; simpl.
  - by destruct key.
  - destruct key as [|k key]; [done|]. cbn [starts_with].
    rewrite bool_decide_eq_false_2 by (intros ->; apply Hx; by left). simpl. by rewrite IH.
Qed.
