(* ===== verification/Decimals.v ===== *)
(** * Numbers in text

    Blanks and decimal digits, what [%d] reads and what [%d] prints, for the
    parts of the programs that go through [atoi], [sscanf] and [strftime]. *)

From S2P Require Import Prelude.

Definition is_space (b : byte) : bool := (Zb b =? 32) || ((9 <=? Zb b) && (Zb b <=? 13)).
Definition is_digit (b : byte) : bool := (48 <=? Zb b) && (Zb b <=? 57).

Fixpoint skip_spaces (l : list byte) : list byte :=
  match l with b :: l' => if is_space b then skip_spaces l' else l | [] => [] end.

(** The value of the digits at the front of a text, and what follows them. *)
Fixpoint digits (acc : Z) (l : list byte) : Z :=
  match l with b :: l' => if is_digit b then digits (10 * acc + (Zb b - 48)) l' else acc | [] => acc end.

Fixpoint after_digits (l : list byte) : list byte :=
  match l with b :: l' => if is_digit b then after_digits l' else l | [] => [] end.

(** A number that is not negative, in decimal; [fuel] bounds the digits. *)
Definition digit (z : Z) : byte := bZ (48 + z).

Fixpoint show_digits (fuel : nat) (z : Z) (acc : list byte) : list byte :=
  match fuel with
  | O => acc
  | S fuel' =>
      let acc' := digit (z mod 10) :: acc in
      if z <? 10 then acc' else show_digits fuel' (z / 10) acc'
  end.

Definition show_nonneg (z : Z) : list byte := show_digits (S (Z.to_nat (Z.log2 z))) z [].

(** Two digits at least, as [%02d] does. *)
Definition show_2 (z : Z) : list byte :=
  if z <? 10 then digit 0 :: show_nonneg z else show_nonneg z.

(** ** Reading back what is printed *)

Lemma Zb_digit z : 0 <= z < 10 -> Zb (digit z) = 48 + z.
Proof. intros H. unfold digit. rewrite Zb_bZ. apply Z.mod_small. lia. Qed.

Lemma is_digit_digit z : 0 <= z < 10 -> is_digit (digit z) = true.
Proof. intros H. unfold is_digit. rewrite Zb_digit by done. apply andb_true_iff. lia. Qed.

Lemma is_digit_not_space b : is_digit b = true -> is_space b = false.
Proof.
  unfold is_digit, is_space. rewrite andb_true_iff, !Z.leb_le. intros H.
  apply orb_false_iff. split; [apply Z.eqb_neq; lia|].
  apply andb_false_iff. right. apply Z.leb_gt. lia.
Qed.

(** A text of digits only. *)
Definition numeral (l : list byte) : Prop := Forall (fun b => is_digit b = true) l.

(** What cannot lengthen a number: a byte that is no digit, or nothing. *)
Definition ends_number (l : list byte) : Prop :=
  match l with b :: _ => is_digit b = false | [] => True end.

Lemma digits_app acc l rest : numeral l -> digits acc (l ++ rest) = digits (digits acc l) rest.
Proof.
  intros H. revert acc. induction H as [|b l Hb _ IH]; intros acc; [done|].
  simpl. rewrite Hb. apply IH.
Qed.

Lemma digits_end acc rest : ends_number rest -> digits acc rest = acc.
Proof. destruct rest as [|b rest]; [done|]. simpl. by intros ->. Qed.

Lemma after_digits_app l rest : numeral l -> after_digits (l ++ rest) = after_digits rest.
Proof. induction 1 as [|b l Hb _ IH]; [done|]. simpl. by rewrite Hb. Qed.

Lemma after_digits_end rest : ends_number rest -> after_digits rest = rest.
Proof. destruct rest as [|b rest]; [done|]. simpl. by intros ->. Qed.

Lemma skip_spaces_numeral l rest : numeral l -> l <> [] -> skip_spaces (l ++ rest) = l ++ rest.
Proof. intros H. destruct H as [|b l Hb _]; [done|]. intros _. simpl. by rewrite is_digit_not_space. Qed.

Lemma numeral_show_digits fuel z l : 0 <= z -> numeral l -> numeral (show_digits fuel z l).
Proof.
  revert z l. induction fuel as [|fuel IH]; intros z l Hz Hl; [done|]. cbn [show_digits].
  assert (numeral (digit (z mod 10) :: l)).
  { constructor; [|done]. apply is_digit_digit. apply Z.mod_pos_bound. lia. }
  destruct (z <? 10); [done|]. apply IH; [|done]. apply Z.div_pos; lia.
Qed.

Lemma show_digits_nonempty fuel z l : (0 < fuel)%nat \/ l <> [] -> show_digits fuel z l <> [].
Proof.
  revert z l. induction fuel as [|fuel IH]; intros z l H; [by destruct H; [lia|]|]. cbn [show_digits].
  destruct (z <? 10); [done|]. apply IH. by right.
Qed.

Lemma digits_show_digits fuel z l :
  0 <= z < 10 ^ Z.of_nat fuel -> (0 < fuel)%nat -> digits 0 (show_digits fuel z l) = digits z l.
Proof.
  revert z l. induction fuel as [|fuel IH]; intros z l Hz Hf; [lia|]. cbn [show_digits].
  pose proof (Z.mod_pos_bound z 10 ltac:(lia)) as Hm.
  destruct (Z.ltb_spec z 10) as [Hlt|Hge].
  - cbn [digits]. rewrite is_digit_digit, Zb_digit by done. rewrite Z.mod_small by lia. f_equal. lia.
  - rewrite Nat2Z.inj_succ, Z.pow_succ_r in Hz by lia.
    destruct fuel as [|fuel]; [simpl in Hz; lia|]. rewrite IH; [|split|lia].
    + cbn [digits]. rewrite is_digit_digit, Zb_digit by done. f_equal.
      pose proof (Z.div_mod z 10 ltac:(lia)). lia.
    + apply Z.div_pos; lia.
    + apply Z.div_lt_upper_bound; lia.
Qed.

Lemma show_fuel z : 0 <= z -> z < 10 ^ Z.of_nat (S (Z.to_nat (Z.log2 z))).
Proof.
  intros Hz. destruct (Z.eq_dec z 0) as [->|Hnz]; [done|].
  pose proof (Z.log2_spec z ltac:(lia)) as [_ H].
  eapply Z.lt_le_trans; [exact H|]. rewrite Nat2Z.inj_succ, Z2Nat.id by apply Z.log2_nonneg.
  apply Z.pow_le_mono_l. lia.
Qed.

Lemma numeral_show z : 0 <= z -> numeral (show_nonneg z) /\ show_nonneg z <> [].
Proof.
  intros Hz. split; [apply numeral_show_digits; [done|constructor]|].
  apply show_digits_nonempty. left. lia.
Qed.

Lemma digits_show z : 0 <= z -> digits 0 (show_nonneg z) = z.
Proof. intros Hz. unfold show_nonneg. rewrite digits_show_digits; [done|split; [done|by apply show_fuel]|lia]. Qed.

Lemma numeral_show_2 z : 0 <= z -> numeral (show_2 z) /\ show_2 z <> [].
Proof.
  intros Hz. destruct (numeral_show z Hz) as [H1 H2]. unfold show_2. destruct (z <? 10); [|done].
  split; [|done]. constructor; [by apply is_digit_digit|done].
Qed.

Lemma digits_show_2 z : 0 <= z -> digits 0 (show_2 z) = z.
Proof. intros Hz. unfold show_2. destruct (z <? 10); by apply digits_show. Qed.

(** How long a number gets. *)
Lemma length_show_digits fuel z l k :
  0 <= z < 10 ^ Z.of_nat (S k) -> (length (show_digits fuel z l) <= S k + length l)%nat.
Proof.
  revert z l k. induction fuel as [|fuel IH]; intros z l k Hz; [simpl; lia|]. cbn [show_digits].
  destruct (Z.ltb_spec z 10); [simpl; lia|].
  destruct k as [|k]; [change (10 ^ Z.of_nat 1) with 10 in Hz; lia|].
  eapply Nat.le_trans; [apply (IH _ _ k)|simpl; lia].
  rewrite Nat2Z.inj_succ, Z.pow_succ_r in Hz by lia.
  split; [apply Z.div_pos; lia|apply Z.div_lt_upper_bound; lia].
Qed.

Lemma length_show z k : 0 <= z < 10 ^ Z.of_nat (S k) -> (length (show_nonneg z) <= S k)%nat.
Proof. intros H. pose proof (length_show_digits (S (Z.to_nat (Z.log2 z))) z [] k H). by rewrite Nat.add_0_r in *. Qed.

Lemma length_show_2 z : 0 <= z < 100 -> (length (show_2 z) <= 2)%nat.
Proof.
  intros H. unfold show_2. destruct (Z.ltb_spec z 10).
  - cbn [length]. pose proof (length_show z 0%nat ltac:(simpl; lia)). lia.
  - by apply (length_show z 1%nat).
Qed.
