(* ===== verification/Calendar.v ===== *)
(** * The calendar of the standard library

    [localtime], [mktime], [strftime] and [sscanf], as far as the time strings
    of the programs use them: the Gregorian calendar in whole days, a time zone
    with a standard offset and a summer time, formats as they are written. *)

From S2P Require Import Prelude Decimals.

(** ** Days *)

Definition leap (y : Z) : bool := (y mod 4 =? 0) && (negb (y mod 100 =? 0) || (y mod 400 =? 0)).
Definition year_length (y : Z) : Z := if leap y then 366 else 365.

(** Days from the first of January of year 1 to that of year [y]. *)
Definition days_before_year (y : Z) : Z :=
  365 * (y - 1) + (y - 1) / 4 - (y - 1) / 100 + (y - 1) / 400.

Definition month_lengths (lp : bool) : list Z :=
  [31; if lp then 29 else 28; 31; 30; 31; 30; 31; 31; 30; 31; 30; 31].

Fixpoint sum (l : list Z) : Z := match l with [] => 0 | x :: l' => x + sum l' end.

(** Months are counted from 0, as [tm_mon] does. *)
Definition days_before_month (lp : bool) (m : Z) : Z := sum (take (Z.to_nat m) (month_lengths lp)).

(** The month of a day of the year, and the day in the month, from 0. *)
Fixpoint month_of (ls : list Z) (m doy : Z) : Z * Z :=
  match ls with
  | [] => (m, doy)
  | n :: ls' => if doy <? n then (m, doy) else month_of ls' (m + 1) (doy - n)
  end.

(** The year of a day, by a guess that is at most one too small. *)
Definition year_of (d : Z) : Z :=
  let y := d * 400 / 146097 in
  if days_before_year (y + 2) <=? d then y + 2
  else if days_before_year (y + 1) <=? d then y + 1
  else y.

(** The first of January 1970. *)
Definition epoch : Z := 719162.

Lemma epoch_eq : days_before_year 1970 = epoch.
Proof. reflexivity. Qed.

Lemma days_before_next y : days_before_year (y + 1) = days_before_year y + year_length y.
Proof.
  unfold days_before_year, year_length, leap.
  replace (y + 1 - 1) with y by lia.
  destruct (Z.eqb_spec (y mod 4) 0); destruct (Z.eqb_spec (y mod 100) 0);
    destruct (Z.eqb_spec (y mod 400) 0); cbn [negb andb orb]; Z.div_mod_to_equations; lia.
Qed.

Lemma year_of_spec d : days_before_year (year_of d) <= d < days_before_year (year_of d + 1).
Proof.
  unfold year_of. cbv zeta.
  pose proof (Z.div_mod (d * 400) 146097 ltac:(lia)) as Hg.
  pose proof (Z.mod_pos_bound (d * 400) 146097 ltac:(lia)) as Hm.
  set (g := d * 400 / 146097) in *. set (r := (d * 400) mod 146097) in *. clearbody g r.
  assert (Hlo : days_before_year g <= d) by (unfold days_before_year; Z.div_mod_to_equations; lia).
  assert (Hhi : d < days_before_year (g + 2 + 1))
    by (unfold days_before_year; Z.div_mod_to_equations; lia).
  destruct (Z.leb_spec (days_before_year (g + 2)) d); [done|].
  destruct (Z.leb_spec (days_before_year (g + 1)) d); [|done].
  split; [done|]. by rewrite <- Z.add_assoc.
Qed.

Lemma days_before_year_le y y' : y <= y' -> days_before_year y <= days_before_year y'.
Proof. intros H. unfold days_before_year. Z.div_mod_to_equations. lia. Qed.

(** A few days later it is at most the next year. *)
Lemma year_of_after d d' : d' <= d + 365 -> year_of d' <= year_of d + 1.
Proof.
  intros H. pose proof (year_of_spec d) as [_ Hd]. pose proof (year_of_spec d') as [Hd' _].
  destruct (Z.le_gt_cases (year_of d') (year_of d + 1)) as [|Hgt]; [done|].
  pose proof (days_before_year_le (year_of d + 1 + 1) (year_of d') ltac:(lia)).
  rewrite days_before_next in H0. unfold year_length in H0. destruct (leap _); lia.
Qed.

Lemma month_of_spec ls m doy :
  0 <= doy < sum ls ->
  exists k, (k < length ls)%nat /\ (month_of ls m doy).1 = m + Z.of_nat k /\
    0 <= (month_of ls m doy).2 < default 0 (ls !! k) /\
    sum (take k ls) + (month_of ls m doy).2 = doy.
Proof.
  revert m doy. induction ls as [|n ls IH]; intros m doy H; [simpl in H; lia|].
  cbn [month_of sum] in *. destruct (Z.ltb_spec doy n).
  - exists 0%nat. cbn. split_and!; lia.
  - destruct (IH (m + 1) (doy - n)) as (k & Hk & E1 & E2 & E3); [lia|].
    exists (S k). change ((n :: ls) !! S k) with (ls !! k). cbn [length take sum].
    split_and!; lia.
Qed.

Lemma sum_month_lengths y : sum (month_lengths (leap y)) = year_length y.
Proof. unfold year_length. by destruct (leap y). Qed.

Lemma month_of_year y doy :
  0 <= doy < year_length y ->
  let '(m, r) := month_of (month_lengths (leap y)) 0 doy in
  0 <= m < 12 /\ 0 <= r < 31 /\ days_before_month (leap y) m + r = doy.
Proof.
  intros H. rewrite <- sum_month_lengths in H.
  destruct (month_of_spec _ 0 doy H) as (k & Hk & E1 & E2 & E3).
  destruct (month_of _ 0 doy) as [m r]. cbn [fst snd] in *. subst m.
  assert (Hk12 : (k < 12)%nat) by (by destruct (leap y)).
  unfold days_before_month. rewrite Z.add_0_l, Nat2Z.id. split_and!; [lia|lia|lia| |done].
  assert (default 0 (month_lengths (leap y) !! k) <= 31); [|lia].
  clear - Hk12. do 12 (destruct k as [|k]; [destruct (leap y); cbn; lia|]). lia.
Qed.

(** ** Broken-down time *)

(** [struct tm], less the fields that only [localtime] writes. *)
Record tm := mk_tm {
  tm_sec : Z; tm_min : Z; tm_hour : Z; tm_mday : Z; tm_mon : Z; tm_year : Z; tm_isdst : Z
}.

Definition gmtime (t : Z) (isdst : Z) : tm :=
  let day := t / 86400 + epoch in
  let secs := t mod 86400 in
  let y := year_of day in
  let '(m, d) := month_of (month_lengths (leap y)) 0 (day - days_before_year y) in
  mk_tm (secs mod 60) (secs / 60 mod 60) (secs / 3600) (d + 1) m (y - 1900) isdst.

(** The inverse; the fields need not be in their ranges. *)
Definition timegm (x : tm) : Z :=
  let y := tm_year x + 1900 + tm_mon x / 12 in
  let m := tm_mon x mod 12 in
  let day := days_before_year y + days_before_month (leap y) m + (tm_mday x - 1) - epoch in
  day * 86400 + tm_hour x * 3600 + tm_min x * 60 + tm_sec x.

(** The fields of a time are in their ranges. *)
Definition tm_ok (x : tm) : Prop :=
  0 <= tm_sec x < 60 /\ 0 <= tm_min x < 60 /\ 0 <= tm_hour x < 24 /\
  1 <= tm_mday x <= 31 /\ 0 <= tm_mon x < 12.

Lemma gmtime_spec t isdst :
  tm_ok (gmtime t isdst) /\ timegm (gmtime t isdst) = t /\
  tm_year (gmtime t isdst) = year_of (t / 86400 + epoch) - 1900.
Proof.
  unfold gmtime. set (day := t / 86400 + epoch). set (secs := t mod 86400).
  assert (Hs : 0 <= secs < 86400) by (apply Z.mod_pos_bound; lia).
  pose proof (year_of_spec day) as Hy. rewrite days_before_next in Hy.
  pose proof (month_of_year (year_of day) (day - days_before_year (year_of day)) ltac:(lia)) as Hm.
  destruct (month_of _ 0 _) as [m d]. destruct Hm as (Hm & Hd & Hdoy).
  split; [|split; [|done]].
  - unfold tm_ok. cbn. split_and!; try lia; Z.div_mod_to_equations; lia.
  - unfold timegm. cbn [tm_sec tm_min tm_hour tm_mday tm_mon tm_year].
    rewrite (Z.div_small m 12), (Z.mod_small m 12) by done.
    replace (year_of day - 1900 + 1900 + 0) with (year_of day) by lia.
    rewrite Z.add_simpl_r. 
    assert (Hday : days_before_year (year_of day) + days_before_month (leap (year_of day)) m + d - epoch = t / 86400)
      by (unfold day in *; lia).
    rewrite Hday. pose proof (Z.div_mod t 86400 ltac:(lia)). fold secs in H.
    clear - H Hs. Z.div_mod_to_equations. lia.
Qed.

Lemma timegm_isdst x z :
  timegm (mk_tm (tm_sec x) (tm_min x) (tm_hour x) (tm_mday x) (tm_mon x) (tm_year x) z) = timegm x.
Proof. done. Qed.

Lemma year_positive t : - epoch * 86400 <= t -> 1 <= year_of (t / 86400 + epoch).
Proof.
  intros H. pose proof (year_of_spec (t / 86400 + epoch)) as [_ Hy].
  assert (0 <= t / 86400 + epoch) by (Z.div_mod_to_equations; lia).
  unfold days_before_year in Hy. Z.div_mod_to_equations. lia.
Qed.

(** ** Time zones *)

(** A zone is what the system knows of it, moment by moment: the seconds east of
    Greenwich of its standard time, which change where the law changes them, when
    summer time is on, and by how much it is ahead.  [standard] is the moment that
    is taken for a reading of standard time, in seconds as if at Greenwich; a
    reading that occurs twice, or never, has one too, whichever the system likes. *)
Record Zone := mkZone {
  std_offset : Z -> Z;
  dst_on : Z -> bool;
  dst_shift : Z -> Z;
  standard : Z -> Z
}.

(** How far summer time is ahead at a moment. *)
Definition ahead (z : Zone) (t : Z) : Z := if dst_on z t then dst_shift z t else 0.
Definition utc_offset (z : Zone) (t : Z) : Z := std_offset z t + ahead z t.

(** [t] is the only moment with its reading of standard time. *)
Definition read_once (z : Zone) (t : Z) : Prop :=
  forall u, u + std_offset z u = t + std_offset z t -> u = t.

(** [localtime]: null when the year is no [int]. *)
Definition localtime (z : Zone) (t : Z) : option tm :=
  let x := gmtime (t + utc_offset z t) (if dst_on z t then 1 else 0) in
  if in_int (tm_year x) then Some x else None.

(** [mktime] of a time with [tm_isdst] 0, which says that it is winter time;
    -1 when the year of the result is no [int]. *)
Definition mktime (z : Zone) (x : tm) : Z :=
  let t := standard z (timegm x) in
  match localtime z t with Some _ => t | None => -1 end.

(** ** Formats *)

(** [strftime]: the conversions the programs use; 0 bytes when the text and its
    final zero do not fit into [max]. *)
Fixpoint strftime_text (format : list byte) (x : tm) : option (list byte) :=
  match format with
  | [] => Some []
  | x25 :: c :: rest =>
      piece ← match c with
              | x59 => Some (show_nonneg (tm_year x + 1900))
              | x6d => Some (show_2 (tm_mon x + 1))
              | x64 => Some (show_2 (tm_mday x))
              | x48 => Some (show_2 (tm_hour x))
              | x4d => Some (show_2 (tm_min x))
              | x53 => Some (show_2 (tm_sec x))
              | _ => None
              end;
      tail ← strftime_text rest x;
      Some (piece ++ tail)
  | b :: rest => tail ← strftime_text rest x; Some (b :: tail)
  end.

Definition strftime (max : Z) (format : list byte) (x : tm) : list byte :=
  match strftime_text format x with
  | Some text => if zlen text <? max then text else []
  | None => []
  end.

(** [sscanf] with [%d] conversions: the numbers that are read before the input
    stops to match, [ScanEOF] when it ends before the first, and no meaning
    when a number is no [int]. *)
Inductive scanned :=
| Scanned (values : list Z)
| ScanEOF
| ScanUndefined.

(** [%d]: blanks, a sign, digits. *)
Definition scan_int (input : list byte) : option (Z * list byte) :=
  let number sign l :=
    match l with
    | b :: _ => if is_digit b then Some (sign * digits 0 l, after_digits l) else None
    | [] => None
    end in
  match skip_spaces input with
  | x2d :: l => number (-1) l
  | x2b :: l => number 1 l
  | l => number 1 l
  end.

Definition scan_stop (input : list byte) (values : list Z) : scanned :=
  match values, skip_spaces input with [], [] => ScanEOF | _, _ => Scanned values end.

Fixpoint sscanf (format input : list byte) (values : list Z) : scanned :=
  match format with
  | [] => Scanned values
  | x25 :: x64 :: rest =>
      match scan_int input with
      | Some (v, input') => if in_int v then sscanf rest input' (values ++ [v]) else ScanUndefined
      | None => scan_stop input values
      end
  | b :: rest =>
      if is_space b then sscanf rest (skip_spaces input) values
      else match input with
           | c :: input' => if decide (c = b) then sscanf rest input' values else Scanned values
           | [] => scan_stop input values
           end
  end.

(** *** Numbers through [%d] *)

Lemma scan_int_numeral l rest :
  numeral l -> l <> [] -> ends_number rest -> scan_int (l ++ rest) = Some (digits 0 l, rest).
Proof.
  intros Hl Hne Hrest. unfold scan_int. rewrite skip_spaces_numeral by done.
  destruct Hl as [|b l Hb Hl]; [done|]. 
  assert (E : forall s, (if is_digit b then Some (s * digits 0 ((b :: l) ++ rest), after_digits ((b :: l) ++ rest)) else None)
     = Some (s * digits 0 (b :: l), rest)).
  { intros s. assert (numeral (b :: l)) by (by constructor).
    rewrite Hb, digits_app, digits_end, after_digits_app, after_digits_end by done. done. }
  specialize (E 1). rewrite !Z.mul_1_l in E. cbn [app] in *.
  destruct b; try (cbn in Hb; discriminate Hb); rewrite Z.mul_1_l; exact E.
Qed.

(** One conversion reads one printed number. *)
Lemma sscanf_d fmt l rest values :
  numeral l -> l <> [] -> ends_number rest -> in_int (digits 0 l) = true ->
  sscanf (x25 :: x64 :: fmt) (l ++ rest) values = sscanf fmt rest (values ++ [digits 0 l]).
Proof. intros Hl Hne Hrest Hi. cbn [sscanf]. rewrite scan_int_numeral by done. by rewrite Hi. Qed.

Lemma skip_spaces_not b l : is_space b = false -> skip_spaces (b :: l) = b :: l.
Proof. intros H. cbn [skip_spaces]. by rewrite H. Qed.
