(* ===== verification/SocketInfo.v ===== *)
(** * Sockets, acceptors and the UDP socket: [asio-based2/include/socketinfo.hpp]

    The three data classes of the framework.  Each data member is a field of a
    record, each setter and each buffer operation a function.  The asio socket
    objects are outside the repository; of a TCP socket the model keeps whether
    it is open.  [boost::function] values are represented by a type the
    program supplies (class [PROG]); an empty [boost::function] is [None]. *)

From S2P Require Import Prelude Wire.

(** What a program built on the framework supplies: its own data members, the
    function objects it passes as packet callbacks and as timer handlers. *)
Class PROG := {
  App : Type;
  PacketCallBack : Type;
  UserTimer : Type;
}.

(** An address is its numeric value; [to_string] and [from_string] are library
    functions (see [Boost] in [Skeleton]). *)
Record Endpoint := mkEndpoint { addr : Z; port : Z }.

#[global] Instance Endpoint_eq_dec : EqDecision Endpoint.
Proof. solve_decision. Defined.
#[global] Program Instance Endpoint_countable : Countable Endpoint :=
  inj_countable' (fun e => (addr e, port e)) (fun p => mkEndpoint p.1 p.2) _.
Next Obligation. by intros []. Qed.

(** The default constructed endpoint. *)
Definition no_endpoint : Endpoint := mkEndpoint 0 0.

(** A [shared_ptr] target. *)
Abbreviation ptr := N (only parsing).

(** ** [class SocketInfo] *)

Inductive SocketType :=
| T_TCP_LINE | T_TCP_LV | T_TCP_TLV | T_TCP_HTTP | T_TCP_USR1 | T_TCP_UNKNOWN.

#[global] Instance SocketType_eq_dec : EqDecision SocketType.
Proof. solve_decision. Defined.

Section SocketInfo.
  Context {P : PROG}.

Record SocketInfo := mkSocketInfo {
  remote_endpoint_ : Endpoint;
  local_endpoint_ : Endpoint;
  type_ : SocketType;
  tcp_sk_open : bool;
  create_time_ : Z;
  access_time_ : Z;
  in_use_ : bool;
  is_client_ : bool;
  is_connected_ : bool;
  recv_buf_ : list byte;
  recv_buf_filled_ : Z;
  send_buf_ : list byte;
  cb_ : option PacketCallBack
}.

(** The constructor, called at time [now]. *)
Definition new_SocketInfo (type : SocketType) (now : Z) : SocketInfo :=
  mkSocketInfo no_endpoint no_endpoint type true now now false false false [] 0 [] None.

Definition set_type (t : SocketType) (s : SocketInfo) : SocketInfo :=
  mkSocketInfo (remote_endpoint_ s) (local_endpoint_ s) t (tcp_sk_open s)
    (create_time_ s) (access_time_ s) (in_use_ s) (is_client_ s) (is_connected_ s)
    (recv_buf_ s) (recv_buf_filled_ s) (send_buf_ s) (cb_ s).

Definition set_remote_endpoint (e : Endpoint) (s : SocketInfo) : SocketInfo :=
  mkSocketInfo e (local_endpoint_ s) (type_ s) (tcp_sk_open s)
    (create_time_ s) (access_time_ s) (in_use_ s) (is_client_ s) (is_connected_ s)
    (recv_buf_ s) (recv_buf_filled_ s) (send_buf_ s) (cb_ s).

Definition set_local_endpoint (e : Endpoint) (s : SocketInfo) : SocketInfo :=
  mkSocketInfo (remote_endpoint_ s) e (type_ s) (tcp_sk_open s)
    (create_time_ s) (access_time_ s) (in_use_ s) (is_client_ s) (is_connected_ s)
    (recv_buf_ s) (recv_buf_filled_ s) (send_buf_ s) (cb_ s).

Definition set_is_connected (b : bool) (s : SocketInfo) : SocketInfo :=
  mkSocketInfo (remote_endpoint_ s) (local_endpoint_ s) (type_ s) (tcp_sk_open s)
    (create_time_ s) (access_time_ s) (in_use_ s) (is_client_ s) b
    (recv_buf_ s) (recv_buf_filled_ s) (send_buf_ s) (cb_ s).

Definition set_in_use (b : bool) (s : SocketInfo) : SocketInfo :=
  mkSocketInfo (remote_endpoint_ s) (local_endpoint_ s) (type_ s) (tcp_sk_open s)
    (create_time_ s) (access_time_ s) b (is_client_ s) (is_connected_ s)
    (recv_buf_ s) (recv_buf_filled_ s) (send_buf_ s) (cb_ s).

Definition set_is_client (b : bool) (s : SocketInfo) : SocketInfo :=
  mkSocketInfo (remote_endpoint_ s) (local_endpoint_ s) (type_ s) (tcp_sk_open s)
    (create_time_ s) (access_time_ s) (in_use_ s) b (is_connected_ s)
    (recv_buf_ s) (recv_buf_filled_ s) (send_buf_ s) (cb_ s).

Definition set_recv_buf_filled (n : Z) (s : SocketInfo) : SocketInfo :=
  mkSocketInfo (remote_endpoint_ s) (local_endpoint_ s) (type_ s) (tcp_sk_open s)
    (create_time_ s) (access_time_ s) (in_use_ s) (is_client_ s) (is_connected_ s)
    (recv_buf_ s) n (send_buf_ s) (cb_ s).

Definition set_cb (cb : option PacketCallBack) (s : SocketInfo) : SocketInfo :=
  mkSocketInfo (remote_endpoint_ s) (local_endpoint_ s) (type_ s) (tcp_sk_open s)
    (create_time_ s) (access_time_ s) (in_use_ s) (is_client_ s) (is_connected_ s)
    (recv_buf_ s) (recv_buf_filled_ s) (send_buf_ s) cb.

(** [tcp_sk().close(e)]. *)
Definition close_tcp_sk (s : SocketInfo) : SocketInfo :=
  mkSocketInfo (remote_endpoint_ s) (local_endpoint_ s) (type_ s) false
    (create_time_ s) (access_time_ s) (in_use_ s) (is_client_ s) (is_connected_ s)
    (recv_buf_ s) (recv_buf_filled_ s) (send_buf_ s) (cb_ s).

Definition Touch (now : Z) (s : SocketInfo) : SocketInfo :=
  mkSocketInfo (remote_endpoint_ s) (local_endpoint_ s) (type_ s) (tcp_sk_open s)
    (create_time_ s) now (in_use_ s) (is_client_ s) (is_connected_ s)
    (recv_buf_ s) (recv_buf_filled_ s) (send_buf_ s) (cb_ s).

(** [SetRecvBuf(std::vector<char>&)]: the buffers are swapped; the old one is
    returned to the caller's variable, which no caller reads again. *)
Definition SetRecvBuf_vec (new_buf : list byte) (s : SocketInfo) : SocketInfo :=
  mkSocketInfo (remote_endpoint_ s) (local_endpoint_ s) (type_ s) (tcp_sk_open s)
    (create_time_ s) (access_time_ s) (in_use_ s) (is_client_ s) (is_connected_ s)
    new_buf (recv_buf_filled_ s) (send_buf_ s) (cb_ s).

(** [SetRecvBuf(size_t)]: a fresh buffer of zero bytes. *)
Definition SetRecvBuf (byte_num : Z) (s : SocketInfo) : SocketInfo :=
  SetRecvBuf_vec (zeros byte_num) s.

Definition SetSendBuf (to_send : list byte) (s : SocketInfo) : SocketInfo :=
  mkSocketInfo (remote_endpoint_ s) (local_endpoint_ s) (type_ s) (tcp_sk_open s)
    (create_time_ s) (access_time_ s) (in_use_ s) (is_client_ s) (is_connected_ s)
    (recv_buf_ s) (recv_buf_filled_ s) to_send (cb_ s).

(** ** [class TCPAcceptorInfo] *)

Record TCPAcceptorInfo := mkTCPAcceptorInfo {
  acc_type_ : SocketType;
  sk_info_ : ptr
}.

(** ** [class UDPSocketInfo] *)

Record UDPSocketInfo := mkUDPSocketInfo {
  max_length_of_send_buf_list_ : Z;
  udp_local_endpoint_ : Endpoint;
  udp_remote_endpoint_ : Endpoint;
  udp_in_use_ : bool;
  udp_recv_buf_ : list byte;
  send_buf_list_ : list (Endpoint * list byte)
}.

Definition new_UDPSocketInfo : UDPSocketInfo :=
  mkUDPSocketInfo 100 no_endpoint no_endpoint false [] [].

Definition udp_set_local_endpoint (e : Endpoint) (u : UDPSocketInfo) : UDPSocketInfo :=
  mkUDPSocketInfo (max_length_of_send_buf_list_ u) e (udp_remote_endpoint_ u)
    (udp_in_use_ u) (udp_recv_buf_ u) (send_buf_list_ u).

Definition udp_set_remote_endpoint (e : Endpoint) (u : UDPSocketInfo) : UDPSocketInfo :=
  mkUDPSocketInfo (max_length_of_send_buf_list_ u) (udp_local_endpoint_ u) e
    (udp_in_use_ u) (udp_recv_buf_ u) (send_buf_list_ u).

Definition udp_set_in_use (b : bool) (u : UDPSocketInfo) : UDPSocketInfo :=
  mkUDPSocketInfo (max_length_of_send_buf_list_ u) (udp_local_endpoint_ u)
    (udp_remote_endpoint_ u) b (udp_recv_buf_ u) (send_buf_list_ u).

Definition set_max_length_of_send_buf_list (max : Z) (u : UDPSocketInfo) : UDPSocketInfo :=
  mkUDPSocketInfo max (udp_local_endpoint_ u) (udp_remote_endpoint_ u)
    (udp_in_use_ u) (udp_recv_buf_ u) (send_buf_list_ u).

Definition udp_SetRecvBuf_vec (new_buf : list byte) (u : UDPSocketInfo) : UDPSocketInfo :=
  mkUDPSocketInfo (max_length_of_send_buf_list_ u) (udp_local_endpoint_ u)
    (udp_remote_endpoint_ u) (udp_in_use_ u) new_buf (send_buf_list_ u).

Definition udp_SetRecvBuf (byte_num : Z) (u : UDPSocketInfo) : UDPSocketInfo :=
  udp_SetRecvBuf_vec (zeros byte_num) u.

Definition set_send_buf_list (l : list (Endpoint * list byte)) (u : UDPSocketInfo) : UDPSocketInfo :=
  mkUDPSocketInfo (max_length_of_send_buf_list_ u) (udp_local_endpoint_ u)
    (udp_remote_endpoint_ u) (udp_in_use_ u) (udp_recv_buf_ u) l.

(** [AddSendBuf]: the return code and the updated object. *)
Definition AddSendBuf (to_endpoint : Endpoint) (to_send : list byte) (u : UDPSocketInfo)
    : Z * UDPSocketInfo :=
  if zlen (send_buf_list_ u) =? max_length_of_send_buf_list_ u
  then (-1, u)
  else (0, set_send_buf_list (send_buf_list_ u ++ [(to_endpoint, to_send)]) u).

(** [GetSendBufListFront]: [front()] of an empty list is undefined. *)
Definition GetSendBufListFront (u : UDPSocketInfo) : option (Endpoint * list byte) :=
  head (send_buf_list_ u).

Definition DeleteSendBufListFront (u : UDPSocketInfo) : UDPSocketInfo :=
  set_send_buf_list (tail (send_buf_list_ u)) u.

Definition GetSendBufListLength (u : UDPSocketInfo) : Z := zlen (send_buf_list_ u).

End SocketInfo.
