(* ===== verification/Skeleton.v ===== *)
(** * The skeleton of a server or client: [asio-based2/include/skeleton.hpp]

    Class [Skeleton]: its data members, the registry of sockets, and the
    operations that start asynchronous work.  The completion handlers are in
    [Handlers]. *)

From S2P Require Import Prelude Wire SocketInfo.

(** ** The library

    [boost] functions on values.  [addr_to_string] is
    [ip::address::to_string], [addr_from_string] is [ip::address::from_string]
    ([None]: it throws), [lexical_cast_int] is [boost::lexical_cast<int>]
    ([None]: it throws [bad_lexical_cast]). *)
Class Boost := {
  addr_to_string : Z -> list byte;
  addr_from_string : list byte -> option Z;
  lexical_cast_int : list byte -> option Z;
}.

(** The handler an asynchronous operation is bound to. *)
Inductive WriteHandler :=
| WThenReadHTTPHead     (* HandleWriteThenReadHTTPHead *)
| WThenReadL            (* HandleWriteThenReadL *)
| WThenClose            (* HandleWriteThenClose *)
| WThenNothing.         (* HandleAnythingThenNothing *)

Inductive ReadHandler :=
| RLThenReadV           (* HandleReadLThenReadV *)
| RVThenProcess         (* HandleReadVThenProcess *)
| RHTTPContent.         (* HandleReadHTTPContentThenProcess *)

(** An operation the program has started and [io_serv_] has not completed.  An
    [async_read] fills [size] bytes of the receive buffer of its socket from
    [off]; [async_read_head] is the read with [HTTPHeadReadCompletionCondition],
    which has received [total] bytes and may receive [limit] more in its next
    step; [async_connect] carries the copy of the send buffer bound into its
    handler. *)
Inductive AsyncOp :=
| async_accept (acc : ptr)
| async_connect (sk : ptr) (to : Endpoint) (bound_buf : list byte)
| async_write (sk : ptr) (data : list byte) (h : WriteHandler)
| async_read (sk : ptr) (off size : Z) (h : ReadHandler)
| async_read_head (sk : ptr) (total limit : Z)
| async_wait (milliseconds : Z)
| async_send_to (data : list byte) (to : Endpoint)
| async_receive_from.

(** The socket an operation is on. *)
Definition op_socket (o : AsyncOp) : option ptr :=
  match o with
  | async_connect p _ _ | async_write p _ _ | async_read p _ _ _ | async_read_head p _ _ => Some p
  | _ => None
  end.

Record Config := mkConfig {
  timer_trigger_interval_ : Z;
  init_recv_buf_size_ : Z;
  max_recv_buf_size_ : Z;
  udp_recv_buf_size_ : Z;
  tcp_backlog_ : Z;
  server_timeout_ : Z
}.

(** The constructor; it does not initialise [udp_recv_buf_size_], which has
    the indeterminate value [garbage]. *)
Definition new_Config (garbage : Z) : Config :=
  mkConfig 10000 1024 (1024 * 1024 * 2) garbage 1024 10000.

Section Skeleton.
  Context {P : PROG} {B : Boost}.

(** An entry of [timer_handler_list_]: [SweepServerSocket] bound to its
    argument by [Run], or a function object of the program. *)
Inductive TimerHandler :=
| TSweep (milliseconds : Z)
| TUser (h : UserTimer).

(** The data members of [Skeleton], with the objects its [shared_ptr]s point
    to ([heap], [acceptors]), the data members of the derived class ([app]),
    the operations started on [io_serv_] ([pending]), whether it is stopped, and
    the wall clock in microseconds ([now]). *)
Record Skel := mkSkel {
  cfg : Config;
  app : App;
  heap : gmap N SocketInfo;
  next_ptr : N;
  acceptors : gmap N TCPAcceptorInfo;
  udp_socket_ : option UDPSocketInfo;
  tcp_server_socket_map_ : gmap Endpoint N;
  tcp_acceptor_map_ : gmap Endpoint N;
  tcp_client_socket_map_ : gmap Endpoint (list N);
  timer_handler_list_ : list TimerHandler;
  pending : list AsyncOp;
  stopped : bool;
  now : Z
}.

(** The constructor. *)
Definition new_Skel (garbage now : Z) (a : App) : Skel :=
  mkSkel (new_Config garbage) a ∅ 0 ∅ None ∅ ∅ ∅ [] [] false now.

Definition with_cfg c s := mkSkel c (app s) (heap s) (next_ptr s) (acceptors s)
  (udp_socket_ s) (tcp_server_socket_map_ s) (tcp_acceptor_map_ s) (tcp_client_socket_map_ s)
  (timer_handler_list_ s) (pending s) (stopped s) (now s).
Definition with_app a s := mkSkel (cfg s) a (heap s) (next_ptr s) (acceptors s)
  (udp_socket_ s) (tcp_server_socket_map_ s) (tcp_acceptor_map_ s) (tcp_client_socket_map_ s)
  (timer_handler_list_ s) (pending s) (stopped s) (now s).
Definition with_heap h n s := mkSkel (cfg s) (app s) h n (acceptors s)
  (udp_socket_ s) (tcp_server_socket_map_ s) (tcp_acceptor_map_ s) (tcp_client_socket_map_ s)
  (timer_handler_list_ s) (pending s) (stopped s) (now s).
Definition with_acceptors a s := mkSkel (cfg s) (app s) (heap s) (next_ptr s) a
  (udp_socket_ s) (tcp_server_socket_map_ s) (tcp_acceptor_map_ s) (tcp_client_socket_map_ s)
  (timer_handler_list_ s) (pending s) (stopped s) (now s).
Definition with_udp u s := mkSkel (cfg s) (app s) (heap s) (next_ptr s) (acceptors s)
  u (tcp_server_socket_map_ s) (tcp_acceptor_map_ s) (tcp_client_socket_map_ s)
  (timer_handler_list_ s) (pending s) (stopped s) (now s).
Definition with_server_map m s := mkSkel (cfg s) (app s) (heap s) (next_ptr s) (acceptors s)
  (udp_socket_ s) m (tcp_acceptor_map_ s) (tcp_client_socket_map_ s)
  (timer_handler_list_ s) (pending s) (stopped s) (now s).
Definition with_acceptor_map m s := mkSkel (cfg s) (app s) (heap s) (next_ptr s) (acceptors s)
  (udp_socket_ s) (tcp_server_socket_map_ s) m (tcp_client_socket_map_ s)
  (timer_handler_list_ s) (pending s) (stopped s) (now s).
Definition with_client_map m s := mkSkel (cfg s) (app s) (heap s) (next_ptr s) (acceptors s)
  (udp_socket_ s) (tcp_server_socket_map_ s) (tcp_acceptor_map_ s) m
  (timer_handler_list_ s) (pending s) (stopped s) (now s).
Definition with_timers l s := mkSkel (cfg s) (app s) (heap s) (next_ptr s) (acceptors s)
  (udp_socket_ s) (tcp_server_socket_map_ s) (tcp_acceptor_map_ s) (tcp_client_socket_map_ s)
  l (pending s) (stopped s) (now s).
Definition with_pending l s := mkSkel (cfg s) (app s) (heap s) (next_ptr s) (acceptors s)
  (udp_socket_ s) (tcp_server_socket_map_ s) (tcp_acceptor_map_ s) (tcp_client_socket_map_ s)
  (timer_handler_list_ s) l (stopped s) (now s).
Definition with_stopped b s := mkSkel (cfg s) (app s) (heap s) (next_ptr s) (acceptors s)
  (udp_socket_ s) (tcp_server_socket_map_ s) (tcp_acceptor_map_ s) (tcp_client_socket_map_ s)
  (timer_handler_list_ s) (pending s) b (now s).
Definition with_now t s := mkSkel (cfg s) (app s) (heap s) (next_ptr s) (acceptors s)
  (udp_socket_ s) (tcp_server_socket_map_ s) (tcp_acceptor_map_ s) (tcp_client_socket_map_ s)
  (timer_handler_list_ s) (pending s) (stopped s) t.

(** ** Objects behind [shared_ptr]s *)

(** [p->...]: the object, undefined when the pointer does not point to one. *)
Definition deref (p : ptr) : M Skel SocketInfo :=
  let! h := gets heap in of_option HUndefined (h !! p).

(** [p->f(...)] for a setter [f]. *)
Definition update (p : ptr) (f : SocketInfo -> SocketInfo) : M Skel unit :=
  let! x := deref p in
  modify (fun s => with_heap (<[p := f x]> (heap s)) (next_ptr s) s).

(** [new SocketInfo(type, io_serv_)]. *)
Definition alloc (type : SocketType) : M Skel ptr :=
  let! s := gets id in
  modify (fun s => with_heap (<[next_ptr s := new_SocketInfo type (now s)]> (heap s))
                     (N.succ (next_ptr s)) s) ;;!
  ret (next_ptr s).

(** [operator->] of a [shared_ptr] asserts that it is not null. *)
Definition nonnull (p : option ptr) : M Skel ptr := of_option HAssert p.

Definition deref_acceptor (a : ptr) : M Skel TCPAcceptorInfo :=
  let! h := gets acceptors in of_option HUndefined (h !! a).

(** [udp_socket_->...]. *)
Definition deref_udp : M Skel UDPSocketInfo :=
  let! u := gets udp_socket_ in of_option HAssert u.

Definition update_udp (f : UDPSocketInfo -> UDPSocketInfo) : M Skel unit :=
  let! u := deref_udp in modify (with_udp (Some (f u))).

(** [p->SetRecvBuf(n)] for an [int] [n]: a negative [n] converts to a size no
    vector can have, and the constructor throws. *)
Definition set_recv_buf_size (p : ptr) (n : Z) : M Skel unit :=
  if n <? 0 then stop HThrow else update p (SetRecvBuf n).

Definition udp_set_recv_buf_size (n : Z) : M Skel unit :=
  if n <? 0 then stop HThrow else update_udp (udp_SetRecvBuf n).

(** Hand an operation to [io_serv_]. *)
Definition start (o : AsyncOp) : M Skel unit :=
  modify (fun s => with_pending (pending s ++ [o]) s).

(** ** The registry *)

Definition FindTCPServerSocket (key : Endpoint) : M Skel (option ptr) :=
  let! m := gets tcp_server_socket_map_ in ret (m !! key).

Definition InsertTCPServerSocket (key : Endpoint) (new_skinfo : ptr) : M Skel Z :=
  let! m := gets tcp_server_socket_map_ in
  match m !! key with
  | Some _ => ret (-1)
  | None => modify (with_server_map (<[key := new_skinfo]> m)) ;;! ret 0
  end.

Definition InsertTCPAcceptor (key : Endpoint) (new_acceptorinfo : ptr) : M Skel Z :=
  let! m := gets tcp_acceptor_map_ in
  match m !! key with
  | Some _ => ret (-1)
  | None => modify (with_acceptor_map (<[key := new_acceptorinfo]> m)) ;;! ret 0
  end.

(** The [while] loop of [FindIdleTCPClientSocket]. *)
Fixpoint find_idle_loop (l : list ptr) : M Skel (option ptr) :=
  match l with
  | [] => ret None
  | p :: l' =>
      let! x := deref p in
      if in_use_ x || negb (is_connected_ x) then find_idle_loop l' else ret (Some p)
  end.

Definition FindIdleTCPClientSocket (key : Endpoint) : M Skel (option ptr) :=
  let! m := gets tcp_client_socket_map_ in
  match m !! key with
  | Some l => find_idle_loop l
  | None => ret None
  end.

Definition InsertTCPClientSocket (key : Endpoint) (new_skinfo : ptr) : M Skel Z :=
  let! m := gets tcp_client_socket_map_ in
  match m !! key with
  | Some l => modify (with_client_map (<[key := l ++ [new_skinfo]]> m)) ;;! ret 0
  | None => modify (with_client_map (<[key := [new_skinfo]]> m)) ;;! ret 0
  end.

Definition DestroySocket (skinfo : ptr) : M Skel Z :=
  update skinfo close_tcp_sk ;;!
  let! x := deref skinfo in
  if is_client_ x then
    let! m := gets tcp_client_socket_map_ in
    match m !! remote_endpoint_ x with
    | None => ret (-1)
    | Some l => modify (with_client_map (<[remote_endpoint_ x := remove_all skinfo l]> m)) ;;! ret 0
    end
  else
    modify (fun s => with_server_map (delete (remote_endpoint_ x) (tcp_server_socket_map_ s)) s) ;;!
    ret 0.

(** ** Starting reads *)

Definition HTTP_key_end : list byte := [x0d; x0a; x0d; x0a].

(** The completion condition of the head read: how many bytes the next step
    may read, [0] to stop. *)
Definition HTTPHeadReadCompletionCondition (error : Z) (skinfo : ptr) (byte_num : Z) : M Skel Z :=
  if negb (error =? 0) then ret 0
  else
    let! x := deref skinfo in
    update skinfo (set_recv_buf_filled (to_size (recv_buf_filled_ x + byte_num))) ;;!
    let! x := deref skinfo in
    match search HTTP_key_end (recv_buf_ x) with
    | Some _ => ret 0
    | None =>
        if zlen (recv_buf_ x) =? recv_buf_filled_ x then ret 0
        else ret (to_size (zlen (recv_buf_ x) - recv_buf_filled_ x))
    end.

(** [async_read(sk, buffer(recv_buf), HTTPHeadReadCompletionCondition, ...)]:
    the composed operation asks the condition with no bytes first. *)
Definition start_read_head (skinfo : ptr) : M Skel unit :=
  let! x := deref skinfo in
  let! n := HTTPHeadReadCompletionCondition 0 skinfo 0 in
  start (async_read_head skinfo 0 (n `min` zlen (recv_buf_ x))).

Definition ToReadHTTPHeadThenReadHTTPContent (skinfo : ptr) : M Skel Z :=
  let! c := gets cfg in
  set_recv_buf_size skinfo (init_recv_buf_size_ c) ;;!
  start_read_head skinfo ;;!
  ret 0.

Definition ToReadLThenReadV (skinfo : ptr) : M Skel Z :=
  update skinfo (SetRecvBuf 4) ;;!
  start (async_read skinfo 0 4 RLThenReadV) ;;!
  ret 0.

Definition UDPToRead : M Skel Z :=
  let! c := gets cfg in
  udp_set_recv_buf_size (udp_recv_buf_size_ c) ;;!
  start async_receive_from ;;!
  ret 0.

(** ** The interface of derived classes: starting writes *)

(** [ToWriteThenRead(SocketInfoPtr, ...)]. *)
Definition ToWriteThenRead_sk (skinfo : ptr) (buf_to_send : list byte) : M Skel Z :=
  let! x := deref skinfo in
  (if is_client_ x then
     assert_ (negb (in_use_ x)) ;;! update skinfo (set_in_use true)
   else ret tt) ;;!
  update skinfo (SetSendBuf buf_to_send) ;;!
  let! x := deref skinfo in
  match type_ x with
  | T_TCP_HTTP => start (async_write skinfo (send_buf_ x) WThenReadHTTPHead) ;;! ret 0
  | T_TCP_LV => start (async_write skinfo (send_buf_ x) WThenReadL) ;;! ret 0
  | _ => stop HAssert
  end.

Definition ToConnectThenWrite (remote_endpoint : Endpoint) (type : SocketType)
    (buf_to_send : list byte) (cb : option PacketCallBack) : M Skel Z :=
  let! skinfo := alloc type in
  update skinfo (set_cb cb) ;;!
  update skinfo (SetSendBuf buf_to_send) ;;!
  update skinfo (set_remote_endpoint remote_endpoint) ;;!
  update skinfo (set_is_client true) ;;!
  InsertTCPClientSocket remote_endpoint skinfo ;;!
  let! x := deref skinfo in
  start (async_connect skinfo (remote_endpoint_ x) (send_buf_ x)) ;;!
  ret 0.

(** [ToWriteThenRead(TCPEndpoint&, ...)]. *)
Definition ToWriteThenRead (remote_endpoint : Endpoint) (type : SocketType)
    (buf_to_send : list byte) (i_am_server : bool) : M Skel Z :=
  let! skinfo := (if i_am_server then FindTCPServerSocket remote_endpoint
                  else FindIdleTCPClientSocket remote_endpoint) in
  match skinfo with
  | None => if i_am_server then ret (-1)
            else ToConnectThenWrite remote_endpoint type buf_to_send None
  | Some p => ToWriteThenRead_sk p buf_to_send
  end.

(** It returns 0 whatever the inner call returned. *)
Definition ToWriteThenCallBack (remote_endpoint : Endpoint) (type : SocketType)
    (buf_to_send : list byte) (i_am_server : bool) (cb : option PacketCallBack) : M Skel Z :=
  let! skinfo := FindIdleTCPClientSocket remote_endpoint in
  match skinfo with
  | None => if i_am_server then ret (-1)
            else ToConnectThenWrite remote_endpoint type buf_to_send cb ;;! ret 0
  | Some p => update p (set_cb cb) ;;! ToWriteThenRead_sk p buf_to_send ;;! ret 0
  end.

(** On a missing socket the code logs [skinfo->GetFlow()] of the null pointer
    before it would return [-1]. *)
Definition ToWriteThenClose (remote_endpoint : Endpoint) (buf_to_send : list byte)
    (i_am_server : bool) : M Skel Z :=
  let! skinfo := (if i_am_server then FindTCPServerSocket remote_endpoint
                  else FindIdleTCPClientSocket remote_endpoint) in
  match skinfo with
  | None => nonnull None ;;! ret (-1)
  | Some p =>
      update p (SetSendBuf buf_to_send) ;;!
      let! x := deref p in
      start (async_write p (send_buf_ x) WThenClose) ;;!
      ret 0
  end.

Definition UDPToWrite (to_endpoint : Endpoint) (buf_to_send : list byte) : M Skel Z :=
  let! u := deref_udp in
  let (r, u') := AddSendBuf to_endpoint buf_to_send u in
  modify (with_udp (Some u')) ;;!
  if r <? 0 then ret (-1)
  else if negb (udp_in_use_ u') then
    let! front := of_option HUndefined (GetSendBufListFront u') in
    start (async_send_to front.2 front.1) ;;!
    update_udp (udp_set_in_use true) ;;!
    ret 0
  else ret 0.

(** ** Setting up *)

Definition AddTimerHandler (func : TimerHandler) : M Skel unit :=
  modify (fun s => with_timers (timer_handler_list_ s ++ [func]) s).

(** [bind_ec] is what the system answers to [bind]. *)
Definition InitUDPSocket (local_endpoint : Endpoint) (bind_ec : Z) : M Skel Z :=
  modify (with_udp (Some new_UDPSocketInfo)) ;;!
  if negb (bind_ec =? 0) then ret (-1)
  else
    update_udp (udp_set_local_endpoint local_endpoint) ;;!
    let! c := gets cfg in
    udp_set_recv_buf_size (udp_recv_buf_size_ c) ;;!
    start async_receive_from ;;!
    ret 0.

(** [sys_ok]: [open], [set_option], [bind] and [listen] succeed; they throw
    otherwise. *)
Definition AddTCPAcceptor (endpoint : Endpoint) (type : SocketType) (sys_ok : bool) : M Skel Z :=
  let! sk := alloc type in
  let! s := gets id in
  let acc := next_ptr s in
  modify (fun s => with_acceptors (<[acc := mkTCPAcceptorInfo type sk]> (acceptors s))
                     (with_heap (heap s) (N.succ acc) s)) ;;!
  if negb sys_ok then stop HThrow
  else
    let! r := InsertTCPAcceptor endpoint acc in
    if r <? 0 then stop (HExit 1)
    else start (async_accept acc) ;;! ret 0.

(** [Run] up to [io_serv_.run()]; the loop of [io_serv_] is [Reactor]. *)
Definition Run : M Skel unit :=
  let! c := gets cfg in
  AddTimerHandler (TSweep (server_timeout_ c)) ;;!
  start (async_wait (timer_trigger_interval_ c)).

Definition Stop : M Skel unit := modify (with_stopped true).

(** [acceptorinfo->Reset()]. *)
Definition Reset (a : ptr) : M Skel unit :=
  let! x := deref_acceptor a in
  let! sk := alloc (acc_type_ x) in
  modify (fun s => with_acceptors (<[a := mkTCPAcceptorInfo (acc_type_ x) sk]> (acceptors s)) s).

(** ** Blocking calls *)

(** What the system answers to one blocking exchange: an error code and the
    bytes received for each call. *)
Record SyncIO := mkSyncIO {
  connect_ec : Z;
  write_ec : Z;
  read_L_ec : Z;
  read_L : list byte;
  read_V_ec : Z;
  read_V : list byte
}.

(** [ToWriteThenReadSync]: the return code and the new content of
    [buf_to_fill].  The second [read] is given the address one past the end of
    the 4-byte vector [len_field], so every byte it receives is written outside
    of it. *)
Definition ToWriteThenReadSync (remote_endpoint : Endpoint) (buf_to_send : list byte)
    (type : SocketType) (buf_to_fill : list byte) (io : SyncIO) : M Skel (Z * list byte) :=
  let! found := FindIdleTCPClientSocket remote_endpoint in
  (match found with
   | Some p => let! x := deref p in assert_ (bool_decide (type = type_ x))
   | None => ret tt
   end) ;;!
  if bool_decide (type <> T_TCP_LV) then ret (-1, buf_to_fill)
  else
    let! skinfo :=
      match found with
      | Some p => ret (Some p)
      | None =>
          let! p := alloc type in
          update p (set_remote_endpoint remote_endpoint) ;;!
          if negb (connect_ec io =? 0) then ret None
          else
            update p (set_is_connected true) ;;!
            update p (set_in_use true) ;;!
            InsertTCPClientSocket remote_endpoint p ;;!
            ret (Some p)
      end in
    match skinfo with
    | None => ret (-1, buf_to_fill)
    | Some p =>
        update p (SetSendBuf buf_to_send) ;;!
        if negb (write_ec io =? 0) then DestroySocket p ;;! ret (-1, buf_to_fill)
        else if negb (read_L_ec io =? 0) then DestroySocket p ;;! ret (-1, buf_to_fill)
        else
          let! w := of_option HAssert (if zlen (read_L io) =? 4 then load32 (read_L io) 0 else None) in
          let len := bswap32 w in
          let! c := gets cfg in
          if (len <? 0) || (max_recv_buf_size_ c <? len)
          then DestroySocket p ;;! ret (-2, buf_to_fill)
          else
            let! buf := of_option HUndefined
                          (overwrite (resize (Z.to_nat len) x00 buf_to_fill) 0 (read_L io)) in
            (if 0 <? zlen (read_V io) then stop HUndefined else ret tt) ;;!
            if negb (read_V_ec io =? 0) then DestroySocket p ;;! ret (-3, buf)
            else if zlen (read_V io) =? len - 4 then ret (0, buf) else stop HUndefined
    end.

End Skeleton.
