(* ===== verification/Handlers.v ===== *)
(** * The completion handlers of [asio-based2/include/skeleton.hpp]

    One definition per handler, with every branch of the code.  [Program] is
    what the handlers call back: the virtual [ProcessData] of a derived class
    and the function objects it registered. *)

From S2P Require Import Prelude Wire SocketInfo Skeleton.

(** The interface of a program to the skeleton.  [ProcessData] and the
    callbacks receive the packet, the two addresses with their ports, and the
    arrival time. *)
Class Program {P : PROG} {B : Boost} := {
  ProcessData : list byte -> list byte -> Z -> list byte -> Z -> Z -> M Skel Z;
  call_cb : PacketCallBack -> list byte -> list byte -> Z -> list byte -> Z -> Z -> M Skel Z;
  call_timer : UserTimer -> M Skel unit;
}.

Section Handlers.
  Context {P : PROG} {B : Boost} {G : Program}.

Definition Touch_now (skinfo : ptr) : M Skel unit :=
  let! t := gets now in update skinfo (Touch t).

Definition HandleAnythingThenNothing (error : Z) (skinfo : ptr) (byte_num : Z) : M Skel unit :=
  if negb (error =? 0) then DestroySocket skinfo ;;! ret tt
  else Touch_now skinfo.

(** One iteration of the loop of [SweepServerSocket]. *)
Definition sweep_step (expire_time : Z) (it : Endpoint * ptr) : M Skel unit :=
  let! p := deref it.2 in
  if access_time_ p <? expire_time then
    modify (fun s => with_server_map (delete it.1 (tcp_server_socket_map_ s)) s) ;;!
    update it.2 close_tcp_sk
  else ret tt.

Definition SweepServerSocket (milliseconds : Z) : M Skel unit :=
  let! t := gets now in
  let! m := gets tcp_server_socket_map_ in
  forM (map_to_list m) (sweep_step (t - milliseconds * 1000)).

Definition call_timer_handler (h : TimerHandler) : M Skel unit :=
  match h with
  | TSweep ms => SweepServerSocket ms
  | TUser h => call_timer h
  end.

(** The loop of [HandleTimeout] along the list of handlers as it stands: what a
    handler appends is reached too.  [None] when the fuel is used up, as with a
    handler that appends one every time. *)
Fixpoint timer_loop (fuel i : nat) : M Skel (option unit) :=
  let! l := gets timer_handler_list_ in
  match l !! i with
  | None => ret (Some tt)
  | Some h =>
      match fuel with
      | O => ret None
      | S fuel => call_timer_handler h ;;! timer_loop fuel (S i)
      end
  end.

(** The list is read once here.  No handler of the programs appends to it, and
    then it is the same ([Timers.timer_loop_snapshot]). *)
Definition HandleTimeout (error : Z) : M Skel unit :=
  (if negb (error =? 0) then ret tt
   else let! l := gets timer_handler_list_ in forM l call_timer_handler) ;;!
  let! c := gets cfg in
  start (async_wait (timer_trigger_interval_ c)).

(** [remote] and [local] are what [remote_endpoint(e)] and [local_endpoint(e)]
    answer for the accepted socket, [None] for an error. *)
Definition HandleAccept (error : Z) (acceptorinfo : ptr) (remote local : option Endpoint)
    : M Skel unit :=
  if negb (error =? 0) then stop (HExit 1)
  else
    let! a := deref_acceptor acceptorinfo in
    let sk_info := sk_info_ a in
    update sk_info (set_is_connected true) ;;!
    update sk_info (set_in_use true) ;;!
    update sk_info (set_type (acc_type_ a)) ;;!
    Reset acceptorinfo ;;!
    match remote, local with
    | None, _ => ret tt
    | Some _, None => ret tt
    | Some tmp_endpoint, Some tmp_endpoint2 =>
        update sk_info (set_remote_endpoint tmp_endpoint) ;;!
        update sk_info (set_local_endpoint tmp_endpoint2) ;;!
        let! r := InsertTCPServerSocket tmp_endpoint sk_info in
        assert_ (negb (r <? 0)) ;;!
        let! c := gets cfg in
        set_recv_buf_size sk_info (init_recv_buf_size_ c) ;;!
        let! x := deref sk_info in
        match type_ x with
        | T_TCP_HTTP =>
            let! r := ToReadHTTPHeadThenReadHTTPContent sk_info in
            if r <? 0 then DestroySocket sk_info ;;! ret tt else ret tt
        | T_TCP_LV =>
            let! r := ToReadLThenReadV sk_info in
            if r <? 0 then DestroySocket sk_info ;;! ret tt else ret tt
        | _ => stop HAssert
        end ;;!
        start (async_accept acceptorinfo)
    end.

(** [local] is what [local_endpoint(e)] answers for the connected socket. *)
Definition HandleConnectThenWrite (error : Z) (skinfo : ptr) (buf_to_send : list byte)
    (local : option Endpoint) : M Skel unit :=
  if negb (error =? 0) then DestroySocket skinfo ;;! ret tt
  else
    Touch_now skinfo ;;!
    match local with
    | None => DestroySocket skinfo ;;! ret tt
    | Some local_endpoint =>
        update skinfo (set_local_endpoint local_endpoint) ;;!
        update skinfo (set_is_connected true) ;;!
        let! x := deref skinfo in
        assert_ (negb (in_use_ x)) ;;!
        update skinfo (set_in_use true) ;;!
        update skinfo (SetSendBuf buf_to_send) ;;!
        InsertTCPClientSocket (remote_endpoint_ x) skinfo ;;!
        let! x := deref skinfo in
        match type_ x with
        | T_TCP_LV => start (async_write skinfo (send_buf_ x) WThenReadL)
        | T_TCP_HTTP => start (async_write skinfo (send_buf_ x) WThenReadHTTPHead)
        | _ => stop HAssert
        end
    end.

(** The call of the packet callback of the socket, or of [ProcessData] when it
    has none. *)
Definition process (skinfo : ptr) : M Skel Z :=
  let! x := deref skinfo in
  let! t := gets now in
  match cb_ x with
  | Some cb =>
      call_cb cb (recv_buf_ x) (addr_to_string (addr (remote_endpoint_ x)))
        (port (remote_endpoint_ x)) (addr_to_string (addr (local_endpoint_ x)))
        (port (local_endpoint_ x)) t
  | None =>
      ProcessData (recv_buf_ x) (addr_to_string (addr (remote_endpoint_ x)))
        (port (remote_endpoint_ x)) (addr_to_string (addr (local_endpoint_ x)))
        (port (local_endpoint_ x)) t
  end.

(** What both processing handlers do with the code [r] that [process] returned;
    [again] starts the next read. *)
Definition after_process (skinfo : ptr) (r : Z) (again : ptr -> M Skel Z) : M Skel unit :=
  if r <? 0 then DestroySocket skinfo ;;! ret tt
  else
    let! x := deref skinfo in
    if r =? 0 then assert_ (negb (is_client_ x))
    else if r =? 1 then
      assert_ (is_client_ x) ;;! assert_ (in_use_ x) ;;! update skinfo (set_in_use false)
    else if r =? 2 then assert_ (in_use_ x) ;;! assert_ (negb (is_client_ x))
    else if r =? 3 then assert_ (negb (is_client_ x)) ;;! again skinfo ;;! ret tt
    else stop HAssert.

Definition HandleReadVThenProcess (error : Z) (skinfo : ptr) (byte_num : Z) : M Skel unit :=
  if negb (error =? 0) then DestroySocket skinfo ;;! ret tt
  else
    Touch_now skinfo ;;!
    let! x := deref skinfo in
    let! w := of_option HUndefined (load32 (recv_buf_ x) 0) in
    let! d := int_op (bswap32 w - 4) in
    assert_ (to_int byte_num =? d) ;;!
    let! r := process skinfo in
    after_process skinfo r ToReadLThenReadV.

Definition HandleWriteThenReadHTTPHead (error : Z) (skinfo : ptr) (byte_num : Z) : M Skel unit :=
  if negb (error =? 0) then DestroySocket skinfo ;;! ret tt
  else
    Touch_now skinfo ;;!
    let! c := gets cfg in
    set_recv_buf_size skinfo (init_recv_buf_size_ c) ;;!
    start_read_head skinfo.

Definition HandleReadHTTPContentThenProcess (error : Z) (skinfo : ptr) (byte_num : Z)
    : M Skel unit :=
  if negb (error =? 0) then ret tt
  else
    update skinfo (fun x => SetRecvBuf_vec (resize (Z.to_nat (recv_buf_filled_ x)) x00 (recv_buf_ x)) x) ;;!
    update skinfo (set_recv_buf_filled 0) ;;!
    Touch_now skinfo ;;!
    let! r := process skinfo in
    after_process skinfo r ToReadHTTPHeadThenReadHTTPContent.

(** The keys the head is searched for: "Content-Length ", "100-continue". *)
Definition HTTP_key_length : list byte :=
  [x43; x6f; x6e; x74; x65; x6e; x74; x2d; x4c; x65; x6e; x67; x74; x68; x20].
Definition HTTP_key_continue : list byte :=
  [x31; x30; x30; x2d; x63; x6f; x6e; x74; x69; x6e; x75; x65].

(** "HTTP/1.1 100\r\n\r\n". *)
Definition continue_head : list byte :=
  [x48; x54; x54; x50; x2f; x31; x2e; x31; x20; x31; x30; x30; x0d; x0a; x0d; x0a].

(** The text between the key at offset [i] and the next carriage return. *)
Definition content_length_text (buf : list byte) (i : nat) : list byte :=
  let it1 := drop (i + 15) buf in take (find_byte x0d it1) it1.

Definition HandleReadHTTPHeadThenReadHTTPContent (error : Z) (skinfo : ptr) (byte_num : Z)
    : M Skel unit :=
  if negb (error =? 0) then DestroySocket skinfo ;;! ret tt
  else
    Touch_now skinfo ;;!
    let! x := deref skinfo in
    match search HTTP_key_end (recv_buf_ x) with
    | None => ret tt
    | Some i3 =>
        let head_len := to_int (Z.of_nat i3 + 4) in
        let continue_field_found := bool_decide (is_Some (search HTTP_key_continue (recv_buf_ x))) in
        match search HTTP_key_length (recv_buf_ x) with
        | None => DestroySocket skinfo ;;! ret tt
        | Some i1 =>
            match lexical_cast_int (content_length_text (recv_buf_ x) i1) with
            | None => ret tt
            | Some len =>
                let! total := int_op (len + head_len) in
                let! c := gets cfg in
                if max_recv_buf_size_ c <? total then DestroySocket skinfo ;;! ret tt
                else
                  let bytes_left_to_read := to_int (to_size (total - byte_num)) in
                  (if to_int (zlen (recv_buf_ x)) <? total then
                     update skinfo (SetRecvBuf_vec (resize (Z.to_nat total) x00 (recv_buf_ x)))
                   else ret tt) ;;!
                  (if bytes_left_to_read =? 0
                   then HandleReadHTTPContentThenProcess error skinfo byte_num
                   else start (async_read skinfo byte_num (to_size bytes_left_to_read) RHTTPContent)) ;;!
                  if continue_field_found then
                    update skinfo (SetSendBuf continue_head) ;;!
                    let! x := deref skinfo in
                    start (async_write skinfo (send_buf_ x) WThenNothing)
                  else ret tt
            end
        end
    end.

Definition HandleWriteThenReadL (error : Z) (skinfo : ptr) (byte_num : Z) : M Skel unit :=
  if negb (error =? 0) then ret tt
  else
    Touch_now skinfo ;;!
    update skinfo (SetRecvBuf 4) ;;!
    start (async_read skinfo 0 4 RLThenReadV).

(** A length above the maximum closes the socket; the size of the next read,
    [len - 4], is converted to [size_t] without a check that [len] is at least
    4. *)
Definition HandleReadLThenReadV (error : Z) (skinfo : ptr) (byte_num : Z) : M Skel unit :=
  if negb (error =? 0) then DestroySocket skinfo ;;! ret tt
  else
    Touch_now skinfo ;;!
    let! x := deref skinfo in
    let! w := of_option HUndefined (load32 (recv_buf_ x) 0) in
    let len := bswap32 w in
    let! c := gets cfg in
    if max_recv_buf_size_ c <? len then DestroySocket skinfo ;;! ret tt
    else
      (if to_int (zlen (recv_buf_ x)) <? len then
         update skinfo (SetRecvBuf len) ;;!
         let! y := deref skinfo in
         let! buf := of_option HUndefined (store32 (recv_buf_ y) 0 (bswap32 len)) in
         update skinfo (SetRecvBuf_vec buf)
       else ret tt) ;;!
      let! d := int_op (len - 4) in
      start (async_read skinfo 4 (to_size d) RVThenProcess).

Definition HandleWriteThenClose (error : Z) (skinfo : ptr) (byte_num : Z) : M Skel unit :=
  DestroySocket skinfo ;;! ret tt.

(** The front datagram is sent again: nothing removes it from the list. *)
Definition HandleUDPWrite (error : Z) (remote_endpoint : Endpoint) (byte_num : Z) : M Skel unit :=
  let! u := deref_udp in
  if negb (GetSendBufListLength u =? 0) then
    let! r := of_option HUndefined (GetSendBufListFront u) in
    start (async_send_to r.2 r.1)
  else
    assert_ (udp_in_use_ u) ;;!
    update_udp (udp_set_in_use false).

Definition HandleUDPRead (error : Z) (byte_num : Z) : M Skel unit :=
  let! u := deref_udp in
  let! t := gets now in
  let! r := ProcessData (udp_recv_buf_ u)
              (addr_to_string (addr (udp_remote_endpoint_ u))) (port (udp_remote_endpoint_ u))
              (addr_to_string (addr (udp_local_endpoint_ u))) (port (udp_local_endpoint_ u)) t in
  if r <? 0 then ret tt
  else if r =? 0 then stop HAssert
  else if r =? 1 then ret tt
  else if r =? 2 then stop HAssert
  else if r =? 3 then UDPToRead ;;! ret tt
  else stop HAssert.

End Handlers.
