(* ===== verification/Reactor.v ===== *)
(** * The event loop

    [io_serv_.run()] waits for the operations the program started and calls
    their handlers, one at a time (they are all wrapped in [strand_]).  An event
    is the completion of a pending operation with what the system answers, or
    the passing of time; a call is what [main] or another part of the program
    does on the skeleton.  [step] is the transition relation, [reachable] the
    states a program can be in. *)

From S2P Require Import Prelude Wire SocketInfo Skeleton Handlers.

(** What the system answers to an operation: error code 0 is success.  [CRead]
    carries the bytes received, also before an error. *)
Inductive Completion :=
| CAccept (ec : Z) (remote local : option Endpoint)
| CConnect (ec : Z) (local : option Endpoint)
| CWrite (ec : Z) (byte_num : Z)
| CRead (ec : Z) (data : list byte)
| CWait (ec : Z)
| CSendTo (ec : Z) (byte_num : Z)
| CRecvFrom (ec : Z) (from : Endpoint) (data : list byte).

(** The answers asio documents for an operation: a write or read with
    [transfer_all] succeeds with all the bytes, and with an error it has
    transferred some of them; one step of the head read receives at least one
    byte and at most what its completion condition allowed. *)
Definition permitted (o : AsyncOp) (c : Completion) : bool :=
  match o, c with
  | async_accept _, CAccept _ _ _ => true
  | async_connect _ _ _, CConnect _ _ => true
  | async_write _ data _, CWrite ec n =>
      if ec =? 0 then n =? zlen data else (0 <=? n) && (n <=? zlen data)
  | async_read _ _ size _, CRead ec data =>
      if ec =? 0 then zlen data =? size else zlen data <=? size
  | async_read_head _ _ limit, CRead ec data =>
      if ec =? 0 then (zlen data <=? limit) && ((0 <? zlen data) || (limit =? 0))
      else zlen data =? 0
  | async_wait _, CWait _ => true
  | async_send_to data _, CSendTo ec n => (0 <=? n) && (n <=? zlen data)
  | async_receive_from, CRecvFrom _ _ _ => true
  | _, _ => false
  end.

Section Reactor.
  Context {P : PROG} {B : Boost} {G : Program}.

(** The system stores [data] in the receive buffer of [sk] from [off]. *)
Definition receive (sk : ptr) (off : Z) (data : list byte) : M Skel unit :=
  if (zlen data =? 0) then ret tt
  else
    let! x := deref sk in
    let! buf := of_option HUndefined (overwrite (recv_buf_ x) (Z.to_nat off) data) in
    update sk (SetRecvBuf_vec buf).

Definition call_write_handler (h : WriteHandler) (ec : Z) (sk : ptr) (n : Z) : M Skel unit :=
  match h with
  | WThenReadHTTPHead => HandleWriteThenReadHTTPHead ec sk n
  | WThenReadL => HandleWriteThenReadL ec sk n
  | WThenClose => HandleWriteThenClose ec sk n
  | WThenNothing => HandleAnythingThenNothing ec sk n
  end.

Definition call_read_handler (h : ReadHandler) (ec : Z) (sk : ptr) (n : Z) : M Skel unit :=
  match h with
  | RLThenReadV => HandleReadLThenReadV ec sk n
  | RVThenProcess => HandleReadVThenProcess ec sk n
  | RHTTPContent => HandleReadHTTPContentThenProcess ec sk n
  end.

(** One step of the composed head read: it goes on while the completion
    condition allows more bytes and the buffer has room. *)
Definition read_head_step (sk : ptr) (total : Z) (ec : Z) (data : list byte) : M Skel unit :=
  receive sk total data ;;!
  let total := total + zlen data in
  let! n := HTTPHeadReadCompletionCondition ec sk total in
  let! x := deref sk in
  let limit := n `min` (zlen (recv_buf_ x) - total) in
  if ((ec =? 0) && (zlen data =? 0)) || (limit <=? 0)
  then HandleReadHTTPHeadThenReadHTTPContent ec sk total
  else start (async_read_head sk total limit).

Definition receive_from (ec : Z) (from : Endpoint) (data : list byte) : M Skel Z :=
  if negb (ec =? 0) then ret 0
  else
    let! u := deref_udp in
    let data := take (length (udp_recv_buf_ u)) data in
    let! buf := of_option HUndefined (overwrite (udp_recv_buf_ u) 0 data) in
    update_udp (fun u => udp_set_remote_endpoint from (udp_SetRecvBuf_vec buf u)) ;;!
    ret (zlen data).

(** The completion of [o] with answer [c]: its effect on the buffers, then the
    handler. *)
Definition complete (o : AsyncOp) (c : Completion) : M Skel unit :=
  match o, c with
  | async_accept a, CAccept ec remote local => HandleAccept ec a remote local
  | async_connect sk _ buf, CConnect ec local => HandleConnectThenWrite ec sk buf local
  | async_write sk _ h, CWrite ec n => call_write_handler h ec sk n
  | async_read sk off _ h, CRead ec data =>
      receive sk off data ;;! call_read_handler h ec sk (zlen data)
  | async_read_head sk total _, CRead ec data => read_head_step sk total ec data
  | async_wait _, CWait ec => HandleTimeout ec
  | async_send_to _ to, CSendTo ec n => HandleUDPWrite ec to n
  | async_receive_from, CRecvFrom ec from data =>
      let! n := receive_from ec from data in HandleUDPRead ec n
  | _, _ => ret tt
  end.

Inductive Event :=
| EvComplete (i : nat) (c : Completion)
| EvClock (t : Z).

(** One turn of the event loop.  An event that names no pending operation, or
    an answer the operation cannot have, is not an event of the system and
    changes nothing. *)
Definition deliver (ev : Event) : M Skel unit :=
  let! b := gets stopped in
  if b then ret tt
  else
    match ev with
    | EvClock t => modify (with_now t)
    | EvComplete i c =>
        let! l := gets pending in
        match l !! i with
        | Some o =>
            if permitted o c
            then modify (with_pending (delete i l)) ;;! complete o c
            else ret tt
        | None => ret tt
        end
    end.

(** What a program does on the skeleton outside of the handlers. *)
Inductive Call :=
| KInitUDPSocket (local : Endpoint) (bind_ec : Z)
| KAddTimerHandler (h : UserTimer)
| KAddTCPAcceptor (e : Endpoint) (type : SocketType) (sys_ok : bool)
| KRun
| KStop
| KUDPToWrite (to : Endpoint) (buf : list byte)
| KToWriteThenCallBack (to : Endpoint) (type : SocketType) (buf : list byte) (i_am_server : bool)
    (cb : option PacketCallBack)
| KToWriteThenRead (to : Endpoint) (type : SocketType) (buf : list byte) (i_am_server : bool)
| KToWriteThenClose (to : Endpoint) (buf : list byte) (i_am_server : bool)
| KToWriteThenReadSync (to : Endpoint) (buf : list byte) (type : SocketType) (fill : list byte) (io : SyncIO)
| KConfigure (c : Config)
| KApp (f : App -> App).

Definition call (k : Call) : M Skel Z :=
  match k with
  | KInitUDPSocket e ec => InitUDPSocket e ec
  | KAddTimerHandler h => AddTimerHandler (TUser h) ;;! ret 0
  | KAddTCPAcceptor e ty ok => AddTCPAcceptor e ty ok
  | KRun => Run ;;! ret 0
  | KStop => Stop ;;! ret 0
  | KUDPToWrite e buf => UDPToWrite e buf
  | KToWriteThenCallBack e ty buf srv cb => ToWriteThenCallBack e ty buf srv cb
  | KToWriteThenRead e ty buf srv => ToWriteThenRead e ty buf srv
  | KToWriteThenClose e buf srv => ToWriteThenClose e buf srv
  | KToWriteThenReadSync e buf ty fill io => let! r := ToWriteThenReadSync e buf ty fill io in ret r.1
  | KConfigure c => modify (with_cfg c) ;;! ret 0
  | KApp f => modify (fun s => with_app (f (app s)) s) ;;! ret 0
  end.

Inductive step (ok : Call -> Prop) : Skel -> Skel -> Prop :=
| step_event ev s s' : deliver ev s = Ret tt s' -> step ok s s'
| step_call k r s s' : ok k -> call k s = Ret r s' -> step ok s s'.

Inductive reachable (ok : Call -> Prop) : Skel -> Prop :=
| reach_init garbage t a : reachable ok (new_Skel garbage t a)
| reach_step s s' : reachable ok s -> step ok s s' -> reachable ok s'.

(** A sequence of events. *)
Definition run (evs : list Event) : M Skel unit := forM evs deliver.

(** Rule induction, once: a property that holds initially and that every call
    and every turn of the loop keeps holds in every reachable state. *)
Lemma reachable_inv (ok : Call -> Prop) (Inv : Skel -> Prop) :
  (forall g t a, Inv (new_Skel g t a)) ->
  (forall ev, preserves Inv (deliver ev)) ->
  (forall k, ok k -> preserves Inv (call k)) ->
  forall s, reachable ok s -> Inv s.
Proof.
  intros Hi Hd Hc s. induction 1 as [|s s' Hr IH Hst]; [by apply Hi|].
  inversion Hst as [ev ?? E|k r ?? Hk E]; subst.
  - specialize (Hd ev s IH). by rewrite E in Hd.
  - specialize (Hc k Hk s IH). by rewrite E in Hc.
Qed.

End Reactor.
