(* ===== verification/Invariant.v ===== *)
(** * The invariant of the skeleton

    [wf]: every pointer the skeleton holds points to an object, a registered
    socket is under its own remote endpoint and of the right kind, and the
    sockets the acceptors hold are in no map.  The kind of the client map is a
    client socket, or the socket of a blocking call, which the code does not mark
    as a client's and which is in use for good.  [excl]: a client socket that
    speaks LV has at most one operation in flight, of the kind its flags say,
    and none at all while it is idle.

    [inv] is [wf] and, when [strict] holds, [excl]: one pass over the operations
    proves both, and the few operations that keep [wf] only require [strict] to
    be false. *)

From S2P Require Import Prelude Wire SocketInfo Skeleton Handlers Reactor.

Section Invariant.
  Context {P : PROG} {B : Boost}.
  Variable strict : Prop.

(** The operations in flight on a socket. *)
Definition ops_of (p : ptr) (s : Skel) : list AsyncOp :=
  filter (fun o => op_socket o = Some p) (pending s).

(** The operation fits the flags of its socket. *)
Definition phase (o : AsyncOp) (x : SocketInfo) : Prop :=
  match o with
  | async_connect _ _ _ => in_use_ x = false /\ is_connected_ x = false
  | async_write _ _ WThenReadL => in_use_ x = true /\ is_connected_ x = true
  | async_read _ _ _ (RLThenReadV | RVThenProcess) => in_use_ x = true /\ is_connected_ x = true
  | _ => False
  end.

Definition lv_client (x : SocketInfo) : Prop := is_client_ x = true /\ type_ x = T_TCP_LV.

Definition client_ok (x : SocketInfo) (ops : list AsyncOp) : Prop :=
  lv_client x -> match ops with [] => True | [o] => phase o x | _ => False end.

Definition excl (s : Skel) : Prop :=
  forall p x, heap s !! p = Some x -> client_ok x (ops_of p s).

(** [p] is in neither socket map. *)
Definition unregistered (p : ptr) (s : Skel) : Prop :=
  (forall e, tcp_server_socket_map_ s !! e <> Some p) /\
  (forall e l, tcp_client_socket_map_ s !! e = Some l -> p ∉ l).

Definition acceptor_free (p : ptr) (s : Skel) : Prop :=
  forall a x, acceptors s !! a = Some x -> sk_info_ x <> p.

Record wf (s : Skel) : Prop := {
  wf_heap p : is_Some (heap s !! p) -> (p < next_ptr s)%N;
  wf_server e p : tcp_server_socket_map_ s !! e = Some p ->
    exists x, heap s !! p = Some x /\ remote_endpoint_ x = e /\ is_client_ x = false;
  wf_client e l p : tcp_client_socket_map_ s !! e = Some l -> p ∈ l ->
    exists x, heap s !! p = Some x /\ remote_endpoint_ x = e /\
      (is_client_ x = true \/ in_use_ x = true);
  wf_ops o p : o ∈ pending s -> op_socket o = Some p -> is_Some (heap s !! p);
  wf_accepts a : async_accept a ∈ pending s -> is_Some (acceptors s !! a);
  wf_acceptor a x : acceptors s !! a = Some x ->
    unregistered (sk_info_ x) s /\
    exists y, heap s !! sk_info_ x = Some y /\ is_client_ y = false;
  wf_acc_inj a b x y : acceptors s !! a = Some x -> acceptors s !! b = Some y ->
    sk_info_ x = sk_info_ y -> a = b;
  wf_connect p to buf x : async_connect p to buf ∈ pending s -> heap s !! p = Some x ->
    is_client_ x = true
}.

Definition inv (s : Skel) : Prop := wf s /\ (strict -> excl s).

(** A client socket in the middle of a request with nothing in flight: its
    handler is running. *)
Definition busy (p : ptr) (s : Skel) : Prop :=
  exists x, heap s !! p = Some x /\ lv_client x /\ in_use_ x = true /\
            is_connected_ x = true /\ ops_of p s = [].

(** What a callback may do to the sockets that exist: it keeps them, their
    kind, and leaves the busy ones alone. *)
Definition evolves (s s' : Skel) : Prop :=
  forall p x, heap s !! p = Some x ->
    (exists x', heap s' !! p = Some x' /\ is_client_ x' = is_client_ x /\ type_ x' = type_ x) /\
    (strict -> busy p s -> busy p s').

Definition at_ (s0 s : Skel) : Prop := inv s /\ evolves s0 s.

(** The contract of a callback and of every operation it may use. *)
Definition safe {A} (m : M Skel A) : Prop := forall s0, preserves (at_ s0) m.

Lemma evolves_refl s : evolves s s.
Proof. intros p x Hx. split; [eauto | done]. Qed.

Lemma evolves_from_empty s g t a : evolves (new_Skel g t a) s.
Proof. intros p x Hx. simpl in Hx. by rewrite lookup_empty in Hx. Qed.

Lemma evolves_dom s0 s p : evolves s0 s -> heap s !! p = None -> heap s0 !! p = None.
Proof.
  intros He Hp. destruct (heap s0 !! p) as [x|] eqn:E; [|done].
  destruct (He p x E) as [(x' & Hx' & _) _]. congruence.
Qed.

(** [safe] is what a triple from any state of the invariant needs. *)
Lemma safe_start_anywhere {A} (m : M Skel A) s a s' :
  safe m -> inv s -> m s = Ret a s' -> inv s' /\ evolves s s'.
Proof.
  intros Hm Hi E. specialize (Hm s s (conj Hi (evolves_refl s))). by rewrite E in Hm.
Qed.

Lemma safe_preserves {A} (m : M Skel A) : safe m -> preserves inv m.
Proof.
  intros Hm s Hs. destruct (m s) as [a s'|] eqn:E; [|done].
  by destruct (safe_start_anywhere m s a s' Hm Hs E).
Qed.

(** ** Composition *)

Lemma safe_ret {A} (a : A) : safe (ret a).
Proof. intros s0. by apply triple_ret. Qed.

Lemma safe_stop {A} h : safe (stop h : M Skel A).
Proof. intros s0. apply triple_stop. Qed.

Lemma safe_gets {A} (f : Skel -> A) : safe (gets f).
Proof. intros s0. by apply triple_gets. Qed.

Lemma safe_bind {A C} (m : M Skel A) (k : A -> M Skel C) :
  safe m -> (forall a, safe (k a)) -> safe (bindM m k).
Proof. intros Hm Hk s0. eapply triple_bind; [apply Hm | intros a; apply Hk]. Qed.

Lemma safe_of_option {A} h (o : option A) : safe (of_option h o).
Proof. intros s0. destruct o; [by apply triple_ret | apply triple_stop]. Qed.

Lemma safe_assert b : safe (assert_ b).
Proof. intros s0. by apply triple_assert. Qed.

Lemma safe_forM {A} (l : list A) f : (forall x, safe (f x)) -> safe (forM l f).
Proof. intros H s0. apply triple_forM. intros x. apply H. Qed.

Lemma safe_int_op z : safe (int_op z).
Proof. unfold int_op. destruct (in_int z); [apply safe_ret | apply safe_stop]. Qed.

(** A step that changes nothing the invariant reads. *)
Definition same_core (s s' : Skel) : Prop :=
  heap s' = heap s /\ next_ptr s' = next_ptr s /\ acceptors s' = acceptors s /\
  tcp_server_socket_map_ s' = tcp_server_socket_map_ s /\
  tcp_client_socket_map_ s' = tcp_client_socket_map_ s /\ pending s' = pending s.

Lemma at_same_core s0 s s' : same_core s s' -> at_ s0 s -> at_ s0 s'.
Proof.
  intros (E1 & E2 & E3 & E4 & E5 & E6) [[Hwf Hex] Hev].
  assert (Hops : forall p, ops_of p s' = ops_of p s) by (intros; unfold ops_of; by rewrite E6).
  assert (Hun : forall p, unregistered p s -> unregistered p s')
    by (intros p; unfold unregistered; by rewrite E4, E5).
  split_and!; [split|..].
  - destruct Hwf. constructor; rewrite ?E1, ?E2, ?E3, ?E4, ?E5, ?E6; eauto.
    intros a x Ha. destruct (wf_acceptor0 a x Ha). eauto.
  - intros Hs p x. rewrite E1, Hops. by apply Hex.
  - intros p x Hx. destruct (Hev p x Hx) as [Hk Hb]. split; [by rewrite E1|].
    intros Hs Hbz. unfold busy. rewrite E1, Hops. by apply Hb.
Qed.

Lemma safe_modify_core f : (forall s, same_core s (f s)) -> safe (modify f).
Proof. intros H s0. apply triple_modify. intros s Hs. by eapply at_same_core. Qed.

End Invariant.

Create HintDb safe.
#[export] Hint Resolve safe_ret safe_stop safe_gets safe_of_option safe_assert safe_int_op : safe.
