(* ===== verification/Safety.v ===== *)
(** * The operations of the skeleton keep its invariant

    Rules for the primitive steps of the skeleton ([update], [start], the
    registry operations), in a form a proof can chain: [Kst s0 p x l] says that
    the invariant holds, that the state evolved from [s0], that [p] points to
    [x] and that [l] is in flight on it.  Every operation of the interface of
    derived classes is [safe]. *)

From S2P Require Import Prelude Wire SocketInfo Skeleton Handlers Reactor Invariant.

Section Safety.
  Context {P : PROG} {B : Boost}.
  Variable strict : Prop.

  Local Abbreviation at_ := (at_ strict).
  Local Abbreviation safe := (safe strict).

(** ** One object changes *)

Definition put (p : ptr) (y : SocketInfo) (s : Skel) : Skel :=
  with_heap (<[p := y]> (heap s)) (next_ptr s) s.

(** [y] may stand where [x] is registered. *)
Definition same_place (x y : SocketInfo) : Prop :=
  is_client_ y = is_client_ x /\ remote_endpoint_ y = remote_endpoint_ x /\
  (is_client_ x = true \/ (in_use_ x = true -> in_use_ y = true)).

Lemma wf_put s p x y :
  wf s -> heap s !! p = Some x ->
  same_place x y \/ unregistered p s ->
  is_client_ y = false \/ acceptor_free p s ->
  (is_client_ x = true -> is_client_ y = true) \/ ops_of p s = [] ->
  wf (put p y s).
Proof.
  intros [Hheap Hsv Hclt Hops Hacs Hacr Hinj Hcon] Hp Hreg Hacc Hcn.
  assert (Hsame : forall q z, heap s !! q = Some z ->
            exists z', <[p := y]> (heap s) !! q = Some z' /\ (q <> p -> z' = z)).
  { intros q z Hq. destruct (decide (q = p)) as [->|Hne].
    - exists y. rewrite lookup_insert_eq. done.
    - exists z. by rewrite lookup_insert_ne. }
  constructor; simpl.
  - intros q. rewrite lookup_insert_is_Some'. intros [->|Hq]; eauto.
  - intros e q Hq. destruct (Hsv e q Hq) as (z & Hz & ? & ?).
    destruct (Hsame q z Hz) as (z' & Hz' & Hne). exists z'. split; [done|].
    destruct (decide (q = p)) as [->|]; [|rewrite Hne by done; done].
    rewrite lookup_insert_eq in Hz'. simplify_eq.
    destruct Hreg as [(-> & -> & _)|[Hu _]]; [done | by edestruct Hu].
  - intros e l q Hl Hq. destruct (Hclt e l q Hl Hq) as (z & Hz & ? & ?).
    destruct (Hsame q z Hz) as (z' & Hz' & Hne). exists z'. split; [done|].
    destruct (decide (q = p)) as [->|]; [|rewrite Hne by done; done].
    rewrite lookup_insert_eq in Hz'. simplify_eq.
    destruct Hreg as [(-> & -> & Hiu)|[_ Hu]]; [|by edestruct Hu]. split; [done|]. tauto.
  - intros o q Ho Hq. rewrite lookup_insert_is_Some'. right. eauto.
  - done.
  - intros a z Ha. destruct (Hacr a z Ha) as (Hun & w & Hw & Hc). split; [done|].
    destruct (Hsame _ w Hw) as (w' & Hw' & Hne). exists w'. split; [done|].
    destruct (decide (sk_info_ z = p)) as [Heq|]; [|by rewrite Hne].
    rewrite Heq, lookup_insert_eq in Hw'. simplify_eq.
    destruct Hacc as [->|Hf]; [done | by edestruct Hf].
  - done.
  - intros q to buf z Hq [[<- <-]|[_ Hz]]%lookup_insert_Some; [|by eapply Hcon].
    destruct Hcn as [Hcn|Hcn]; [by eapply Hcn, Hcon|].
    assert (Ho : async_connect p to buf ∈ ops_of p s) by (by apply list_elem_of_filter).
    rewrite Hcn in Ho. by apply not_elem_of_nil in Ho.
Qed.

Lemma client_not_acceptor s p x : wf s -> heap s !! p = Some x -> is_client_ x = true -> acceptor_free p s.
Proof.
  intros Hwf Hp Hc a z Ha Heq.
  destruct (wf_acceptor _ Hwf a z Ha) as (_ & w & Hw & ?). rewrite Heq in Hw. congruence.
Qed.

Lemma wf_put_same s p x y :
  wf s -> heap s !! p = Some x -> is_client_ y = is_client_ x ->
  remote_endpoint_ y = remote_endpoint_ x -> in_use_ y = in_use_ x -> wf (put p y s).
Proof.
  intros Hwf Hp Hc Hr Hu.
  apply (wf_put s p x); [done|done|left; split_and!; [done..|right; congruence]| |left; congruence].
  destruct (is_client_ y) eqn:E; [right|by left]. eapply client_not_acceptor; [done..|congruence].
Qed.

Lemma ops_of_put p q y s : ops_of q (put p y s) = ops_of q s.
Proof. done. Qed.

Lemma busy_put_ne p q y s : q <> p -> busy q (put p y s) <-> busy q s.
Proof. intros Hne. unfold busy. simpl. by rewrite lookup_insert_ne. Qed.

Lemma at_put s0 s p x y :
  at_ s0 s -> heap s !! p = Some x -> same_place x y \/ unregistered p s ->
  is_client_ y = false \/ acceptor_free p s ->
  (strict -> client_ok y (ops_of p s)) ->
  heap s0 !! p = None \/
    (is_client_ y = is_client_ x /\ type_ y = type_ x /\
     (strict -> busy p s -> lv_client y /\ in_use_ y = true /\ is_connected_ y = true)) ->
  (is_client_ x = true -> is_client_ y = true) \/ ops_of p s = [] ->
  at_ s0 (put p y s).
Proof.
  intros [[Hwf Hex] Hev] Hp Hreg Hacc Hcl Hold Hcn. split; [split|].
  - by eapply wf_put.
  - intros Hs q z. simpl. rewrite ops_of_put. destruct (decide (q = p)) as [->|Hne].
    + rewrite lookup_insert_eq. intros [= <-]. by apply Hcl.
    + rewrite lookup_insert_ne by done. by apply Hex.
  - intros q z Hq. destruct (Hev q z Hq) as [(z' & Hz' & Hc & Ht) Hb].
    destruct (decide (q = p)) as [->|Hne].
    + destruct Hold as [?|(Hy & Hyt & Hbusy)]; [congruence|]. simplify_eq. split.
      * exists y. simpl. rewrite lookup_insert_eq. split_and!; congruence.
      * intros Hs Hq'. specialize (Hb Hs Hq').
        destruct (Hbusy Hs Hb) as (? & ? & ?). exists y. simpl.
        rewrite lookup_insert_eq, ops_of_put. destruct Hb as (? & ? & ? & ? & ? & ?). done.
    + split; [exists z'; simpl; by rewrite lookup_insert_ne|].
      intros Hs Hq'. apply busy_put_ne; [done | by apply Hb].
Qed.

(** ** The chained assertion *)

Definition Kst (s0 : Skel) (p : ptr) (x : SocketInfo) (l : list AsyncOp) (s : Skel) : Prop :=
  at_ s0 s /\ heap s !! p = Some x /\ ops_of p s = l.

Lemma Kst_at s0 p x l s : Kst s0 p x l s -> at_ s0 s.
Proof. by intros [? _]. Qed.

Lemma triple_pure {A} (Pre : Skel -> Prop) (phi : Prop) (m : M Skel A) Q :
  (forall s, Pre s -> phi) -> (phi -> triple Pre m Q) -> triple Pre m Q.
Proof. intros H1 H2 s Hs. exact (H2 (H1 s Hs) s Hs). Qed.

Lemma K_deref {A} s0 p x l (k : SocketInfo -> M Skel A) Q :
  triple (Kst s0 p x l) (k x) Q -> triple (Kst s0 p x l) (bindM (deref p) k) Q.
Proof.
  intros H s Hs. specialize (H s Hs). destruct Hs as (_ & Hp & _).
  unfold deref, bindM, gets. by rewrite Hp.
Qed.

(** Entering the chain: [deref] finds an object, or the run is undefined. *)
Lemma K_enter {A} s0 p (k : SocketInfo -> M Skel A) Q :
  (forall x l, triple (Kst s0 p x l) (k x) Q) -> triple (at_ s0) (bindM (deref p) k) Q.
Proof.
  intros H s Hs. unfold deref, bindM, gets. destruct (heap s !! p) as [x|] eqn:E; [|done].
  by apply (H x (ops_of p s) s).
Qed.

Lemma K_gets {A C} (Pre : Skel -> Prop) (f : Skel -> A) (k : A -> M Skel C) Q :
  (forall a, triple Pre (k a) Q) -> triple Pre (bindM (gets f) k) Q.
Proof. intros H s Hs. by apply H. Qed.

Lemma update_put s p x f : heap s !! p = Some x -> update p f s = Ret tt (put p (f x) s).
Proof. intros Hp. unfold update, deref, bindM, gets, modify. by rewrite Hp. Qed.

Lemma K_update s0 p x l f :
  is_client_ (f x) = is_client_ x -> remote_endpoint_ (f x) = remote_endpoint_ x ->
  is_client_ x = true \/ (in_use_ x = true -> in_use_ (f x) = true) ->
  type_ (f x) = type_ x ->
  (strict -> client_ok (f x) l) ->
  (strict -> lv_client x -> in_use_ x = true -> is_connected_ x = true ->
     in_use_ (f x) = true /\ is_connected_ (f x) = true) ->
  triple (Kst s0 p x l) (update p f) (fun _ => Kst s0 p (f x) l).
Proof.
  intros Hc Hr Hiu Ht Hok Hbz s (Hat & Hp & Hl). rewrite (update_put s p x f Hp).
  split_and!; [|simpl; by rewrite lookup_insert_eq|done].
  eapply at_put; [done..|by left| | | |left; congruence].
  - destruct (is_client_ (f x)) eqn:E; [right | by left].
    eapply client_not_acceptor; [apply Hat|done|congruence].
  - by rewrite Hl.
  - right. split_and!; [done..|]. intros Hs (z & Hz & Hlv & Hu & Hcn & _). simplify_eq.
    destruct (Hbz Hs Hlv Hu Hcn) as (? & ?). split_and!; [|done..].
    destruct Hlv. split; congruence.
Qed.

(** A setter that the invariant does not look at. *)
Definition plain (f : SocketInfo -> SocketInfo) : Prop :=
  forall x, is_client_ (f x) = is_client_ x /\ remote_endpoint_ (f x) = remote_endpoint_ x /\
    type_ (f x) = type_ x /\ in_use_ (f x) = in_use_ x /\ is_connected_ (f x) = is_connected_ x.

Lemma client_ok_same x y l :
  is_client_ y = is_client_ x -> type_ y = type_ x -> in_use_ y = in_use_ x ->
  is_connected_ y = is_connected_ x -> client_ok x l -> client_ok y l.
Proof.
  intros E1 E2 E3 E4 H [Hc Ht]. rewrite E1 in Hc. rewrite E2 in Ht.
  specialize (H (conj Hc Ht)). destruct l as [|o [|]]; [done| |done].
  destruct o as [| |? ? []|? ? ? []| | | |]; simpl in *; rewrite ?E3, ?E4; done.
Qed.

Lemma Kst_client_ok s0 p x l s : strict -> Kst s0 p x l s -> client_ok x l.
Proof. intros Hs ([[_ Hex] _] & Hp & <-). by apply Hex. Qed.

Lemma K_plain s0 p x l f :
  plain f -> triple (Kst s0 p x l) (update p f) (fun _ => Kst s0 p (f x) l).
Proof.
  intros Hf. destruct (Hf x) as (? & ? & ? & ? & ?).
  eapply triple_pure; [intros s Hs; exact (fun H => Kst_client_ok _ _ _ _ _ H Hs)|].
  intros Hok. apply K_update; [done|done|right; congruence|done| |].
  - intros Hs. eapply client_ok_same; eauto.
  - intros. split_and!; congruence.
Qed.

Lemma safe_plain p f : plain f -> safe (update p f).
Proof.
  intros Hf s0 s Hs. destruct (heap s !! p) as [x|] eqn:Hp.
  - pose proof (K_plain s0 p x (ops_of p s) f Hf s (conj Hs (conj Hp eq_refl))) as H.
    destruct (update p f s); [by eapply Kst_at | done].
  - unfold update, deref, bindM, gets. by rewrite Hp.
Qed.

(** ** An operation starts *)

Lemma ops_of_start_eq o p s :
  op_socket o = Some p -> ops_of p (with_pending (pending s ++ [o]) s) = ops_of p s ++ [o].
Proof. intros H. unfold ops_of. simpl. by rewrite list.filter_app, filter_cons_True. Qed.

Lemma ops_of_start_ne o p s :
  op_socket o <> Some p -> ops_of p (with_pending (pending s ++ [o]) s) = ops_of p s.
Proof.
  intros H. unfold ops_of. simpl. rewrite list.filter_app, filter_cons_False by done.
  by rewrite app_nil_r.
Qed.

Lemma wf_start s o :
  wf s -> (forall p, op_socket o = Some p -> is_Some (heap s !! p)) ->
  (forall a, o = async_accept a -> is_Some (acceptors s !! a)) ->
  (forall p to buf x, o = async_connect p to buf -> heap s !! p = Some x -> is_client_ x = true) ->
  wf (with_pending (pending s ++ [o]) s).
Proof.
  intros [Hheap Hsv Hclt Hops Hacs Hacr Hinj Hcon] Hp Ha Hc.
  constructor; simpl; [done..| | |done|done|].
  - intros o' p Ho. apply elem_of_app in Ho as [?|Ho]; [eauto|].
    apply list_elem_of_singleton in Ho as ->. apply Hp.
  - intros a Ho. apply elem_of_app in Ho as [?|Ho]; [eauto|].
    apply list_elem_of_singleton in Ho as Ho. symmetry in Ho. by apply Ha in Ho.
  - intros p to buf x Ho Hx. apply elem_of_app in Ho as [?|Ho]; [by eapply Hcon|].
    apply list_elem_of_singleton in Ho. by eapply Hc.
Qed.

Definition is_connect (o : AsyncOp) : bool :=
  match o with async_connect _ _ _ => true | _ => false end.

Lemma start_on s0 p x l o :
  op_socket o = Some p -> is_connect o = false \/ is_client_ x = true ->
  (strict -> client_ok x (l ++ [o])) -> (strict -> busy p s0 -> False) ->
  triple (Kst s0 p x l) (start o) (fun _ => at_ s0).
Proof.
  intros Ho Hcc Hok Hnb s ([[Hwf Hex] Hev] & Hp & Hl). unfold start, modify. split; [split|].
  - apply wf_start; [done| |by intros a ->|].
    + intros q Hq. rewrite Hq in Ho. simplify_eq. eauto.
    + intros q to buf z -> Hz. simplify_eq/=. by destruct Hcc.
  - intros Hs q z. simpl. intros Hq. destruct (decide (q = p)) as [->|Hne].
    + simplify_eq. rewrite ops_of_start_eq by done. by apply Hok.
    + rewrite ops_of_start_ne by congruence. by apply Hex.
  - intros q z Hq. destruct (Hev q z Hq) as [Hk Hb]. split; [done|].
    intros Hs Hbz. destruct (decide (q = p)) as [->|Hne]; [by destruct Hnb|].
    destruct (Hb Hs Hbz) as (w & ? & ? & ? & ? & ?). exists w. split_and!; try done.
    by rewrite ops_of_start_ne by congruence.
Qed.

Lemma safe_start_plain o :
  op_socket o = None -> (forall a, o <> async_accept a) -> safe (start o).
Proof.
  intros Ho Ha s0 s [[Hwf Hex] Hev]. unfold start, modify. split; [split|].
  - apply wf_start; [done|by rewrite Ho| |by intros ???? ->]. intros a ->. by destruct (Ha a).
  - intros Hs q z Hq. rewrite ops_of_start_ne by (rewrite Ho; done). by apply Hex.
  - intros q z Hq. destruct (Hev q z Hq) as [Hk Hb]. split; [done|].
    intros Hs Hbz. destruct (Hb Hs Hbz) as (w & ? & ? & ? & ? & ?). exists w.
    split_and!; try done. by rewrite ops_of_start_ne by (rewrite Ho; done).
Qed.

(** On a socket that is not an LV client the invariant puts no condition. *)
Lemma start_other s0 p x l o :
  op_socket o = Some p -> is_connect o = false -> ~ lv_client x -> triple (Kst s0 p x l) (start o) (fun _ => at_ s0).
Proof.
  intros Ho Hcc Hlv. apply triple_pure with (phi := strict -> busy p s0 -> False).
  - intros s ([_ Hev] & Hp & _) Hs Hb. pose proof Hb as (z & Hz & _).
    destruct (proj2 (Hev p z Hz) Hs Hb) as (w & Hw & Hl & _).
    rewrite Hp in Hw. injection Hw as <-. by apply Hlv.
  - intros Hnb. apply start_on; [done|by left| |done]. intros _ H. by destruct Hlv.
Qed.

(** ** The registry *)

(** Changing the maps only. *)
Lemma at_maps s0 s s' :
  heap s' = heap s -> pending s' = pending s -> wf s' -> at_ s0 s -> at_ s0 s'.
Proof.
  intros Eh Ep Hwf [[_ Hex] Hev].
  assert (Hops : forall p, ops_of p s' = ops_of p s) by (intros; unfold ops_of; by rewrite Ep).
  split; [split|]; [done| |].
  - intros Hs p x. rewrite Eh, Hops. by apply Hex.
  - intros p x Hx. destruct (Hev p x Hx) as [Hk Hb]. split; [by rewrite Eh|].
    intros Hs Hbz. unfold busy. rewrite Eh, Hops. by apply Hb.
Qed.

Lemma wf_client_map s m :
  wf s ->
  (forall e l p, m !! e = Some l -> p ∈ l ->
     acceptor_free p s /\
     exists x, heap s !! p = Some x /\ remote_endpoint_ x = e /\
       (is_client_ x = true \/ in_use_ x = true)) ->
  wf (with_client_map m s).
Proof.
  intros [Hheap Hsv Hclt Hops Hacs Hacr Hinj Hcon] Hm. constructor; simpl; try done.
  - intros e l p Hl Hp. by apply (Hm e l p).
  - intros a x Ha. destruct (Hacr a x Ha) as ([Hu1 Hu2] & y & Hy & Hc). split; [split|eauto].
    + done.
    + simpl. intros e l Hl Hin. destruct (Hm e l _ Hl Hin) as [Hf _]. by apply (Hf a x).
Qed.

Lemma wf_listed_free s e l p :
  wf s -> tcp_client_socket_map_ s !! e = Some l -> p ∈ l -> acceptor_free p s.
Proof.
  intros Hwf He Hin a x Ha <-. destruct (wf_acceptor _ Hwf a x Ha) as [[_ Hu] _]. by apply (Hu e l).
Qed.

Lemma wf_server_map s m :
  wf s ->
  (forall e p, m !! e = Some p ->
     acceptor_free p s /\
     exists x, heap s !! p = Some x /\ remote_endpoint_ x = e /\ is_client_ x = false) ->
  wf (with_server_map m s).
Proof.
  intros [Hheap Hsv Hclt Hops Hacs Hacr Hinj Hcon] Hm. constructor; simpl; try done.
  - intros e p Hp. by apply (Hm e p).
  - intros a x Ha. destruct (Hacr a x Ha) as ([Hu1 Hu2] & Hy). split; [split|done].
    + simpl. intros e He. destruct (Hm e _ He) as [Hf _]. by apply (Hf a x).
    + done.
Qed.

Lemma wf_registered_free s e p :
  wf s -> tcp_server_socket_map_ s !! e = Some p -> acceptor_free p s.
Proof.
  intros Hwf He a x Ha <-. destruct (wf_acceptor _ Hwf a x Ha) as [[Hu _] _]. by apply (Hu e).
Qed.

Lemma insert_listed_K s0 p x l :
  is_client_ x = true \/ in_use_ x = true ->
  triple (fun s => Kst s0 p x l s /\ acceptor_free p s)
    (InsertTCPClientSocket (remote_endpoint_ x) p) (fun _ => Kst s0 p x l).
Proof.
  intros Hc s ((Hat & Hp & Hl) & Hfree). unfold InsertTCPClientSocket, bindM, gets, modify.
  set (m := tcp_client_socket_map_ s). set (old := default [] (m !! remote_endpoint_ x)).
  assert (Hat' : at_ s0 (with_client_map (<[remote_endpoint_ x := old ++ [p]]> m) s)).
  { apply (at_maps s0 s); [done|done| |done]. apply wf_client_map; [by apply Hat|].
    intros e k q. destruct (decide (e = remote_endpoint_ x)) as [->|Hne].
    - rewrite lookup_insert_eq. intros [= <-] [Hq|Hq]%elem_of_app.
      + unfold old in Hq. destruct (m !! remote_endpoint_ x) as [k|] eqn:E; simpl in Hq.
        * split; [by eapply wf_listed_free; [apply Hat|..]|by apply (wf_client _ (proj1 (proj1 Hat)) _ k)].
        * by apply not_elem_of_nil in Hq.
      + apply list_elem_of_singleton in Hq as ->. eauto.
    - rewrite lookup_insert_ne by done. intros Hk Hq.
      split; [by eapply wf_listed_free; [apply Hat|..]|by apply (wf_client _ (proj1 (proj1 Hat)) _ k)]. }
  unfold old in Hat'. destruct (m !! remote_endpoint_ x) as [k|]; by split_and!.
Qed.

Lemma insert_client_K s0 p x l :
  is_client_ x = true ->
  triple (Kst s0 p x l) (InsertTCPClientSocket (remote_endpoint_ x) p) (fun _ => Kst s0 p x l).
Proof.
  intros Hc s HK. apply (insert_listed_K s0 p x l (or_introl Hc)). split; [done|].
  destruct HK as (Hat & Hp & _). by eapply client_not_acceptor; [apply Hat|..].
Qed.

Lemma close_plain : plain close_tcp_sk.
Proof. by intros x. Qed.

Lemma safe_DestroySocket p : safe (DestroySocket p).
Proof.
  unfold DestroySocket. apply safe_bind; [apply safe_plain, close_plain | intros _].
  intros s0. apply K_enter. intros x l s (Hat & Hp & Hl).
  pose proof (proj1 (proj1 Hat)) as Hwf. destruct (is_client_ x) eqn:Hc.
  - unfold bindM, gets, modify.
    destruct (tcp_client_socket_map_ s !! remote_endpoint_ x) as [k|] eqn:E; [|done].
    apply (at_maps s0 s); [done|done| |done]. apply wf_client_map; [done|].
    intros e k' q. destruct (decide (e = remote_endpoint_ x)) as [->|Hne].
    + rewrite lookup_insert_eq. intros [= <-] [_ Hq]%elem_of_remove_all.
      split; [by eapply wf_listed_free|by apply (wf_client _ Hwf _ k)].
    + rewrite lookup_insert_ne by done. intros Hk Hq.
      split; [by eapply wf_listed_free|by apply (wf_client _ Hwf _ k')].
  - apply (at_maps s0 s); [done|done| |done]. apply wf_server_map; [done|].
    intros e q [_ Hq]%lookup_delete_Some.
    split; [by eapply wf_registered_free | by apply (wf_server _ Hwf)].
Qed.

Lemma find_idle_spec s0 l :
  triple (at_ s0) (find_idle_loop l) (fun r s => at_ s0 s /\
    match r with
    | None => True
    | Some p => p ∈ l /\ exists x, heap s !! p = Some x /\ in_use_ x = false /\ is_connected_ x = true
    end).
Proof.
  induction l as [|p l IH]; cbn [find_idle_loop].
  - by apply triple_ret.
  - apply K_enter. intros x k. destruct (in_use_ x || negb (is_connected_ x)) eqn:E.
    + eapply triple_conseq; [exact IH | by intros s [? _] |].
      intros [q|] s [? Hq]; split; [done| |done|done].
      destruct Hq as [? Hq]. split; [by right | done].
    + apply orb_false_elim in E as [? ?%negb_false_iff].
      apply triple_ret. intros s (? & ? & _). split; [done|]. split; [by left|eauto].
Qed.

Lemma find_idle_pure l s r s' : find_idle_loop l s = Ret r s' -> s' = s.
Proof.
  induction l as [|p l IH]; cbn [find_idle_loop]; [by intros [= _ <-]|].
  unfold deref, bindM, gets, of_option. destruct (heap s !! p) as [x|]; [|done]. simpl.
  destruct (in_use_ x || _); [apply IH | by intros [= _ <-]].
Qed.

Lemma FindIdle_pure e s r s' : FindIdleTCPClientSocket e s = Ret r s' -> s' = s.
Proof.
  unfold FindIdleTCPClientSocket, bindM, gets.
  destruct (_ !! e); [apply find_idle_pure|by intros [= _ <-]].
Qed.

(** A registered socket was found. *)
Definition found (ok : SocketInfo -> Prop) (s0 : Skel) (r : option ptr) (s : Skel) : Prop :=
  at_ s0 s /\
  match r with None => True | Some p => exists x, heap s !! p = Some x /\ ok x end.

Definition usable (x : SocketInfo) : Prop := is_client_ x = true -> is_connected_ x = true.

Lemma FindIdleTCPClientSocket_spec s0 e :
  triple (at_ s0) (FindIdleTCPClientSocket e) (found (fun x =>
    remote_endpoint_ x = e /\ is_client_ x = true /\ in_use_ x = false /\ is_connected_ x = true) s0).
Proof.
  intros s Hat. unfold FindIdleTCPClientSocket, bindM, gets.
  destruct (tcp_client_socket_map_ s !! e) as [l|] eqn:E; [|by split].
  pose proof (find_idle_spec s0 l s Hat) as H.
  destruct (find_idle_loop l s) as [[p|] s'|] eqn:Ef; [|by destruct H|done].
  rewrite (find_idle_pure _ _ _ _ Ef) in *. destruct H as (_ & Hin & x & Hx & ? & ?). split; [done|].
  exists x. split; [done|].
  destruct (wf_client _ (proj1 (proj1 Hat)) e l p E Hin) as (y & Hy & ? & Hk).
  assert (y = x) as -> by congruence. destruct Hk; [done|congruence].
Qed.

Lemma FindTCPServerSocket_spec s0 e :
  triple (at_ s0) (FindTCPServerSocket e)
    (found (fun x => remote_endpoint_ x = e /\ is_client_ x = false) s0).
Proof.
  intros s Hat. unfold FindTCPServerSocket, bindM, gets, ret. split; [done|].
  destruct (tcp_server_socket_map_ s !! e) as [p|] eqn:E; [|done].
  by apply (wf_server _ (proj1 (proj1 Hat))).
Qed.

(** Using what was found. *)
Lemma found_K {A} ok s0 p (m : M Skel A) Q :
  (forall x l, ok x -> triple (Kst s0 p x l) m Q) -> triple (found ok s0 (Some p)) m Q.
Proof.
  intros H s [Hat (x & Hx & Hok)]. by apply (H x (ops_of p s) Hok s).
Qed.

(** ** Allocation *)

Definition Fst (s0 : Skel) (p : ptr) (x : SocketInfo) (s : Skel) : Prop :=
  Kst s0 p x [] s /\ heap s0 !! p = None /\ unregistered p s /\ acceptor_free p s.

Lemma wf_alloc s x :
  wf s -> wf (with_heap (<[next_ptr s := x]> (heap s)) (N.succ (next_ptr s)) s).
Proof.
  intros [Hheap Hsv Hclt Hops Hacs Hacr Hinj Hcon].
  assert (Hold : forall q z, heap s !! q = Some z -> <[next_ptr s := x]> (heap s) !! q = Some z).
  { intros q z Hq. rewrite lookup_insert_ne; [done|]. intros <-.
    assert (next_ptr s < next_ptr s)%N by eauto. lia. }
  constructor; simpl.
  - intros p. rewrite lookup_insert_is_Some'. intros [<-|Hp]; [lia|]. specialize (Hheap p Hp). lia.
  - intros e p Hp. destruct (Hsv e p Hp) as (z & Hz & ?). eauto.
  - intros e l p Hl Hp. destruct (Hclt e l p Hl Hp) as (z & Hz & ?). eauto.
  - intros o p Ho Hp. destruct (Hops o p Ho Hp) as [z Hz]. eauto.
  - done.
  - intros a z Ha. destruct (Hacr a z Ha) as (? & w & Hw & ?). split; [done|eauto].
  - done.
  - intros p to buf z Ho [[<- <-]|[_ Hz]]%lookup_insert_Some; [|by eapply Hcon].
    destruct (Hops _ _ Ho eq_refl) as [w Hw]. assert (next_ptr s < next_ptr s)%N by eauto. lia.
Qed.

Lemma next_free s : wf s ->
  heap s !! next_ptr s = None /\ ops_of (next_ptr s) s = [] /\
  unregistered (next_ptr s) s /\ acceptor_free (next_ptr s) s.
Proof.
  intros Hwf.
  assert (Hn : heap s !! next_ptr s = None).
  { destruct (heap s !! next_ptr s) eqn:E; [|done].
    assert (next_ptr s < next_ptr s)%N by (apply (wf_heap _ Hwf); eauto). lia. }
  split_and!; [done| | |].
  - unfold ops_of. destruct (filter _ _) as [|o l] eqn:E; [done|].
    assert (Ho : o ∈ o :: l) by left. rewrite <- E in Ho.
    apply list_elem_of_filter in Ho as [Hp Ho]. destruct (wf_ops _ Hwf o _ Ho Hp). congruence.
  - split.
    + intros e He. destruct (wf_server _ Hwf e _ He) as (? & ? & _). congruence.
    + intros e l Hl Hin. destruct (wf_client _ Hwf e l _ Hl Hin) as (? & ? & _). congruence.
  - intros a x Ha Heq. destruct (wf_acceptor _ Hwf a x Ha) as (_ & y & Hy & _). congruence.
Qed.

Lemma at_alloc s0 s ty :
  at_ s0 s ->
  at_ s0 (with_heap (<[next_ptr s := new_SocketInfo ty (now s)]> (heap s)) (N.succ (next_ptr s)) s).
Proof.
  intros [[Hwf Hex] Hev]. destruct (next_free s Hwf) as (Hn & Ho & _ & _).
  assert (Hne : forall q z, heap s !! q = Some z -> next_ptr s <> q) by congruence.
  split; [split|].
  - by apply wf_alloc.
  - intros Hs q z. simpl. intros [[<- <-]|[? Hq]]%lookup_insert_Some; [|by apply Hex].
    by intros [? _].
  - intros q z Hq. destruct (Hev q z Hq) as [(z' & Hz' & Hc & Ht) Hb]. split.
    + exists z'. simpl. rewrite lookup_insert_ne by eauto. done.
    + intros Hs Hbz. destruct (Hb Hs Hbz) as (w & ? & ?). exists w. simpl.
      rewrite lookup_insert_ne by eauto. done.
Qed.

Lemma F_alloc {A} s0 ty (k : ptr -> M Skel A) Q :
  (forall p t, triple (Fst s0 p (new_SocketInfo ty t)) (k p) Q) ->
  triple (at_ s0) (bindM (alloc ty) k) Q.
Proof.
  intros H s Hat. unfold alloc, bindM, gets, modify, ret, id.
  apply (H (next_ptr s) (now s)). pose proof Hat as [[Hwf _] Hev].
  destruct (next_free s Hwf) as (Hn & Ho & ? & ?).
  split_and!; [split_and!| | |done]; simpl.
  - by apply at_alloc.
  - by rewrite lookup_insert_eq.
  - done.
  - by eapply evolves_dom.
  - done.
Qed.

(** A fresh object may be changed freely. *)
Lemma F_update s0 p x f : triple (Fst s0 p x) (update p f) (fun _ => Fst s0 p (f x)).
Proof.
  intros s ((Hat & Hp & Hl) & Hn & Hu & Ha). rewrite (update_put s p x f Hp).
  split_and!; [split_and!| | |done]; try done; simpl.
  - eapply at_put; [done..|by right|by right| |by left|by right]. rewrite Hl. by intros _ _.
  - by rewrite lookup_insert_eq.
Qed.

Lemma Fst_K s0 p x s : Fst s0 p x s -> Kst s0 p x [] s.
Proof. by intros [? _]. Qed.

(** ** The interface of derived classes *)

Lemma safe_ToWriteThenRead_sk s0 p x l buf :
  usable x -> triple (Kst s0 p x l) (ToWriteThenRead_sk p buf) (fun _ => at_ s0).
Proof.
  intros Hus. unfold ToWriteThenRead_sk. apply K_deref. destruct (is_client_ x) eqn:Hc.
  - specialize (Hus Hc). destruct (in_use_ x) eqn:Hu.
    { intros s Hs. done. }
    apply triple_pure with (phi := strict -> client_ok x l /\ (busy p s0 -> False)).
    { intros s ([[Hwf Hex] Hev] & Hp & Hl) Hs. split; [rewrite <- Hl; by apply Hex|].
      intros Hb. pose proof Hb as (z & Hz & _).
      destruct (proj2 (Hev p z Hz) Hs Hb) as (w & Hw & _ & Hwu & _). congruence. }
    intros Hst.
    assert (Hl : strict -> lv_client x -> l = []).
    { intros Hs Hlv. destruct (Hst Hs) as [Hok _]. specialize (Hok Hlv).
      destruct l as [|o [|? ?]]; [done| |done].
      destruct o as [| |? ? []|? ? ? []| | | |]; cbn in Hok; destruct Hok; congruence. }
    eapply triple_bind; [|intros []].
    { apply triple_bind with (R := fun _ => Kst s0 p x l); [by apply triple_assert|intros []].
      apply K_update; [done|done|by left|done| |congruence].
      intros Hs Hlv. rewrite Hl; done. }
    eapply triple_bind; [by apply K_plain|intros []]. apply K_deref.
    destruct (type_ x) eqn:Ht; cbn; rewrite ?Ht; try by apply triple_stop.
    + eapply triple_bind; [apply start_on; [done|by left| |intros Hs; by apply Hst]|intros []; by apply triple_ret].
      intros Hs Hlv. rewrite Hl; [|done|done]. done.
    + eapply triple_bind; [apply start_other; [done|done|]|intros []; by apply triple_ret].
      intros [_ Hx]. cbn in Hx. congruence.
  - apply triple_bind with (R := fun _ => Kst s0 p x l); [by apply triple_ret|intros []].
    eapply triple_bind; [by apply K_plain|intros []]. apply K_deref.
    destruct (type_ x) eqn:Ht; cbn; rewrite ?Ht; try by apply triple_stop.
    all: eapply triple_bind; [apply start_other; [done|done|]|intros []; by apply triple_ret].
    all: intros [Hx _]; cbn in Hx; congruence.
Qed.

End Safety.
