(* ===== verification/ApiSafety.v ===== *)
(** * Every operation of the interface of derived classes is safe

    The operations a program calls from its callbacks and from [main], on top
    of the rules of [Safety]. *)

From S2P Require Import Prelude Wire SocketInfo Skeleton Handlers Reactor Invariant Safety.

Section ApiSafety.
  Context {P : PROG} {B : Boost}.
  Variable strict : Prop.

  Local Abbreviation at_ := (at_ strict).
  Local Abbreviation safe := (safe strict).

(** Walk through a routine that only composes safe routines. *)
Ltac safe_step :=
  lazymatch goal with
  | |- Invariant.safe _ (bindM _ _) => apply safe_bind; [|intros ?]
  | |- Invariant.safe _ (if ?b then _ else _) => destruct b
  | |- Invariant.safe _ (match ?x with _ => _ end) => destruct x
  | |- Invariant.safe _ (update _ _) => apply safe_plain; by intros ?
  | |- _ => solve [auto with safe]
  end.
Ltac safe_tac := repeat safe_step.

Lemma safe_deref p : safe (deref p).
Proof. unfold deref. safe_tac. Qed.

Lemma safe_modify_other f : (forall s, same_core s (f s)) -> safe (modify f).
Proof. apply safe_modify_core. Qed.

Lemma safe_deref_udp : safe deref_udp.
Proof. unfold deref_udp. safe_tac. Qed.

Lemma safe_update_udp f : safe (update_udp f).
Proof.
  unfold update_udp. apply safe_bind; [apply safe_deref_udp|intros u].
  by apply safe_modify_core.
Qed.

Lemma safe_ToConnectThenWrite e ty buf cb : safe (ToConnectThenWrite e ty buf cb).
Proof.
  intros s0. unfold ToConnectThenWrite. apply F_alloc. intros p t.
  do 4 (eapply triple_bind; [apply F_update|intros []; cbv beta]).
  apply triple_pure with (phi := heap s0 !! p = None); [by intros s (_ & ? & _)|]. intros Hn.
  set (x := set_is_client true _).
  change (InsertTCPClientSocket e p) with (InsertTCPClientSocket (remote_endpoint_ x) p).
  apply triple_conseq with (P' := Kst strict s0 p x []) (Q' := fun _ => at_ s0);
    [|apply Fst_K|done].
  eapply triple_bind; [by apply insert_client_K|intros r]. apply K_deref.
  apply triple_bind with (R := fun _ => at_ s0); [|intros []; by apply triple_ret].
  apply start_on; [done|by right| |].
  - by intros _ _.
  - intros _ (z & Hz & _). congruence.
Qed.

Lemma safe_FindTCPServerSocket e : safe (FindTCPServerSocket e).
Proof. unfold FindTCPServerSocket. safe_tac. Qed.

Lemma safe_ToWriteThenRead e ty buf srv : safe (ToWriteThenRead e ty buf srv).
Proof.
  intros s0. unfold ToWriteThenRead. destruct srv.
  - eapply triple_bind; [apply FindTCPServerSocket_spec|intros [p|]].
    + apply found_K. intros x l [_ Hc]. apply safe_ToWriteThenRead_sk. intros ?. congruence.
    + apply triple_ret. by intros s [? _].
  - eapply triple_bind; [apply FindIdleTCPClientSocket_spec|intros [p|]].
    + apply found_K. intros x l (_ & _ & _ & ?). by apply safe_ToWriteThenRead_sk; intros _.
    + eapply triple_conseq; [apply safe_ToConnectThenWrite|by intros s [? _]|done].
Qed.

Lemma safe_ToWriteThenCallBack e ty buf srv cb : safe (ToWriteThenCallBack e ty buf srv cb).
Proof.
  intros s0. unfold ToWriteThenCallBack.
  eapply triple_bind; [apply FindIdleTCPClientSocket_spec|intros [p|]].
  - apply found_K. intros x l (_ & _ & _ & Hcon).
    eapply triple_bind; [by apply K_plain|intros []].
    eapply triple_bind; [by apply safe_ToWriteThenRead_sk; intros _|intros r; by apply triple_ret].
  - destruct srv; [apply triple_ret; by intros s [? _]|].
    eapply triple_conseq with (P' := at_ s0); [|by intros s [? _]|intros a s H; exact H].
    eapply triple_bind; [apply safe_ToConnectThenWrite|intros r; by apply triple_ret].
Qed.

(** Closing after the write is not tied to the flags of a client socket: only
    on a server socket does it keep [excl]. *)
Lemma safe_ToWriteThenClose e buf srv :
  (strict -> srv = true) -> safe (ToWriteThenClose e buf srv).
Proof.
  intros Hsrv s0. unfold ToWriteThenClose.
  set (ok := fun x => strict -> is_client_ x = false).
  apply triple_bind with (R := found strict ok s0); [|intros [p|]].
  - destruct srv.
    + eapply triple_conseq; [apply FindTCPServerSocket_spec|done|].
      intros [p|] s [? H]; (split; [done|]); [|done].
      destruct H as (x & ? & _ & ?). exists x. split; [done|by intros _].
    + eapply triple_conseq; [apply FindIdleTCPClientSocket_spec|done|].
      intros [p|] s [? H]; (split; [done|]); [|done].
      destruct H as (x & ? & _). exists x. split; [done|]. intros Hs. by specialize (Hsrv Hs).
  - apply found_K. intros x l Hok.
    eapply triple_bind; [by apply K_plain|intros []]. apply K_deref.
    apply triple_bind with (R := fun _ => at_ s0); [|intros []; by apply triple_ret].
    apply triple_pure with (phi := strict -> busy p s0 -> False).
    { intros s ([[Hwf Hex] Hev] & Hp & Hl) Hs Hb. pose proof Hb as (z & Hz & _).
      destruct (proj2 (Hev p z Hz) Hs Hb) as (w & Hw & [Hlv _] & _).
      rewrite Hp in Hw. injection Hw as <-. cbn in Hlv. specialize (Hok Hs). congruence. }
    intros Hnb. apply start_on; [done|by left| |done].
    intros Hs [Hx _]. cbn in Hx. specialize (Hok Hs). congruence.
  - intros s Hs. done.
Qed.

(** The blocking call: a new socket is not marked as a client's, but it is in use
    and stays so. *)
Lemma safe_ToWriteThenReadSync e buf ty fill io : safe (ToWriteThenReadSync e buf ty fill io).
Proof.
  unfold ToWriteThenReadSync. apply safe_bind.
  { intros s0. eapply triple_post; [apply FindIdleTCPClientSocket_spec|]. by intros r s [? _]. }
  intros fnd. apply safe_bind.
  { destruct fnd; [apply safe_bind; [apply safe_deref|intros x; apply safe_assert]|apply safe_ret]. }
  intros []. destruct (bool_decide _); [apply safe_ret|]. apply safe_bind.
  - destruct fnd as [p|]; [apply safe_ret|]. intros s0. apply F_alloc. intros p t.
    eapply triple_bind; [apply F_update|intros []; cbv beta].
    destruct (negb _); [apply triple_ret; by intros s ((? & _) & _)|].
    do 2 (eapply triple_bind; [apply F_update|intros []; cbv beta]).
    set (x := set_in_use true _).
    change (InsertTCPClientSocket e p) with (InsertTCPClientSocket (remote_endpoint_ x) p).
    eapply triple_bind; [|intros r; apply triple_ret; intros s; exact (Kst_at strict s0 p x [] s)].
    eapply triple_conseq; [by apply (insert_listed_K strict s0 p x []); right| |done].
    by intros s (HK & _ & _ & Hf).
  - assert (Hd : forall p (r : Z * list byte), safe (DestroySocket p ;;! ret r))
      by (intros p r; apply safe_bind; [apply safe_DestroySocket|intros z; apply safe_ret]).
    intros [p|]; [|apply safe_ret]. apply safe_bind; [apply safe_plain; by intros ?|intros []].
    destruct (negb _); [apply Hd|]. destruct (negb _); [apply Hd|].
    apply safe_bind; [apply safe_of_option|intros w]. cbv zeta.
    apply safe_bind; [apply safe_gets|intros c]. destruct (_ || _); [apply Hd|].
    apply safe_bind; [apply safe_of_option|intros b].
    apply safe_bind; [destruct (0 <? _); [apply safe_stop|apply safe_ret]|intros []].
    destruct (negb _); [apply Hd|]. destruct (_ =? _); [apply safe_ret|apply safe_stop].
Qed.

Lemma safe_UDPToWrite e buf : safe (UDPToWrite e buf).
Proof.
  unfold UDPToWrite. apply safe_bind; [apply safe_deref_udp|intros u].
  destruct (AddSendBuf e buf u) as [r u'].
  apply safe_bind; [by apply safe_modify_core|intros []].
  destruct (r <? 0); [apply safe_ret|]. destruct (negb _); [|apply safe_ret].
  apply safe_bind; [apply safe_of_option|intros front].
  apply safe_bind; [by apply safe_start_plain|intros []].
  apply safe_bind; [apply safe_update_udp|intros []]. apply safe_ret.
Qed.

Lemma safe_udp_set_recv_buf_size n : safe (udp_set_recv_buf_size n).
Proof. unfold udp_set_recv_buf_size. destruct (n <? 0); [apply safe_stop|apply safe_update_udp]. Qed.

Lemma safe_UDPToRead : safe UDPToRead.
Proof.
  unfold UDPToRead. apply safe_bind; [apply safe_gets|intros c].
  apply safe_bind; [apply safe_udp_set_recv_buf_size|intros []].
  apply safe_bind; [by apply safe_start_plain|intros []]. apply safe_ret.
Qed.

Lemma safe_AddTimerHandler h : safe (AddTimerHandler h).
Proof. by apply safe_modify_core. Qed.

Lemma safe_InitUDPSocket e ec : safe (InitUDPSocket e ec).
Proof.
  unfold InitUDPSocket. apply safe_bind; [by apply safe_modify_core|intros []].
  destruct (negb (ec =? 0)); [apply safe_ret|].
  apply safe_bind; [apply safe_update_udp|intros []].
  apply safe_bind; [apply safe_gets|intros c].
  apply safe_bind; [apply safe_udp_set_recv_buf_size|intros []].
  apply safe_bind; [by apply safe_start_plain|intros []]. apply safe_ret.
Qed.

Lemma safe_Run : safe Run.
Proof.
  unfold Run. apply safe_bind; [apply safe_gets|intros c].
  apply safe_bind; [apply safe_AddTimerHandler|intros []]. by apply safe_start_plain.
Qed.

Lemma safe_Stop : safe Stop.
Proof. by apply safe_modify_core. Qed.

(** ** Acceptors *)

(** Giving acceptor [a] a fresh socket. *)
Lemma at_put_acceptor s0 s a ty sk y n :
  at_ s0 s -> heap s !! sk = Some y -> is_client_ y = false ->
  unregistered sk s -> acceptor_free sk s -> (next_ptr s <= n)%N ->
  at_ s0 (with_acceptors (<[a := mkTCPAcceptorInfo ty sk]> (acceptors s)) (with_heap (heap s) n s)).
Proof.
  intros Hat Hy Hc Hu Hf Hn. eapply (at_maps strict s0 s); [done|done| |done].
  destruct Hat as [[[Hheap Hsv Hclt Hops Hacs Hacr Hinj Hcon] _] _]. constructor; simpl; try done.
  - intros p Hp. specialize (Hheap p Hp). lia.
  - intros b Hb. rewrite lookup_insert_is_Some'. eauto.
  - intros b x [[<- <-]|[_ Hb]]%lookup_insert_Some; [eauto|by apply (Hacr b)].
  - intros b c x z [[<- <-]|[Hb Hx]]%lookup_insert_Some [[<- <-]|[Hc' Hz]]%lookup_insert_Some;
      simpl; intros Heq; [done|exfalso; by apply (Hf c z)|exfalso; by apply (Hf b x)|by eapply Hinj].
Qed.

Lemma Reset_spec s0 a : triple (at_ s0) (Reset a) (fun _ => at_ s0).
Proof.
  unfold Reset, deref_acceptor. eapply triple_bind with (R := fun _ => at_ s0).
  { apply safe_bind; [apply safe_gets|intros h; apply safe_of_option]. }
  intros x. apply F_alloc. intros p t. apply triple_modify.
  intros s ((Hat & Hp & _) & _ & Hu & Hf).
  pose proof (at_put_acceptor s0 s a (acc_type_ x) p _ (next_ptr s) Hat Hp eq_refl Hu Hf) as H.
  destruct s. apply H. simpl. lia.
Qed.

Lemma safe_AddTCPAcceptor e ty ok : safe (AddTCPAcceptor e ty ok).
Proof.
  intros s0. unfold AddTCPAcceptor. apply F_alloc. intros p t s ((Hat & Hp & _) & _ & Hu & Hf).
  unfold bindM, gets, modify, id. set (s1 := with_acceptors _ _).
  assert (Hat1 : at_ s0 s1) by (apply (at_put_acceptor s0 s _ _ _ _ _ Hat Hp eq_refl Hu Hf); lia).
  assert (Ha1 : is_Some (acceptors s1 !! next_ptr s)) by (simpl; rewrite lookup_insert_eq; eauto).
  clearbody s1. destruct ok; [|done]. unfold InsertTCPAcceptor, bindM, gets, modify, ret. simpl.
  destruct (tcp_acceptor_map_ s1 !! e); [done|]. simpl.
  set (s2 := with_acceptor_map _ _). assert (Hat2 : at_ s0 s2) by (by apply (at_same_core strict s0 s1)).
  change (at_ s0 (with_pending (pending s2 ++ [async_accept (next_ptr s)]) s2)).
  destruct Hat2 as [[Hwf Hex] Hev]. split; [split|].
  - apply wf_start; [done|done| |done]. intros b [= <-]. exact Ha1.
  - intros Hs q z Hq. rewrite ops_of_start_ne by done. by apply Hex.
  - intros q z Hq. destruct (Hev q z Hq) as [Hk Hb]. split; [done|].
    intros Hs Hbz. destruct (Hb Hs Hbz) as (w & ? & ? & ? & ? & ?). exists w.
    split_and!; try done. by rewrite ops_of_start_ne by done.
Qed.

End ApiSafety.

#[export] Hint Resolve safe_deref safe_deref_udp safe_update_udp safe_ToConnectThenWrite
  safe_FindTCPServerSocket safe_ToWriteThenReadSync safe_ToWriteThenRead safe_ToWriteThenCallBack safe_UDPToWrite
  safe_UDPToRead safe_AddTimerHandler safe_InitUDPSocket safe_Run safe_Stop
  safe_AddTCPAcceptor safe_DestroySocket : safe.
