(* ===== verification/HandlerSafety.v ===== *)
(** * The handlers keep the invariant

    [ProgramSafe] is what a program promises to the skeleton: its callbacks are
    [safe], which they are as soon as they only use the interface of derived
    classes ([ApiSafety]).  Under that contract every completion handler keeps
    the invariant, whatever the system answers. *)

From S2P Require Import Prelude Wire SocketInfo Skeleton Handlers Reactor Invariant Safety ApiSafety.

(** The contract of a program with the skeleton. *)
Class ProgramSafe {P : PROG} {B : Boost} (G : Program) (strict : Prop) := {
  ProcessData_safe buf fip fp tip tp t : safe strict (ProcessData buf fip fp tip tp t);
  call_cb_safe cb buf fip fp tip tp t : safe strict (call_cb cb buf fip fp tip tp t);
  call_timer_safe h : safe strict (call_timer h);
}.

Section HandlerSafety.
  Context {P : PROG} {B : Boost} {G : Program}.
  Variable strict : Prop.
  Context {HG : ProgramSafe G strict}.
  Variable s0 : Skel.
  Hypothesis Hs0 : heap s0 = ∅.

  Local Abbreviation at_ := (at_ strict).
  Local Abbreviation safe := (safe strict).
  Local Abbreviation Kst := (Kst strict s0).

(** On an LV client socket whose handler runs nothing is in flight. *)
Definition running (x : SocketInfo) (l : list AsyncOp) : Prop :=
  strict -> lv_client x -> l = [] /\ in_use_ x = true /\ is_connected_ x = true.

(** A handler that is never bound to an LV client. *)
Definition not_lv (x : SocketInfo) : Prop := strict -> ~ lv_client x.

Lemma running_plain f x l : plain f -> running x l -> running (f x) l.
Proof.
  intros Hf H Hs [Hc Ht]. destruct (Hf x) as (E1 & _ & E2 & E3 & E4).
  rewrite E3, E4. apply H; [done|]. split; congruence.
Qed.

Lemma not_lv_plain f x : plain f -> not_lv x -> not_lv (f x).
Proof.
  intros Hf H Hs [Hc Ht]. destruct (Hf x) as (E1 & _ & E2 & _). apply (H Hs). split; congruence.
Qed.

Lemma not_lv_running x l : not_lv x -> running x l.
Proof. intros H Hs Hl. by destruct (H Hs). Qed.

Lemma s0_none p : heap s0 !! p = None.
Proof. by rewrite Hs0, lookup_empty. Qed.

Lemma s0_not_busy p : busy p s0 -> False.
Proof. intros (x & Hx & _). by rewrite s0_none in Hx. Qed.

(** From the empty state everything is an evolution. *)
Lemma at_intro s : inv strict s -> at_ s0 s.
Proof. intros H. split; [done|]. intros p x Hx. by rewrite s0_none in Hx. Qed.

(** How every handler leaves its socket: still there and of the same kind. *)
Definition kept {A} (p : ptr) (x : SocketInfo) (_ : A) (s : Skel) : Prop :=
  exists y l, Kst p y l s /\ is_client_ y = is_client_ x /\ type_ y = type_ x.

Lemma Kst_kept {A} p x l (a : A) s : Kst p x l s -> kept p x a s.
Proof. intros H. by exists x, l. Qed.

Lemma kept_at {A} p x (a : A) s : kept p x a s -> at_ s0 s.
Proof. by intros (y & l & [? _] & _). Qed.

Lemma kept_trans {A} p x y (a : A) s :
  is_client_ y = is_client_ x -> type_ y = type_ x -> kept p y a s -> kept p x a s.
Proof. intros Hc Ht (z & l & HK & ? & ?). exists z, l. split_and!; [done|congruence..]. Qed.

Lemma kept_plain {A} p x f (a : A) s : plain f -> kept p (f x) a s -> kept p x a s.
Proof.
  intros Hf. destruct (Hf x) as (E1 & _ & E2 & _). by apply kept_trans.
Qed.

(** The socket of an operation keeps its kind through a routine that returns
    something else. *)
Lemma kept_ret {A C} p x (m : M Skel A) (c : C) (Pre : Skel -> Prop) :
  triple Pre m (kept p x) -> triple Pre (m ;;! ret c) (kept p x).
Proof. intros H. eapply triple_bind; [exact H|intros a; by apply triple_ret]. Qed.

Lemma H_update p x l f :
  is_client_ (f x) = is_client_ x -> remote_endpoint_ (f x) = remote_endpoint_ x ->
  is_client_ x = true \/ (in_use_ x = true -> in_use_ (f x) = true) ->
  (strict -> client_ok (f x) l) ->
  triple (Kst p x l) (update p f) (fun _ => Kst p (f x) l).
Proof.
  intros Hc Hr Hiu Hok s (Hat & Hp & Hl). rewrite (update_put s p x f Hp).
  split_and!; [|simpl; by rewrite lookup_insert_eq|done].
  eapply at_put; [done..|by left| | |left; apply s0_none|left; congruence].
  - destruct (is_client_ (f x)) eqn:E; [right | by left].
    eapply client_not_acceptor; [apply Hat|done|congruence].
  - by rewrite Hl.
Qed.

Lemma H_start p x l o :
  op_socket o = Some p -> is_connect o = false -> (strict -> lv_client x -> l = [] /\ phase o x) ->
  triple (Kst p x l) (start o) (kept p x).
Proof.
  intros Ho Hcc H s HK. exists x, (l ++ [o]). split_and!; [|done..].
  split_and!; [|apply HK|].
  - refine (start_on strict s0 p x l o Ho (or_introl Hcc) _ _ s HK); [|by intros _ ?%s0_not_busy].
    intros Hs Hl. by destruct (H Hs Hl) as [-> ?].
  - rewrite ops_of_start_eq by done. by destruct HK as (_ & _ & ->).
Qed.

Lemma DestroySocket_put s p x r s' :
  heap s !! p = Some x -> DestroySocket p s = Ret r s' ->
  heap s' = <[p := close_tcp_sk x]> (heap s) /\ pending s' = pending s.
Proof.
  intros Hp. unfold DestroySocket, bindM. rewrite (update_put s p x) by done.
  unfold deref, bindM, gets, of_option, modify, ret. simpl. rewrite lookup_insert_eq.
  change (is_client_ (close_tcp_sk x)) with (is_client_ x).
  change (remote_endpoint_ (close_tcp_sk x)) with (remote_endpoint_ x).
  destruct (is_client_ x); simpl;
    [destruct (tcp_client_socket_map_ s !! remote_endpoint_ x)|]; intros ?; by simplify_eq/=.
Qed.

Lemma H_destroy p x l : triple (Kst p x l) (DestroySocket p ;;! ret tt) (kept p x).
Proof.
  apply kept_ret. intros s (Hat & Hp & Hl).
  pose proof (safe_DestroySocket strict p s0 s Hat) as H.
  destruct (DestroySocket p s) as [r s'|] eqn:E; [|done].
  destruct (DestroySocket_put s p x r s' Hp E) as [Eh Ep].
  exists (close_tcp_sk x), l. split_and!; [split_and!|done..]; [done| |].
  - by rewrite Eh, lookup_insert_eq.
  - unfold ops_of. by rewrite Ep.
Qed.

Lemma H_Touch {A} p x l (k : M Skel A) :
  (forall t, triple (Kst p (Touch t x) l) k (kept p (Touch t x))) ->
  triple (Kst p x l) (Touch_now p ;;! k) (kept p x).
Proof.
  intros H s Hs. unfold Touch_now, bindM at 1. unfold bindM at 1, gets.
  pose proof (K_plain strict s0 p x l (Touch (now s)) ltac:(by intros ?) s Hs) as Hu.
  destruct (update p (Touch (now s)) s) as [[] s'|]; [by apply (H (now s))|done].
Qed.

Lemma H_plain {A} p x l f (k : M Skel A) :
  plain f -> triple (Kst p (f x) l) k (kept p (f x)) ->
  triple (Kst p x l) (update p f ;;! k) (kept p x).
Proof.
  intros Hf H. eapply triple_bind; [by apply K_plain|intros []].
  eapply triple_post; [exact H|]. intros ? s. by apply kept_plain.
Qed.

Lemma H_gets {A C} (Pre : Skel -> Prop) (f : Skel -> A) (k : A -> M Skel C) Q :
  (forall a, triple Pre (k a) Q) -> triple Pre (bindM (gets f) k) Q.
Proof. apply K_gets. Qed.

Lemma H_of_option {A C} (Pre : Skel -> Prop) h (o : option A) (k : A -> M Skel C) Q :
  (forall a, o = Some a -> triple Pre (k a) Q) -> triple Pre (bindM (of_option h o) k) Q.
Proof. intros H. destruct o; [by apply H|by intros ? ?]. Qed.

Lemma H_int_op {C} (Pre : Skel -> Prop) z (k : Z -> M Skel C) Q :
  triple Pre (k z) Q -> triple Pre (bindM (int_op z) k) Q.
Proof. intros H. unfold int_op. destruct (in_int z); [done|by intros ? ?]. Qed.

Lemma H_assert {C} (Pre : Skel -> Prop) b (k : M Skel C) Q :
  (b = true -> triple Pre k Q) -> triple Pre (assert_ b ;;! k) Q.
Proof. intros H. destruct b; [by apply H|by intros ? ?]. Qed.

(** ** Reading *)

Lemma plain_recv_vec b : plain (SetRecvBuf_vec b).
Proof. by intros x. Qed.

Lemma H_ToReadLThenReadV p x l :
  running x l -> triple (Kst p x l) (ToReadLThenReadV p) (kept p x).
Proof.
  intros Hr. unfold ToReadLThenReadV. apply H_plain; [by intros ?|].
  apply kept_ret. apply (H_start p (SetRecvBuf 4 x)); [done|done|].
  intros Hs Hl. by destruct (Hr Hs Hl) as (? & ? & ?).
Qed.

Lemma H_set_recv_buf_size {A} p x l n (k : M Skel A) :
  triple (Kst p (SetRecvBuf n x) l) k (kept p (SetRecvBuf n x)) ->
  triple (Kst p x l) (set_recv_buf_size p n ;;! k) (kept p x).
Proof.
  intros H. unfold set_recv_buf_size. destruct (n <? 0); [by intros ? ?|].
  by apply H_plain; [intros ?|].
Qed.

Lemma H_condition {A} p x l ec n (k : Z -> M Skel A) Q :
  (forall r f, plain f -> triple (Kst p (f x) l) (k r) Q) ->
  triple (Kst p x l) (bindM (HTTPHeadReadCompletionCondition ec p n) k) Q.
Proof.
  intros H. unfold HTTPHeadReadCompletionCondition.
  destruct (negb (ec =? 0)); [by apply (H 0 id); intros ?|].
  apply triple_bind with (R := fun r => Kst p (set_recv_buf_filled (to_size (recv_buf_filled_ x + n)) x) l).
  - apply K_deref. eapply triple_bind; [by apply K_plain|intros []]. apply K_deref.
    destruct (search _ _); [by apply triple_ret|]. destruct (_ =? _); by apply triple_ret.
  - intros r. by apply (H r (set_recv_buf_filled _)); intros ?.
Qed.

Lemma H_start_read_head p x l :
  not_lv x -> triple (Kst p x l) (start_read_head p) (kept p x).
Proof.
  intros Hn. unfold start_read_head. apply K_deref. apply H_condition. intros r f Hf.
  eapply triple_post; [|intros ? s; by apply kept_plain].
  apply H_start; [done|done|]. intros Hs Hl. by destruct (not_lv_plain f x Hf Hn Hs).
Qed.

Lemma H_ToReadHTTPHead p x l :
  not_lv x -> triple (Kst p x l) (ToReadHTTPHeadThenReadHTTPContent p) (kept p x).
Proof.
  intros Hn. unfold ToReadHTTPHeadThenReadHTTPContent. apply H_gets. intros c.
  apply H_set_recv_buf_size. apply kept_ret. by apply H_start_read_head.
Qed.

(** ** Processing a packet *)

Lemma process_safe p : safe (process p).
Proof.
  unfold process. apply safe_bind; [apply safe_deref|intros x].
  apply safe_bind; [apply safe_gets|intros t].
  destruct (cb_ x); [apply call_cb_safe|apply ProcessData_safe].
Qed.

(** After its callback a socket is still there, of the same kind, and an LV
    client is as it was. *)
Definition processed (p : ptr) (x : SocketInfo) (s : Skel) : Prop :=
  exists y l, Kst p y l s /\ is_client_ y = is_client_ x /\ type_ y = type_ x /\ running y l.

Lemma H_process p x l :
  running x l -> triple (Kst p x l) (process p) (fun _ => processed p x).
Proof.
  intros Hr s ([Hi _] & Hp & Hl). destruct (process p s) as [r s'|] eqn:E; [|done].
  destruct (safe_start_anywhere strict _ _ _ _ (process_safe p) Hi E) as [Hi' Hev].
  destruct (Hev p x Hp) as [(y & Hy & Hc & Ht) Hb]. exists y, (ops_of p s').
  split_and!; [split_and!|done|done|]; [by apply at_intro|done|done|]. intros Hs [Hcy Hty].
  assert (Hlx : lv_client x) by (split; congruence). destruct (Hr Hs Hlx) as (-> & ? & ?).
  destruct (Hb Hs) as (w & Hw & _ & ? & ? & ?); [by exists x|]. by simplify_eq.
Qed.

(** [again] is a read that fits the socket. *)
Lemma H_after_process p x r again :
  (forall y l, is_client_ y = false -> type_ y = type_ x ->
     triple (Kst p y l) (again p) (kept p y)) ->
  triple (processed p x) (after_process p r again) (kept p x).
Proof.
  intros Hagain s (y & l & HK & Hc & Ht & Hr).
  enough (H : triple (Kst p y l) (after_process p r again) (kept p y)).
  { specialize (H s HK). destruct (after_process p r again s); [|done].
    by eapply kept_trans. }
  clear s HK. unfold after_process.
  destruct (r <? 0); [apply H_destroy|]. apply K_deref.
  assert (Hend : forall b, triple (Kst p y l) (assert_ b) (kept p y)).
  { intros b s HK. destruct b; [by eapply Kst_kept|done]. }
  destruct (r =? 0); [apply Hend|]. destruct (r =? 1).
  { apply H_assert; intros Hcl. apply H_assert; intros _.
    eapply triple_post; [apply (H_update p y l); [done|done|by left|]|].
    - intros Hs Hl. by destruct (Hr Hs Hl) as [-> _].
    - intros ? s HK. by exists (set_in_use false y), l. }
  destruct (r =? 2); [apply H_assert; intros _; apply Hend|].
  destruct (r =? 3); [|by apply triple_stop]. apply H_assert. intros Hn%negb_true_iff.
  apply kept_ret. by apply Hagain.
Qed.

(** ** The handlers *)

Lemma H_HandleReadVThenProcess ec p n x l :
  running x l -> triple (Kst p x l) (HandleReadVThenProcess ec p n) (kept p x).
Proof.
  intros Hr. unfold HandleReadVThenProcess. destruct (negb (ec =? 0)); [apply H_destroy|].
  apply H_Touch. intros t. apply K_deref. apply H_of_option. intros w _. apply H_int_op.
  apply H_assert. intros _.
  eapply triple_bind; [apply H_process; by apply (running_plain (Touch t))|intros r].
  apply H_after_process. intros y k Hy _. apply H_ToReadLThenReadV.
  intros _ [? _]. congruence.
Qed.

Lemma H_HandleReadHTTPContent ec p n x l :
  not_lv x -> triple (Kst p x l) (HandleReadHTTPContentThenProcess ec p n) (kept p x).
Proof.
  intros Hn. unfold HandleReadHTTPContentThenProcess.
  destruct (negb (ec =? 0)); [by apply triple_ret; intros s; apply Kst_kept|].
  do 2 (apply H_plain; [by intros ?|]). apply H_Touch. intros t.
  eapply triple_bind; [apply H_process|intros r].
  - apply not_lv_running. intros Hs Hl. by destruct (Hn Hs).
  - apply H_after_process. intros y k Hy _. apply H_ToReadHTTPHead. intros _ [? _]. congruence.
Qed.

Lemma H_HandleWriteThenReadHTTPHead ec p n x l :
  not_lv x -> triple (Kst p x l) (HandleWriteThenReadHTTPHead ec p n) (kept p x).
Proof.
  intros Hn. unfold HandleWriteThenReadHTTPHead. destruct (negb (ec =? 0)); [apply H_destroy|].
  apply H_Touch. intros t. apply H_gets. intros c. apply H_set_recv_buf_size.
  apply H_start_read_head. intros Hs Hl. by destruct (Hn Hs).
Qed.

Lemma H_HandleWriteThenReadL ec p n x l :
  running x l -> triple (Kst p x l) (HandleWriteThenReadL ec p n) (kept p x).
Proof.
  intros Hr. unfold HandleWriteThenReadL.
  destruct (negb (ec =? 0)); [by apply triple_ret; intros s; apply Kst_kept|].
  apply H_Touch. intros t. apply H_plain; [by intros ?|].
  apply H_start; [done|done|]. intros Hs Hl. by destruct (Hr Hs Hl) as (? & ? & ?).
Qed.

Lemma H_HandleAnythingThenNothing ec p n x l :
  triple (Kst p x l) (HandleAnythingThenNothing ec p n) (kept p x).
Proof.
  unfold HandleAnythingThenNothing. destruct (negb (ec =? 0)); [apply H_destroy|].
  unfold Touch_now. apply H_gets. intros t.
  eapply triple_post; [by apply K_plain|]. intros ? s HK. by exists (Touch t x), l.
Qed.

Lemma SetRecvBuf_vec_id t (x : SocketInfo) :
  SetRecvBuf_vec (recv_buf_ x) (Touch t x) = Touch t x.
Proof. by destruct x. Qed.

Lemma H_HandleReadLThenReadV ec p n x l :
  running x l -> triple (Kst p x l) (HandleReadLThenReadV ec p n) (kept p x).
Proof.
  intros Hr. unfold HandleReadLThenReadV. destruct (negb (ec =? 0)); [apply H_destroy|].
  apply H_Touch. intros t. apply K_deref. apply H_of_option. intros w _.
  apply H_gets. intros c. destruct (_ <? bswap32 w); [apply H_destroy|].
  apply triple_bind with (R := fun _ s => exists b, Kst p (SetRecvBuf_vec b (Touch t x)) l s).
  - destruct (_ <? bswap32 w).
    + eapply triple_bind; [by apply K_plain; intros ?|intros []]. apply K_deref.
      apply H_of_option. intros b _.
      eapply triple_post; [by apply K_plain; intros ?|]. intros ? s HK. by exists b.
    + apply triple_ret. intros s HK. exists (recv_buf_ x). by rewrite SetRecvBuf_vec_id.
  - intros [] s [b HK]. revert s HK. apply H_int_op.
    apply (H_start p (SetRecvBuf_vec b (Touch t x))); [done|done|]. intros Hs Hl. by destruct (Hr Hs Hl) as (? & ? & ?).
Qed.

Lemma H_HandleReadHTTPHead ec p n x l :
  not_lv x -> triple (Kst p x l) (HandleReadHTTPHeadThenReadHTTPContent ec p n) (kept p x).
Proof.
  intros Hn. unfold HandleReadHTTPHeadThenReadHTTPContent.
  destruct (negb (ec =? 0)); [apply H_destroy|].
  apply H_Touch. intros t. apply K_deref.
  assert (Hret : triple (Kst p (Touch t x) l) (ret tt) (kept p (Touch t x)))
    by (apply triple_ret; intros s; apply Kst_kept).
  destruct (search HTTP_key_end _); [|exact Hret].
  destruct (search HTTP_key_length _); [|apply H_destroy].
  destruct (lexical_cast_int _); [|exact Hret].
  apply H_int_op. apply H_gets. intros c. destruct (_ <? _); [apply H_destroy|].
  apply triple_bind with (R := fun _ s => exists b, Kst p (SetRecvBuf_vec b (Touch t x)) l s).
  { destruct (_ <? _).
    - eapply triple_post; [by apply K_plain; intros ?|]. intros ? s HK. eexists. exact HK.
    - apply triple_ret. intros s HK. exists (recv_buf_ x). by rewrite SetRecvBuf_vec_id. }
  intros [] s [b HK]. revert s HK.
  apply (triple_bind (Kst p (SetRecvBuf_vec b (Touch t x)) l) _ _ (kept p (SetRecvBuf_vec b (Touch t x)))).
  - destruct (_ =? 0).
    + by apply (H_HandleReadHTTPContent ec p n (SetRecvBuf_vec b (Touch t x))).
    + apply (H_start p (SetRecvBuf_vec b (Touch t x))); [done|done|].
      intros Hs Hl. by destruct (Hn Hs).
  - intros [] s (y & k & HK & Hc & Ht). revert s HK.
    assert (Hy : not_lv y) by (cbn in Hc, Ht; intros Hs [? ?]; apply (Hn Hs); split; congruence).
    eapply triple_post; [|intros ? s; by apply kept_trans].
    destruct (bool_decide _); [|apply triple_ret; intros s; apply Kst_kept].
    apply H_plain; [by intros ?|]. apply K_deref.
    apply (H_start p (SetSendBuf continue_head y)); [done|done|]. intros Hs Hl. by destruct (Hy Hs).
Qed.

End HandlerSafety.
