(* ===== verification/Reachable.v ===== *)
(** * The invariant holds in every reachable state

    The remaining handlers (connect, accept, timer, UDP), the event loop, and
    the theorems about all reachable states. *)

From S2P Require Import Prelude Wire SocketInfo Skeleton Handlers Reactor.
From S2P Require Import Invariant Safety ApiSafety HandlerSafety.

Section Reachable.
  Context {P : PROG} {B : Boost} {G : Program}.
  Variable strict : Prop.
  Context {HG : ProgramSafe G strict}.

Section From_empty.
  Variable s0 : Skel.
  Hypothesis Hs0 : heap s0 = ∅.

  Local Abbreviation at_ := (at_ strict).
  Local Abbreviation safe := (safe strict).
  Local Abbreviation Kst := (Kst strict s0).
  Local Abbreviation kept := (kept strict s0).

(** ** Connect *)

Lemma H_HandleConnectThenWrite ec p buf local x l :
  is_client_ x = true ->
  (strict -> lv_client x -> l = [] /\ in_use_ x = false /\ is_connected_ x = false) ->
  triple (Kst p x l) (HandleConnectThenWrite ec p buf local) (kept p x).
Proof.
  intros Hc Hl. unfold HandleConnectThenWrite. destruct (negb (ec =? 0)); [by apply H_destroy|].
  apply H_Touch. intros t. destruct local as [e|]; [|by apply H_destroy].
  apply H_plain; [by intros ?|].
  set (x1 := set_local_endpoint e (Touch t x)).
  assert (Hok : forall f, strict -> lv_client (f x1) -> is_client_ (f x1) = is_client_ x ->
            type_ (f x1) = type_ x -> l = []).
  { intros f Hs [? ?] ??. apply (Hl Hs). split; congruence. }
  eapply triple_bind; [apply (H_update strict s0 Hs0 p x1 l (set_is_connected true)); [done|done|by left|]|intros []].
  { intros Hs Hlv. by rewrite (Hok (set_is_connected true)). }
  apply K_deref. apply H_assert. intros Hu.
  eapply triple_bind; [apply H_update with (l := l); [done|done|done|by left|]|intros []].
  { intros Hs Hlv. by rewrite (Hok (fun _ => set_in_use true (set_is_connected true x1))). }
  eapply triple_bind; [by apply K_plain|intros []].
  set (x2 := SetSendBuf buf _).
  change (remote_endpoint_ (set_is_connected true x1)) with (remote_endpoint_ x2).
  eapply triple_bind; [by apply insert_client_K|intros r]. apply K_deref.
  assert (Hkx : forall (a : unit) s, kept p x2 a s -> kept p x a s)
    by (intros a s; by apply kept_trans).
  destruct (type_ x2) eqn:Ht; try by apply triple_stop.
  all: eapply triple_post; [apply (H_start strict s0 Hs0 p x2); [done|done|]|exact Hkx].
  - intros Hs Hlv. split; [|done]. by apply (Hok (fun _ => x2)).
  - intros Hs [_ Hx]. congruence.
Qed.

(** ** Accept *)

(** The socket an acceptor has just handed over. *)
Definition Ast (p : ptr) (x : SocketInfo) (s : Skel) : Prop :=
  at_ s0 s /\ heap s !! p = Some x /\ is_client_ x = false /\ unregistered p s.

Definition Bst (p : ptr) (x : SocketInfo) (s : Skel) : Prop := Ast p x s /\ acceptor_free p s.

Lemma at_put_server s p x y :
  Ast p x s -> is_client_ y = false -> at_ s0 (put p y s).
Proof.
  intros (Hat & Hp & Hc & Hu) Hy. apply (at_put strict s0 s p x y); [done|done|by right|by left| | |left; congruence].
  - intros _ [? _]. congruence.
  - left. by rewrite Hs0, lookup_empty.
Qed.

Lemma A_update p x f :
  is_client_ (f x) = false -> triple (Ast p x) (update p f) (fun _ => Ast p (f x)).
Proof.
  intros Hf s HA. pose proof HA as (Hat & Hp & Hc & Hu). rewrite (update_put s p x f Hp).
  split_and!; [by eapply at_put_server|simpl; by rewrite lookup_insert_eq|done|done].
Qed.

Lemma B_update p x f :
  is_client_ (f x) = false -> triple (Bst p x) (update p f) (fun _ => Bst p (f x)).
Proof.
  intros Hf s [HA Hfree]. pose proof (A_update p x f Hf s HA) as H.
  rewrite (update_put s p x f) in * by apply HA. by split.
Qed.

Lemma A_Reset a ai x :
  triple (fun s => Ast (sk_info_ ai) x s /\ acceptors s !! a = Some ai) (Reset a)
    (fun _ s => Bst (sk_info_ ai) x s /\ is_Some (acceptors s !! a)).
Proof.
  intros s ((Hat & Hp & Hc & Hu) & Ha). pose proof (Reset_spec strict s0 a s Hat) as H.
  revert H. unfold Reset, deref_acceptor, bindM, gets, of_option. rewrite Ha. simpl.
  unfold alloc, bindM, gets, modify, ret, id. intros H.
  pose proof Hat as [[Hwf _] _]. destruct (next_free s Hwf) as (Hn & _).
  assert (Hne : next_ptr s <> sk_info_ ai) by congruence.
  split; [split; [split_and!|]|simpl; rewrite lookup_insert_eq; eauto];
    [done|simpl; by rewrite lookup_insert_ne|done|exact Hu|].
  intros b y. simpl. intros [[<- <-]|[Hb Hy]]%lookup_insert_Some; [done|]. intros Heq.
  by apply Hb, (wf_acc_inj _ Hwf a b ai y).
Qed.

Lemma B_insert p x :
  triple (Bst p x) (InsertTCPServerSocket (remote_endpoint_ x) p) (fun r s =>
    (r = 0 /\ exists l, Kst p x l s) \/ (r = -1 /\ at_ s0 s)).
Proof.
  intros s ((Hat & Hp & Hc & Hu) & Hf). unfold InsertTCPServerSocket, bindM, gets, modify, ret.
  destruct (tcp_server_socket_map_ s !! remote_endpoint_ x) eqn:E; [by right|]. left.
  split; [done|]. exists (ops_of p s). split_and!; [|done|done].
  pose proof Hat as [[Hwf _] _]. apply (at_maps strict s0 s); [done|done| |done].
  apply wf_server_map; [done|]. intros e q [[<- <-]|[_ Hq]]%lookup_insert_Some; [eauto|].
  split; [by eapply wf_registered_free|by apply (wf_server _ Hwf)].
Qed.

Lemma start_accept a s :
  at_ s0 s -> is_Some (acceptors s !! a) ->
  at_ s0 (with_pending (pending s ++ [async_accept a]) s).
Proof.
  intros [[Hwf Hex] Hev] Ha. split; [split|].
  - apply wf_start; [done|done| |done]. by intros b [= <-].
  - intros Hs q z Hq. rewrite ops_of_start_ne by done. by apply Hex.
  - intros q z Hq. by rewrite Hs0, lookup_empty in Hq.
Qed.

(** The steps of an accept that leave the acceptors alone. *)
Local Abbreviation keeps_acceptors F m :=
  (triple (fun s => F (acceptors s)) m (fun _ s => F (acceptors s))).

Ltac acc_tac :=
  repeat lazymatch goal with
    | |- triple ?Pre (bindM _ _) _ => apply triple_bind with (R := fun _ => Pre); [|intros ?]
    | |- triple _ (ret _) _ => apply triple_ret; intros ? H; exact H
    | |- triple _ (gets _) _ => apply triple_gets; intros ? H; exact H
    | |- triple _ (modify _) _ => apply triple_modify; intros ? H; exact H
    | |- triple _ (stop _) _ => apply triple_stop
    | |- triple _ (of_option _ _) _ => apply triple_of_option; intros ? ? H ?; exact H
    | |- triple _ (if ?b then _ else _) _ => destruct b
    | |- triple _ (match ?x with _ => _ end) _ => destruct x
    end.

Lemma acc_update (F : gmap N TCPAcceptorInfo -> Prop) p f : keeps_acceptors F (update p f).
Proof. unfold update, deref. acc_tac. Qed.

Lemma acc_deref (F : gmap N TCPAcceptorInfo -> Prop) p : keeps_acceptors F (deref p).
Proof. unfold deref. acc_tac. Qed.

Lemma acc_start (F : gmap N TCPAcceptorInfo -> Prop) o : keeps_acceptors F (start o).
Proof. unfold start. acc_tac. Qed.

Lemma acc_set_recv_buf_size (F : gmap N TCPAcceptorInfo -> Prop) p n : keeps_acceptors F (set_recv_buf_size p n).
Proof. unfold set_recv_buf_size. destruct (n <? 0); [acc_tac|apply acc_update]. Qed.

Ltac acc_step := first [apply acc_update | apply acc_deref | apply acc_start
                       | apply acc_set_recv_buf_size | progress acc_tac].

Lemma acc_DestroySocket (F : gmap N TCPAcceptorInfo -> Prop) p : keeps_acceptors F (DestroySocket p).
Proof. unfold DestroySocket. repeat acc_step. Qed.

Lemma acc_ToReadL (F : gmap N TCPAcceptorInfo -> Prop) p : keeps_acceptors F (ToReadLThenReadV p).
Proof. unfold ToReadLThenReadV. repeat acc_step. Qed.

Lemma acc_ToReadHTTP (F : gmap N TCPAcceptorInfo -> Prop) p : keeps_acceptors F (ToReadHTTPHeadThenReadHTTPContent p).
Proof.
  unfold ToReadHTTPHeadThenReadHTTPContent, start_read_head, HTTPHeadReadCompletionCondition.
  repeat acc_step.
Qed.

Lemma acc_InsertTCPServerSocket (F : gmap N TCPAcceptorInfo -> Prop) e p : keeps_acceptors F (InsertTCPServerSocket e p).
Proof. unfold InsertTCPServerSocket. repeat acc_step. Qed.

Lemma acc_read_first (F : gmap N TCPAcceptorInfo -> Prop) sk ty :
  keeps_acceptors F
    (match ty with
     | T_TCP_HTTP =>
         let! r := ToReadHTTPHeadThenReadHTTPContent sk in
         if r <? 0 then DestroySocket sk ;;! ret tt else ret tt
     | T_TCP_LV =>
         let! r := ToReadLThenReadV sk in
         if r <? 0 then DestroySocket sk ;;! ret tt else ret tt
     | _ => stop HAssert
     end).
Proof.
  destruct ty; try apply triple_stop.
  all: apply triple_bind with (R := fun _ s => F (acceptors s));
    [apply acc_ToReadL || apply acc_ToReadHTTP|intros r].
  all: destruct (r <? 0); [|acc_tac].
  all: eapply triple_bind; [apply acc_DestroySocket|intros z; by apply triple_ret].
Qed.

Lemma K_deref_and {A} p x l (F : Skel -> Prop) (k : SocketInfo -> M Skel A) Q :
  triple (fun s => Kst p x l s /\ F s) (k x) Q ->
  triple (fun s => Kst p x l s /\ F s) (bindM (deref p) k) Q.
Proof.
  intros H s Hs. specialize (H s Hs). destruct Hs as ((_ & Hp & _) & _).
  unfold deref, bindM, gets. by rewrite Hp.
Qed.

(** Chaining a fact of [Ast] or [Bst] with the acceptors. *)
Lemma and_bind {A C} (P1 P2 : Skel -> Prop) (R1 : A -> Skel -> Prop) (m : M Skel A)
    (k : A -> M Skel C) Q :
  triple P1 m R1 -> triple P2 m (fun _ => P2) ->
  (forall a, triple (fun s => R1 a s /\ P2 s) (k a) Q) ->
  triple (fun s => P1 s /\ P2 s) (bindM m k) Q.
Proof.
  intros H1 H2 Hk. eapply triple_bind; [by apply triple_and|exact Hk].
Qed.

(** The part of the handler after the socket is set up. *)
Lemma H_accept_read sk x (ty : SocketType) :
  is_client_ x = false -> forall l,
  triple (Kst sk x l)
    (match ty with
     | T_TCP_HTTP =>
         let! r := ToReadHTTPHeadThenReadHTTPContent sk in
         if r <? 0 then DestroySocket sk ;;! ret tt else ret tt
     | T_TCP_LV =>
         let! r := ToReadLThenReadV sk in
         if r <? 0 then DestroySocket sk ;;! ret tt else ret tt
     | _ => stop HAssert
     end) (fun _ => at_ s0).
Proof.
  intros Hc l.
  assert (Hend : forall r, triple (kept sk x r)
            (if r <? 0 then DestroySocket sk ;;! ret tt else ret tt) (fun _ => at_ s0)).
  { intros r. destruct (r <? 0); [|apply triple_ret; intros s; apply kept_at].
    intros s (y & k & HK & _). pose proof (H_destroy strict s0 sk y k s HK) as H.
    destruct ((DestroySocket sk ;;! ret tt) s); [by eapply kept_at|done]. }
  destruct ty; try apply triple_stop.
  - eapply triple_bind; [apply H_ToReadLThenReadV; [done|]|exact Hend].
    intros _ [? _]. congruence.
  - eapply triple_bind; [apply H_ToReadHTTPHead; [done|]|exact Hend].
    intros _ [? _]. congruence.
Qed.

Lemma H_HandleAccept ec a remote local :
  triple (fun s => at_ s0 s /\ is_Some (acceptors s !! a)) (HandleAccept ec a remote local)
    (fun _ => at_ s0).
Proof.
  unfold HandleAccept. destruct (negb (ec =? 0)); [apply triple_stop|].
  intros s (Hat & ai & Ha). unfold deref_acceptor, gets. unfold bindM at 1 2, of_option.
  rewrite Ha. simpl.
  destruct (wf_acceptor _ (proj1 (proj1 Hat)) a ai Ha) as (Hu & y & Hy & Hc).
  enough (H : triple (fun s => Ast (sk_info_ ai) y s /\ acceptors s !! a = Some ai)
                _ (fun _ => at_ s0)) by (apply (H s); by split_and!).
  clear s Hat Ha Hu Hy. set (sk := sk_info_ ai).
  set (F1 := fun h : gmap N TCPAcceptorInfo => h !! a = Some ai).
  set (F2 := fun h : gmap N TCPAcceptorInfo => is_Some (h !! a)).
  do 3 (eapply (and_bind _ (fun s => F1 (acceptors s)));
        [by apply A_update|apply acc_update|intros []]).
  eapply triple_bind; [apply A_Reset|intros []]. fold sk.
  set (x := set_type _ _). assert (Hx : is_client_ x = false) by done. clearbody x.
  apply triple_conseq with (P' := fun s => Bst sk x s /\ F2 (acceptors s))
    (Q' := fun _ => at_ s0); [|done|done].
  assert (Hret : triple (fun s => Bst sk x s /\ F2 (acceptors s)) (ret tt) (fun _ => at_ s0))
    by (apply triple_ret; by intros s [[[? _] _] _]).
  destruct remote as [e1|]; [|exact Hret]. destruct local as [e2|]; [|exact Hret].
  do 2 (eapply (and_bind _ (fun s => F2 (acceptors s)));
        [by apply B_update|apply acc_update|intros []]).
  set (x1 := set_local_endpoint _ _). change e1 with (remote_endpoint_ x1) at 1.
  eapply (and_bind _ (fun s => F2 (acceptors s)));
    [apply B_insert|apply acc_InsertTCPServerSocket|intros r].
  intros s [[[-> [l HK]]|[-> _]] HF]; [|done]. unfold bindM at 1. simpl assert_.
  revert s HK HF. enough (H : triple (fun s => Kst sk x1 l s /\ F2 (acceptors s))
      _ (fun _ => at_ s0)) by (intros s HK HF; exact (H s (conj HK HF))).
  apply K_gets. intros c. unfold set_recv_buf_size.
  destruct (init_recv_buf_size_ c <? 0); [by intros s _|].
  eapply (and_bind _ (fun s => F2 (acceptors s)));
    [by apply K_plain; intros ?|apply acc_update|intros []].
  apply K_deref_and. eapply (and_bind _ (fun s => F2 (acceptors s)));
    [by apply H_accept_read|apply acc_read_first|intros []].
  apply triple_modify. intros s [Hat HF]. by apply start_accept.
Qed.

(** ** Timer *)

Lemma safe_sweep_step t it : safe (sweep_step t it).
Proof.
  unfold sweep_step. apply safe_bind; [apply safe_deref|intros x].
  destruct (access_time_ x <? t); [|apply safe_ret].
  apply safe_bind; [|intros []; apply safe_plain, close_plain].
  intros s1. apply triple_modify. intros s Hat. apply (at_maps strict s1 s); [done|done| |done].
  pose proof Hat as [[Hwf _] _]. apply wf_server_map; [done|].
  intros e q [_ Hq]%lookup_delete_Some.
  split; [by eapply wf_registered_free|by apply (wf_server _ Hwf)].
Qed.

Lemma safe_HandleTimeout ec : safe (HandleTimeout ec).
Proof.
  unfold HandleTimeout. apply safe_bind.
  - destruct (negb (ec =? 0)); [apply safe_ret|]. apply safe_bind; [apply safe_gets|intros l].
    apply safe_forM. intros [ms|h]; [|apply call_timer_safe]. cbn. unfold SweepServerSocket.
    do 2 (apply safe_bind; [apply safe_gets|intros ?]). apply safe_forM, safe_sweep_step.
  - intros []. apply safe_bind; [apply safe_gets|intros c]. by apply safe_start_plain.
Qed.

(** ** UDP *)

Lemma safe_HandleUDPWrite ec e n : safe (HandleUDPWrite ec e n).
Proof.
  unfold HandleUDPWrite. apply safe_bind; [apply safe_deref_udp|intros u].
  destruct (negb _).
  - apply safe_bind; [apply safe_of_option|intros r]. by apply safe_start_plain.
  - apply safe_bind; [apply safe_assert|intros []]. apply safe_update_udp.
Qed.

Lemma safe_HandleUDPRead ec n : safe (HandleUDPRead ec n).
Proof.
  unfold HandleUDPRead. apply safe_bind; [apply safe_deref_udp|intros u].
  apply safe_bind; [apply safe_gets|intros t].
  apply safe_bind; [apply ProcessData_safe|intros r].
  destruct (r <? 0); [apply safe_ret|]. destruct (r =? 0); [apply safe_stop|].
  destruct (r =? 1); [apply safe_ret|]. destruct (r =? 2); [apply safe_stop|].
  destruct (r =? 3); [|apply safe_stop].
  apply safe_bind; [apply safe_UDPToRead|intros z; apply safe_ret].
Qed.

Lemma safe_receive_from ec e data : safe (receive_from ec e data).
Proof.
  unfold receive_from. destruct (negb (ec =? 0)); [apply safe_ret|].
  apply safe_bind; [apply safe_deref_udp|intros u].
  apply safe_bind; [apply safe_of_option|intros b].
  apply safe_bind; [apply safe_update_udp|intros []]. apply safe_ret.
Qed.

(** ** Completions *)

Lemma H_receive p x l off data :
  triple (Kst p x l) (receive p off data) (fun _ s => exists b, Kst p (SetRecvBuf_vec b x) l s).
Proof.
  unfold receive. destruct (zlen data =? 0).
  - apply triple_ret. intros s HK. exists (recv_buf_ x).
    replace (SetRecvBuf_vec (recv_buf_ x) x) with x; [done|by destruct x].
  - apply K_deref. apply H_of_option. intros b _.
    eapply triple_post; [by apply K_plain; intros ?|]. intros ? s HK. by exists b.
Qed.

(** After [receive] the rest of a completion runs on the same kind of socket. *)
Lemma receive_then {A} p x l off data (k : M Skel A) Q :
  (forall b, triple (Kst p (SetRecvBuf_vec b x) l) k Q) ->
  triple (Kst p x l) (receive p off data ;;! k) Q.
Proof.
  intros H. eapply triple_bind; [apply H_receive|]. intros [] s [b HK]. by apply (H b).
Qed.

Lemma to_at {A} p x l (m : M Skel A) :
  triple (Kst p x l) m (kept p x) -> triple (Kst p x l) m (fun _ => at_ s0).
Proof. intros H. eapply triple_post; [exact H|]. intros a s. apply kept_at. Qed.

Lemma H_read_head_step p x l total ec data :
  not_lv strict x -> triple (Kst p x l) (read_head_step p total ec data) (fun _ => at_ s0).
Proof.
  intros Hn. unfold read_head_step. apply receive_then. intros b.
  apply H_condition. intros r f Hf. apply K_deref.
  set (y := f (SetRecvBuf_vec b x)).
  assert (Hy : not_lv strict y) by (by apply not_lv_plain).
  destruct (_ || _); apply to_at.
  - by apply H_HandleReadHTTPHead.
  - apply H_start; [done|done|done|]. intros Hs Hl. by destruct (Hy Hs).
Qed.

Definition completing (o : AsyncOp) (s : Skel) : Prop :=
  at_ s0 s /\
  (forall p, op_socket o = Some p -> exists x, heap s !! p = Some x /\
     (is_connect o = true -> is_client_ x = true) /\
     (strict -> lv_client x -> ops_of p s = [] /\ phase o x)) /\
  (forall a, o = async_accept a -> is_Some (acceptors s !! a)).

Lemma complete_safe o c : triple (completing o) (complete o c) (fun _ => at_ s0).
Proof.
  intros s (Hat & Hp & Ha).
  enough (H : forall p, op_socket o = Some p -> forall x l,
            (is_connect o = true -> is_client_ x = true) ->
            (strict -> lv_client x -> l = [] /\ phase o x) ->
            triple (Kst p x l) (complete o c) (fun _ => at_ s0)).
  { destruct (op_socket o) as [p|] eqn:Eo.
    - destruct (Hp p eq_refl) as (x & Hx & Hcc & Hph).
      by apply (H p eq_refl x (ops_of p s) Hcc Hph s).
    - destruct o, c; simplify_eq/=; try done.
      + apply H_HandleAccept. split; eauto.
      + by apply safe_HandleTimeout.
      + by apply safe_HandleUDPWrite.
      + refine (safe_bind strict _ _ _ _ s0 s Hat);
          [apply safe_receive_from|intros n; apply safe_HandleUDPRead]. }
  clear s Hat Hp Ha. intros p Ho x l Hcc Hph.
  destruct o as [|sk to buf|sk data h|sk off n h|sk total n| | |], c; simplify_eq/=;
    try (apply triple_ret; by intros s [? _]).
  - apply to_at. apply H_HandleConnectThenWrite; [by apply Hcc|exact Hph].
  - destruct h; apply to_at; simpl in Hph.
    + apply H_HandleWriteThenReadHTTPHead; [done|].
      intros Hs Hl. by destruct (Hph Hs Hl) as [_ []].
    + by apply H_HandleWriteThenReadL.
    + by apply H_destroy.
    + by apply H_HandleAnythingThenNothing.
  - apply receive_then. intros b. destruct h; apply to_at; simpl in Hph.
    + by apply H_HandleReadLThenReadV.
    + by apply H_HandleReadVThenProcess.
    + apply (H_HandleReadHTTPContent strict s0 Hs0).
      intros Hs Hl. by destruct (Hph Hs Hl) as [_ []].
  - apply H_read_head_step. intros Hs Hl. by destruct (Hph Hs Hl) as [_ []].
Qed.

(** Taking an operation out of the pending ones. *)
Lemma take_op s i o :
  inv strict s -> pending s !! i = Some o -> completing o (with_pending (delete i (pending s)) s).
Proof.
  intros [Hwf Hex] Hi. set (s' := with_pending _ s).
  assert (Hsplit : exists l1 l2, pending s = l1 ++ o :: l2 /\ delete i (pending s) = l1 ++ l2).
  { exists (take i (pending s)), (drop (S i) (pending s)).
    split; [by rewrite take_drop_middle|by rewrite delete_take_drop]. }
  destruct Hsplit as (l1 & l2 & E1 & E2).
  assert (Hin : forall o', o' ∈ pending s' -> o' ∈ pending s).
  { intros o'. simpl. rewrite E2, E1, !elem_of_app, elem_of_cons. naive_solver. }
  assert (Ho : o ∈ pending s) by (rewrite E1; apply elem_of_app; right; left).
  assert (Hops : forall p, (op_socket o <> Some p -> ops_of p s' = ops_of p s) /\
            (op_socket o = Some p -> forall q, ops_of p s = [q] -> ops_of p s' = [] /\ q = o)).
  { intros p. unfold ops_of. simpl. rewrite E2, E1, !list.filter_app. split; intros Hp.
    - by rewrite filter_cons_False.
    - rewrite filter_cons_True by done. intros q Hq.
      destruct (filter _ l1) as [|q1 k1]; simplify_eq/=.
      + split; [|done]. by destruct (filter _ l2).
      + by destruct k1. }
  assert (Hok : forall p x, strict -> heap s !! p = Some x -> client_ok x (ops_of p s')).
  { intros p x Hs Hx Hl. specialize (Hex Hs p x Hx Hl). destruct (Hops p) as [Hne Heq].
    destruct (decide (op_socket o = Some p)) as [Hp|Hp]; [|by rewrite Hne].
    destruct (ops_of p s) as [|q [|? ?]] eqn:Eq; [|by destruct (Heq Hp q eq_refl) as [-> _]|done].
    exfalso. assert (Hf : o ∈ ops_of p s) by (by apply list_elem_of_filter).
    rewrite Eq in Hf. by apply not_elem_of_nil in Hf. }
  destruct Hwf as [Hheap Hsv Hclt Hopsw Hacs Hacr Hinj Hcon]. split_and!.
  - apply at_intro; [done|]. split; [|intros Hs p x Hx; by apply Hok].
    constructor; simpl; eauto.
  - intros p Hp. destruct (Hopsw o p Ho Hp) as [x Hx]. exists x. split_and!; [done| |].
    + intros Hcc. destruct o; simplify_eq/=. by eapply Hcon.
    + intros Hs Hl. specialize (Hex Hs p x Hx Hl).
      destruct (ops_of p s) as [|q [|? ?]] eqn:Eq; [|by destruct (proj2 (Hops p) Hp q) as [-> ->]|done].
      exfalso. assert (Hf : o ∈ ops_of p s) by (by apply list_elem_of_filter).
      rewrite Eq in Hf. by apply not_elem_of_nil in Hf.
  - intros a ->. by apply Hacs.
Qed.

End From_empty.

(** ** The event loop and the calls *)

Lemma deliver_inv ev : preserves (inv strict) (deliver ev).
Proof.
  intros s Hs. unfold deliver, bindM, gets, modify, ret.
  destruct (stopped s); [done|]. destruct ev as [i c|t].
  - destruct (pending s !! i) as [o|] eqn:Hi; [|done]. destruct (permitted o c); [|done].
    set (s0 := with_heap ∅ 0%N s).
    pose proof (complete_safe s0 eq_refl o c _ (take_op s0 eq_refl s i o Hs Hi)) as H.
    destruct (complete o c _); [|done]. by destruct H.
  - refine (safe_preserves strict _ (safe_modify_core strict (with_now t) _) s Hs). done.
Qed.

(** Closing a client connection after a write is the one call that needs
    [strict] to be false. *)
Definition call_ok (k : Call) : Prop :=
  match k with KToWriteThenClose _ _ srv => strict -> srv = true | _ => True end.

Lemma call_safe k : call_ok k -> safe strict (call k).
Proof.
  intros Hk. destruct k; simpl.
  - apply safe_InitUDPSocket.
  - apply safe_bind; [apply safe_AddTimerHandler|intros []; apply safe_ret].
  - apply safe_AddTCPAcceptor.
  - apply safe_bind; [apply safe_Run|intros []; apply safe_ret].
  - apply safe_bind; [apply safe_Stop|intros []; apply safe_ret].
  - apply safe_UDPToWrite.
  - apply safe_ToWriteThenCallBack.
  - apply safe_ToWriteThenRead.
  - by apply safe_ToWriteThenClose.
  - apply safe_bind; [apply safe_ToWriteThenReadSync|intros r; apply safe_ret].
  - apply safe_bind; [by apply safe_modify_core|intros []; apply safe_ret].
  - apply safe_bind; [by apply safe_modify_core|intros []; apply safe_ret].
Qed.

Lemma inv_init g t a : inv strict (new_Skel g t a).
Proof.
  split; [constructor; simpl|intros _ p x H; simpl in H; by rewrite lookup_empty in H].
  - intros p. rewrite lookup_empty. by intros [].
  - intros e p. by rewrite lookup_empty.
  - intros e l p. by rewrite lookup_empty.
  - intros o p Ho. by apply not_elem_of_nil in Ho.
  - intros a' Ho. by apply not_elem_of_nil in Ho.
  - intros a' x. by rewrite lookup_empty.
  - intros a' b x y. by rewrite lookup_empty.
  - intros p to buf x Ho. by apply not_elem_of_nil in Ho.
Qed.

Lemma reachable_strict s : reachable call_ok s -> inv strict s.
Proof.
  apply reachable_inv; [apply inv_init|apply deliver_inv|].
  intros k Hk. by apply safe_preserves, call_safe.
Qed.

End Reachable.

(** ** Theorems *)

Section Theorems.
  Context {P : PROG} {B : Boost} {G : Program}.

(** C2: in every state a program can reach, whatever it calls (the blocking
    exchange among it) and whatever the system answers, every pointer the skeleton
    holds (in its two socket maps, its acceptors and its pending operations)
    points to an existing object; a registered socket is listed under its own
    remote endpoint and is a server socket in the server map, and in the client map
    a client socket or one that is in use (the blocking exchange puts its new
    connection there without marking it as a client's); and no acceptor holds a
    registered socket. *)
Theorem reachable_well_formed (HG : ProgramSafe G False) s :
  reachable (fun _ => True) s -> wf s.
Proof.
  intros Hs. refine (proj1 (reachable_strict False s _)).
  induction Hs as [|s s' Hr IH Hst]; [constructor|].
  eapply reach_step; [exact IH|]. destruct Hst as [ev ?? E|k r ?? _ E].
  - by eapply step_event.
  - eapply step_call; [|exact E]. destruct k; try done. by intros [].
Qed.

(** C1: one request at a time.  For a program that never asks to close a client
    connection after a write, in every reachable state a client connection that
    speaks LV has at most one operation in flight, and the socket
    [FindIdleTCPClientSocket] hands out is connected, registered under the
    endpoint asked for, and has none. *)
Theorem client_requests_exclusive (HG : ProgramSafe G True) s :
  reachable (call_ok True) s ->
  (forall p x, heap s !! p = Some x -> lv_client x -> (length (ops_of p s) <= 1)%nat) /\
  forall e p s', FindIdleTCPClientSocket e s = Ret (Some p) s' ->
    exists x, heap s !! p = Some x /\ remote_endpoint_ x = e /\ is_connected_ x = true /\
      (type_ x = T_TCP_LV -> ops_of p s = []).
Proof.
  intros Hs. pose proof (reachable_strict True s Hs) as Hinv. pose proof Hinv as [Hwf Hex].
  specialize (Hex I). split.
  - intros p x Hx Hl. specialize (Hex p x Hx Hl).
    destruct (ops_of p s) as [|? [|? ?]]; simpl; [lia..|done].
  - intros e p s' E.
    pose proof (FindIdleTCPClientSocket_spec True s e s (conj Hinv (evolves_refl _ s))) as H.
    rewrite E in H. destruct H as [_ (x & Hx & Hr & Hc & Hu & Hcon)].
    apply FindIdle_pure in E as ->.
    exists x. split_and!; [done..|]. intros Ht. specialize (Hex p x Hx (conj Hc Ht)).
    destruct (ops_of p s) as [|o [|? ?]]; [done| |done].
    destruct o as [| |? ? []|? ? ? []| | | |]; simpl in Hex; naive_solver congruence.
Qed.

End Theorems.
