(* ===== verification/SkeletonProps.v ===== *)
(** * What the operations of the skeleton compute

    The lemmas that run a routine on a known object, and the functional theorems
    of the registry: insertion, the pool lookup, [DestroySocket], the sweep. *)

From S2P Require Import Prelude Wire SocketInfo Skeleton Handlers Reactor.
From S2P Require Import Invariant Safety.

Section Exec.
  Context {P : PROG} {B : Boost}.

(** ** Running a routine on a known object *)

Lemma deref_eq s p x : heap s !! p = Some x -> deref p s = Ret x s.
Proof. unfold deref, bindM, gets. by intros ->. Qed.

Lemma deref_put s p x : deref p (put p x s) = Ret x (put p x s).
Proof. apply deref_eq. simpl. apply lookup_insert_eq. Qed.

Lemma put_put s p x y : put p y (put p x s) = put p y s.
Proof. unfold put, with_heap. simpl. by rewrite insert_insert_eq. Qed.

Lemma update_eq s p x f : heap s !! p = Some x -> update p f s = Ret tt (put p (f x) s).
Proof. apply update_put. Qed.

Lemma update_put_eq s p x f : update p f (put p x s) = Ret tt (put p (f x) s).
Proof.
  rewrite (update_put _ p x) by (simpl; apply lookup_insert_eq). by rewrite put_put.
Qed.

Lemma Touch_now_eq s p x :
  heap s !! p = Some x -> Touch_now p s = Ret tt (put p (Touch (now s) x) s).
Proof. intros H. unfold Touch_now, bindM, gets. by apply update_eq. Qed.

Lemma start_put s p x o :
  start o (put p x s) = Ret tt (put p x (with_pending (pending s ++ [o]) s)).
Proof. done. Qed.

(** ** The registry *)

(** The idle sockets of an endpoint, in the order they were inserted. *)
Definition idle (s : Skel) (p : ptr) : bool :=
  match heap s !! p with
  | Some x => negb (in_use_ x) && is_connected_ x
  | None => false
  end.

Definition idle_sockets (e : Endpoint) (s : Skel) : list ptr :=
  filter (fun p => idle s p = true) (default [] (tcp_client_socket_map_ s !! e)).

Lemma find_idle_eq s l :
  (forall p, p ∈ l -> is_Some (heap s !! p)) ->
  find_idle_loop l s = Ret (head (filter (fun p => idle s p = true) l)) s.
Proof.
  induction l as [|p l IH]; intros Hl; cbn [find_idle_loop]; [done|].
  destruct (Hl p ltac:(by left)) as [x Hx]. unfold bindM at 1. rewrite (deref_eq s p x Hx).
  assert (Hi : idle s p = negb (in_use_ x || negb (is_connected_ x)))
    by (unfold idle; rewrite Hx; by destruct (in_use_ x), (is_connected_ x)).
  destruct (in_use_ x || negb (is_connected_ x)); simpl in Hi.
  - rewrite filter_cons_False by congruence. apply IH. intros q Hq. apply Hl. by right.
  - by rewrite filter_cons_True by congruence.
Qed.

Lemma FindIdle_eq s e :
  wf s -> FindIdleTCPClientSocket e s = Ret (head (idle_sockets e s)) s.
Proof.
  intros Hwf. unfold FindIdleTCPClientSocket, bindM, gets, idle_sockets.
  destruct (tcp_client_socket_map_ s !! e) as [l|] eqn:E; [|done]. apply find_idle_eq.
  intros p Hp. destruct (wf_client _ Hwf e l p E Hp) as (x & Hx & _). eauto.
Qed.

(** [FindIdleTCPClientSocket] returns the first socket, in insertion order,
    of the list of the endpoint that is connected and not in use, and null
    exactly when there is none; it changes nothing. *)
Theorem FindIdle_first s e :
  wf s -> FindIdleTCPClientSocket e s = Ret (head (idle_sockets e s)) s.
Proof. apply FindIdle_eq. Qed.

(** Inserting a server socket and finding it.  The insertion succeeds
    exactly when the endpoint is free; then the endpoint finds the socket and
    every other endpoint what it found before; otherwise nothing changes. *)
Theorem InsertTCPServerSocket_find s e p :
  match InsertTCPServerSocket e p s with
  | Ret r s' =>
      (r = 0 /\ FindTCPServerSocket e s = Ret None s /\
       FindTCPServerSocket e s' = Ret (Some p) s' /\
       forall e', e' <> e -> forall q,
         FindTCPServerSocket e' s' = Ret q s' <-> FindTCPServerSocket e' s = Ret q s) \/
      (r = -1 /\ s' = s /\ exists q, FindTCPServerSocket e s = Ret (Some q) s)
  | Halt _ _ => False
  end.
Proof.
  unfold InsertTCPServerSocket, FindTCPServerSocket, bindM, gets, modify, ret.
  destruct (tcp_server_socket_map_ s !! e) as [q|] eqn:E; simpl; [by right; eauto|left].
  split_and!; [done|done|by rewrite lookup_insert_eq|].
  intros e' Hne q. rewrite lookup_insert_ne by done. split; by intros [= ->].
Qed.

(** A socket is in the client map, or in one of the maps, under an endpoint. *)
Definition listed (p : ptr) (e : Endpoint) (s : Skel) : Prop :=
  exists l, tcp_client_socket_map_ s !! e = Some l /\ p ∈ l.
Definition registered (p : ptr) (e : Endpoint) (s : Skel) : Prop :=
  tcp_server_socket_map_ s !! e = Some p \/ listed p e s.

Lemma DestroySocket_runs s p x :
  wf s -> heap s !! p = Some x ->
  runs (DestroySocket p) s (fun _ s' =>
    heap s' = <[p := close_tcp_sk x]> (heap s) /\
    (forall e, registered p e s' <-> is_client_ x = false /\ listed p e s) /\
    (forall q e, q <> p -> (is_client_ x = true \/ e <> remote_endpoint_ x) ->
       registered q e s -> registered q e s') /\
    pending s' = pending s).
Proof.
  intros Hwf Hp. unfold runs, DestroySocket. unfold bindM at 1. rewrite (update_eq s p x _ Hp).
  unfold bindM at 1. rewrite deref_put.
  change (is_client_ (close_tcp_sk x)) with (is_client_ x).
  change (remote_endpoint_ (close_tcp_sk x)) with (remote_endpoint_ x).
  assert (Hsv : forall e, tcp_server_socket_map_ s !! e = Some p -> e = remote_endpoint_ x /\ is_client_ x = false).
  { intros e He. destruct (wf_server _ Hwf e p He) as (y & ? & ? & ?). by simplify_eq. }
  assert (Hcl : forall e l, tcp_client_socket_map_ s !! e = Some l -> p ∈ l -> e = remote_endpoint_ x).
  { intros e l He Hin. destruct (wf_client _ Hwf e l p He Hin) as (y & ? & ? & ?). by simplify_eq. }
  destruct (is_client_ x) eqn:Hc; unfold bindM, gets, modify, ret; simpl.
  - destruct (tcp_client_socket_map_ s !! remote_endpoint_ x) as [l|] eqn:El; simpl.
    + split_and!; [done| | |done].
      * intros e. split; [|by intros [? _]]. intros [He|(k & Hk & Hin)]; simpl in *; [by apply Hsv in He as [_ ?]|].
        apply lookup_insert_Some in Hk as [[<- <-]|[Hne Hk]].
        -- by apply remove_all_not_in in Hin.
        -- by rewrite (Hcl e k Hk Hin) in Hne.
      * intros q e Hne _ [He|(k & Hk & Hin)]; [by left|right]. unfold listed. simpl.
        destruct (decide (e = remote_endpoint_ x)) as [->|Hn].
        -- rewrite lookup_insert_eq. eexists. split; [done|]. apply elem_of_remove_all.
           simplify_eq. done.
        -- rewrite lookup_insert_ne by done. eauto.
    + split_and!; [done| |done|done]. intros e. split; [|by intros [? _]].
      intros [He|(k & Hk & Hin)]; simpl in *.
      * by apply Hsv in He as [_ ?].
      * rewrite (Hcl e k Hk Hin) in Hk. congruence.
  - split_and!; [done| | |done].
    + intros e. split; [|by intros [_ ?]; right]. intros [He|Hk]; [|done]. simpl in He.
      apply lookup_delete_Some in He as [Hne He]. by destruct (Hsv e He) as [-> _].
    + intros q e Hne [?|Hn] [He|?]; try done; [left|by right].
      simpl. by rewrite lookup_delete_ne.
Qed.

(** C21: in a well-formed state (every state a program reaches is one)
    [DestroySocket] always returns and closes the socket.  The socket is then in
    no map, however many times it was inserted, unless it is not marked as a
    client's and is in the client map, which is so for the socket of a blocking
    exchange: that one stays where it is.  Every other client socket stays
    registered, and every other server socket that is not at the same remote
    endpoint does. *)
Theorem DestroySocket_unregisters s p x :
  wf s -> heap s !! p = Some x ->
  runs (DestroySocket p) s (fun _ s' =>
    heap s' = <[p := close_tcp_sk x]> (heap s) /\
    (forall e, registered p e s' <-> is_client_ x = false /\ listed p e s) /\
    (forall q e, q <> p -> (is_client_ x = true \/ e <> remote_endpoint_ x) ->
       registered q e s -> registered q e s') /\
    pending s' = pending s).
Proof. apply DestroySocket_runs. Qed.

(** ** Sweeping idle server sockets *)

Definition stale (t : Z) (s : Skel) (p : ptr) : bool :=
  match heap s !! p with Some x => access_time_ x <? t | None => false end.

Lemma stale_close t s p q x : heap s !! p = Some x -> stale t (put p (close_tcp_sk x) s) q = stale t s q.
Proof.
  intros Hp. unfold stale. simpl. destruct (decide (q = p)) as [->|Hne].
  - by rewrite lookup_insert_eq, Hp.
  - by rewrite lookup_insert_ne.
Qed.

(** Whether a list of map entries mentions the object [q]. *)
Definition mentions (l : list (Endpoint * ptr)) (q : ptr) : bool :=
  existsb (fun ep => bool_decide (ep.2 = q)) l.

Lemma sweep_loop t l s :
  (forall e p, (e, p) ∈ l -> is_Some (heap s !! p)) ->
  runs (forM l (sweep_step t)) s (fun _ s' =>
    (forall e q, tcp_server_socket_map_ s' !! e = Some q <->
       tcp_server_socket_map_ s !! e = Some q /\ forall p, (e, p) ∈ l -> stale t s p = false) /\
    (forall q, heap s' !! q =
       (if stale t s q && mentions l q then close_tcp_sk <$> heap s !! q else heap s !! q)) /\
    pending s' = pending s /\ tcp_client_socket_map_ s' = tcp_client_socket_map_ s).
Proof.
  revert s. induction l as [|[e p] l IH]; intros s Hl; cbn [forM].
  { split_and!; [|intros q; by rewrite andb_false_r|done|done].
    intros e q. split; [|by intros [? _]]. intros ?. split; [done|]. by intros p ?%not_elem_of_nil. }
  destruct (Hl e p ltac:(by left)) as [x Hx].
  unfold sweep_step at 1. simpl. unfold runs. unfold bindM at 1 2. rewrite (deref_eq s p x Hx).
  assert (Hold : stale t s p = (access_time_ x <? t)) by (unfold stale; by rewrite Hx).
  destruct (access_time_ x <? t).
  - unfold bindM at 1, modify at 1.
    set (s1 := with_server_map (delete e (tcp_server_socket_map_ s)) s).
    rewrite (update_eq s1 p x) by done. set (s2 := put p _ s1).
    assert (Hst : forall q, stale t s2 q = stale t s q) by (intros q; by apply (stale_close t s1)).
    assert (Hh : forall q, heap s2 !! q = if decide (q = p) then Some (close_tcp_sk x) else heap s !! q).
    { intros q. simpl. destruct (decide (q = p)) as [->|]; [apply lookup_insert_eq|by apply lookup_insert_ne]. }
    specialize (IH s2). unfold runs in IH. destruct (forM l (sweep_step t) s2) as [u s3|]; cycle 1.
    { apply IH. intros e' q Hq. rewrite Hh. destruct (decide (q = p)); [eauto|]. apply (Hl e'). by right. }
    destruct IH as (Hsv & Hhp & Hpe & Hcl).
    { intros e' q Hq. rewrite Hh. destruct (decide (q = p)); [eauto|]. apply (Hl e'). by right. }
    split_and!; [| |done|done].
    + intros e' q. rewrite Hsv. simpl. rewrite lookup_delete_Some. split.
      * intros [[Hne He] Hns]. split; [done|]. intros p' [?|Hin]%elem_of_cons; [congruence|].
        rewrite <- Hst. by apply Hns.
      * intros [He Hns]. split_and!; [|done|].
        -- intros <-. rewrite (Hns p ltac:(by left)) in Hold. done.
        -- intros p' Hin. rewrite Hst. apply Hns. by right.
    + intros q. rewrite Hhp, Hst, Hh. unfold mentions. cbn [existsb snd].
      destruct (decide (q = p)) as [->|Hne].
      * rewrite Hold, Hx, bool_decide_eq_true_2 by done. simpl. by destruct (existsb _ _).
      * by rewrite (bool_decide_eq_false_2 (p = q)) by done.
  - unfold ret at 1. specialize (IH s). unfold runs in IH.
    destruct (forM l (sweep_step t) s) as [u s3|]; cycle 1.
    { apply IH. intros e' q Hq. apply (Hl e'). by right. }
    destruct IH as (Hsv & Hhp & Hpe & Hcl); [intros e' q Hq; apply (Hl e'); by right|].
    split_and!; [| |done|done].
    + intros e' q. rewrite Hsv. split; intros [He Hns]; (split; [done|]).
      * intros p' [[= -> ->]|Hin]%elem_of_cons; [done|by apply Hns].
      * intros p' Hin. apply Hns. by right.
    + intros q. rewrite Hhp. unfold mentions. cbn [existsb snd].
      destruct (decide (q = p)) as [->|Hne]; [by rewrite Hold|].
      by rewrite (bool_decide_eq_false_2 (p = q)) by done.
Qed.

(** C22: [SweepServerSocket] unregisters and closes exactly the server sockets
    whose last access is older than the timeout; it always terminates, keeps
    every other server socket registered and untouched, and changes neither the
    client map nor the pending operations. *)
Theorem SweepServerSocket_spec s ms :
  wf s ->
  let old := stale (now s - ms * 1000) s in
  runs (SweepServerSocket ms) s (fun _ s' =>
    tcp_server_socket_map_ s' = filter (fun ep => old ep.2 = false) (tcp_server_socket_map_ s) /\
    (forall e p x, tcp_server_socket_map_ s !! e = Some p -> heap s !! p = Some x ->
       heap s' !! p = Some (if old p then close_tcp_sk x else x)) /\
    (forall q, (forall e, tcp_server_socket_map_ s !! e <> Some q) -> heap s' !! q = heap s !! q) /\
    pending s' = pending s /\ tcp_client_socket_map_ s' = tcp_client_socket_map_ s).
Proof.
  intros Hwf old. unfold runs, SweepServerSocket, bindM, gets.
  set (l := map_to_list (tcp_server_socket_map_ s)).
  assert (Hl : forall e p, (e, p) ∈ l <-> tcp_server_socket_map_ s !! e = Some p)
    by (intros; apply elem_of_map_to_list).
  assert (Hl2 : forall p, mentions l p = true <-> exists e, tcp_server_socket_map_ s !! e = Some p).
  { intros p. unfold mentions. rewrite existsb_exists. split.
    - intros ([e q] & Hin%list_elem_of_In & Hq%bool_decide_eq_true).
      simpl in Hq. subst q. exists e. by apply Hl.
    - intros [e He%Hl%list_elem_of_In]. exists (e, p). split; [done|]. by apply bool_decide_eq_true. }
  pose proof (sweep_loop (now s - ms * 1000) l s) as H. fold old in H. unfold runs in H.
  destruct (forM l _ s) as [u s'|]; cycle 1.
  { apply H. intros e p Hp%Hl. destruct (wf_server _ Hwf e p Hp) as (x & Hx & _). eauto. }
  destruct H as (Hsv & Hhp & Hpe & Hcl).
  { intros e p Hp%Hl. destruct (wf_server _ Hwf e p Hp) as (x & Hx & _). eauto. }
  split_and!; [| | |done|done].
  - apply map_eq. intros e. apply option_eq. intros q.
    rewrite Hsv, map_lookup_filter_Some. simpl. split.
    + intros [He Hn]. split; [done|]. by apply Hn, Hl.
    + intros [He Hn]. split; [done|]. intros p Hp%Hl. congruence.
  - intros e p x He Hx. rewrite Hhp, Hx.
    rewrite (proj2 (Hl2 p)) by eauto. rewrite andb_true_r. by destruct (old p).
  - intros q Hq. rewrite Hhp. destruct (mentions l q) eqn:E; [|by rewrite andb_false_r].
    apply Hl2 in E as [e He]. by destruct (Hq e).
Qed.

End Exec.
