(* ===== verification/Framing.v ===== *)
(** * LV packets on a connection

    A packet is four bytes of length (network order, the length counts itself)
    and the rest.  The theorems follow a connection from the read of the length
    to the call of the program, for every length. *)

From S2P Require Import Prelude Wire SocketInfo Skeleton Handlers Reactor.
From S2P Require Import Invariant Safety SkeletonProps.

Section Framing.
  Context {P : PROG} {B : Boost} {G : Program}.

Lemma bind_eq {S A C} (m : M S A) (k : A -> M S C) s a s' :
  m s = Ret a s' -> bindM m k s = k a s'.
Proof. apply bind_Ret. Qed.

Lemma receive_whole s p x pre old data :
  heap s !! p = Some x -> recv_buf_ x = pre ++ old -> length data = length old ->
  receive p (zlen pre) data s = Ret tt (put p (SetRecvBuf_vec (pre ++ data) x) s).
Proof.
  intros Hp Hb Hl. unfold receive. destruct (Z.eqb_spec (zlen data) 0) as [Hz|Hz].
  - unfold zlen in Hz. destruct data; [|simpl in Hz; lia]. destruct old; [|done].
    rewrite <- Hb. unfold ret. f_equal. unfold put.
    replace (SetRecvBuf_vec (recv_buf_ x) x) with x by (by destruct x).
    rewrite insert_id by done. by destruct s.
  - rewrite (bind_eq _ _ _ _ _ (deref_eq s p x Hp)).
    unfold zlen. rewrite Nat2Z.id, Hb, overwrite_tail by done. by apply update_eq.
Qed.

(** The length field of a packet that fits was read. *)
Lemma ReadL_ok s p x w n :
  heap s !! p = Some x -> recv_buf_ x = le32_enc w -> int_min <= w <= int_max ->
  4 <= bswap32 w <= max_recv_buf_size_ (cfg s) ->
  HandleReadLThenReadV 0 p n s =
    let x' := SetRecvBuf_vec (le32_enc w ++ zeros (bswap32 w - 4)) (Touch (now s) x) in
    Ret tt (put p x' (with_pending (pending s ++ [async_read p 4 (bswap32 w - 4) RVThenProcess]) s)).
Proof.
  intros Hp Hb Hw Hlen. set (len := bswap32 w) in *. cbn zeta.
  assert (Hr : int_min <= len <= int_max) by apply bswap32_range.
  assert (Hbs : bswap32 len = w) by (by apply bswap32_involutive).
  unfold HandleReadLThenReadV. change (negb (0 =? 0)) with false. cbv iota.
  rewrite (bind_eq _ _ _ _ _ (Touch_now_eq s p x Hp)), (bind_eq _ _ _ _ _ (deref_put _ _ _)).
  cbn [recv_buf_ Touch]. rewrite Hb.
  assert (load32 (le32_enc w) 0 = Some w) as ->
    by (rewrite <- (app_nil_r (le32_enc w)); by apply load32_0_enc).
  unfold of_option at 1. unfold bindM at 1, ret at 1. fold len.
  unfold bindM at 1, gets at 1. change (cfg (put _ _ s)) with (cfg s).
  rewrite (proj2 (Z.ltb_ge (max_recv_buf_size_ (cfg s)) len)) by lia.
  assert (to_int (zlen (le32_enc w)) = 4) as -> by done.
  assert (Hd : int_op (S := Skel) (len - 4) = ret (len - 4)).
  { unfold int_op. rewrite (proj2 (in_int_spec _)); [done|]. unfold int_min, int_max in *. lia. }
  rewrite Hd. assert (Hsz : to_size (len - 4) = len - 4)
    by (apply to_size_id; unfold int_max in *; lia).
  destruct (Z.ltb_spec 4 len) as [Hlt|Hge].
  - unfold bindM at 1. rewrite (bind_eq _ _ _ _ _ (update_put_eq _ _ _ _)).
    rewrite (bind_eq _ _ _ _ _ (deref_put _ _ _)).
    assert (Hz : recv_buf_ (SetRecvBuf len (Touch (now s) x)) = zeros 4 ++ zeros (len - 4)).
    { change (zeros len = zeros 4 ++ zeros (len - 4)). clear -Hlt. unfold zeros.
      rewrite <- replicate_add. f_equal. lia. }
    unfold store32. rewrite Hz, decide_True
      by (rewrite length_app; change (length (zeros 4)) with 4%nat; lia).
    unfold of_option, bindM at 1, ret at 1. rewrite update_put_eq.
    unfold bindM, ret. rewrite Hsz, start_put. do 2 f_equal.
    unfold SetRecvBuf_vec, SetRecvBuf. cbn [le32_enc app zeros]. by rewrite Hbs.
  - unfold bindM, ret. rewrite Hsz, start_put. do 2 f_equal.
    replace (len - 4) with 0 by lia. unfold zeros. cbn [replicate Z.to_nat]. rewrite app_nil_r, <- Hb.
    by destruct x.
Qed.

(** A packet was read: what is left is the call of the program on it. *)
Lemma ReadV_ok s p x body :
  heap s !! p = Some x -> recv_buf_ x = lv_packet body -> 4 + zlen body <= int_max ->
  HandleReadVThenProcess 0 p (zlen body) s =
    (let! r := process p in after_process p r ToReadLThenReadV) (put p (Touch (now s) x) s).
Proof.
  intros Hp Hb Hl. pose proof (zlen_nonneg body).
  assert (Hr : int_min <= 4 + zlen body <= int_max) by (unfold int_min; lia).
  unfold HandleReadVThenProcess. change (negb (0 =? 0)) with false. cbv iota.
  rewrite (bind_eq _ _ _ _ _ (Touch_now_eq s p x Hp)), (bind_eq _ _ _ _ _ (deref_put _ _ _)).
  cbn [recv_buf_ Touch]. rewrite Hb. unfold lv_packet.
  rewrite load32_0_enc by apply bswap32_range.
  unfold of_option, bindM at 1, ret at 1. rewrite bswap32_involutive by done.
  replace (4 + zlen body - 4) with (zlen body) by lia.
  assert (in_int (zlen body) = true) as Hi by (apply in_int_spec; unfold int_min in *; lia).
  unfold int_op. rewrite Hi. unfold bindM at 1, ret at 1.
  rewrite to_int_id by (unfold int_min; lia). rewrite Z.eqb_refl. done.
Qed.

Lemma deliver_eq s i o c :
  stopped s = false -> pending s !! i = Some o -> permitted o c = true ->
  deliver (EvComplete i c) s = complete o c (with_pending (delete i (pending s)) s).
Proof.
  intros Hs Hi Hp. unfold deliver, bindM, gets, modify. by rewrite Hs, Hi, Hp.
Qed.

(** The state in which the call of the program happens: the packet is in the
    receive buffer, and the connection has no operation in flight. *)
Definition packet_ready (s : Skel) (i : nat) (p : ptr) (x : SocketInfo) (packet : list byte) : Skel :=
  put p (Touch (now s) (SetRecvBuf_vec packet (Touch (now s) x)))
    (with_pending (delete i (pending s)) s).

(** C10: the LV framing delivers whole packets.  When a connection waits for a
    length, the first four bytes of a packet whose length does not exceed the
    maximum make the skeleton ask for exactly the rest of that packet, and when
    the rest has come the program is called on exactly the bytes of the packet,
    whatever else is pending. *)
Theorem lv_packet_delivered s i p x body :
  stopped s = false -> pending s !! i = Some (async_read p 0 4 RLThenReadV) ->
  heap s !! p = Some x -> zlen (recv_buf_ x) = 4 ->
  4 + zlen body <= max_recv_buf_size_ (cfg s) -> 4 + zlen body <= int_max ->
  exists s1,
    deliver (EvComplete i (CRead 0 (take 4 (lv_packet body)))) s = Ret tt s1 /\
    pending s1 = delete i (pending s) ++ [async_read p 4 (zlen body) RVThenProcess] /\
    deliver (EvComplete (length (delete i (pending s))) (CRead 0 (drop 4 (lv_packet body)))) s1 =
      (let! r := process p in after_process p r ToReadLThenReadV)
        (packet_ready s i p x (lv_packet body)).
Proof.
  intros Hst Hi Hp Hb Hmax Hint. set (len := 4 + zlen body) in *.
  pose proof (zlen_nonneg body) as Hnn. set (w := bswap32 len).
  assert (Hw : bswap32 w = len)
    by (apply bswap32_involutive; unfold int_min, int_max in *; lia).
  assert (Ht : take 4 (lv_packet body) = le32_enc w) by done.
  assert (Hd : drop 4 (lv_packet body) = body) by done.
  set (s' := with_pending (delete i (pending s)) s).
  set (x1 := SetRecvBuf_vec (le32_enc w) x).
  set (x2 := SetRecvBuf_vec (le32_enc w ++ zeros (zlen body)) (Touch (now s) x1)).
  set (o2 := async_read p 4 (zlen body) RVThenProcess).
  exists (put p x2 (with_pending (pending s' ++ [o2]) s')).
  split_and!; [|done|].
  - rewrite (deliver_eq s i _ _ Hst Hi) by done. fold s'. rewrite Ht. cbn [complete].
    rewrite (bind_eq _ _ s' tt (put p x1 s')); cycle 1.
    { apply (receive_whole s' p x [] (recv_buf_ x) (le32_enc w)); [done..|].
      unfold zlen in Hb. rewrite length_le32_enc. lia. }
    cbn [call_read_handler].
    rewrite (ReadL_ok (put p x1 s') p x1 w); [|simpl; apply lookup_insert_eq|done|apply bswap32_range|].
    + cbn zeta. rewrite Hw. replace (len - 4) with (zlen body) by (unfold len; lia).
      change (now (put p x1 s')) with (now s). change (pending (put p x1 s')) with (pending s').
      f_equal. fold x2. fold o2. apply (put_put (with_pending (pending s' ++ [o2]) s') p x1 x2).
    + rewrite Hw. change (cfg (put p x1 s')) with (cfg s). lia.
  - rewrite Hd. set (s1 := put p x2 _).
    assert (Hdel : delete (length (delete i (pending s))) (pending s1) = pending s').
    { change (pending s1) with (delete i (pending s) ++ [o2]).
      change (pending s') with (delete i (pending s)).
      apply delete_snoc. }
    rewrite (deliver_eq s1 _ o2); [|done| |by unfold o2; simpl; rewrite Z.eqb_refl]; cycle 1.
    { change (pending s1) with (delete i (pending s) ++ [o2]). by apply list_lookup_middle. }
    rewrite Hdel. change (with_pending (pending s') s1) with (put p x2 s').
    cbn [complete o2].
    rewrite (bind_eq _ _ (put p x2 s') tt (put p (SetRecvBuf_vec (lv_packet body) x2) s')); cycle 1.
    { rewrite <- (put_put s' p x2 (SetRecvBuf_vec (lv_packet body) x2)).
      apply (receive_whole (put p x2 s') p x2 (le32_enc w) (zeros (zlen body)) body);
        [simpl; apply lookup_insert_eq|done|].
      unfold zeros, zlen. rewrite length_replicate. lia. }
    cbn [call_read_handler].
    rewrite (ReadV_ok _ p (SetRecvBuf_vec (lv_packet body) x2)); [|simpl; apply lookup_insert_eq|done|done].
    rewrite put_put. done.
Qed.

(** A length above the maximum closes the connection: the handler returns,
    the socket is closed and, unless it is that of a blocking exchange, in no map
    any more, and nothing is read. *)
Theorem lv_length_too_large s p x w n :
  wf s -> heap s !! p = Some x -> load32 (recv_buf_ x) 0 = Some w ->
  max_recv_buf_size_ (cfg s) < bswap32 w ->
  runs (HandleReadLThenReadV 0 p n) s (fun _ s' =>
    (exists x', heap s' !! p = Some x' /\ tcp_sk_open x' = false) /\
    (forall e, registered p e s' <-> is_client_ x = false /\ listed p e s) /\ pending s' = pending s).
Proof.
  intros Hwf Hp Hw Hmax. unfold runs, HandleReadLThenReadV.
  change (negb (0 =? 0)) with false. cbv iota.
  rewrite (bind_eq _ _ _ _ _ (Touch_now_eq s p x Hp)), (bind_eq _ _ _ _ _ (deref_put _ _ _)).
  cbn [recv_buf_ Touch]. rewrite Hw. unfold of_option, bindM at 1, ret at 1.
  unfold bindM at 1, gets at 1. change (cfg (put _ _ s)) with (cfg s).
  rewrite (proj2 (Z.ltb_lt _ _) Hmax). set (s1 := put p (Touch (now s) x) s).
  assert (Hp1 : heap s1 !! p = Some (Touch (now s) x)) by apply lookup_insert_eq.
  assert (Hwf1 : wf s1) by (by apply (wf_put_same s p x)).
  pose proof (DestroySocket_runs s1 p _ Hwf1 Hp1) as H. unfold runs in H. unfold bindM.
  destruct (DestroySocket p s1) as [r s2|]; [|done]. destruct H as (Hh & Hun & _ & Hpe).
  split_and!; [|done|by rewrite Hpe]. rewrite Hh. eexists. split; [apply lookup_insert_eq|done].
Qed.

(** C24: a length below 4 is not rejected.  The handler asks for [len - 4] bytes
    converted to [size_t], more than 2^63, into a 4-byte buffer, and the first
    byte that arrives, even with an end-of-stream error, is written outside of
    it. *)
Theorem lv_length_too_small s i p x w ec data :
  stopped s = false -> pending s !! i = Some (async_read p 0 4 RLThenReadV) ->
  heap s !! p = Some x -> zlen (recv_buf_ x) = 4 -> int_min <= w <= int_max ->
  int_min + 4 <= bswap32 w < 4 -> bswap32 w <= max_recv_buf_size_ (cfg s) ->
  ec <> 0 -> data <> [] -> zlen data < 2 ^ 63 ->
  exists s1,
    deliver (EvComplete i (CRead 0 (le32_enc w))) s = Ret tt s1 /\
    pending s1 = delete i (pending s) ++ [async_read p 4 (bswap32 w - 4 + 2 ^ 64) RVThenProcess] /\
    exists s2, deliver (EvComplete (length (delete i (pending s))) (CRead ec data)) s1
               = Halt HUndefined s2.
Proof.
  intros Hst Hi Hp Hb Hw Hlen Hmax Hec Hdata Hsize. set (len := bswap32 w) in *.
  set (s' := with_pending (delete i (pending s)) s). set (x1 := SetRecvBuf_vec (le32_enc w) x).
  set (o2 := async_read p 4 (len - 4 + 2 ^ 64) RVThenProcess).
  set (x2 := Touch (now s) x1). set (s1 := put p x2 (with_pending (pending s' ++ [o2]) s')).
  exists s1. split_and!.
  - rewrite (deliver_eq s i _ _ Hst Hi) by done. fold s'. cbn [complete].
    rewrite (bind_eq _ _ s' tt (put p x1 s')); cycle 1.
    { apply (receive_whole s' p x [] (recv_buf_ x) (le32_enc w)); [done..|].
      unfold zlen in Hb. rewrite length_le32_enc. lia. }
    cbn [call_read_handler]. unfold HandleReadLThenReadV.
    change (negb (0 =? 0)) with false. cbv iota.
    rewrite (bind_eq _ _ _ _ _ (Touch_now_eq (put p x1 s') p x1 ltac:(apply lookup_insert_eq))).
    rewrite put_put. change (now (put p x1 s')) with (now s). fold x2.
    rewrite (bind_eq _ _ _ _ _ (deref_put _ _ _)).
    change (recv_buf_ x2) with (le32_enc w ++ []). rewrite load32_0_enc by done.
    unfold of_option, bindM at 1, ret at 1. unfold bindM at 1, gets at 1. fold len.
    change (cfg (put p x2 s')) with (cfg s). rewrite (proj2 (Z.ltb_ge _ _) Hmax).
    change (to_int (zlen (le32_enc w ++ []))) with 4.
    rewrite (proj2 (Z.ltb_ge 4 len)) by lia. unfold bindM at 1, ret at 1.
    unfold int_op. rewrite (proj2 (in_int_spec (len - 4))) by (unfold int_min, int_max in *; lia).
    unfold bindM, ret. rewrite to_size_neg by (unfold int_min in *; lia). by rewrite start_put.
  - done.
  - assert (Hperm : permitted o2 (CRead ec data) = true).
    { simpl. destruct (Z.eqb_spec ec 0); [done|]. apply Z.leb_le. unfold int_min in *. lia. }
    rewrite (deliver_eq s1 _ o2); [|done| |done]; cycle 1.
    { change (pending s1) with (delete i (pending s) ++ [o2]). by apply list_lookup_middle. }
    cbn [complete o2]. unfold receive.
    destruct (Z.eqb_spec (zlen data) 0) as [Hz|Hz].
    { destruct data; [done|unfold zlen in Hz; simpl in Hz; lia]. }
    unfold bindM at 1 2. set (s3 := with_pending _ s1).
    rewrite (deref_eq s3 p x2) by apply lookup_insert_eq.
    unfold overwrite. rewrite decide_False; [by eexists|].
    change (length (recv_buf_ x2)) with 4%nat. unfold zlen in Hz. lia.
Qed.

End Framing.
