(* ===== verification/Http.v ===== *)
(** * HTTP requests on a connection

    The head of a request is read with a completion condition, as far as the
    receive buffer goes; its content, when a part is missing, by a second read.
    The theorems follow a connection from the pending head read to the call of
    the program, for every request. *)

From S2P Require Import Prelude Wire SocketInfo Skeleton Handlers Reactor.
From S2P Require Import Invariant Safety SkeletonProps Framing.

Section Http.
  Context {P : PROG} {B : Boost} {G : Program}.

(** A receive buffer holds a whole head of [head_len] bytes that announces [len]
    bytes of content and does not ask for a 100 answer. *)
Definition announces (buf : list byte) (head_len len : Z) : Prop :=
  exists i3 i1,
    search HTTP_key_end buf = Some i3 /\ head_len = Z.of_nat i3 + 4 /\
    search HTTP_key_continue buf = None /\ search HTTP_key_length buf = Some i1 /\
    lexical_cast_int (content_length_text buf i1) = Some len.

(** The state in which the program is called on a request: the handler has
    cut the receive buffer and reset its fill count. *)
Definition request_ready (s : Skel) (i : nat) (p : ptr) (x : SocketInfo) (request : list byte) : Skel :=
  put p (Touch (now s) (set_recv_buf_filled 0 (SetRecvBuf_vec request x)))
    (with_pending (delete i (pending s)) s).

Definition answer_request (p : ptr) : M Skel unit :=
  let! r := process p in after_process p r ToReadHTTPHeadThenReadHTTPContent.

(** ** One handler at a time *)

Lemma bind_ret_unit {S} (m : M S unit) s : (m ;;! ret tt) s = m s.
Proof. unfold bindM, ret. by destruct (m s) as [[]|]. Qed.

Lemma overwrite_at pre old post data :
  length data = length old ->
  overwrite (pre ++ old ++ post) (length pre) data = Some (pre ++ data ++ post).
Proof.
  intros H. unfold overwrite. rewrite decide_True by (rewrite !length_app; lia).
  rewrite take_app_length. do 3 f_equal. rewrite H, app_assoc.
  by rewrite drop_app_length' by (by rewrite length_app).
Qed.

Lemma receive_at s p x pre old post data :
  heap s !! p = Some x -> recv_buf_ x = pre ++ old ++ post -> length data = length old ->
  data <> [] ->
  receive p (zlen pre) data s = Ret tt (put p (SetRecvBuf_vec (pre ++ data ++ post) x) s).
Proof.
  intros Hp Hb Hl Hd. unfold receive. destruct (Z.eqb_spec (zlen data) 0) as [Hz|_].
  { by destruct data. }
  rewrite (bind_eq _ _ _ _ _ (deref_eq s p x Hp)).
  unfold zlen. rewrite Nat2Z.id, Hb, overwrite_at by done. by apply update_eq.
Qed.

Lemma HTTPHead_condition_eq s p x n :
  heap s !! p = Some x -> 0 <= recv_buf_filled_ x + n < 2 ^ 64 ->
  zlen (recv_buf_ x) < 2 ^ 64 -> recv_buf_filled_ x + n <= zlen (recv_buf_ x) ->
  HTTPHeadReadCompletionCondition 0 p n s =
    Ret (match search HTTP_key_end (recv_buf_ x) with
         | Some _ => 0
         | None => zlen (recv_buf_ x) - (recv_buf_filled_ x + n)
         end) (put p (set_recv_buf_filled (recv_buf_filled_ x + n) x) s).
Proof.
  intros Hp Hn Hz Hle. unfold HTTPHeadReadCompletionCondition. change (negb (0 =? 0)) with false.
  cbv iota. rewrite (bind_eq _ _ _ _ _ (deref_eq s p x Hp)).
  rewrite (bind_eq _ _ _ _ _ (update_eq s p x _ Hp)), (bind_eq _ _ _ _ _ (deref_put _ _ _)).
  cbn [recv_buf_ recv_buf_filled_ set_recv_buf_filled]. rewrite to_size_id by lia.
  destruct (search _ _); [done|].
  destruct (Z.eqb_spec (zlen (recv_buf_ x)) (recv_buf_filled_ x + n)) as [->|Hne].
  - unfold ret. by rewrite Z.sub_diag.
  - unfold ret. rewrite to_size_id by lia. done.
Qed.

(** The buffer the content is read into. *)
Definition grown (total : Z) (buf : list byte) : list byte :=
  if zlen buf <? total then resize (Z.to_nat total) x00 buf else buf.

Lemma ReadHead_eq s p x n head_len len :
  heap s !! p = Some x -> announces (recv_buf_ x) head_len len ->
  zlen (recv_buf_ x) <= int_max -> 0 <= n <= len + head_len -> head_len <= int_max ->
  len + head_len <= max_recv_buf_size_ (cfg s) -> len + head_len <= int_max ->
  let x' := SetRecvBuf_vec (grown (len + head_len) (recv_buf_ x)) (Touch (now s) x) in
  HandleReadHTTPHeadThenReadHTTPContent 0 p n s =
    if len + head_len - n =? 0 then HandleReadHTTPContentThenProcess 0 p n (put p x' s)
    else Ret tt (put p x' (with_pending
           (pending s ++ [async_read p n (len + head_len - n) RHTTPContent]) s)).
Proof.
  intros Hp (i3 & i1 & H3 & Hh & H4 & H1 & Hc) Hz Hn Hhi Hmax Hint x'.
  pose proof (zlen_nonneg (recv_buf_ x)).
  unfold HandleReadHTTPHeadThenReadHTTPContent. change (negb (0 =? 0)) with false. cbv iota.
  rewrite (bind_eq _ _ _ _ _ (Touch_now_eq s p x Hp)), (bind_eq _ _ _ _ _ (deref_put _ _ _)).
  cbn [recv_buf_ Touch]. rewrite H3, H4, H1, Hc, <- Hh. cbv beta iota zeta.
  rewrite (to_int_id head_len) by (unfold int_min, int_max in *; lia).
  assert (int_op (S := Skel) (len + head_len) = ret (len + head_len)) as ->.
  { unfold int_op. rewrite (proj2 (in_int_spec _)); [done|]. unfold int_min, int_max in *; lia. }
  unfold bindM at 1, ret at 1. unfold bindM at 1, gets at 1. change (cfg (put _ _ s)) with (cfg s).
  rewrite (proj2 (Z.ltb_ge _ _)) by lia.
  rewrite (to_int_id (zlen _)) by (unfold int_min, int_max in *; lia).
  rewrite to_size_id by (unfold int_max in *; lia).
  rewrite to_int_id by (unfold int_min, int_max in *; lia).
  rewrite (bind_eq _ _ _ tt (put p x' s)); cycle 1.
  { unfold x', grown. destruct (_ <? _); [apply update_put_eq|by destruct x]. }
  rewrite bool_decide_eq_false_2 by (by intros []). rewrite bind_ret_unit.
  destruct (_ =? 0); [done|]. rewrite to_size_id by (unfold int_max in *; lia). by rewrite start_put.
Qed.

Lemma ReadContent_eq s p x n :
  heap s !! p = Some x ->
  HandleReadHTTPContentThenProcess 0 p n s =
    answer_request p (put p (Touch (now s) (set_recv_buf_filled 0
      (SetRecvBuf_vec (resize (Z.to_nat (recv_buf_filled_ x)) x00 (recv_buf_ x)) x))) s).
Proof.
  intros Hp. unfold HandleReadHTTPContentThenProcess. change (negb (0 =? 0)) with false. cbv iota.
  rewrite (bind_eq _ _ _ _ _ (update_eq s p x _ Hp)), (bind_eq _ _ _ _ _ (update_put_eq _ _ _ _)).
  rewrite (bind_eq _ _ _ _ _ (Touch_now_eq _ p _ (lookup_insert_eq _ _ _))). by rewrite put_put.
Qed.

(** ** One step of the head read *)

Lemma read_head_step_eq s p x d1 data rest :
  heap s !! p = Some x -> recv_buf_ x = d1 ++ zeros (zlen data) ++ rest -> data <> [] ->
  zlen (recv_buf_ x) <= int_max -> 0 <= recv_buf_filled_ x ->
  recv_buf_filled_ x + zlen d1 + zlen data <= zlen (recv_buf_ x) ->
  let total := zlen d1 + zlen data in
  let filled := recv_buf_filled_ x + total in
  let buf := d1 ++ data ++ rest in
  let x' := set_recv_buf_filled filled (SetRecvBuf_vec buf x) in
  read_head_step p (zlen d1) 0 data s =
    match search HTTP_key_end buf with
    | Some _ => HandleReadHTTPHeadThenReadHTTPContent 0 p total (put p x' s)
    | None =>
        if zlen buf - filled <=? 0
        then HandleReadHTTPHeadThenReadHTTPContent 0 p total (put p x' s)
        else Ret tt (put p x' (with_pending
               (pending s ++ [async_read_head p total (zlen buf - filled)]) s))
    end.
Proof.
  intros Hp Hb Hd Hz Hf Hle total filled buf x'.
  assert (Hl : zlen buf = zlen (recv_buf_ x)).
  { unfold buf. rewrite Hb, !zlen_app, zlen_zeros; [lia|apply zlen_nonneg]. }
  pose proof (zlen_nonneg d1). pose proof (zlen_nonneg data). pose proof (zlen_nonneg rest).
  assert (0 < zlen data) by (destruct data; [done|unfold zlen; simpl; lia]).
  unfold read_head_step.
  rewrite (bind_eq _ _ s tt (put p (SetRecvBuf_vec buf x) s)); cycle 1.
  { apply (receive_at s p x d1 (zeros (zlen data)) rest); [done..| |done].
    unfold zeros, zlen. rewrite length_replicate. lia. }
  cbn zeta. fold total.
  rewrite (bind_eq _ _ _ _ _ (HTTPHead_condition_eq _ p (SetRecvBuf_vec buf x) total
    (lookup_insert_eq _ _ _) ltac:(cbn; unfold int_max, total in *; lia)
    ltac:(cbn; unfold int_max in *; lia) ltac:(cbn; unfold total; lia))).
  rewrite put_put. cbn [recv_buf_filled_ SetRecvBuf_vec recv_buf_]. fold filled.
  rewrite (bind_eq _ _ _ _ _ (deref_put _ _ _)).
  change (recv_buf_ (set_recv_buf_filled filled (SetRecvBuf_vec buf x))) with buf.
  fold x'. change (0 =? 0) with true. cbn [andb].
  rewrite (proj2 (Z.eqb_neq (zlen data) 0)) by lia. cbn [orb].
  destruct (search HTTP_key_end buf).
  - rewrite Z.min_l by (unfold total in *; lia). done.
  - rewrite Z.min_l by (unfold filled, total in *; lia).
    destruct (_ <=? 0); [done|]. by rewrite start_put.
Qed.

(** ** From the pending read to the program *)

(** A connection that waits for a head, with an empty buffer of [n] bytes. *)
Definition waits_for_head (s : Skel) (i : nat) (p : ptr) (x : SocketInfo) (n : Z) : Prop :=
  stopped s = false /\ pending s !! i = Some (async_read_head p 0 n) /\
  heap s !! p = Some x /\ recv_buf_ x = zeros n /\ recv_buf_filled_ x = 0 /\ n <= int_max.

Lemma zeros_split n (data : list byte) :
  0 <= zlen data <= n -> zeros n = zeros (zlen data) ++ zeros (n - zlen data).
Proof. intros H. unfold zeros. rewrite <- replicate_add. f_equal. lia. Qed.

Lemma resize_head (data : list byte) n k : n = zlen data -> resize (Z.to_nat n) x00 (data ++ k) = data.
Proof.
  intros ->. unfold zlen. rewrite Nat2Z.id. by rewrite resize_app_le, resize_all by lia.
Qed.

Lemma grown_keeps data total k :
  zlen data <= total -> exists k', grown total (data ++ k) = data ++ k' /\
    zlen (data ++ k') = Z.max total (zlen (data ++ k)).
Proof.
  intros H. unfold grown. destruct (Z.ltb_spec (zlen (data ++ k)) total) as [Hlt|Hge].
  - exists (resize (Z.to_nat total - length data) x00 k). unfold zlen in *. split.
    + by rewrite resize_app_ge by lia.
    + rewrite !length_app in *. rewrite length_resize. lia.
  - exists k. split; [done|lia].
Qed.

(** The first bytes of a head, when they bring all of it. *)
Lemma first_bytes s i p x n data head_len len :
  waits_for_head s i p x n -> data <> [] -> zlen data <= n ->
  announces (data ++ zeros (n - zlen data)) head_len len ->
  deliver (EvComplete i (CRead 0 data)) s =
    HandleReadHTTPHeadThenReadHTTPContent 0 p (zlen data)
      (put p (set_recv_buf_filled (zlen data) (SetRecvBuf_vec (data ++ zeros (n - zlen data)) x))
         (with_pending (delete i (pending s)) s)).
Proof.
  intros (Hst & Hi & Hp & Hb & Hf & Hn) Hd Hle (i3 & i1 & H3 & _).
  assert (0 < zlen data) by (destruct data; [done|unfold zlen; simpl; lia]).
  rewrite (deliver_eq s i _ _ Hst Hi) by (simpl; rewrite andb_true_iff, orb_true_iff, !Z.leb_le, !Z.ltb_lt; lia).
  cbn [complete]. change 0 with (zlen (@nil byte)) at 1.
  rewrite (read_head_step_eq _ p x [] data (zeros (n - zlen data)));
    [|done|rewrite Hb; apply zeros_split; lia|done|rewrite Hb, zlen_zeros; lia|lia
    |rewrite Hb, Hf, zlen_zeros; change (zlen (@nil byte)) with 0; lia].
  rewrite !app_nil_l. rewrite H3, Hf. change (zlen (@nil byte)) with 0. by rewrite !Z.add_0_l.
Qed.

Lemma request_delivered s i p x n request head_len len :
  waits_for_head s i p x n -> request <> [] -> zlen request <= n ->
  announces (request ++ zeros (n - zlen request)) head_len len ->
  len + head_len = zlen request -> head_len <= int_max -> zlen request <= max_recv_buf_size_ (cfg s) ->
  deliver (EvComplete i (CRead 0 request)) s = answer_request p (request_ready s i p x request).
Proof.
  intros Hw Hd Hle Ha Hlen Hh Hmax. pose proof (zlen_nonneg request).
  rewrite (first_bytes s i p x n request head_len len Hw Hd Hle Ha).
  destruct Hw as (_ & _ & _ & _ & _ & Hn).
  rewrite (ReadHead_eq _ p _ (zlen request) head_len len (lookup_insert_eq _ _ _));
    [|done|cbn; rewrite zlen_app, zlen_zeros; lia|lia|done|cbn; lia|lia].
  rewrite Hlen, Z.sub_diag. change (0 =? 0) with true. cbv iota. rewrite put_put.
  rewrite (ReadContent_eq _ p _ _ (lookup_insert_eq _ _ _)), put_put.
  cbn [recv_buf_filled_ SetRecvBuf_vec set_recv_buf_filled recv_buf_ Touch].
  destruct (grown_keeps request (zlen request) (zeros (n - zlen request))) as (k' & -> & _); [lia|].
  rewrite resize_head by done. done.
Qed.

(** A request that comes in one piece is delivered whole.  When a
    connection that waits for a head receives a head and all of the content the
    head announces at once, the program is called on exactly these bytes. *)
Theorem http_request_delivered s i p x n request head_len len :
  waits_for_head s i p x n -> request <> [] -> zlen request <= n ->
  announces (request ++ zeros (n - zlen request)) head_len len ->
  len + head_len = zlen request -> head_len <= int_max -> zlen request <= max_recv_buf_size_ (cfg s) ->
  deliver (EvComplete i (CRead 0 request)) s = answer_request p (request_ready s i p x request).
Proof. by apply request_delivered. Qed.

Lemma content_dropped s i p x n data head_len len content :
  waits_for_head s i p x n -> data <> [] -> zlen data <= n ->
  announces (data ++ zeros (n - zlen data)) head_len len ->
  zlen data + zlen content = len + head_len -> content <> [] -> head_len <= int_max ->
  len + head_len <= max_recv_buf_size_ (cfg s) -> len + head_len <= int_max ->
  exists s1,
    deliver (EvComplete i (CRead 0 data)) s = Ret tt s1 /\
    pending s1 = delete i (pending s) ++ [async_read p (zlen data) (zlen content) RHTTPContent] /\
    deliver (EvComplete (length (delete i (pending s))) (CRead 0 content)) s1 =
      answer_request p (request_ready s i p x data).
Proof.
  intros Hw Hd Hle Ha Hlen Hc Hh Hmax Hint. pose proof (zlen_nonneg data).
  assert (0 < zlen content) by (destruct content; [done|unfold zlen; simpl; lia]).
  pose proof (first_bytes s i p x n data head_len len Hw Hd Hle Ha) as E1.
  destruct Hw as (Hst & _ & _ & _ & _ & Hn).
  rewrite (ReadHead_eq _ p _ (zlen data) head_len len (lookup_insert_eq _ _ _)) in E1;
    [|done|cbn; rewrite zlen_app, zlen_zeros; lia|lia|done|cbn; lia|lia].
  replace (len + head_len - zlen data) with (zlen content) in E1 by lia.
  rewrite (proj2 (Z.eqb_neq (zlen content) 0)) in E1 by lia.
  set (s' := with_pending (delete i (pending s)) s) in *.
  cbn [recv_buf_ set_recv_buf_filled SetRecvBuf_vec now put with_heap] in E1.
  destruct (grown_keeps data (len + head_len) (zeros (n - zlen data))) as (k & Hg & Hk); [lia|].
  rewrite Hg in E1. cbn [Touch] in E1.
  set (o := async_read p (zlen data) (zlen content) RHTTPContent) in *.
  eexists. split_and!; [exact E1|done|].
  match type of E1 with _ = Ret tt ?t => set (s1 := t) end.
  rewrite (deliver_eq s1 _ o); [|done|by apply list_lookup_middle|by unfold o; simpl; rewrite Z.eqb_refl].
  change (pending s1) with (delete i (pending s) ++ [o]). rewrite delete_snoc.
  cbn [complete o].
  set (x1 := SetRecvBuf_vec (data ++ k) (set_recv_buf_filled (zlen data) (Touch (now s) x))).
  assert (Hp1 : heap (with_pending (delete i (pending s)) s1) !! p = Some x1)
    by (apply lookup_insert_eq).
  rewrite zlen_app in Hk.
  assert (Hsp : k = take (length content) k ++ drop (length content) k) by (by rewrite take_drop).
  rewrite (bind_eq _ _ _ _ _ (receive_at _ p x1 data (take (length content) k)
    (drop (length content) k) content Hp1 ltac:(by rewrite <- Hsp)
    ltac:(rewrite length_take; unfold zlen in *; lia) Hc)).
  cbn [call_read_handler]. rewrite (ReadContent_eq _ p _ _ (lookup_insert_eq _ _ _)), put_put.
  cbn [recv_buf_filled_ SetRecvBuf_vec set_recv_buf_filled recv_buf_ Touch x1].
  rewrite resize_head by done. f_equal. unfold request_ready, put, with_heap, with_pending. simpl.
  f_equal. by rewrite !insert_insert_eq.
Qed.

(** Content that comes after the head is dropped.  When a part of the
    content is missing the skeleton reads exactly that part, but then it cuts
    the buffer to what the head read had counted: whatever the content is, the
    program is called on the first bytes alone. *)
Theorem http_content_dropped s i p x n data head_len len content :
  waits_for_head s i p x n -> data <> [] -> zlen data <= n ->
  announces (data ++ zeros (n - zlen data)) head_len len ->
  zlen data + zlen content = len + head_len -> content <> [] -> head_len <= int_max ->
  len + head_len <= max_recv_buf_size_ (cfg s) -> len + head_len <= int_max ->
  exists s1,
    deliver (EvComplete i (CRead 0 data)) s = Ret tt s1 /\
    pending s1 = delete i (pending s) ++ [async_read p (zlen data) (zlen content) RHTTPContent] /\
    deliver (EvComplete (length (delete i (pending s))) (CRead 0 content)) s1 =
      answer_request p (request_ready s i p x data).
Proof. by apply content_dropped. Qed.

(** A head that comes in two pieces is counted wrongly.  The completion
    condition adds the total received so far at every call, so the first piece
    counts twice: the program is called on the request followed by as many zero
    bytes as the first piece had. *)
Theorem http_pieces_overcounted s i p x n d1 d2 head_len len :
  waits_for_head s i p x n -> d1 <> [] -> d2 <> [] -> 2 * zlen d1 + zlen d2 <= n ->
  search HTTP_key_end (d1 ++ zeros (n - zlen d1)) = None ->
  announces (d1 ++ d2 ++ zeros (n - zlen d1 - zlen d2)) head_len len ->
  len + head_len = zlen d1 + zlen d2 -> head_len <= int_max ->
  len + head_len <= max_recv_buf_size_ (cfg s) ->
  exists s1,
    deliver (EvComplete i (CRead 0 d1)) s = Ret tt s1 /\
    deliver (EvComplete (length (delete i (pending s))) (CRead 0 d2)) s1 =
      answer_request p (request_ready s i p x (d1 ++ d2 ++ zeros (zlen d1))).
Proof.
  intros (Hst & Hi & Hp & Hb & Hf & Hn) H1 H2 Hle Hs1 Ha Hlen Hh Hmax.
  assert (Hz1 : 0 < zlen d1) by (destruct d1; [done|unfold zlen; simpl; lia]).
  assert (Hz2 : 0 < zlen d2) by (destruct d2; [done|unfold zlen; simpl; lia]).
  set (s' := with_pending (delete i (pending s)) s).
  set (o := async_read_head p (zlen d1) (n - zlen d1)).
  set (x1 := set_recv_buf_filled (zlen d1) (SetRecvBuf_vec (d1 ++ zeros (n - zlen d1)) x)).
  exists (put p x1 (with_pending (delete i (pending s) ++ [o]) s)). split.
  - rewrite (deliver_eq s i _ _ Hst Hi)
      by (simpl; rewrite andb_true_iff, orb_true_iff, !Z.leb_le, !Z.ltb_lt; lia).
    cbn [complete]. change 0 with (zlen (@nil byte)) at 1.
    rewrite (read_head_step_eq _ p x [] d1 (zeros (n - zlen d1)));
      [|done|rewrite Hb; apply zeros_split; lia|done|rewrite Hb, zlen_zeros; lia|lia
      |rewrite Hb, Hf, zlen_zeros; change (zlen (@nil byte)) with 0; lia].
    rewrite !app_nil_l, Hs1, Hf, zlen_app, zlen_zeros by lia.
    change (zlen (@nil byte)) with 0. rewrite !Z.add_0_l.
    rewrite (proj2 (Z.leb_gt _ _)) by lia.
    by replace (zlen d1 + (n - zlen d1) - zlen d1) with (n - zlen d1) by lia.
  - set (s1 := put p x1 _).
    rewrite (deliver_eq s1 _ o); [|done|by apply list_lookup_middle
      |unfold o; simpl; rewrite andb_true_iff, orb_true_iff, !Z.leb_le, !Z.ltb_lt; lia].
    change (pending s1) with (delete i (pending s) ++ [o]). rewrite delete_snoc. cbn [complete o].
    change (with_pending (delete i (pending s)) s1) with (put p x1 s').
    rewrite (read_head_step_eq _ p x1 d1 d2 (zeros (n - zlen d1 - zlen d2)) (lookup_insert_eq _ _ _));
      [|unfold x1; cbn; by rewrite (zeros_split (n - zlen d1) d2) by lia|done
       |unfold x1; cbn; rewrite zlen_app, zlen_zeros; lia|unfold x1; cbn; lia
       |unfold x1; cbn; rewrite zlen_app, zlen_zeros; lia].
    pose proof Ha as (i3 & i1 & -> & _). rewrite put_put.
    rewrite (ReadHead_eq _ p _ (zlen d1 + zlen d2) head_len len (lookup_insert_eq _ _ _));
      [|done|cbn; rewrite !zlen_app, zlen_zeros; lia|lia|done|cbn; lia|lia].
    rewrite Hlen, Z.sub_diag. change (0 =? 0) with true. cbv iota. rewrite put_put.
    rewrite (ReadContent_eq _ p _ _ (lookup_insert_eq _ _ _)), put_put.
    cbn [recv_buf_filled_ SetRecvBuf_vec set_recv_buf_filled recv_buf_ Touch x1].
    assert (grown (zlen d1 + zlen d2) (d1 ++ d2 ++ zeros (n - zlen d1 - zlen d2)) =
            (d1 ++ d2 ++ zeros (zlen d1)) ++ zeros (n - 2 * zlen d1 - zlen d2)) as ->.
    { unfold grown. rewrite (proj2 (Z.ltb_ge _ _)) by (rewrite !zlen_app, zlen_zeros; lia).
      rewrite <- !app_assoc. do 2 f_equal. rewrite (zeros_split _ d1) by lia. do 2 f_equal. lia. }
    rewrite resize_head by (rewrite !zlen_app, zlen_zeros; lia). done.
Qed.

End Http.
