(* ===== verification/Requests.v ===== *)
(** * Starting requests, accepting connections, UDP, and the blocking call

    The functional behaviour of the operations of the interface of derived
    classes, on every branch. *)

From S2P Require Import Prelude Wire SocketInfo Skeleton Handlers Reactor.
From S2P Require Import Invariant Safety ApiSafety HandlerSafety Reachable SkeletonProps Framing.

Section Requests.
  Context {P : PROG} {B : Boost} {G : Program}.

(** ** Client requests *)

(** The write handler for the type of a socket, if the skeleton supports it. *)
Definition reply_handler (t : SocketType) : option WriteHandler :=
  match t with
  | T_TCP_LV => Some WThenReadL
  | T_TCP_HTTP => Some WThenReadHTTPHead
  | _ => None
  end.

Lemma ToWriteThenRead_sk_eq s p x buf h :
  heap s !! p = Some x -> (is_client_ x = true -> in_use_ x = false) ->
  reply_handler (type_ x) = Some h ->
  ToWriteThenRead_sk p buf s =
    Ret 0 (put p (SetSendBuf buf (if is_client_ x then set_in_use true x else x))
             (with_pending (pending s ++ [async_write p buf h]) s)).
Proof.
  intros Hp Hu Hh. unfold ToWriteThenRead_sk. rewrite (bind_eq _ _ _ _ _ (deref_eq s p x Hp)).
  set (y := if is_client_ x then set_in_use true x else x).
  assert (Hty : type_ y = type_ x) by (unfold y; by destruct (is_client_ x)).
  assert (H1 : (if is_client_ x then assert_ (negb (in_use_ x)) ;;! update p (set_in_use true)
                else ret tt) s = Ret tt (put p y s)).
  { unfold y. destruct (is_client_ x); [rewrite (Hu eq_refl)|].
    - unfold bindM; simpl. by apply update_eq.
    - unfold ret, put. rewrite insert_id by done. by destruct s. }
  rewrite (bind_eq _ _ _ _ _ H1), (bind_eq _ _ _ _ _ (update_put_eq s p y (SetSendBuf buf))).
  rewrite (bind_eq _ _ _ _ _ (deref_put _ _ _)).
  change (type_ (SetSendBuf buf y)) with (type_ y). rewrite Hty.
  unfold reply_handler in Hh. destruct (type_ x); try done; by injection Hh as <-.
Qed.

Lemma InsertTCPClientSocket_eq s e p :
  InsertTCPClientSocket e p s = Ret 0 (with_client_map
    (<[e := default [] (tcp_client_socket_map_ s !! e) ++ [p]]> (tcp_client_socket_map_ s)) s).
Proof.
  unfold InsertTCPClientSocket, bindM, gets, modify, ret.
  by destruct (tcp_client_socket_map_ s !! e).
Qed.

(** The socket a request on a new connection allocates. *)
Definition connecting (s : Skel) (e : Endpoint) (ty : SocketType) (buf : list byte)
    (cb : option PacketCallBack) : SocketInfo :=
  set_is_client true (set_remote_endpoint e (SetSendBuf buf (set_cb cb (new_SocketInfo ty (now s))))).

Lemma ToConnectThenWrite_eq s e ty buf cb :
  ToConnectThenWrite e ty buf cb s =
    let p := next_ptr s in
    Ret 0 (with_pending (pending s ++ [async_connect p e buf])
      (with_client_map (<[e := default [] (tcp_client_socket_map_ s !! e) ++ [p]]> (tcp_client_socket_map_ s))
        (with_heap (<[p := connecting s e ty buf cb]> (heap s)) (N.succ p) s))).
Proof.
  unfold ToConnectThenWrite, alloc. set (p := next_ptr s). cbn zeta.
  set (s1 := with_heap (heap s) (N.succ p) s).
  set (x0 := new_SocketInfo ty (now s)).
  unfold bindM at 1. unfold bindM at 1, gets at 1, id at 1. unfold bindM at 1, modify at 1, ret at 1.
  fold p x0.
  change (with_heap (<[p := x0]> (heap s)) (N.succ p) s) with (put p x0 s1).
  do 4 (rewrite (bind_eq _ _ _ _ _ (update_put_eq s1 p _ _))).
  rewrite (bind_eq _ _ _ _ _ (InsertTCPClientSocket_eq _ _ _)).
  set (s2 := with_client_map _ _).
  rewrite (bind_eq _ _ s2 _ s2 (deref_eq s2 p (connecting s e ty buf cb) ltac:(apply lookup_insert_eq))).
  done.
Qed.

Lemma idle_In s e p :
  wf s -> head (idle_sockets e s) = Some p ->
  exists x, heap s !! p = Some x /\ remote_endpoint_ x = e /\ is_client_ x = true /\ in_use_ x = false.
Proof.
  intros Hwf Eh.
  assert (Hin : p ∈ idle_sockets e s) by (destruct (idle_sockets e s); simplify_eq/=; by left).
  unfold idle_sockets in Hin. apply list_elem_of_filter in Hin as [Hi Hin].
  destruct (tcp_client_socket_map_ s !! e) as [l|] eqn:El; simpl in Hin;
    [|by apply not_elem_of_nil in Hin].
  destruct (wf_client _ Hwf e l p El Hin) as (x & Hx & Hr & Hc). exists x.
  unfold idle in Hi. rewrite Hx in Hi. apply andb_true_iff in Hi as [Hu _].
  apply negb_true_iff in Hu. destruct Hc as [Hc|Hc]; [done|congruence].
Qed.

Lemma client_request_eq s e ty buf :
  wf s ->
  match head (idle_sockets e s) with
  | Some p =>
      exists x, heap s !! p = Some x /\ remote_endpoint_ x = e /\ is_client_ x = true /\
      forall h, reply_handler (type_ x) = Some h ->
      ToWriteThenRead e ty buf false s =
        Ret 0 (put p (SetSendBuf buf (set_in_use true x))
                 (with_pending (pending s ++ [async_write p buf h]) s))
  | None =>
      ToWriteThenRead e ty buf false s =
        let p := next_ptr s in
        Ret 0 (with_pending (pending s ++ [async_connect p e buf])
          (with_client_map
             (<[e := default [] (tcp_client_socket_map_ s !! e) ++ [p]]> (tcp_client_socket_map_ s))
             (with_heap (<[p := connecting s e ty buf None]> (heap s)) (N.succ p) s)))
  end.
Proof.
  intros Hwf. pose proof (FindIdle_eq s e Hwf) as Hf. unfold ToWriteThenRead.
  rewrite (bind_eq _ _ _ _ _ Hf). destruct (head (idle_sockets e s)) as [p|] eqn:Eh.
  - destruct (idle_In s e p Hwf Eh) as (x & Hx & Hr & Hc & Hu). exists x. split_and!; [done..|].
    intros h Hh. rewrite (ToWriteThenRead_sk_eq s p x buf h); [by rewrite Hc|done|done|done].
  - apply ToConnectThenWrite_eq.
Qed.

(** C20: a client request uses the connection pool.  With an idle connection to
    the endpoint, the request is written on the first one, which becomes busy,
    and no other object, map or pending operation changes; without one, a new
    client socket is registered at the end of the list of the endpoint and one
    connect that carries the data is started. *)
Theorem ToWriteThenRead_client s e ty buf :
  wf s ->
  match head (idle_sockets e s) with
  | Some p =>
      exists x, heap s !! p = Some x /\
      forall h, reply_handler (type_ x) = Some h ->
      ToWriteThenRead e ty buf false s =
        Ret 0 (put p (SetSendBuf buf (set_in_use true x))
                 (with_pending (pending s ++ [async_write p buf h]) s))
  | None =>
      ToWriteThenRead e ty buf false s =
        let p := next_ptr s in
        Ret 0 (with_pending (pending s ++ [async_connect p e buf])
          (with_client_map
             (<[e := default [] (tcp_client_socket_map_ s !! e) ++ [p]]> (tcp_client_socket_map_ s))
             (with_heap (<[p := connecting s e ty buf None]> (heap s)) (N.succ p) s)))
  end.
Proof.
  intros Hwf. pose proof (client_request_eq s e ty buf Hwf) as H.
  destruct (head _); [|done]. destruct H as (x & Hx & _ & _ & H). eauto.
Qed.

(** Every client socket speaks LV. *)
Definition lv_clients (s : Skel) : Prop :=
  forall p x, heap s !! p = Some x -> is_client_ x = true -> type_ x = T_TCP_LV.

(** [ToWriteThenCallBack] for a client: as [ToWriteThenRead], and the socket gets
    the callback. *)
Lemma ToWriteThenCallBack_eq s e ty buf cb :
  wf s ->
  match head (idle_sockets e s) with
  | Some p =>
      exists x, heap s !! p = Some x /\ remote_endpoint_ x = e /\
      forall h, reply_handler (type_ x) = Some h ->
      ToWriteThenCallBack e ty buf false cb s =
        Ret 0 (put p (SetSendBuf buf (set_in_use true (set_cb cb x)))
                 (with_pending (pending s ++ [async_write p buf h]) s))
  | None =>
      ToWriteThenCallBack e ty buf false cb s =
        let p := next_ptr s in
        Ret 0 (with_pending (pending s ++ [async_connect p e buf])
          (with_client_map
             (<[e := default [] (tcp_client_socket_map_ s !! e) ++ [p]]> (tcp_client_socket_map_ s))
             (with_heap (<[p := connecting s e ty buf cb]> (heap s)) (N.succ p) s)))
  end.
Proof.
  intros Hwf. pose proof (FindIdle_eq s e Hwf) as Hf. unfold ToWriteThenCallBack.
  rewrite (bind_eq _ _ _ _ _ Hf). destruct (head (idle_sockets e s)) as [p|] eqn:Eh.
  - destruct (idle_In s e p Hwf Eh) as (x & Hx & Hr & Hc & Hu). exists x. split_and!; [done..|].
    intros h Hh. rewrite (bind_eq _ _ _ _ _ (update_eq s p x (set_cb cb) Hx)).
    rewrite (bind_eq _ _ _ _ _ (ToWriteThenRead_sk_eq (put p (set_cb cb x) s) p (set_cb cb x) buf h
      ltac:(apply lookup_insert_eq) (fun _ => Hu) Hh)).
    change (is_client_ (set_cb cb x)) with (is_client_ x). rewrite Hc. unfold ret. f_equal.
    apply (put_put (with_pending (pending s ++ [async_write p buf h]) s)).
  - by rewrite (bind_eq _ _ _ _ _ (ToConnectThenWrite_eq s e ty buf cb)).
Qed.

(** Answering on a registered LV connection starts its write. *)
Lemma ToWriteThenRead_answer s e p x buf :
  wf s -> tcp_server_socket_map_ s !! e = Some p -> heap s !! p = Some x -> type_ x = T_TCP_LV ->
  ToWriteThenRead e T_TCP_LV buf true s =
    Ret 0 (put p (SetSendBuf buf x) (with_pending (pending s ++ [async_write p buf WThenReadL]) s)).
Proof.
  intros Hwf Hp Hx Hty. unfold ToWriteThenRead, FindTCPServerSocket.
  destruct (wf_server _ Hwf _ p Hp) as (y & Hy & _ & Hc). simplify_eq.
  unfold bindM, gets, ret at 1. rewrite Hp.
  rewrite (ToWriteThenRead_sk_eq s p x _ WThenReadL); [by rewrite Hc|done|congruence|by rewrite Hty].
Qed.

(** Answering on a server connection: without a connection from the
    endpoint the call reports -1 and does nothing; with one it only starts the
    write of the answer. *)
Theorem ToWriteThenRead_server s e ty buf :
  wf s ->
  match tcp_server_socket_map_ s !! e with
  | None => ToWriteThenRead e ty buf true s = Ret (-1) s
  | Some p =>
      exists x, heap s !! p = Some x /\ remote_endpoint_ x = e /\
      match reply_handler (type_ x) with
      | Some h => ToWriteThenRead e ty buf true s =
          Ret 0 (put p (SetSendBuf buf x) (with_pending (pending s ++ [async_write p buf h]) s))
      | None => exists s', ToWriteThenRead e ty buf true s = Halt HAssert s'
      end
  end.
Proof.
  intros Hwf. unfold ToWriteThenRead.
  rewrite (bind_eq (FindTCPServerSocket e) _ s (tcp_server_socket_map_ s !! e) s) by done.
  destruct (tcp_server_socket_map_ s !! e) as [p|] eqn:E; [|done].
  destruct (wf_server _ Hwf e p E) as (x & Hx & Hr & Hc). exists x. split_and!; [done|done|].
  destruct (reply_handler (type_ x)) as [h|] eqn:Hh.
  - rewrite (ToWriteThenRead_sk_eq s p x buf h); [by rewrite Hc|done|congruence|done].
  - unfold ToWriteThenRead_sk. rewrite (bind_eq _ _ _ _ _ (deref_eq s p x Hx)), Hc.
    unfold bindM at 1, ret at 1. rewrite (bind_eq _ _ _ _ _ (update_eq s p x (SetSendBuf buf) Hx)).
    rewrite (bind_eq _ _ _ _ _ (deref_put _ _ _)).
    change (type_ (SetSendBuf buf x)) with (type_ x).
    destruct (type_ x); try done; by eexists.
Qed.

(** ** The life of a new connection *)

Lemma HandleConnectThenWrite_eq s p x buf le h :
  heap s !! p = Some x -> in_use_ x = false -> reply_handler (type_ x) = Some h ->
  HandleConnectThenWrite 0 p buf (Some le) s =
    Ret tt (put p (SetSendBuf buf (set_in_use true (set_is_connected true
                     (set_local_endpoint le (Touch (now s) x)))))
      (with_pending (pending s ++ [async_write p buf h])
        (with_client_map (<[remote_endpoint_ x :=
             default [] (tcp_client_socket_map_ s !! remote_endpoint_ x) ++ [p]]>
             (tcp_client_socket_map_ s)) s))).
Proof.
  intros Hp Hu Hh. unfold HandleConnectThenWrite. change (negb (0 =? 0)) with false. cbv iota.
  rewrite (bind_eq _ _ _ _ _ (Touch_now_eq s p x Hp)).
  do 2 rewrite (bind_eq _ _ _ _ _ (update_put_eq s p _ _)).
  rewrite (bind_eq _ _ _ _ _ (deref_put _ _ _)).
  cbn [in_use_ set_is_connected set_local_endpoint Touch]. rewrite Hu.
  unfold bindM at 1. cbn [assert_ negb ret].
  do 2 rewrite (bind_eq _ _ _ _ _ (update_put_eq s p _ _)).
  rewrite (bind_eq _ _ _ _ _ (InsertTCPClientSocket_eq _ _ _)).
  match goal with |- bindM (deref p) _ ?s1 = _ => set (s2 := s1) end.
  match goal with |- _ = Ret tt (put p ?y _) => set (x' := y) end.
  rewrite (bind_eq _ _ s2 _ s2 (deref_eq s2 p x' ltac:(apply lookup_insert_eq))).
  change (type_ x') with (type_ x). unfold reply_handler in Hh.
  destruct (type_ x); try done; by injection Hh as <-.
Qed.

(** A request on a new connection, and the state in which it waits. *)
Definition requested (s : Skel) (e : Endpoint) (ty : SocketType) (buf : list byte) : Skel :=
  let p := next_ptr s in
  with_pending (pending s ++ [async_connect p e buf])
    (with_client_map (<[e := default [] (tcp_client_socket_map_ s !! e) ++ [p]]> (tcp_client_socket_map_ s))
      (with_heap (<[p := connecting s e ty buf None]> (heap s)) (N.succ p) s)).

(** C23: a request on a new connection.  Once connected, the data of the request
    is written on the connection, which is busy and registered under its
    endpoint; it is registered twice, once when the connect was started and once
    when it completed. *)
Theorem request_on_new_connection s e buf le h ty :
  stopped s = false -> wf s -> idle_sockets e s = [] -> reply_handler ty = Some h ->
  let p := next_ptr s in
  ToWriteThenRead e ty buf false s = Ret 0 (requested s e ty buf) /\
  exists s2 x,
    deliver (EvComplete (length (pending s)) (CConnect 0 (Some le))) (requested s e ty buf) = Ret tt s2 /\
    pending s2 = pending s ++ [async_write p buf h] /\
    tcp_client_socket_map_ s2 !! e = Some (default [] (tcp_client_socket_map_ s !! e) ++ [p; p]) /\
    heap s2 !! p = Some x /\ remote_endpoint_ x = e /\ local_endpoint_ x = le /\
    is_client_ x = true /\ is_connected_ x = true /\ in_use_ x = true /\ send_buf_ x = buf.
Proof.
  intros Hst Hwf Hidle Hh p. split.
  - pose proof (FindIdle_eq s e Hwf) as Hf. rewrite Hidle in Hf.
    unfold ToWriteThenRead. rewrite (bind_eq _ _ _ _ _ Hf). apply ToConnectThenWrite_eq.
  - set (s1 := requested s e ty buf).
    rewrite (deliver_eq s1 _ (async_connect p e buf)); [|done|by apply list_lookup_middle|done].
    change (pending s1) with (pending s ++ [async_connect p e buf]). rewrite delete_snoc.
    set (s1' := with_pending (pending s) s1). cbn [complete].
    rewrite (HandleConnectThenWrite_eq s1' p (connecting s e ty buf None) buf le h);
      [|apply lookup_insert_eq|done|done].
    eexists _, _. split; [reflexivity|].
    split_and!; [done| |apply lookup_insert_eq|done..].
    cbn [tcp_client_socket_map_ put with_heap with_pending with_client_map s1' s1 requested].
    change (remote_endpoint_ (connecting s e ty buf None)) with e.
    rewrite !lookup_insert_eq. cbn [default]. unfold default, id. by rewrite <- app_assoc.
Qed.

(** A failed connect forgets the connection: it is closed, its endpoint is
    left with the connections it had before, and nothing is in flight. *)
Theorem connect_failure_forgets s e buf ty ec le :
  stopped s = false -> wf s -> ec <> 0 ->
  let p := next_ptr s in
  exists s2,
    deliver (EvComplete (length (pending s)) (CConnect ec le)) (requested s e ty buf) = Ret tt s2 /\
    pending s2 = pending s /\
    tcp_client_socket_map_ s2 !! e = Some (default [] (tcp_client_socket_map_ s !! e)) /\
    exists x, heap s2 !! p = Some x /\ tcp_sk_open x = false.
Proof.
  intros Hst Hwf Hec p. set (s1 := requested s e ty buf).
  rewrite (deliver_eq s1 _ (async_connect p e buf)); [|done|by apply list_lookup_middle|done].
  change (pending s1) with (pending s ++ [async_connect p e buf]). rewrite delete_snoc.
  set (s1' := with_pending (pending s) s1). cbn [complete]. unfold HandleConnectThenWrite.
  destruct (Z.eqb_spec ec 0); [done|]. cbn [negb].
  set (x := connecting s e ty buf None).
  assert (Hx : heap s1' !! p = Some x) by apply lookup_insert_eq.
  assert (Hold : p ∉ default [] (tcp_client_socket_map_ s !! e)).
  { destruct (next_free s Hwf) as (_ & _ & [_ Hun] & _).
    destruct (tcp_client_socket_map_ s !! e) as [l|] eqn:E; [by apply (Hun e)|].
    by apply not_elem_of_nil. }
  assert (Hl : tcp_client_socket_map_ s1' !! e = Some (default [] (tcp_client_socket_map_ s !! e) ++ [p]))
    by apply lookup_insert_eq.
  unfold DestroySocket. unfold bindM at 1 2. rewrite (update_eq s1' p x _ Hx).
  rewrite (bind_eq _ _ _ _ _ (deref_put _ _ _)).
  change (is_client_ (close_tcp_sk x)) with true.
  change (remote_endpoint_ (close_tcp_sk x)) with e. cbv iota.
  unfold bindM at 1, gets. change (tcp_client_socket_map_ (put p (close_tcp_sk x) s1'))
    with (tcp_client_socket_map_ s1'). rewrite Hl.
  eexists. split; [reflexivity|]. split_and!; [done| |].
  - simpl. by rewrite lookup_insert_eq, remove_all_snoc.
  - eexists. split; [apply lookup_insert_eq|done].
Qed.

(** C25: the state of an LV client request whose write fails.  The handler
    returns without destroying the socket: the connection stays registered and
    in use with nothing in flight on it, so no later event concerns it and
    [FindIdleTCPClientSocket] never hands it out again. *)
Theorem write_error_leaks_connection s i p x data ec n :
  stopped s = false -> inv True s -> pending s !! i = Some (async_write p data WThenReadL) ->
  heap s !! p = Some x -> lv_client x -> ec <> 0 -> 0 <= n <= zlen data ->
  exists s', deliver (EvComplete i (CWrite ec n)) s = Ret tt s' /\
    ops_of p s' = [] /\ (forall e, registered p e s' <-> registered p e s) /\
    (forall e, p ∉ idle_sockets e s').
Proof.
  intros Hst Hinv Hi Hx Hl Hec Hn.
  rewrite (deliver_eq s i _ _ Hst Hi); cycle 1.
  { simpl. destruct (Z.eqb_spec ec 0); [done|]. apply andb_true_iff. rewrite !Z.leb_le. lia. }
  cbn [complete call_write_handler]. unfold HandleWriteThenReadL.
  destruct (Z.eqb_spec ec 0); [done|]. eexists. split; [reflexivity|].
  set (s0 := with_heap (∅ : gmap N SocketInfo) 0%N s).
  destruct (take_op True s0 eq_refl s i _ Hinv Hi) as (_ & Hp & _).
  destruct (Hp p eq_refl) as (y & Hy & _ & Hph). simpl in Hy. simplify_eq.
  destruct (Hph I Hl) as (Hops & Hu & _). split_and!; [done|done|].
  intros e Hin. unfold idle_sockets in Hin. apply list_elem_of_filter in Hin as [Hid _].
  unfold idle in Hid. simpl in Hid. rewrite Hx, Hu in Hid. done.
Qed.

(** [ToWriteThenClose] without a connection aborts instead of reporting the
    error: the message it logs dereferences the null pointer it tests for.  With
    a connection it starts the write and leaves the flags of the socket alone. *)
Theorem ToWriteThenClose_spec s e buf (srv : bool) :
  wf s ->
  match (if srv then tcp_server_socket_map_ s !! e else head (idle_sockets e s)) with
  | None => ToWriteThenClose e buf srv s = Halt HAssert s
  | Some p => exists x, heap s !! p = Some x /\
      ToWriteThenClose e buf srv s =
        Ret 0 (put p (SetSendBuf buf x) (with_pending (pending s ++ [async_write p buf WThenClose]) s))
  end.
Proof.
  intros Hwf. set (r := if srv then tcp_server_socket_map_ s !! e else head (idle_sockets e s)).
  assert (Hfind : (if srv then FindTCPServerSocket e else FindIdleTCPClientSocket e) s = Ret r s).
  { unfold r. destruct srv; [done|by apply FindIdle_eq]. }
  assert (Hok : forall p, r = Some p -> is_Some (heap s !! p)).
  { intros p Hp. unfold r in Hp. destruct srv.
    - destruct (wf_server _ Hwf e p Hp) as (x & Hx & _). eauto.
    - assert (Hin : p ∈ idle_sockets e s) by (destruct (idle_sockets e s); simplify_eq/=; by left).
      apply list_elem_of_filter in Hin as [Hid _]. unfold idle in Hid.
      destruct (heap s !! p); [eauto|done]. }
  unfold ToWriteThenClose. rewrite (bind_eq _ _ _ _ _ Hfind).
  destruct r as [p|]; [|done]. destruct (Hok p eq_refl) as [x Hx]. exists x. split; [done|].
  rewrite (bind_eq _ _ _ _ _ (update_eq s p x (SetSendBuf buf) Hx)).
  by rewrite (bind_eq _ _ _ _ _ (deref_put _ _ _)).
Qed.

(** ** Accepting *)

Lemma Reset_eq s a ai :
  acceptors s !! a = Some ai ->
  Reset a s = Ret tt
    (with_acceptors (<[a := mkTCPAcceptorInfo (acc_type_ ai) (next_ptr s)]> (acceptors s))
      (with_heap (<[next_ptr s := new_SocketInfo (acc_type_ ai) (now s)]> (heap s))
         (N.succ (next_ptr s)) s)).
Proof. intros Ha. unfold Reset, deref_acceptor, bindM, gets. by rewrite Ha. Qed.

(** The acceptor hands its socket over and gets a fresh one. *)
Definition handed_over (s : Skel) (a : ptr) (ai : TCPAcceptorInfo) (y : SocketInfo) : Skel :=
  with_acceptors (<[a := mkTCPAcceptorInfo (acc_type_ ai) (next_ptr s)]> (acceptors s))
    (with_heap (<[next_ptr s := new_SocketInfo (acc_type_ ai) (now s)]>
        (<[sk_info_ ai := set_type (acc_type_ ai) (set_in_use true (set_is_connected true y))]> (heap s)))
      (N.succ (next_ptr s)) s).

Lemma HandleAccept_prefix s a ai y re le :
  acceptors s !! a = Some ai -> heap s !! sk_info_ ai = Some y ->
  HandleAccept 0 a re le s =
    match re, le with
    | Some re, Some le =>
       (update (sk_info_ ai) (set_remote_endpoint re) ;;!
        update (sk_info_ ai) (set_local_endpoint le) ;;!
        let! r := InsertTCPServerSocket re (sk_info_ ai) in
        assert_ (negb (r <? 0)) ;;!
        let! c := gets cfg in
        set_recv_buf_size (sk_info_ ai) (init_recv_buf_size_ c) ;;!
        let! x := deref (sk_info_ ai) in
        match type_ x with
        | T_TCP_HTTP =>
            let! r := ToReadHTTPHeadThenReadHTTPContent (sk_info_ ai) in
            if r <? 0 then DestroySocket (sk_info_ ai) ;;! ret tt else ret tt
        | T_TCP_LV =>
            let! r := ToReadLThenReadV (sk_info_ ai) in
            if r <? 0 then DestroySocket (sk_info_ ai) ;;! ret tt else ret tt
        | _ => stop HAssert
        end ;;!
        start (async_accept a)) (handed_over s a ai y)
    | _, _ => Ret tt (handed_over s a ai y)
    end.
Proof.
  intros Ha Hy. unfold HandleAccept. change (negb (0 =? 0)) with false. cbv iota.
  unfold deref_acceptor. unfold bindM at 1 2, gets at 1. rewrite Ha. cbn [of_option ret].
  rewrite (bind_eq _ _ _ _ _ (update_eq s _ y _ Hy)).
  do 2 rewrite (bind_eq _ _ _ _ _ (update_put_eq s _ _ _)).
  match goal with |- bindM (Reset a) _ ?s1 = _ => set (s2 := s1) end.
  rewrite (bind_eq _ _ s2 _ _ (Reset_eq s2 a ai Ha)).
  destruct re; [|done]. destruct le; done.
Qed.

(** Accepting an LV connection.  The connection is registered under its
    remote endpoint, its length field is read into a 4-byte buffer, the acceptor
    has a fresh socket, and it accepts again. *)
Theorem HandleAccept_lv s a ai re le :
  wf s -> acceptors s !! a = Some ai -> acc_type_ ai = T_TCP_LV ->
  tcp_server_socket_map_ s !! re = None -> 0 <= init_recv_buf_size_ (cfg s) ->
  let p := sk_info_ ai in
  exists s' x,
    HandleAccept 0 a (Some re) (Some le) s = Ret tt s' /\
    tcp_server_socket_map_ s' = <[re := p]> (tcp_server_socket_map_ s) /\
    pending s' = pending s ++ [async_read p 0 4 RLThenReadV; async_accept a] /\
    acceptors s' !! a = Some (mkTCPAcceptorInfo T_TCP_LV (next_ptr s)) /\
    heap s' !! p = Some x /\ type_ x = T_TCP_LV /\ remote_endpoint_ x = re /\
    local_endpoint_ x = le /\ in_use_ x = true /\ is_client_ x = false /\ zlen (recv_buf_ x) = 4.
Proof.
  intros Hwf Ha Hty Hfree Hsz p.
  destruct (wf_acceptor _ Hwf a ai Ha) as (Hun & y & Hy & Hc).
  rewrite (HandleAccept_prefix s a ai y _ _ Ha Hy). fold p.
  set (s1 := handed_over s a ai y). set (y1 := set_type (acc_type_ ai) (set_in_use true (set_is_connected true y))).
  assert (Hne : p <> next_ptr s).
  { destruct (next_free s Hwf) as (Hn & _). unfold p. congruence. }
  assert (Hy1 : heap s1 !! p = Some y1).
  { simpl. rewrite lookup_insert_ne by done. apply lookup_insert_eq. }
  rewrite (bind_eq _ _ _ _ _ (update_eq s1 p y1 _ Hy1)).
  rewrite (bind_eq _ _ _ _ _ (update_put_eq s1 p _ _)). set (y2 := set_local_endpoint _ _).
  assert (Hins : InsertTCPServerSocket re p (put p y2 s1) =
            Ret 0 (put p y2 (with_server_map (<[re := p]> (tcp_server_socket_map_ s)) s1))).
  { unfold InsertTCPServerSocket, bindM, gets. 
    change (tcp_server_socket_map_ (put p y2 s1)) with (tcp_server_socket_map_ s). by rewrite Hfree. }
  rewrite (bind_eq _ _ _ _ _ Hins). set (s2 := with_server_map _ s1).
  unfold bindM at 1. cbn [assert_ negb Z.ltb Z.compare ret]. unfold bindM at 1, gets at 1.
  change (cfg (put p y2 s2)) with (cfg s). unfold set_recv_buf_size.
  rewrite (proj2 (Z.ltb_ge _ _) Hsz). rewrite (bind_eq _ _ _ _ _ (update_put_eq s2 p _ _)).
  set (y3 := SetRecvBuf _ _). rewrite (bind_eq _ _ _ _ _ (deref_put _ _ _)).
  change (type_ y3) with (acc_type_ ai). rewrite Hty.
  unfold ToReadLThenReadV. unfold bindM at 1 2 3. rewrite (update_put_eq s2 p y3).
  eexists _, (SetRecvBuf 4 y3). split; [reflexivity|]. split_and!; try done.
  - cbn [pending put with_heap with_pending s2 s1 handed_over with_acceptors with_server_map].
    by rewrite <- app_assoc.
  - simpl. rewrite Hty. apply lookup_insert_eq.
  - apply lookup_insert_eq.
Qed.

(** An acceptor does not survive a connection that is already gone.  When
    the accepted socket has no remote or local endpoint any more, the handler
    returns before it accepts again: no operation of the acceptor is started. *)
Theorem HandleAccept_lost_endpoint s a ai re le :
  wf s -> acceptors s !! a = Some ai -> re = None \/ le = None ->
  exists s', HandleAccept 0 a re le s = Ret tt s' /\ pending s' = pending s /\
    tcp_server_socket_map_ s' = tcp_server_socket_map_ s.
Proof.
  intros Hwf Ha Hlost. destruct (wf_acceptor _ Hwf a ai Ha) as (Hun & y & Hy & Hc).
  exists (handed_over s a ai y). rewrite (HandleAccept_prefix s a ai y _ _ Ha Hy).
  destruct Hlost as [-> | ->]; [done|by destruct re].
Qed.

End Requests.
