(* ===== verification/UdpSync.v ===== *)
(** * UDP and the blocking call of the skeleton *)

From S2P Require Import Prelude Wire SocketInfo Skeleton Handlers Reactor.
From S2P Require Import Invariant Safety SkeletonProps Framing.

Section UdpSync.
  Context {P : PROG} {B : Boost} {G : Program}.

(** [UDPToWrite].  A full queue refuses the datagram with -1 and nothing
    changes; otherwise the datagram goes to the end of the queue, and a send of
    the front of the queue is started if none is under way.  The queue never
    exceeds its maximum. *)
Theorem UDPToWrite_spec s u e buf :
  udp_socket_ s = Some u ->
  GetSendBufListLength u <= max_length_of_send_buf_list_ u ->
  (GetSendBufListLength u = max_length_of_send_buf_list_ u /\ UDPToWrite e buf s = Ret (-1) s) \/
  exists s' u', UDPToWrite e buf s = Ret 0 s' /\ udp_socket_ s' = Some u' /\
    send_buf_list_ u' = send_buf_list_ u ++ [(e, buf)] /\ udp_in_use_ u' = true /\
    GetSendBufListLength u' <= max_length_of_send_buf_list_ u' /\
    exists front, head (send_buf_list_ u') = Some front /\
    pending s' = pending s ++ (if udp_in_use_ u then [] else [async_send_to front.2 front.1]).
Proof.
  intros Hu Hlen. unfold UDPToWrite.
  rewrite (bind_eq deref_udp _ s u s) by (unfold deref_udp, bindM, gets; by rewrite Hu).
  unfold GetSendBufListLength in *. unfold AddSendBuf.
  destruct (Z.eqb_spec (zlen (send_buf_list_ u)) (max_length_of_send_buf_list_ u)) as [Hf|Hf].
  - left. split; [done|]. unfold bindM, modify, ret. simpl. rewrite <- Hu. by destruct s.
  - right. set (u1 := set_send_buf_list (send_buf_list_ u ++ [(e, buf)]) u).
    unfold bindM at 1, modify. cbn [Z.ltb Z.compare].
    assert (Hl1 : zlen (send_buf_list_ u1) <= max_length_of_send_buf_list_ u1).
    { cbn. rewrite zlen_app. unfold zlen at 2. simpl. lia. }
    assert (Hfr : exists front, head (send_buf_list_ u1) = Some front).
    { cbn. destruct (send_buf_list_ u); simpl; eauto. }
    destruct Hfr as [front Hfr]. change (udp_in_use_ u1) with (udp_in_use_ u).
    destruct (udp_in_use_ u) eqn:Hin; cbn [negb].
    + exists (with_udp (Some u1) s), u1. split_and!; try done.
      exists front. split; [done|]. by rewrite app_nil_r.
    + unfold GetSendBufListFront. rewrite Hfr.
      eexists _, (udp_set_in_use true u1). split; [reflexivity|]. split_and!; try done.
      exists front. done.
Qed.

(** A datagram is never taken off the queue: when the send of the front
    datagram completes, with or without an error, the handler sends the same
    datagram again.  The completion brings the skeleton back to exactly the
    state it was in, so no other datagram of the queue is ever sent. *)
Theorem udp_front_resent_forever s u l to data rest ec n :
  stopped s = false -> udp_socket_ s = Some u ->
  send_buf_list_ u = (to, data) :: rest -> pending s = l ++ [async_send_to data to] ->
  0 <= n <= zlen data ->
  deliver (EvComplete (length l) (CSendTo ec n)) s = Ret tt s.
Proof.
  intros Hst Hu Hq Hl Hn.
  rewrite (deliver_eq s _ (async_send_to data to)); [|done| |]; cycle 1.
  { rewrite Hl. by apply list_lookup_middle. }
  { simpl. apply andb_true_iff. rewrite !Z.leb_le. lia. }
  rewrite Hl, delete_snoc. cbn [complete]. unfold HandleUDPWrite.
  rewrite (bind_eq deref_udp _ _ u _)
    by (unfold deref_udp, bindM, gets; simpl; by rewrite Hu).
  unfold GetSendBufListLength, GetSendBufListFront. rewrite Hq.
  assert ((zlen ((to, data) :: rest) =? 0) = false) as ->
    by (apply Z.eqb_neq; unfold zlen; simpl; lia).
  cbn. unfold start, modify, bindM, ret. cbn. rewrite <- Hl. by destruct s.
Qed.

(** The inversion of a run that returned. *)
Ltac inv_ret H :=
  repeat match type of H with
    | bindM _ _ _ = Ret _ _ =>
        let a := fresh "a" in let s := fresh "s" in let E := fresh "E" in
        apply bind_Ret_inv in H as (a & s & E & H)
    end.

(** The blocking call of the skeleton can only succeed on an answer without
    content.  Its second read is given the address behind the four bytes of the
    length field, so when the call returns 0 the length of the answer was 4, no
    content was received, and the caller's buffer holds the length field alone. *)
Theorem ToWriteThenReadSync_success s e buf fill io r s' :
  ToWriteThenReadSync e buf T_TCP_LV fill io s = Ret (0, r) s' ->
  write_ec io = 0 /\ read_L_ec io = 0 /\ read_V_ec io = 0 /\
  (exists w, load32 (read_L io) 0 = Some w /\ bswap32 w = 4) /\ read_V io = [] /\
  r = read_L io.
Proof.
  intros H. unfold ToWriteThenReadSync in H.
  apply bind_Ret_inv in H as (fnd & s1 & _ & H).
  apply bind_Ret_inv in H as ([] & s2 & _ & H).
  rewrite bool_decide_eq_false_2 in H by (by intros ?).
  apply bind_Ret_inv in H as (sk & s3 & _ & H). destruct sk as [p|]; [|done].
  apply bind_Ret_inv in H as ([] & s4 & _ & H).
  destruct (Z.eqb_spec (write_ec io) 0) as [Hw|]; cbn [negb] in H;
    [|apply bind_Ret_inv in H as (? & ? & _ & H); done].
  destruct (Z.eqb_spec (read_L_ec io) 0) as [Hr|]; cbn [negb] in H;
    [|apply bind_Ret_inv in H as (? & ? & _ & H); done].
  apply bind_Ret_inv in H as (w & s5 & Ew & H).
  apply bind_Ret_inv in H as (c & s6 & _ & H).
  destruct (Z.ltb_spec (bswap32 w) 0); cbn [orb] in H;
    [apply bind_Ret_inv in H as (? & ? & _ & H); done|].
  destruct (max_recv_buf_size_ c <? bswap32 w);
    [apply bind_Ret_inv in H as (? & ? & _ & H); done|].
  apply bind_Ret_inv in H as (b & s7 & Eb & H).
  apply bind_Ret_inv in H as ([] & s8 & Ez & H).
  destruct (Z.ltb_spec 0 (zlen (read_V io))) as [|Hz]; [done|].
  pose proof (zlen_nonneg (read_V io)).
  destruct (Z.eqb_spec (read_V_ec io) 0) as [Hv|]; cbn [negb] in H;
    [|apply bind_Ret_inv in H as (? & ? & _ & H); done].
  destruct (Z.eqb_spec (zlen (read_V io)) (bswap32 w - 4)) as [Hlen|]; [|done].
  injection H as <- _.
  destruct (Z.eqb_spec (zlen (read_L io)) 4) as [H4|]; [|done].
  destruct (load32 (read_L io) 0) as [w'|] eqn:El; [|done]. injection Ew as -> _.
  assert (Hl4 : bswap32 w = 4) by lia.
  split_and!; [done..|eauto| |].
  - destruct (read_V io); [done|unfold zlen in *; simpl in *; lia].
  - rewrite Hl4 in Eb. unfold overwrite in Eb. case_decide as Hd; [|done]. injection Eb as <- _.
    unfold zlen in H4. rewrite drop_ge by (rewrite length_resize; lia). by rewrite app_nil_r.
Qed.

End UdpSync.
