(* ===== verification/Packets.v ===== *)
(** * The packets of the test programs: [asio-based3/test_packet.hpp]

    The classes are packed, so an object is the concatenation of its 32-bit
    members; the programs send the bytes of an object and read a received
    buffer through a cast of its address. *)

From S2P Require Import Prelude Wire Framing.

(** [enum PacketType]. *)
Definition T_REQ_TO_BF : Z := 1.
Definition T_RSP_FROM_BF : Z := 2.
Definition T_REQ_TO_BB1 : Z := 3.
Definition T_RSP_FROM_BB1 : Z := 4.
Definition T_REQ_TO_BB2 : Z := 5.
Definition T_RSP_FROM_BB2 : Z := 6.

(** [class TestPacketBase]. *)
Record TestPacketBase := mkBase { len_ : Z; ptype_ : Z; seq_ : Z }.

Record ReqToBF := mkReqToBF { req_base : TestPacketBase; a_ : Z; b_ : Z }.
Record RspFromBF := mkRspFromBF { rsp_base : TestPacketBase; sum_ : Z; error_ : Z }.
Record ReqToBB1 := mkReqToBB1 { req1_base : TestPacketBase; bb1_a_ : Z }.
Record RspFromBB1 := mkRspFromBB1 { rsp1_base : TestPacketBase; another_a_ : Z }.
Record ReqToBB2 := mkReqToBB2 { req2_base : TestPacketBase; bb2_b_ : Z }.
Record RspFromBB2 := mkRspFromBB2 { rsp2_base : TestPacketBase; another_b_ : Z }.

(** The sizes of the packed classes. *)
Definition sizeof_ReqToBF : Z := 20.
Definition sizeof_RspFromBF : Z := 20.
Definition sizeof_ReqToBB1 : Z := 16.
Definition sizeof_RspFromBB1 : Z := 16.
Definition sizeof_ReqToBB2 : Z := 16.
Definition sizeof_RspFromBB2 : Z := 16.

(** ** Objects as bytes *)

Definition base_words (p : TestPacketBase) : list Z := [len_ p; ptype_ p; seq_ p].

Definition bytes_ReqToBF (p : ReqToBF) := words (base_words (req_base p) ++ [a_ p; b_ p]).
Definition bytes_RspFromBF (p : RspFromBF) := words (base_words (rsp_base p) ++ [sum_ p; error_ p]).
Definition bytes_ReqToBB1 (p : ReqToBB1) := words (base_words (req1_base p) ++ [bb1_a_ p]).
Definition bytes_RspFromBB1 (p : RspFromBB1) := words (base_words (rsp1_base p) ++ [another_a_ p]).
Definition bytes_ReqToBB2 (p : ReqToBB2) := words (base_words (req2_base p) ++ [bb2_b_ p]).
Definition bytes_RspFromBB2 (p : RspFromBB2) := words (base_words (rsp2_base p) ++ [another_b_ p]).

(** Reading through the cast pointer: [None] when a member is outside of the
    buffer. *)
Definition view_base (buf : list byte) : option TestPacketBase :=
  l ← load32 buf 0; t ← load32 buf 4; q ← load32 buf 8; Some (mkBase l t q).
(** [baseptr->type_] and [baseptr->seq_], which the programs read on their own. *)
Definition view_type (buf : list byte) : option Z := load32 buf 4.
Definition view_seq (buf : list byte) : option Z := load32 buf 8.
Definition view_ReqToBF (buf : list byte) : option ReqToBF :=
  h ← view_base buf; x ← load32 buf 12; y ← load32 buf 16; Some (mkReqToBF h x y).
Definition view_RspFromBF (buf : list byte) : option RspFromBF :=
  h ← view_base buf; x ← load32 buf 12; y ← load32 buf 16; Some (mkRspFromBF h x y).
Definition view_ReqToBB1 (buf : list byte) : option ReqToBB1 :=
  h ← view_base buf; x ← load32 buf 12; Some (mkReqToBB1 h x).
Definition view_RspFromBB1 (buf : list byte) : option RspFromBB1 :=
  h ← view_base buf; x ← load32 buf 12; Some (mkRspFromBB1 h x).
Definition view_ReqToBB2 (buf : list byte) : option ReqToBB2 :=
  h ← view_base buf; x ← load32 buf 12; Some (mkReqToBB2 h x).
Definition view_RspFromBB2 (buf : list byte) : option RspFromBB2 :=
  h ← view_base buf; x ← load32 buf 12; Some (mkRspFromBB2 h x).

(** The reply packets of the back ends, with the right type and length. *)
Definition reply_bb1 (seq v : Z) : list byte :=
  bytes_RspFromBB1 (mkRspFromBB1 (mkBase (bswap32 sizeof_RspFromBB1) T_RSP_FROM_BB1 seq) v).
Definition reply_bb2 (seq v : Z) : list byte :=
  bytes_RspFromBB2 (mkRspFromBB2 (mkBase (bswap32 sizeof_RspFromBB2) T_RSP_FROM_BB2 seq) v).

(** The request packets for the back ends. *)
Definition ask_bb1 (seq a : Z) : list byte :=
  bytes_ReqToBB1 (mkReqToBB1 (mkBase (bswap32 sizeof_ReqToBB1) T_REQ_TO_BB1 seq) a).
Definition ask_bb2 (seq b : Z) : list byte :=
  bytes_ReqToBB2 (mkReqToBB2 (mkBase (bswap32 sizeof_ReqToBB2) T_REQ_TO_BB2 seq) b).

(** ** Round trips *)

Definition base_ok (p : TestPacketBase) : Prop := Forall int32 (base_words p).

Lemma view_base_words p rest :
  base_ok p -> Forall int32 rest -> view_base (words (base_words p ++ rest)) = Some p.
Proof.
  intros Hp Hr. assert (Hall : Forall int32 (base_words p ++ rest)) by (by apply Forall_app).
  unfold view_base.
  rewrite (words_load _ 0 (len_ p) Hall eq_refl : load32 _ 0 = _). cbn [mbind option_bind].
  rewrite (words_load _ 1 (ptype_ p) Hall eq_refl : load32 _ 4 = _). cbn [mbind option_bind].
  rewrite (words_load _ 2 (seq_ p) Hall eq_refl : load32 _ 8 = _). by destruct p.
Qed.

Lemma view_base_members buf p :
  view_base buf = Some p -> view_type buf = Some (ptype_ p) /\ view_seq buf = Some (seq_ p).
Proof.
  unfold view_base, view_type, view_seq. destruct (load32 buf 0); [|done].
  destruct (load32 buf 4); [|done]. destruct (load32 buf 8); [|done]. by intros [= <-].
Qed.

Lemma load_first p x rest :
  base_ok p -> Forall int32 (x :: rest) -> load32 (words (base_words p ++ x :: rest)) 12 = Some x.
Proof.
  intros Hp Hr. apply (words_load _ 3); [by apply Forall_app|done].
Qed.

Lemma load_second p x y :
  base_ok p -> Forall int32 [x; y] -> load32 (words (base_words p ++ [x; y])) 16 = Some y.
Proof.
  intros Hp Hr. apply (words_load _ 4); [by apply Forall_app|done].
Qed.

(** A packet whose length field is the size of its class is an LV packet. *)
Lemma words_lv size rest :
  zlen (words (bswap32 size :: rest)) = size -> words (bswap32 size :: rest) = lv_packet (words rest).
Proof.
  intros Hs. unfold lv_packet. unfold words at 1. cbn [map concat]. fold (words rest).
  do 3 f_equal. rewrite <- Hs. unfold words at 1. cbn [map concat]. fold (words rest).
  rewrite zlen_app. unfold zlen. rewrite length_le32_enc. lia.
Qed.

Lemma base_ok_new size ty seq : int32 ty -> int32 seq -> base_ok (mkBase (bswap32 size) ty seq).
Proof. intros. unfold base_ok, base_words.
  apply List.Forall_cons; [apply bswap32_range|]. by do 2 (apply List.Forall_cons; [done|]). Qed.

Lemma base_ok_seq p : base_ok p -> int32 (seq_ p).
Proof.
  unfold base_ok, base_words. intros H. eapply list.Forall_forall; [exact H|].
  do 2 right. by left.
Qed.

Lemma view_base_reply ty size seq v :
  int32 ty -> int32 seq -> int32 v ->
  view_base (words (base_words (mkBase (bswap32 size) ty seq) ++ [v])) =
    Some (mkBase (bswap32 size) ty seq).
Proof. intros. apply view_base_words; [by apply base_ok_new|auto]. Qed.

Lemma packets_views :
  (forall p, base_ok (req_base p) -> Forall int32 [a_ p; b_ p] ->
     view_ReqToBF (bytes_ReqToBF p) = Some p) /\
  (forall p, base_ok (rsp_base p) -> Forall int32 [sum_ p; error_ p] ->
     view_RspFromBF (bytes_RspFromBF p) = Some p) /\
  (forall p, base_ok (req1_base p) -> int32 (bb1_a_ p) -> view_ReqToBB1 (bytes_ReqToBB1 p) = Some p) /\
  (forall p, base_ok (rsp1_base p) -> int32 (another_a_ p) -> view_RspFromBB1 (bytes_RspFromBB1 p) = Some p) /\
  (forall p, base_ok (req2_base p) -> int32 (bb2_b_ p) -> view_ReqToBB2 (bytes_ReqToBB2 p) = Some p) /\
  (forall p, base_ok (rsp2_base p) -> int32 (another_b_ p) -> view_RspFromBB2 (bytes_RspFromBB2 p) = Some p).
Proof.
  unfold view_ReqToBF, view_RspFromBF, view_ReqToBB1, view_RspFromBB1, view_ReqToBB2, view_RspFromBB2.
  split_and!; intros p Hb Hr.
  1-2: unfold bytes_ReqToBF, bytes_RspFromBF; rewrite view_base_words by done; cbn [mbind option_bind];
    rewrite load_first by done; cbn [mbind option_bind]; rewrite load_second by done; by destruct p.
  all: unfold bytes_ReqToBB1, bytes_RspFromBB1, bytes_ReqToBB2, bytes_RspFromBB2;
    rewrite view_base_words by auto; cbn [mbind option_bind];
    rewrite load_first by auto; by destruct p.
Qed.

(** Every packet class survives the wire: reading the bytes of an object
    through the cast gives its members back. *)
Theorem packets_round_trip :
  (forall p, base_ok (req_base p) -> Forall int32 [a_ p; b_ p] ->
     view_ReqToBF (bytes_ReqToBF p) = Some p) /\
  (forall p, base_ok (rsp_base p) -> Forall int32 [sum_ p; error_ p] ->
     view_RspFromBF (bytes_RspFromBF p) = Some p) /\
  (forall p, base_ok (req1_base p) -> int32 (bb1_a_ p) -> view_ReqToBB1 (bytes_ReqToBB1 p) = Some p) /\
  (forall p, base_ok (rsp1_base p) -> int32 (another_a_ p) -> view_RspFromBB1 (bytes_RspFromBB1 p) = Some p) /\
  (forall p, base_ok (req2_base p) -> int32 (bb2_b_ p) -> view_ReqToBB2 (bytes_ReqToBB2 p) = Some p) /\
  (forall p, base_ok (rsp2_base p) -> int32 (another_b_ p) -> view_RspFromBB2 (bytes_RspFromBB2 p) = Some p).
Proof. apply packets_views. Qed.
