(* ===== verification/Options.v ===== *)
(** * Command lines and the listening loop of the programs

    Every [main] reads its options with [getopt], checks them, adds one
    acceptor per port of a range and runs the skeleton. *)

From S2P Require Import Prelude Wire Decimals SocketInfo Skeleton Handlers Reactor.

(** What [getopt] returns: one option character with its argument at a time. *)
Definition OptionList : Type := list (byte * list byte).

(** The result of one turn of an option loop: go on, [return] from [main],
    [exit], or undefined behaviour. *)
Inductive OptResult (A : Type) :=
| OGo (a : A)
| OReturn (z : Z)
| OExit (z : Z)
| OUndefined.
Arguments OGo {A} a.
Arguments OReturn {A} z.
Arguments OExit {A} z.
Arguments OUndefined {A}.

Definition opt_bind {A C} (r : option A) (k : A -> OptResult C) : OptResult C :=
  match r with Some a => k a | None => OUndefined end.

Notation "'let?' x := m 'in' k" := (opt_bind m (fun x => k))
  (at level 10, x name, m at level 100, k at level 200) : kk_scope.

(** The [while] loop over [getopt]. *)
Fixpoint parse_options {A} (f : A -> byte -> list byte -> OptResult A) (argv : OptionList) (o : A)
    : OptResult A :=
  match argv with
  | [] => OGo o
  | (c, optarg) :: argv' =>
      match f o c optarg with
      | OGo o' => parse_options f argv' o'
      | r => r
      end
  end.

(** [atoi]: blanks, a sign, digits; undefined when the value is no [int]. *)
Definition atoi (l : list byte) : option Z :=
  let v := match skip_spaces l with
           | x2d :: l' => - digits 0 l'
           | x2b :: l' => digits 0 l'
           | l' => digits 0 l'
           end in
  if in_int v then Some v else None.

(** [uint16_t]. *)
Definition u16 (z : Z) : Z := z mod 2 ^ 16.

Definition set_timer_trigger_interval (millisec : Z) (c : Config) : Config :=
  mkConfig millisec (init_recv_buf_size_ c) (max_recv_buf_size_ c) (udp_recv_buf_size_ c)
    (tcp_backlog_ c) (server_timeout_ c).
Definition set_server_timeout (server_timeout : Z) (c : Config) : Config :=
  mkConfig (timer_trigger_interval_ c) (init_recv_buf_size_ c) (max_recv_buf_size_ c)
    (udp_recv_buf_size_ c) (tcp_backlog_ c) server_timeout.

Section Options.
  Context {P : PROG} {B : Boost}.

(** More turns than there are ports. *)
Definition listen_fuel : nat := Z.to_nat (2 ^ 16 + 1).

(** [for (uint16_t port = low; port <= high; port++) AddTCPAcceptor(...)]: the
    counter wraps.  [type] is the type of socket the
    program listens for, [sys_ok] is whether the system accepts the port. *)
Fixpoint listen_ports (fuel : nat) (type : SocketType) (addr : Z) (port high : Z)
    (sys_ok : Z -> bool) : M Skel bool :=
  match fuel with
  | O => ret false
  | S fuel =>
      if port <=? high then
        AddTCPAcceptor (mkEndpoint addr port) type (sys_ok port) ;;!
        listen_ports fuel type addr (u16 (port + 1)) high sys_ok
      else ret true
  end.

(** ** The loop *)

Definition after_add (type : SocketType) (s : Skel) (e : Endpoint) : Skel :=
  let sk := next_ptr s in
  let acc := N.succ sk in
  with_pending (pending s ++ [async_accept acc])
    (with_acceptor_map (<[e := acc]> (tcp_acceptor_map_ s))
      (with_acceptors (<[acc := mkTCPAcceptorInfo type sk]> (acceptors s))
        (with_heap (<[sk := new_SocketInfo type (now s)]> (heap s)) (N.succ acc) s))).

Lemma AddTCPAcceptor_eq type s e :
  tcp_acceptor_map_ s !! e = None -> AddTCPAcceptor e type true s = Ret 0 (after_add type s e).
Proof.
  intros He. unfold AddTCPAcceptor, alloc, InsertTCPAcceptor, bindM, gets, modify, ret, id. simpl.
  by rewrite He.
Qed.

Lemma listen_ports_loop type addr high fuel : forall port s,
  0 <= port -> high < 2 ^ 16 - 1 -> Z.max 0 (high - port + 1) < Z.of_nat fuel ->
  (forall q, port <= q <= high -> tcp_acceptor_map_ s !! mkEndpoint addr q = None) ->
  runs (listen_ports fuel type addr port high (fun _ => true)) s (fun r s' =>
    r = true /\
    (forall e, is_Some (tcp_acceptor_map_ s' !! e) <->
       is_Some (tcp_acceptor_map_ s !! e) \/ exists q, e = mkEndpoint addr q /\ port <= q <= high) /\
    exists l, pending s' = pending s ++ l /\ zlen l = Z.max 0 (high - port + 1) /\
      Forall (fun o => exists a, o = async_accept a) l).
Proof.
  induction fuel as [|fuel IH]; intros port s Hp Hh Hf Hfree; [lia|]. cbn [listen_ports].
  destruct (Z.leb_spec port high) as [Hle|Hgt]; cycle 1.
  { split_and!; [done| |].
    - intros e. split; [by left|]. intros [?|(q & _ & ?)]; [done|lia].
    - exists []. rewrite app_nil_r. split_and!; [done| |by constructor]. unfold zlen. simpl. lia. }
  unfold runs, bindM. rewrite AddTCPAcceptor_eq by (apply Hfree; lia).
  set (s1 := after_add type s _). unfold u16. rewrite Z.mod_small by lia.
  specialize (IH (port + 1) s1). unfold runs in IH.
  assert (Hfree1 : forall q, port + 1 <= q <= high -> tcp_acceptor_map_ s1 !! mkEndpoint addr q = None).
  { intros q Hq. simpl. rewrite lookup_insert_ne by (intros [= ?]; lia). apply Hfree. lia. }
  destruct (listen_ports fuel type addr (port + 1) high _ s1) as [r s2|];
    [|apply IH; [lia..|done]].
  destruct IH as (-> & Hmap & l & Hl & Hlen & Hall); [lia..|done|].
  split_and!; [done| |].
  - intros e. rewrite Hmap. simpl. rewrite lookup_insert_is_Some'. split.
    + intros [[<-|?]|(q & -> & ?)]; [right; exists port|by left|right; exists q]; split; (done || lia).
    + intros [?|(q & -> & Hq)]; [by left; right|]. destruct (decide (q = port)) as [->|];
        [by left; left|]. right. exists q. split; [done|lia].
  - eexists (_ :: l). split_and!.
    + rewrite Hl. simpl. by rewrite <- app_assoc.
    + unfold zlen in *. cbn [length]. lia.
    + constructor; [by eexists|done].
Qed.

(** The listening loop of the programs.  For a range that ends below the
    last port it terminates, adds exactly one acceptor for every port of the
    range, and starts exactly one accept for each. *)
Theorem listen_ports_range type addr low high s :
  0 <= low <= high -> high < 2 ^ 16 - 1 ->
  (forall q, low <= q <= high -> tcp_acceptor_map_ s !! mkEndpoint addr q = None) ->
  runs (listen_ports listen_fuel type addr low high (fun _ => true)) s (fun r s' =>
    r = true /\
    (forall e, is_Some (tcp_acceptor_map_ s' !! e) <->
       is_Some (tcp_acceptor_map_ s !! e) \/ exists q, e = mkEndpoint addr q /\ low <= q <= high) /\
    exists l, pending s' = pending s ++ l /\ zlen l = high - low + 1 /\
      Forall (fun o => exists a, o = async_accept a) l).
Proof.
  intros Hl Hh Hfree.
  pose proof (listen_ports_loop type addr high listen_fuel low s ltac:(lia) Hh) as H.
  unfold runs in *. destruct (listen_ports _ _ _ _ _ _ s) as [r s'|];
    [|apply H; [unfold listen_fuel; lia|done]].
  destruct H as (-> & Hm & l & ? & Hz & ?); [unfold listen_fuel; lia|done|].
  split_and!; [done|done|]. exists l. split_and!; [done|lia|done].
Qed.

(** For a range that ends at the last port, 65535, the counter wraps and the
    loop condition never becomes false: whatever the system answers and however
    long it runs, the loop does not come to its end. *)
Theorem listen_ports_never_ends fuel type addr low sys_ok s :
  0 <= low < 2 ^ 16 ->
  match listen_ports fuel type addr low (2 ^ 16 - 1) sys_ok s with
  | Ret finished _ => finished = false
  | Halt _ _ => True
  end.
Proof.
  revert low s. induction fuel as [|fuel IH]; intros low s Hl; cbn [listen_ports]; [done|].
  destruct (Z.leb_spec low (2 ^ 16 - 1)); [|lia]. unfold bindM.
  destruct (AddTCPAcceptor _ _ _ s) as [r s1|]; [|done]. apply IH. unfold u16.
  apply Z.mod_pos_bound. lia.
Qed.

End Options.
