(* ===== verification/TimeUtil.v ===== *)
(** * Time strings and log lines

    [TimeUtil] of [all-sync/util.hpp] (the same text is in [all-async] and
    [cppnf]), and what became of it in two other generations, where a log line
    has the time in it and the functions that make the time write log lines:
    [utils.cc] of [libevent-based], whose format buffer is empty, and [util.hpp]
    of [nf], whose first action is a log line.

    The text of the last two is read as follows: every function returns the codes
    it returns ([CurrentTimeString] of [utils.cc] is declared to return a string),
    [log_level] is [slog_level_], [Time] of [nf] is the [TimeUtil] the log line
    calls. *)

From S2P Require Import Prelude Wire Decimals Calendar.

Definition time_format : list byte := String.list_byte_of_string "%Y-%m-%d %H:%M:%S".
Definition scan_format : list byte := String.list_byte_of_string "%d-%d-%d %d:%d:%d".

(** [std::string::c_str] for a function that reads up to the final zero. *)
Definition c_str (s : list byte) : list byte := take (find_byte x00 s) s.

Section TimeUtil.
  Variable z : Zone.

(** ** [all-sync] *)

(** The state is the string that is filled. *)
Definition TimeToString (time_sec : Z) : M (list byte) Z :=
  if time_sec <? 0 then ret (-1)
  else
    let! plocaltime := of_option HUndefined (localtime z time_sec) in
    let buf := strftime 100 time_format plocaltime in
    if zlen buf =? 0 then ret (-2)
    else modify (fun _ => buf) ;;! ret 0.

(** [curtime] is what [time] answers. *)
Definition CurrentTimeString (curtime : Z) : M (list byte) Z :=
  if curtime =? -1 then ret (-1) else TimeToString curtime.

(** The state is the time that is filled. *)
Definition StringToTime (time_str : list byte) : M Z Z :=
  match sscanf scan_format (c_str time_str) [] with
  | ScanUndefined => stop HUndefined
  | Scanned [year; mon; mday; hour; min; sec] =>
      let! tm_year := int_op (year - 1900) in
      let! tm_mon := int_op (mon - 1) in
      modify (fun _ => mktime z (mk_tm sec min hour mday tm_mon tm_year 0)) ;;! ret 0
  | _ => ret (-1)
  end.

(** ** The text of a time *)

Definition time_text (x : tm) : list byte :=
  show_nonneg (tm_year x + 1900) ++ [x2d] ++ show_2 (tm_mon x + 1) ++ [x2d] ++ show_2 (tm_mday x) ++
  [x20] ++ show_2 (tm_hour x) ++ [x3a] ++ show_2 (tm_min x) ++ [x3a] ++ show_2 (tm_sec x).

Lemma strftime_text_eq x : strftime_text time_format x = Some (time_text x).
Proof. unfold time_text. cbn. by rewrite app_nil_r. Qed.

Lemma length_time_text x :
  tm_ok x -> 0 <= tm_year x + 1900 < 10 ^ 10 -> 0 < zlen (time_text x) < 100.
Proof.
  intros (H1 & H2 & H3 & H4 & H5) Hy. unfold time_text, zlen. rewrite !length_app. cbn [length].
  pose proof (length_show (tm_year x + 1900) 9 ltac:(exact Hy)).
  pose proof (length_show_2 (tm_mon x + 1) ltac:(lia)). pose proof (length_show_2 (tm_mday x) ltac:(lia)).
  pose proof (length_show_2 (tm_hour x) ltac:(lia)). pose proof (length_show_2 (tm_min x) ltac:(lia)).
  pose proof (length_show_2 (tm_sec x) ltac:(lia)). lia.
Qed.

Lemma in_int_show_2 n : 0 <= n < 100 -> in_int (digits 0 (show_2 n)) = true.
Proof. intros H. rewrite digits_show_2 by lia. apply in_int_spec. unfold int_min, int_max. lia. Qed.

Lemma zero_not_in_numeral l : numeral l -> x00 ∉ l.
Proof. intros H Hin. unfold numeral in H. rewrite list.Forall_forall in H. by specialize (H _ Hin). Qed.

Lemma c_str_id s : x00 ∉ s -> c_str s = s.
Proof.
  intros H. unfold c_str. induction s as [|b s IH]; [done|]. apply not_elem_of_cons in H as [Hb Hs].
  cbn [find_byte]. rewrite bool_decide_eq_false_2 by congruence. cbn [take]. by rewrite IH.
Qed.

Lemma zero_not_in_text x : tm_ok x -> 0 <= tm_year x + 1900 -> x00 ∉ time_text x.
Proof.
  intros (H1 & H2 & H3 & H4 & H5) Hy. unfold time_text.
  assert (forall n, 0 <= n -> x00 ∉ show_2 n) by (intros; by apply zero_not_in_numeral, numeral_show_2).
  pose proof (zero_not_in_numeral _ (proj1 (numeral_show _ Hy))).
  rewrite !not_elem_of_app, !list_elem_of_singleton. split_and!; auto with lia.
Qed.

(** The literal bytes of the format, and a number before another byte. *)
Lemma sscanf_dash format l values : sscanf (x2d :: format) (x2d :: l) values = sscanf format l values.
Proof. reflexivity. Qed.
Lemma sscanf_colon format l values : sscanf (x3a :: format) (x3a :: l) values = sscanf format l values.
Proof. reflexivity. Qed.
Lemma sscanf_blank format l values :
  sscanf (x20 :: format) (x20 :: l) values = sscanf format (skip_spaces l) values.
Proof. reflexivity. Qed.

Ltac scan_number := rewrite sscanf_d by first [reflexivity | by auto with lia | apply in_int_show_2; lia].

(** [sscanf] reads back the six numbers. *)
Lemma scan_time_text x :
  tm_ok x -> 0 <= tm_year x + 1900 <= int_max ->
  sscanf scan_format (time_text x) [] =
    Scanned [tm_year x + 1900; tm_mon x + 1; tm_mday x; tm_hour x; tm_min x; tm_sec x].
Proof.
  intros (H1 & H2 & H3 & H4 & H5) Hy. unfold time_text.
  let f := eval vm_compute in scan_format in change scan_format with f.
  assert (N : forall n, 0 <= n -> numeral (show_2 n)) by (intros; by apply numeral_show_2).
  assert (E : forall n, 0 <= n -> show_2 n <> []) by (intros; by apply numeral_show_2).
  destruct (numeral_show (tm_year x + 1900) ltac:(lia)) as [Ny Ey].
  assert (Iy : in_int (digits 0 (show_nonneg (tm_year x + 1900))) = true)
    by (rewrite digits_show by lia; apply in_int_spec; unfold int_min in *; lia).
  cbn [app]. rewrite sscanf_d by (done || reflexivity).
  rewrite sscanf_dash. scan_number. rewrite sscanf_dash. scan_number.
  rewrite sscanf_blank, skip_spaces_numeral by auto with lia. scan_number.
  rewrite sscanf_colon. scan_number. rewrite sscanf_colon.
  rewrite <- (app_nil_r (show_2 (tm_sec x))). scan_number.
  cbn [sscanf app]. rewrite digits_show by lia. rewrite !digits_show_2 by lia. done.
Qed.

(** ** There and back *)

(** Offsets of at most a day, and a reading of standard time that occurs once is
    taken for the moment it occurs at. *)
Record zone_ok : Prop := {
  zone_std t : - 86400 <= std_offset z t <= 86400;
  zone_dst t : - 86400 <= dst_shift z t <= 86400;
  zone_standard t : read_once z t -> standard z (t + std_offset z t) = t
}.

Lemma ahead_ok t : zone_ok -> - 86400 <= ahead z t <= 86400.
Proof. intros Hz. unfold ahead. pose proof (zone_dst Hz t). destruct (dst_on z t); lia. Qed.

Lemma localtime_Some t x :
  localtime z t = Some x -> tm_ok x /\ timegm x = t + utc_offset z t /\
    tm_year x = year_of ((t + utc_offset z t) / 86400 + epoch) - 1900.
Proof.
  unfold localtime. destruct (in_int _); [|done]. intros [= <-]. apply gmtime_spec.
Qed.

Lemma utc_offset_ok t : zone_ok -> - 172800 <= utc_offset z t <= 172800.
Proof. intros Hz. pose proof (zone_std Hz t). pose proof (ahead_ok t Hz). unfold utc_offset. lia. Qed.

(** Times a few days after one with a year that is far enough from the bound. *)
Lemma localtime_near t x t' :
  zone_ok -> 0 <= t -> localtime z t = Some x -> tm_year x + 1900 <= int_max ->
  - 86400 <= t' <= t + 86400 -> is_Some (localtime z t').
Proof.
  intros Hz Ht Hx Hy Ht'. apply localtime_Some in Hx as (_ & _ & Ey).
  pose proof (utc_offset_ok t Hz). pose proof (utc_offset_ok t' Hz).
  unfold localtime. set (x' := gmtime _ _).
  assert (tm_year x' = year_of ((t' + utc_offset z t') / 86400 + epoch) - 1900) as Ey' by apply gmtime_spec.
  rewrite (proj2 (in_int_spec (tm_year x'))); [eauto|]. rewrite Ey'.
  pose proof (year_positive (t' + utc_offset z t') ltac:(unfold epoch; lia)).
  pose proof (year_of_spec ((t + utc_offset z t) / 86400 + epoch)) as [_ Hd].
  pose proof (year_of_after ((t + utc_offset z t) / 86400 + epoch) ((t' + utc_offset z t') / 86400 + epoch)
    ltac:(Z.div_mod_to_equations; lia)).
  unfold int_min, int_max in *. lia.
Qed.

(** C35: a time that is printed is read back, but for the summer time.  In a time
    zone whose offsets are at most a day, a time that is not negative and whose
    year is an [int] is printed without error.  Reading the string gives the same
    time, plus what the zone's summer time was ahead at that moment, because
    [StringToTime] always asks for winter time ([tm_isdst = 0]): when the standard
    offset is the same at the two moments, and what was printed is the standard
    time of the second moment only (it is not in an hour that a change of the
    standard offset repeats). *)
Theorem time_string_round_trip t x s0 t0 :
  zone_ok -> 0 <= t -> localtime z t = Some x -> tm_year x + 1900 <= int_max ->
  exists s, TimeToString t s0 = Ret 0 s /\
    (std_offset z (t + ahead z t) = std_offset z t -> read_once z (t + ahead z t) ->
     StringToTime s t0 = Ret 0 (t + ahead z t)).
Proof.
  intros Hz Ht Hx Hy. pose proof (localtime_Some t x Hx) as (Hok & Hgm & Ey).
  pose proof (utc_offset_ok t Hz) as Ho.
  pose proof (year_positive (t + utc_offset z t) ltac:(unfold epoch; lia)) as Hpos.
  exists (time_text x). unfold int_max in Hy.
  pose proof (length_time_text x Hok ltac:(lia)) as Hlen. split.
  - unfold TimeToString. rewrite (proj2 (Z.ltb_ge _ _)) by lia. rewrite (bind_of_option _ _ x) by done.
    cbv zeta. unfold strftime. rewrite strftime_text_eq, (proj2 (Z.ltb_lt _ _)) by lia.
    by rewrite (proj2 (Z.eqb_neq _ _)) by lia.
  - intros Hsame Honce. unfold StringToTime. rewrite c_str_id by (apply zero_not_in_text; [done|lia]).
    rewrite scan_time_text by (try done; unfold int_max; lia).
    destruct Hok as (H1 & H2 & H3 & H4 & H5).
    unfold int_op. rewrite !(proj2 (in_int_spec _)) by (unfold int_min, int_max; lia).
    unfold bindM, ret, modify. f_equal. rewrite !Z.add_simpl_r.
    unfold mktime. rewrite timegm_isdst, Hgm. unfold utc_offset.
    replace (t + (std_offset z t + ahead z t)) with (t + ahead z t + std_offset z (t + ahead z t)) by lia.
    rewrite zone_standard by done. pose proof (ahead_ok t Hz).
    by destruct (localtime_near t x (t + ahead z t) Hz Ht Hx ltac:(unfold int_max; lia) ltac:(lia)) as [? ->].
Qed.
End TimeUtil.

(** ** Log lines that have the time in them *)

(** What a log line reads and writes: the answers of [time], in order, the mask
    of the levels that are on, and the lines written, each with its time. *)
Record Log := mkLog { clock : nat -> Z; asked : nat; slog_level : Z; lines : list (list byte) }.

Definition time_ : M Log Z :=
  fun s => Ret (clock s (asked s)) (mkLog (clock s) (S (asked s)) (slog_level s) (lines s)).
Definition fprintf (timestr : list byte) : M Log unit :=
  modify (fun s => mkLog (clock s) (asked s) (slog_level s) (lines s ++ [timestr])).

(** The functions below are recursive through their log lines: [None] is a call
    that has used up the fuel. *)
Notation "'let^' x := m 'in' k" :=
  (bindM m (fun o => match o with Some x => k | None => ret None end))
  (at level 10, x name, m at level 100, k at level 200) : kk_scope.

(** *** [utils.cc] of [libevent-based] *)

Module Le.
Section Le.
  Variable z : Zone.

Definition L_FATAL : Z := 1.
Definition L_SYSERR : Z := 2.
Definition L_LOGICERR : Z := 4.
Definition L_INFO : Z := 8.
Definition L_DEBUG : Z := 16.
Definition L_FUNC : Z := 32.

(** The levels the macro has a name for; at any other it breaks off. *)
Definition printed_level (level : Z) : bool :=
  existsb (Z.eqb level) [L_FATAL; L_SYSERR; L_LOGICERR; L_INFO; L_DEBUG].

Section Functions.
  (** The log line as these functions call it. *)
  Variable slog : Z -> M Log (option unit).

(** [buf.reserve(100)] leaves the vector empty: [&buf[0]] is no element of it. *)
Definition TimeToString (time_sec : Z) : M Log (option (Z * list byte)) :=
  let^ _ := slog L_FUNC in
  if time_sec <? 0 then
    let^ _ := slog L_LOGICERR in let^ _ := slog L_FUNC in ret (Some (-1, []))
  else
    let! plocaltime := of_option HUndefined (localtime z time_sec) in
    let buf : list byte := [] in
    let! buf_0 := of_option HUndefined (buf !! 0%nat) in
    let text := strftime (zlen buf) time_format plocaltime in
    if zlen text =? 0 then
      let^ _ := slog L_SYSERR in let^ _ := slog L_FUNC in ret (Some (-2, []))
    else let^ _ := slog L_FUNC in ret (Some (0, text)).

Definition CurrentTimeString : M Log (option (Z * list byte)) :=
  let^ _ := slog L_FUNC in
  let! curtime := time_ in
  if curtime =? -1 then
    let^ _ := slog L_SYSERR in let^ _ := slog L_FUNC in ret (Some (-1, []))
  else
    let^ r := TimeToString curtime in
    let^ _ := slog L_FUNC in ret (Some r).

Definition StringToTime (time_str : list byte) : M Log (option Z) :=
  let^ _ := slog L_FUNC in
  match sscanf scan_format (c_str time_str) [] with
  | ScanUndefined => stop HUndefined
  | Scanned [year; mon; mday; hour; min; sec] =>
      let! tm_year := int_op (year - 1900) in
      let! tm_mon := int_op (mon - 1) in
      let^ _ := slog L_FUNC in
      ret (Some (mktime z (mk_tm sec min hour mday tm_mon tm_year 0)))
  | _ => let^ _ := slog L_LOGICERR in ret (Some (-1))
  end.
End Functions.

Fixpoint SLOG (fuel : nat) (level : Z) : M Log (option unit) :=
  match fuel with
  | O => ret None
  | S fuel' =>
      let! mask := gets slog_level in
      if Z.land level mask =? 0 then ret (Some tt)
      else if negb (printed_level level) then ret (Some tt)
      else
        let^ r := CurrentTimeString (SLOG fuel') in
        fprintf r.2 ;;! ret (Some tt)
  end.

Definition SetLogLevel (new_level : Z) : M Log Z :=
  let! old_level := gets slog_level in
  modify (fun s => mkLog (clock s) (asked s) new_level (lines s)) ;;! ret old_level.

End Le.
End Le.

(** *** [util.hpp] of [nf] *)

Module Ng.
Section Ng.
  Variable z : Zone.

Section Functions.
  Variable slog : M Log (option unit).

Definition TimeToString (time_sec : Z) : M Log (option (Z * list byte)) :=
  let^ _ := slog in
  if time_sec <? 0 then let^ _ := slog in ret (Some (-1, []))
  else
    let! plocaltime := of_option HUndefined (localtime z time_sec) in
    let text := strftime 100 time_format plocaltime in
    if zlen text =? 0 then let^ _ := slog in ret (Some (-2, []))
    else let^ _ := slog in ret (Some (0, text)).

Definition CurrentTimeString : M Log (option (Z * list byte)) :=
  let^ _ := slog in
  let! curtime := time_ in
  if curtime =? -1 then let^ _ := slog in ret (Some (-1, []))
  else
    let^ r := TimeToString curtime in
    let^ _ := slog in ret (Some r).

Definition StringToTime (time_str : list byte) : M Log (option (Z * Z)) :=
  let^ _ := slog in
  match sscanf scan_format (c_str time_str) [] with
  | ScanUndefined => stop HUndefined
  | Scanned [year; mon; mday; hour; min; sec] =>
      let! tm_year := int_op (year - 1900) in
      let! tm_mon := int_op (mon - 1) in
      let^ _ := slog in
      ret (Some (0, mktime z (mk_tm sec min hour mday tm_mon tm_year 0)))
  | _ => let^ _ := slog in ret (Some (-1, 0))
  end.
End Functions.

(** Every level the program uses is on in [SLOG_LEVEL]. *)
Fixpoint SLOG (fuel : nat) : M Log (option unit) :=
  match fuel with
  | O => ret None
  | S fuel' => let^ r := CurrentTimeString (SLOG fuel') in fprintf r.2 ;;! ret (Some tt)
  end.

End Ng.
End Ng.

(** ** No log line is ever written *)

Section Logging.
  Variable z : Zone.

Definition clock_ok (s : Log) : Prop := forall n, 0 <= clock s n /\ is_Some (localtime z (clock s n)).

Lemma le_func_silent fuel s : (0 < fuel)%nat -> Le.SLOG z fuel Le.L_FUNC s = Ret (Some tt) s.
Proof.
  destruct fuel; [lia|]. intros _. cbn [Le.SLOG]. rewrite bind_gets. by destruct (_ =? 0).
Qed.

Lemma le_time_string fuel s :
  clock_ok s -> (0 < fuel)%nat -> exists s', Le.CurrentTimeString z (Le.SLOG z fuel) s = Halt HUndefined s'.
Proof.
  intros Hc Hf. unfold Le.CurrentTimeString. rewrite (bind_Ret _ _ _ _ _ (le_func_silent fuel s Hf)).
  destruct (Hc (asked s)) as [H0 [x Hx]].
  unfold time_, bindM at 1. rewrite (proj2 (Z.eqb_neq _ _)) by lia.
  unfold Le.TimeToString. set (s' := mkLog _ _ _ _). exists s'.
  unfold bindM at 1. rewrite (bind_Ret _ _ _ _ _ (le_func_silent fuel s' Hf)).
  rewrite (proj2 (Z.ltb_ge _ _)) by lia. by rewrite (bind_of_option _ _ x).
Qed.

(** The log of the generation on [libevent] never writes a line.  As long as
    the clock gives times that are not negative, a line at a level that is on
    and has a name asks for the time string, whose buffer is reserved but empty:
    its first element is used, which is undefined.  So is everything that
    reports an error this way, such as a string that is no time. *)
Theorem log_line_undefined fuel level time_str s :
  clock_ok s -> Le.printed_level level = true -> Z.land level (slog_level s) <> 0 ->
  (exists s', Le.SLOG z (S (S fuel)) level s = Halt HUndefined s') /\
  (Z.land Le.L_LOGICERR (slog_level s) <> 0 ->
   sscanf scan_format (c_str time_str) [] = Scanned [] ->
   exists s', Le.StringToTime z (Le.SLOG z (S (S fuel))) time_str s = Halt HUndefined s').
Proof.
  assert (H : forall lv, clock_ok s -> Le.printed_level lv = true -> Z.land lv (slog_level s) <> 0 ->
    exists s', Le.SLOG z (S (S fuel)) lv s = Halt HUndefined s').
  { intros lv Hc Hp Hm. cbn [Le.SLOG]. rewrite bind_gets, (proj2 (Z.eqb_neq _ _)) by done.
    rewrite Hp. cbn [negb]. fold (Le.SLOG z (S fuel)).
    destruct (le_time_string (S fuel) s Hc ltac:(lia)) as [s' E]. exists s'.
    unfold bindM at 1. cbn [Le.SLOG] in E. by rewrite E. }
  intros Hc Hp Hm. split; [by apply H|]. intros Hl Hs. unfold Le.StringToTime.
  rewrite (bind_Ret _ _ _ _ _ (le_func_silent (S (S fuel)) s ltac:(lia))), Hs.
  destruct (H Le.L_LOGICERR Hc eq_refl Hl) as [s' E]. exists s'. unfold bindM. by rewrite E.
Qed.

(** In [nf] no function returns.  Each begins with a log line, a log line
    asks for the time, and asking for the time begins with a log line: whatever
    the fuel, the call is still going on and nothing is written. *)
Theorem nf_log_never_returns fuel s :
  Ng.SLOG z fuel s = Ret None s /\
  (forall time_sec, Ng.TimeToString z (Ng.SLOG z fuel) time_sec s = Ret None s) /\
  (forall time_str, Ng.StringToTime z (Ng.SLOG z fuel) time_str s = Ret None s).
Proof.
  assert (H : Ng.SLOG z fuel s = Ret None s).
  { induction fuel as [|fuel IH]; [done|]. cbn [Ng.SLOG]. unfold Ng.CurrentTimeString, bindM. by rewrite IH. }
  split_and!; [done|intros ?; unfold Ng.TimeToString, bindM; by rewrite H..|].
  intros ?. unfold Ng.StringToTime, bindM. by rewrite H.
Qed.
End Logging.
