(* ===== verification/TimeDemo.v ===== *)
(** * Time strings on concrete states

    A zone two hours ahead up to a day of January 1970 and one hour from then on,
    with summer time in the middle of 1970, and a log
    with a clock that stands still; the theorems of TimeUtil are applied there. *)

From S2P Require Import Prelude Wire Decimals Calendar TimeUtil.

(** Summer time from the 100th day of 1970 to the 300th. *)
Definition change : Z := 20 * 86400.
Definition zone1 : Zone :=
  mkZone (fun t => if t <? change then 7200 else 3600)
    (fun t => (8640000 <=? t) && (t <? 25920000)) (fun _ => 3600)
    (fun l => if l <? change + 7200 then l - 7200 else l - 3600).

Lemma zone1_ok : zone_ok zone1.
Proof.
  split; cbn; intros t; [destruct (t <? change); lia|lia|]. unfold read_once. cbn. intros H.
  destruct (Z.ltb_spec t change) as [Ht|Ht].
  - rewrite (proj2 (Z.ltb_lt _ _)) by lia. lia.
  - destruct (Z.ltb_spec (t + 3600) (change + 7200)) as [Hl|Hl]; [|lia].
    specialize (H (t - 3600)). rewrite (proj2 (Z.ltb_lt (t - 3600) change)) in H by lia. lia.
Qed.

(** The hour from one to two o'clock occurs twice on the day of the change: the
    later of two moments is read back as the earlier one. *)
Example repeated_hour :
  TimeToString zone1 (change + 1800) [] = Ret 0 (String.list_byte_of_string "1970-01-21 01:30:00") /\
  StringToTime zone1 (String.list_byte_of_string "1970-01-21 01:30:00") 0 = Ret 0 (change + 1800 - 3600).
Proof. vm_compute. done. Qed.

(** The 1st of July 1970, 00:00 in Greenwich. *)
Definition july : Z := 181 * 86400.

Example july_text : TimeToString zone1 july [] = Ret 0 (String.list_byte_of_string "1970-07-01 02:00:00").
Proof. vm_compute. reflexivity. Qed.

(** Read back, it is an hour later. *)
Example july_read :
  StringToTime zone1 (String.list_byte_of_string "1970-07-01 02:00:00") 0 = Ret 0 (july + 3600).
Proof. vm_compute. reflexivity. Qed.

(** The ranges are not checked: the 31st of February is a time, and so is a
    string with other characters behind it. *)
Example february_31 :
  StringToTime zone1 (String.list_byte_of_string "1970-02-31 00:00:00 or so") 0 = Ret 0 (61 * 86400 - 3600).
Proof. vm_compute. reflexivity. Qed.

(** Text that is no time is an error. *)
Example no_time_text : StringToTime zone1 (String.list_byte_of_string "1970-02-31") 5 = Ret (-1) 5.
Proof. vm_compute. reflexivity. Qed.

Definition july_tm : tm := mk_tm 0 0 2 1 6 70 1.

Lemma time_string_round_trip_witness :
  localtime zone1 july = Some july_tm /\
  exists s, TimeToString zone1 july [] = Ret 0 s /\ StringToTime zone1 s 0 = Ret 0 (july + 3600).
Proof.
  split; [vm_compute; reflexivity|].
  destruct (time_string_round_trip zone1 july july_tm [] 0) as (s & E & H).
  - exact zone1_ok.
  - by vm_compute.
  - vm_compute. reflexivity.
  - by vm_compute.
  - exists s. split; [exact E|]. change (july + 3600) with (july + ahead zone1 july). apply H; [done|].
    change (july + ahead zone1 july) with 15642000. intros u.
    change (std_offset zone1 15642000) with 3600. cbn [std_offset zone1].
    destruct (Z.ltb_spec u change); unfold change in *; lia.
Defined.

(** A log with the levels fatal, system error and logic error on. *)
Definition log1 : Log := mkLog (fun _ => july) 0 (Z.lor Le.L_FATAL (Z.lor Le.L_SYSERR Le.L_LOGICERR)) [].

Lemma log_line_undefined_witness :
  (exists s', Le.SLOG zone1 2 Le.L_FATAL log1 = Halt HUndefined s') /\
  (exists s', Le.StringToTime zone1 (Le.SLOG zone1 2) (String.list_byte_of_string "noon") log1 = Halt HUndefined s').
Proof.
  assert (H1 : clock_ok zone1 log1) by (intros n; split; [by vm_compute|by eexists; vm_compute]).
  destruct (log_line_undefined zone1 0 Le.L_FATAL (String.list_byte_of_string "noon") log1) as [H2 H3].
  - exact H1.
  - reflexivity.
  - by vm_compute.
  - split; [exact H2|]. apply H3; [by vm_compute|vm_compute; reflexivity].
Defined.
