(* ===== verification/Bf.v ===== *)
(** * The front server: [asio-based3/cb_lv_bf.cc]

    [TestBF] receives a request with two numbers, asks BB1 about the first and
    BB2 about the second, and answers its client when both have replied.  The
    program is an instance of the interface of the skeleton. *)

From S2P Require Import Prelude Wire SocketInfo Skeleton Handlers Reactor.
From S2P Require Import Invariant Safety ApiSafety HandlerSafety.
From S2P Require Import SkeletonProps Framing Requests Packets Options.

(** [class ReqLocalData]. *)
Record ReqLocalData := mkReqLocalData {
  bb1_rsp_arrived_ : bool;
  bb2_rsp_arrived_ : bool;
  rsp_ : RspFromBF;
  client_ip_ : list byte;
  client_port_ : Z
}.

(** The data members of [TestBF].  The constructor of [RspFromBF] does not
    initialise its members: [garbage q] is what the memory of the object made for
    the request [q] holds. *)
Record TestBF := mkTestBF {
  local_ip_ : list byte;
  port_low_ : Z;
  port_high_ : Z;
  ld_ : gmap Z ReqLocalData;
  bb1_endpoint_ : Endpoint;
  bb2_endpoint_ : Endpoint;
  garbage : Z -> RspFromBF
}.

(** The function objects [TestBF] hands to the skeleton. *)
Inductive BfCallBack := ReceiveRspFromBB1CallBack | ReceiveRspFromBB2CallBack.
Inductive BfTimer := BfPrintHeartBeat.

Definition BF_PROG : PROG :=
  {| App := TestBF; PacketCallBack := BfCallBack; UserTimer := BfTimer |}.
#[local] Existing Instance BF_PROG.

Definition set_ld (m : gmap Z ReqLocalData) (a : TestBF) : TestBF :=
  mkTestBF (local_ip_ a) (port_low_ a) (port_high_ a) m (bb1_endpoint_ a) (bb2_endpoint_ a) (garbage a).

(** [ReqLocalData()]. *)
Definition new_ReqLocalData (g : RspFromBF) : ReqLocalData := mkReqLocalData false false g [] 0.

(** ** [main] *)

(** What the option loop of [main] collects. *)
Record BfOptions := mkBfOptions {
  bf_timer_interval : Z;
  bf_local_ip : list byte;
  bf_port_low : Z;
  bf_port_high : Z;
  bf_bb1_addr : Z;
  bf_bb1_port : Z;
  bf_bb2_addr : Z;
  bf_bb2_port : Z;
  bf_option_num : Z
}.

Section Main.
  Context {P : PROG} {B : Boost}.

(** One turn of the loop over [getopt]; 'n' is accepted by [getopt] but has no
    case. *)
Definition bf_option (o : BfOptions) (c : byte) (optarg : list byte) : OptResult BfOptions :=
  let 'mkBfOptions i ip lo hi a1 p1 a2 p2 n := o in
  match c with
  | x69 => let? v := atoi optarg in OGo (mkBfOptions v ip lo hi a1 p1 a2 p2 n)
  | x4c => OGo (mkBfOptions i optarg lo hi a1 p1 a2 p2 (n + 1))
  | x70 => let? v := atoi optarg in OGo (mkBfOptions i ip (u16 v) hi a1 p1 a2 p2 (n + 1))
  | x50 => let? v := atoi optarg in OGo (mkBfOptions i ip lo (u16 v) a1 p1 a2 p2 (n + 1))
  | x61 => match addr_from_string optarg with
           | None => OExit 1
           | Some v => OGo (mkBfOptions i ip lo hi v p1 a2 p2 (n + 1))
           end
  | x62 => let? v := atoi optarg in OGo (mkBfOptions i ip lo hi a1 (u16 v) a2 p2 (n + 1))
  | x63 => match addr_from_string optarg with
           | None => OExit 1
           | Some v => OGo (mkBfOptions i ip lo hi a1 p1 v p2 (n + 1))
           end
  | x64 => let? v := atoi optarg in OGo (mkBfOptions i ip lo hi a1 p1 a2 (u16 v) (n + 1))
  | x68 => OReturn 0
  | _ => OReturn (-1)
  end.

Definition configure (f : App -> App) : M Skel unit := modify (fun s => with_app (f (app s)) s).

(** [main] of the front servers up to the event loop of [Run]: the options start
    with the values the uninitialised variables have in [o0].  The programs
    differ in the [type] of socket they listen for; [install] stores the options
    in the data members, [beat] is the timer handler. *)
Definition bf_main_of (type : SocketType) (install : BfOptions -> App -> App) (beat : UserTimer)
    (o0 : BfOptions) (argv : OptionList) (sys_ok : Z -> bool) : M Skel Z :=
  match parse_options bf_option argv o0 with
  | OReturn z => ret z
  | OExit z => stop (HExit z)
  | OUndefined => stop HUndefined
  | OGo o =>
      if bf_option_num o <? 7 then ret (-1)
      else if (bf_timer_interval o <? 0) || (100000 <? bf_timer_interval o) then ret (-1)
      else if bf_port_high o <? bf_port_low o then ret (-1)
      else
        modify (fun s => with_cfg (set_server_timeout 10000
                           (set_timer_trigger_interval (bf_timer_interval o) (cfg s))) s) ;;!
        configure (install o) ;;!
        match addr_from_string (bf_local_ip o) with
        | None => stop (HExit 1)
        | Some addr =>
            listen_ports listen_fuel type addr (bf_port_low o) (bf_port_high o) sys_ok ;;!
            AddTimerHandler (TUser beat) ;;!
            Run ;;!
            ret 0
        end
  end.

End Main.

(** The options of [main] in the data members of [TestBF]. *)
Definition install_bf (o : BfOptions) (a : TestBF) : TestBF :=
  mkTestBF (bf_local_ip o) (bf_port_low o) (bf_port_high o) (ld_ a)
    (mkEndpoint (bf_bb1_addr o) (bf_bb1_port o))
    (mkEndpoint (bf_bb2_addr o) (bf_bb2_port o)) (garbage a).

Section Bf.
  Context {B : Boost}.

Definition get_app : M Skel TestBF := gets app.
Definition put_ld (q : Z) (d : ReqLocalData) : M Skel unit :=
  modify (fun s => with_app (set_ld (<[q := d]> (ld_ (app s))) (app s)) s).

Definition BF_ProcessData (input_data from_ip : list byte) (from_port : Z)
    (to_ip : list byte) (to_port arrive_time : Z) : M Skel Z :=
  let! type := of_option HUndefined (view_type input_data) in
  if type =? T_REQ_TO_BF then
    let! req_to_bf := of_option HUndefined (view_ReqToBF input_data) in
    let seq := seq_ (req_base req_to_bf) in
    let! a := get_app in
    match ld_ a !! seq with
    | Some _ => ret (-1)
    | None =>
        let ld_for_this_req := new_ReqLocalData (garbage a seq) in
        let req1 := mkReqToBB1 (mkBase (bswap32 sizeof_ReqToBB1) T_REQ_TO_BB1 seq) (a_ req_to_bf) in
        let rsp := mkRspFromBF (mkBase (bswap32 sizeof_RspFromBF) T_RSP_FROM_BF seq)
                     (sum_ (rsp_ ld_for_this_req)) 0 in
        put_ld seq (mkReqLocalData (bb1_rsp_arrived_ ld_for_this_req)
                      (bb2_rsp_arrived_ ld_for_this_req) rsp from_ip from_port) ;;!
        ToWriteThenCallBack (bb1_endpoint_ a) T_TCP_LV (bytes_ReqToBB1 req1) false
          (Some ReceiveRspFromBB1CallBack : option (@PacketCallBack BF_PROG)) ;;!
        let req2 := mkReqToBB2 (mkBase (bswap32 sizeof_ReqToBB2) T_REQ_TO_BB2 seq) (b_ req_to_bf) in
        ToWriteThenCallBack (bb2_endpoint_ a) T_TCP_LV (bytes_ReqToBB2 req2) false
          (Some ReceiveRspFromBB2CallBack : option (@PacketCallBack BF_PROG)) ;;!
        ret 0
    end
  else ret (-1).

Definition add_to_sum (z : Z) (r : RspFromBF) : RspFromBF := mkRspFromBF (rsp_base r) z (error_ r).

Definition bb1_arrived (sum : Z) (d : ReqLocalData) : ReqLocalData :=
  mkReqLocalData true (bb2_rsp_arrived_ d) (add_to_sum sum (rsp_ d)) (client_ip_ d) (client_port_ d).
Definition bb2_arrived (sum : Z) (d : ReqLocalData) : ReqLocalData :=
  mkReqLocalData (bb1_rsp_arrived_ d) true (add_to_sum sum (rsp_ d)) (client_ip_ d) (client_port_ d).

(** The second half of both callbacks: answer the client when both replies are
    in. *)
Definition reply_when_complete (seq : Z) : M Skel Z :=
  let! a := get_app in
  match ld_ a !! seq with
  | None => ret (-1)
  | Some d =>
      (if bb1_rsp_arrived_ d && bb2_rsp_arrived_ d then
         let! addr := of_option HThrow (addr_from_string (client_ip_ d)) in
         ToWriteThenRead (mkEndpoint addr (client_port_ d)) T_TCP_LV
           (bytes_RspFromBF (rsp_ d)) true ;;! ret tt
       else ret tt) ;;!
      ret 1
  end.

Definition BF_ReceiveRspFromBB1CallBack (input_data : list byte) : M Skel Z :=
  let! type := of_option HUndefined (view_type input_data) in
  if type =? T_RSP_FROM_BB1 then
    let! rsp_from_bb1 := of_option HUndefined (view_RspFromBB1 input_data) in
    let! a := get_app in
    match ld_ a !! seq_ (rsp1_base rsp_from_bb1) with
    | None => ret (-1)
    | Some d =>
        let! sum := int_op (sum_ (rsp_ d) + another_a_ rsp_from_bb1) in
        put_ld (seq_ (rsp1_base rsp_from_bb1)) (bb1_arrived sum d) ;;!
        reply_when_complete (seq_ (rsp1_base rsp_from_bb1))
    end
  else ret (-1).

(** Unlike its sibling this callback goes on when the packet is of another
    type. *)
Definition BF_ReceiveRspFromBB2CallBack (input_data : list byte) : M Skel Z :=
  let! type := of_option HUndefined (view_type input_data) in
  if type =? T_RSP_FROM_BB2 then
    let! rsp_from_bb2 := of_option HUndefined (view_RspFromBB2 input_data) in
    let! a := get_app in
    match ld_ a !! seq_ (rsp2_base rsp_from_bb2) with
    | None => ret (-1)
    | Some d =>
        let! sum := int_op (sum_ (rsp_ d) + another_b_ rsp_from_bb2) in
        put_ld (seq_ (rsp2_base rsp_from_bb2)) (bb2_arrived sum d) ;;!
        reply_when_complete (seq_ (rsp2_base rsp_from_bb2))
    end
  else let! seq := of_option HUndefined (view_seq input_data) in reply_when_complete seq.

(** [PrintHeartBeat] writes to the log. *)
Definition BF_PrintHeartBeat : M Skel unit := ret tt.

Definition BF_Program : Program := {|
  ProcessData := BF_ProcessData;
  call_cb := fun (cb : @PacketCallBack BF_PROG) buf _ _ _ _ _ =>
    match cb with
    | ReceiveRspFromBB1CallBack => BF_ReceiveRspFromBB1CallBack buf
    | ReceiveRspFromBB2CallBack => BF_ReceiveRspFromBB2CallBack buf
    end;
  call_timer := fun (h : @UserTimer BF_PROG) => match h with BfPrintHeartBeat => BF_PrintHeartBeat end
|}.
#[local] Existing Instance BF_Program.

Definition bf_main : BfOptions -> OptionList -> (Z -> bool) -> M Skel Z :=
  bf_main_of T_TCP_LV install_bf (BfPrintHeartBeat : @UserTimer BF_PROG).

(** ** The contract with the skeleton *)

Lemma safe_put_ld strict q d : safe strict (put_ld q d).
Proof. by apply safe_modify_core. Qed.

Lemma safe_reply strict seq : safe strict (reply_when_complete seq).
Proof.
  unfold reply_when_complete. apply safe_bind; [apply safe_gets|intros a].
  destruct (ld_ a !! seq) as [d|]; [|apply safe_ret].
  apply safe_bind; [|intros []; apply safe_ret].
  destruct (_ && _); [|apply safe_ret].
  apply safe_bind; [apply safe_of_option|intros ad].
  apply safe_bind; [apply safe_ToWriteThenRead|intros z; apply safe_ret].
Qed.

#[global] Instance BF_safe strict : ProgramSafe BF_Program strict.
Proof.
  split.
  - intros buf fip fp tip tp t. cbn. unfold BF_ProcessData.
    apply safe_bind; [apply safe_of_option|intros base].
    destruct (_ =? _); [|apply safe_ret]. apply safe_bind; [apply safe_of_option|intros r].
    apply safe_bind; [apply safe_gets|intros a]. destruct (_ !! _); [apply safe_ret|].
    apply safe_bind; [apply safe_put_ld|intros []].
    do 2 (apply safe_bind; [apply safe_ToWriteThenCallBack|intros ?]). apply safe_ret.
  - intros cb buf fip fp tip tp t. destruct cb; cbn.
    + unfold BF_ReceiveRspFromBB1CallBack. apply safe_bind; [apply safe_of_option|intros base].
      destruct (_ =? _); [|apply safe_ret]. apply safe_bind; [apply safe_of_option|intros r].
      apply safe_bind; [apply safe_gets|intros a]. destruct (_ !! _); [|apply safe_ret].
      apply safe_bind; [apply safe_int_op|intros z].
      apply safe_bind; [apply safe_put_ld|intros []]. apply safe_reply.
    + unfold BF_ReceiveRspFromBB2CallBack. apply safe_bind; [apply safe_of_option|intros base].
      destruct (_ =? _); [|apply safe_bind; [apply safe_of_option|intros q; apply safe_reply]]. apply safe_bind; [apply safe_of_option|intros r].
      apply safe_bind; [apply safe_gets|intros a]. destruct (_ !! _); [|apply safe_ret].
      apply safe_bind; [apply safe_int_op|intros z].
      apply safe_bind; [apply safe_put_ld|intros []]. apply safe_reply.
  - intros []. apply safe_ret.
Qed.

(** ** The replies of the back ends *)

Definition app_ld (m : gmap Z ReqLocalData) (s : Skel) : Skel := with_app (set_ld m (app s)) s.

Lemma put_ld_eq q d s : put_ld q d s = Ret tt (app_ld (<[q := d]> (ld_ (app s))) s).
Proof. done. Qed.

Lemma BB1_reply_eq s seq v d :
  int32 seq -> int32 v -> ld_ (app s) !! seq = Some d -> int32 (sum_ (rsp_ d) + v) ->
  BF_ReceiveRspFromBB1CallBack (reply_bb1 seq v) s =
    reply_when_complete seq
      (app_ld (<[seq := bb1_arrived (sum_ (rsp_ d) + v) d]> (ld_ (app s))) s).
Proof.
  intros Hq Hv Hd Hs. unfold BF_ReceiveRspFromBB1CallBack.
  assert (Hb : view_base (reply_bb1 seq v) = Some (mkBase (bswap32 sizeof_RspFromBB1) T_RSP_FROM_BB1 seq))
    by (apply view_base_reply; [by apply int32_small|done|done]).
  rewrite (proj1 (view_base_members _ _ Hb)). clear Hb.
  unfold of_option at 1. unfold bindM at 1, ret at 1. cbn [ptype_ seq_].
  rewrite Z.eqb_refl.
  assert (Hview : view_RspFromBB1 (reply_bb1 seq v) =
            Some (mkRspFromBB1 (mkBase (bswap32 sizeof_RspFromBB1) T_RSP_FROM_BB1 seq) v)).
  { apply (proj1 (proj2 (proj2 (proj2 packets_views)))); [|done].
    apply base_ok_new; [by apply int32_small|done]. }
  rewrite Hview. unfold of_option at 1. unfold bindM at 1, ret at 1. cbn [rsp1_base seq_ another_a_].
  unfold bindM at 1, get_app, gets at 1. rewrite Hd.
  unfold int_op. rewrite (proj2 (in_int_spec _) Hs). unfold bindM at 1, ret at 1.
  by rewrite (bind_eq _ _ _ _ _ (put_ld_eq _ _ _)).
Qed.

Lemma BB2_reply_eq s seq v d :
  int32 seq -> int32 v -> ld_ (app s) !! seq = Some d -> int32 (sum_ (rsp_ d) + v) ->
  BF_ReceiveRspFromBB2CallBack (reply_bb2 seq v) s =
    reply_when_complete seq
      (app_ld (<[seq := bb2_arrived (sum_ (rsp_ d) + v) d]> (ld_ (app s))) s).
Proof.
  intros Hq Hv Hd Hs. unfold BF_ReceiveRspFromBB2CallBack.
  assert (Hb : view_base (reply_bb2 seq v) = Some (mkBase (bswap32 sizeof_RspFromBB2) T_RSP_FROM_BB2 seq))
    by (apply view_base_reply; [by apply int32_small|done|done]).
  rewrite (proj1 (view_base_members _ _ Hb)). clear Hb.
  unfold of_option at 1. unfold bindM at 1, ret at 1. cbn [ptype_ seq_].
  rewrite Z.eqb_refl.
  assert (Hview : view_RspFromBB2 (reply_bb2 seq v) =
            Some (mkRspFromBB2 (mkBase (bswap32 sizeof_RspFromBB2) T_RSP_FROM_BB2 seq) v)).
  { apply packets_views; [|done]. apply base_ok_new; [by apply int32_small|done]. }
  rewrite Hview. unfold of_option at 1. unfold bindM at 1, ret at 1. cbn [rsp2_base seq_ another_b_].
  unfold bindM at 1, get_app, gets at 1. rewrite Hd.
  unfold int_op. rewrite (proj2 (in_int_spec _) Hs). unfold bindM at 1, ret at 1.
  by rewrite (bind_eq _ _ _ _ _ (put_ld_eq _ _ _)).
Qed.

(** While a reply is missing the client hears nothing. *)
Lemma reply_incomplete s seq d :
  ld_ (app s) !! seq = Some d -> bb1_rsp_arrived_ d && bb2_rsp_arrived_ d = false ->
  reply_when_complete seq s = Ret 1 s.
Proof.
  intros Hd Hb. unfold reply_when_complete, get_app, bindM, gets. by rewrite Hd, Hb.
Qed.

(** When both are in, the answer is written on the connection of the client. *)
Lemma reply_complete s seq d ad p x :
  ld_ (app s) !! seq = Some d -> bb1_rsp_arrived_ d = true -> bb2_rsp_arrived_ d = true ->
  addr_from_string (client_ip_ d) = Some ad -> wf s ->
  tcp_server_socket_map_ s !! mkEndpoint ad (client_port_ d) = Some p ->
  heap s !! p = Some x -> type_ x = T_TCP_LV ->
  reply_when_complete seq s =
    Ret 1 (put p (SetSendBuf (bytes_RspFromBF (rsp_ d)) x)
             (with_pending (pending s ++ [async_write p (bytes_RspFromBF (rsp_ d)) WThenReadL]) s)).
Proof.
  intros Hd H1 H2 Had Hwf Hp Hx Hty. unfold reply_when_complete, get_app.
  unfold bindM at 1, gets at 1. rewrite Hd, H1, H2. cbn [andb]. rewrite Had.
  unfold of_option. unfold bindM at 1. unfold bindM at 1. unfold ret at 1.
  unfold bindM at 1. by rewrite (ToWriteThenRead_answer s _ p x _ Hwf Hp Hx Hty).
Qed.

Lemma wf_app_ld m s : wf s -> wf (app_ld m s).
Proof. intros [H1 H2 H3 H4 H5 H6 H7 H8]. by constructor. Qed.

(** The answer of BF to a request whose local data are [d], for the sum [z]. *)
Definition answer (d : ReqLocalData) (z : Z) : list byte := bytes_RspFromBF (add_to_sum z (rsp_ d)).

(** The state of BF once both replies to [seq] are in, with the sum [z]. *)
Definition settled (seq : Z) (d : ReqLocalData) (z : Z) (p : ptr) (x : SocketInfo) (s : Skel) : Skel :=
  put p (SetSendBuf (answer d z) x)
    (with_pending (pending s ++ [async_write p (answer d z) WThenReadL])
      (app_ld (<[seq := mkReqLocalData true true (add_to_sum z (rsp_ d))
                          (client_ip_ d) (client_port_ d)]> (ld_ (app s))) s)).

Lemma app_ld_lookup seq (e : ReqLocalData) m s : ld_ (app (app_ld (<[seq := e]> m) s)) !! seq = Some e.
Proof. apply lookup_insert_eq. Qed.

Lemma app_ld_twice seq e1 e2 s :
  app_ld (<[seq := e2]> (ld_ (app (app_ld (<[seq := e1]> (ld_ (app s))) s))))
    (app_ld (<[seq := e1]> (ld_ (app s))) s) = app_ld (<[seq := e2]> (ld_ (app s))) s.
Proof. unfold app_ld. simpl. by rewrite insert_insert_eq. Qed.

(** A request that waits for both replies and whose client is connected. *)
Section Replies.
  Context (s : Skel) (seq v1 v2 ad : Z) (d : ReqLocalData) (p : ptr) (x : SocketInfo).
  Hypotheses (Hwf : wf s) (Hq : int32 seq) (H1 : int32 v1) (H2 : int32 v2)
    (Hd : ld_ (app s) !! seq = Some d)
    (Hb1 : bb1_rsp_arrived_ d = false) (Hb2 : bb2_rsp_arrived_ d = false)
    (Hs12 : int32 (sum_ (rsp_ d) + v1 + v2))
    (Had : addr_from_string (client_ip_ d) = Some ad)
    (Hp : tcp_server_socket_map_ s !! mkEndpoint ad (client_port_ d) = Some p)
    (Hx : heap s !! p = Some x) (Hty : type_ x = T_TCP_LV).

Lemma replies_in_order :
  int32 (sum_ (rsp_ d) + v1) ->
  exists s1, BF_ReceiveRspFromBB1CallBack (reply_bb1 seq v1) s = Ret 1 s1 /\ pending s1 = pending s /\
    BF_ReceiveRspFromBB2CallBack (reply_bb2 seq v2) s1 =
      Ret 1 (settled seq d (sum_ (rsp_ d) + v1 + v2) p x s).
Proof.
  intros Hs1. eexists. split_and!.
  - rewrite (BB1_reply_eq s seq v1 d) by done. eapply reply_incomplete; [apply app_ld_lookup|].
    simpl. by rewrite Hb2.
  - done.
  - rewrite (BB2_reply_eq _ seq v2 _ Hq H2 (app_ld_lookup _ _ _ _)); [|done]. rewrite app_ld_twice.
    rewrite (reply_complete _ seq _ ad p x (app_ld_lookup _ _ _ _)); try done. by apply wf_app_ld.
Qed.

Lemma replies_swapped :
  int32 (sum_ (rsp_ d) + v2) ->
  exists s2, BF_ReceiveRspFromBB2CallBack (reply_bb2 seq v2) s = Ret 1 s2 /\ pending s2 = pending s /\
    BF_ReceiveRspFromBB1CallBack (reply_bb1 seq v1) s2 =
      Ret 1 (settled seq d (sum_ (rsp_ d) + v1 + v2) p x s).
Proof.
  intros Hs2. eexists.
  assert (Hsum : sum_ (rsp_ d) + v2 + v1 = sum_ (rsp_ d) + v1 + v2) by lia. split_and!.
  - rewrite (BB2_reply_eq s seq v2 d) by done. eapply reply_incomplete; [apply app_ld_lookup|].
    simpl. by rewrite Hb1.
  - done.
  - rewrite (BB1_reply_eq _ seq v1 _ Hq H1 (app_ld_lookup _ _ _ _)); [|simpl; by rewrite Hsum].
    rewrite app_ld_twice.
    rewrite (reply_complete _ seq _ ad p x (app_ld_lookup _ _ _ _)); try done; [|by apply wf_app_ld].
    unfold settled, answer, bb1_arrived, bb2_arrived, add_to_sum. simpl. by rewrite Hsum.
Qed.
End Replies.

(** The order of the two replies does not matter.  For a request that waits
    for both and whose client is still connected, receiving the reply of BB1
    then that of BB2, or the other way round, leaves BF in exactly the same
    state: the first reply only updates the local data of the request, the second
    one starts the write of one answer on the connection of the client, with the
    initial sum plus both values. *)
Theorem bb_replies_commute s seq v1 v2 d ad p x :
  wf s -> int32 seq -> int32 v1 -> int32 v2 ->
  ld_ (app s) !! seq = Some d -> bb1_rsp_arrived_ d = false -> bb2_rsp_arrived_ d = false ->
  int32 (sum_ (rsp_ d) + v1) -> int32 (sum_ (rsp_ d) + v2) -> int32 (sum_ (rsp_ d) + v1 + v2) ->
  addr_from_string (client_ip_ d) = Some ad ->
  tcp_server_socket_map_ s !! mkEndpoint ad (client_port_ d) = Some p ->
  heap s !! p = Some x -> type_ x = T_TCP_LV ->
  let data := answer d (sum_ (rsp_ d) + v1 + v2) in
  let final := put p (SetSendBuf data x)
    (with_pending (pending s ++ [async_write p data WThenReadL])
      (app_ld (<[seq := mkReqLocalData true true (add_to_sum (sum_ (rsp_ d) + v1 + v2) (rsp_ d))
                          (client_ip_ d) (client_port_ d)]> (ld_ (app s))) s)) in
  (exists s1, BF_ReceiveRspFromBB1CallBack (reply_bb1 seq v1) s = Ret 1 s1 /\
     pending s1 = pending s /\ BF_ReceiveRspFromBB2CallBack (reply_bb2 seq v2) s1 = Ret 1 final) /\
  (exists s2, BF_ReceiveRspFromBB2CallBack (reply_bb2 seq v2) s = Ret 1 s2 /\
     pending s2 = pending s /\ BF_ReceiveRspFromBB1CallBack (reply_bb1 seq v1) s2 = Ret 1 final).
Proof.
  intros Hwf Hq H1 H2 Hd Hb1 Hb2 Hs1 Hs2 Hs12 Had Hp Hx Hty data final.
  split; [by eapply replies_in_order|by eapply replies_swapped].
Qed.

(** ** New requests *)

(** The request of a client. *)
Definition request_bf (seq a b : Z) : list byte :=
  bytes_ReqToBF (mkReqToBF (mkBase (bswap32 sizeof_ReqToBF) T_REQ_TO_BF seq) a b).

Lemma request_views seq a b :
  int32 seq -> int32 a -> int32 b ->
  view_base (request_bf seq a b) = Some (mkBase (bswap32 sizeof_ReqToBF) T_REQ_TO_BF seq) /\
  view_ReqToBF (request_bf seq a b) =
    Some (mkReqToBF (mkBase (bswap32 sizeof_ReqToBF) T_REQ_TO_BF seq) a b).
Proof.
  intros Hq Ha Hb.
  assert (Hbase : base_ok (mkBase (bswap32 sizeof_ReqToBF) T_REQ_TO_BF seq))
    by (apply base_ok_new; [by apply int32_small|done]).
  split; [apply view_base_words; [done|auto]|]. apply packets_views; [done|auto].
Qed.

(** An operation that sends [data] to [e] and whose answer goes to [cb]. *)
Definition sends (s : Skel) (o : AsyncOp) (e : Endpoint) (data : list byte)
    (cb : option PacketCallBack) : Prop :=
  exists p x, heap s !! p = Some x /\ remote_endpoint_ x = e /\ cb_ x = cb /\
    (o = async_write p data WThenReadL \/ o = async_connect p e data).

Lemma callback_request s e buf cb :
  inv False s -> lv_clients s ->
  exists s' o, ToWriteThenCallBack e T_TCP_LV buf false cb s = Ret 0 s' /\
    pending s' = pending s ++ [o] /\ sends s' o e buf cb /\
    inv False s' /\ lv_clients s' /\ app s' = app s.
Proof.
  intros Hinv Hlv. pose proof (ToWriteThenCallBack_eq s e T_TCP_LV buf cb (proj1 Hinv)) as H.
  pose proof (safe_start_anywhere False (ToWriteThenCallBack e T_TCP_LV buf false cb) s) as Hsafe.
  destruct (head (idle_sockets e s)) as [p|] eqn:Eh.
  - destruct H as (x & Hx & Hr & H).
    destruct (idle_In s e p (proj1 Hinv) Eh) as (y & Hy & _ & Hc & _). simplify_eq.
    specialize (H WThenReadL ltac:(by rewrite (Hlv p x Hx Hc))).
    eexists _, _. split; [exact H|].
    destruct (Hsafe 0 _ (safe_ToWriteThenCallBack False _ _ _ _ _) Hinv H) as [Hinv' _].
    split_and!; [done| |done| |done].
    + eexists p, _. split; [apply lookup_insert_eq|]. split_and!; [done|done|by left].
    + intros q z. simpl. intros [[<- <-]|[_ Hz]]%lookup_insert_Some; simpl; [by apply Hlv with p|].
      by apply Hlv with q.
  - cbn zeta in H. eexists _, _. split; [exact H|].
    destruct (Hsafe 0 _ (safe_ToWriteThenCallBack False _ _ _ _ _) Hinv H) as [Hinv' _].
    split_and!; [done| |done| |done].
    + eexists (next_ptr s), _. split; [apply lookup_insert_eq|]. split_and!; [done|done|by right].
    + intros q z. simpl. intros [[<- <-]|[_ Hz]]%lookup_insert_Some; [done|]. by apply Hlv with q.
Qed.

(** A request with a fresh sequence number is recorded, not answered yet,
    and asks BB1 about the first number and then BB2 about the second, each
    request carrying the sequence number and waiting for its own callback. *)
Theorem BF_new_request s seq a b fip fp tip tp t :
  inv False s -> lv_clients s -> int32 seq -> int32 a -> int32 b -> ld_ (app s) !! seq = None ->
  let g := garbage (app s) seq in
  exists s1 s2 o1 o2,
    ProcessData (request_bf seq a b) fip fp tip tp t s = Ret 0 s2 /\
    ld_ (app s2) = <[seq := mkReqLocalData false false
       (mkRspFromBF (mkBase (bswap32 sizeof_RspFromBF) T_RSP_FROM_BF seq) (sum_ g) 0) fip fp]> (ld_ (app s)) /\
    pending s2 = pending s ++ [o1; o2] /\
    sends s1 o1 (bb1_endpoint_ (app s))
      (bytes_ReqToBB1 (mkReqToBB1 (mkBase (bswap32 sizeof_ReqToBB1) T_REQ_TO_BB1 seq) a))
      (Some ReceiveRspFromBB1CallBack) /\
    sends s2 o2 (bb2_endpoint_ (app s))
      (bytes_ReqToBB2 (mkReqToBB2 (mkBase (bswap32 sizeof_ReqToBB2) T_REQ_TO_BB2 seq) b))
      (Some ReceiveRspFromBB2CallBack) /\
    inv False s2.
Proof.
  intros Hinv Hlv Hq Ha Hb Hfree g.
  destruct (request_views seq a b Hq Ha Hb) as [Hv1 Hv2]. cbn [ProcessData BF_Program].
  unfold BF_ProcessData. rewrite (proj1 (view_base_members _ _ Hv1)). unfold of_option at 1. unfold bindM at 1, ret at 1.
  cbn [ptype_]. rewrite Z.eqb_refl, Hv2. unfold of_option at 1. unfold bindM at 1, ret at 1.
  cbn [req_base seq_ a_ b_]. unfold get_app. unfold bindM at 1, gets at 1. rewrite Hfree.
  rewrite (bind_eq _ _ _ _ _ (put_ld_eq _ _ _)). set (s0 := app_ld _ s).
  assert (Hinv0 : inv False s0) by (split; [apply wf_app_ld, Hinv|done]).
  destruct (callback_request s0 (bb1_endpoint_ (app s))
    (bytes_ReqToBB1 (mkReqToBB1 (mkBase (bswap32 sizeof_ReqToBB1) T_REQ_TO_BB1 seq) a))
    (Some ReceiveRspFromBB1CallBack : option (@PacketCallBack BF_PROG)) Hinv0 Hlv)
    as (s1 & o1 & E1 & P1 & S1 & I1 & L1 & A1).
  rewrite (bind_eq _ _ _ _ _ E1).
  destruct (callback_request s1 (bb2_endpoint_ (app s))
    (bytes_ReqToBB2 (mkReqToBB2 (mkBase (bswap32 sizeof_ReqToBB2) T_REQ_TO_BB2 seq) b))
    (Some ReceiveRspFromBB2CallBack : option (@PacketCallBack BF_PROG)) I1 L1)
    as (s2 & o2 & E2 & P2 & S2 & I2 & L2 & A2).
  rewrite (bind_eq _ _ _ _ _ E2). exists s1, s2, o1, o2. split_and!; [done| | |done|done|done].
  - rewrite A2, A1. done.
  - rewrite P2, P1. simpl. by rewrite <- app_assoc.
Qed.

(** BF refuses a request whose sequence number is taken, and any packet
    that is not a request, with -1 and without changing anything. *)
Theorem BF_rejects s buf base fip fp tip tp t :
  view_base buf = Some base ->
  ptype_ base <> T_REQ_TO_BF \/
    (is_Some (view_ReqToBF buf) /\ is_Some (ld_ (app s) !! seq_ base)) ->
  ProcessData buf fip fp tip tp t s = Ret (-1) s.
Proof.
  intros Hb Hr. cbn [ProcessData BF_Program]. unfold BF_ProcessData. rewrite (proj1 (view_base_members _ _ Hb)).
  unfold of_option at 1. unfold bindM at 1, ret at 1.
  destruct (Z.eqb_spec (ptype_ base) T_REQ_TO_BF) as [Heq|]; [|done].
  destruct Hr as [?|[[r Hv] [d Hd]]]; [done|]. rewrite Hv.
  unfold of_option at 1. unfold bindM at 1, ret at 1. unfold get_app, bindM at 1, gets at 1.
  assert (Hbase : req_base r = base).
  { unfold view_ReqToBF in Hv. rewrite Hb in Hv. simpl in Hv.
    destruct (load32 buf 12); [|done]. destruct (load32 buf 16); simplify_eq/=. done. }
  by rewrite Hbase, Hd.
Qed.

End Bf.
