(* ===== verification/Backends.v ===== *)
(** * The back ends: [asio-based3/cb_lv_bb1.cc] and [asio-based3/cb_lv_bb2.cc]

    Both add a random number to the number of a request and answer on the
    connection it came from.  They share their data members and their [main]. *)

From S2P Require Import Prelude Wire SocketInfo Skeleton Handlers Reactor.
From S2P Require Import Invariant Safety ApiSafety HandlerSafety.
From S2P Require Import SkeletonProps Framing Requests Packets Options.

(** The data members of [TestBB1] and [TestBB2].  [die n] is the value of the
    [n]-th call of the generator, a library object; [rolled] counts the calls. *)
Record TestBB := mkTestBB {
  bb_local_ip_ : list byte;
  bb_port_low_ : Z;
  bb_port_high_ : Z;
  die : nat -> Z;
  rolled : nat
}.

Inductive BbTimer := BbPrintHeartBeat.

Definition BB_PROG : PROG :=
  {| App := TestBB; PacketCallBack := Empty_set; UserTimer := BbTimer |}.
#[local] Existing Instance BB_PROG.

Definition set_rolled (n : nat) (a : TestBB) : TestBB :=
  mkTestBB (bb_local_ip_ a) (bb_port_low_ a) (bb_port_high_ a) (die a) n.

Section Backends.
  Context {B : Boost}.

(** [die()]. *)
Definition roll : M Skel Z :=
  let! a := gets app in
  modify (fun s => with_app (set_rolled (S (rolled a)) a) s) ;;!
  ret (die a (rolled a)).

(** [IPAddress::from_string(from_ip, e)]: the default address on an error, which
    the caller ignores. *)
Definition from_string_or_default (ip : list byte) : Z :=
  match addr_from_string ip with Some a => a | None => 0 end.

Definition BB1_ProcessData (input_data from_ip : list byte) (from_port : Z)
    (to_ip : list byte) (to_port arrive_time : Z) : M Skel Z :=
  let! type := of_option HUndefined (view_type input_data) in
  if negb (type =? T_REQ_TO_BB1) then ret (-1)
  else
    let! req_to_bb1 := of_option HUndefined (view_ReqToBB1 input_data) in
    let! d := roll in
    let! v := int_op (bb1_a_ req_to_bb1 + d) in
    let rsp := mkRspFromBB1 (mkBase (bswap32 sizeof_RspFromBB1) T_RSP_FROM_BB1
                               (seq_ (req1_base req_to_bb1))) v in
    ToWriteThenRead (mkEndpoint (from_string_or_default from_ip) from_port) T_TCP_LV
      (bytes_RspFromBB1 rsp) true ;;!
    ret 2.

Definition BB2_ProcessData (input_data from_ip : list byte) (from_port : Z)
    (to_ip : list byte) (to_port arrive_time : Z) : M Skel Z :=
  let! type := of_option HUndefined (view_type input_data) in
  if negb (type =? T_REQ_TO_BB2) then ret (-1)
  else
    let! req_to_bb2 := of_option HUndefined (view_ReqToBB2 input_data) in
    let! d := roll in
    let! v := int_op (bb2_b_ req_to_bb2 + d) in
    let rsp := mkRspFromBB2 (mkBase (bswap32 sizeof_RspFromBB2) T_RSP_FROM_BB2
                               (seq_ (req2_base req_to_bb2))) v in
    ToWriteThenRead (mkEndpoint (from_string_or_default from_ip) from_port) T_TCP_LV
      (bytes_RspFromBB2 rsp) true ;;!
    ret 2.

Definition BB_PrintHeartBeat : M Skel unit := ret tt.

Definition no_callback {A} (cb : Empty_set) : A := match cb with end.

Definition BB1_Program : Program := {|
  ProcessData := BB1_ProcessData;
  call_cb := fun (cb : @PacketCallBack BB_PROG) _ _ _ _ _ _ => no_callback cb;
  call_timer := fun (h : @UserTimer BB_PROG) => match h with BbPrintHeartBeat => BB_PrintHeartBeat end
|}.

Definition BB2_Program : Program := {|
  ProcessData := BB2_ProcessData;
  call_cb := fun (cb : @PacketCallBack BB_PROG) _ _ _ _ _ _ => no_callback cb;
  call_timer := fun (h : @UserTimer BB_PROG) => match h with BbPrintHeartBeat => BB_PrintHeartBeat end
|}.

(** ** [main] *)

Record BbOptions := mkBbOptions {
  bb_timer_interval : Z;
  bb_local_ip : list byte;
  bb_port_low : Z;
  bb_port_high : Z;
  bb_option_num : Z
}.

Definition bb_option (o : BbOptions) (c : byte) (optarg : list byte) : OptResult BbOptions :=
  let 'mkBbOptions i ip lo hi n := o in
  match c with
  | x69 => let? v := atoi optarg in OGo (mkBbOptions v ip lo hi n)
  | x4c => OGo (mkBbOptions i optarg lo hi (n + 1))
  | x70 => let? v := atoi optarg in OGo (mkBbOptions i ip (u16 v) hi (n + 1))
  | x50 => let? v := atoi optarg in OGo (mkBbOptions i ip lo (u16 v) (n + 1))
  | x68 => OReturn 0
  | _ => OReturn (-1)
  end.

Definition bb_main (o0 : BbOptions) (argv : OptionList) (sys_ok : Z -> bool) : M Skel Z :=
  match parse_options bb_option argv o0 with
  | OReturn z => ret z
  | OExit z => stop (HExit z)
  | OUndefined => stop HUndefined
  | OGo o =>
      if bb_option_num o <? 3 then ret (-1)
      else if (bb_timer_interval o <? 0) || (100000 <? bb_timer_interval o) then ret (-1)
      else if bb_port_high o <? bb_port_low o then ret (-1)
      else
        modify (fun s => with_cfg (set_server_timeout 10000
                           (set_timer_trigger_interval (bb_timer_interval o) (cfg s))) s) ;;!
        modify (fun s => with_app (mkTestBB (bb_local_ip o) (bb_port_low o) (bb_port_high o)
                           (die (app s)) (rolled (app s))) s) ;;!
        match addr_from_string (bb_local_ip o) with
        | None => stop (HExit 1)
        | Some addr =>
            listen_ports listen_fuel T_TCP_LV addr (bb_port_low o) (bb_port_high o) sys_ok ;;!
            AddTimerHandler (TUser (BbPrintHeartBeat : @UserTimer BB_PROG)) ;;!
            Run ;;!
            ret 0
        end
  end.

(** [main] of [cb_lv_bb2.cc]: the same text; its [getopt] string also has
    [n:], which the switch sends to its default. *)
Definition bb2_main := bb_main.

(** ** The contract and the answers *)

Lemma safe_roll strict : safe strict roll.
Proof.
  unfold roll. apply safe_bind; [apply safe_gets|intros a].
  apply safe_bind; [by apply safe_modify_core|intros []]. apply safe_ret.
Qed.

#[global] Instance BB1_safe strict : ProgramSafe BB1_Program strict.
Proof.
  split; [intros buf fip fp tip tp t|intros []|intros []; apply safe_ret].
  cbn. unfold BB1_ProcessData. apply safe_bind; [apply safe_of_option|intros base].
  destruct (negb _); [apply safe_ret|]. apply safe_bind; [apply safe_of_option|intros r].
  apply safe_bind; [apply safe_roll|intros d]. apply safe_bind; [apply safe_int_op|intros v].
  apply safe_bind; [apply safe_ToWriteThenRead|intros z; apply safe_ret].
Qed.

#[global] Instance BB2_safe strict : ProgramSafe BB2_Program strict.
Proof.
  split; [intros buf fip fp tip tp t|intros []|intros []; apply safe_ret].
  cbn. unfold BB2_ProcessData. apply safe_bind; [apply safe_of_option|intros base].
  destruct (negb _); [apply safe_ret|]. apply safe_bind; [apply safe_of_option|intros r].
  apply safe_bind; [apply safe_roll|intros d]. apply safe_bind; [apply safe_int_op|intros v].
  apply safe_bind; [apply safe_ToWriteThenRead|intros z; apply safe_ret].
Qed.

(** The state after the answer [data]: the generator has moved on, and the write
    on socket [p] is started. *)
Definition answered (p : ptr) (x : SocketInfo) (data : list byte) (s : Skel) : Skel :=
  put p (SetSendBuf data x)
    (with_pending (pending s ++ [async_write p data WThenReadL])
      (with_app (set_rolled (S (rolled (app s))) (app s)) s)).

Lemma roll_eq s :
  roll s = Ret (die (app s) (rolled (app s))) (with_app (set_rolled (S (rolled (app s))) (app s)) s).
Proof. done. Qed.

Lemma wf_rolled n s : wf s -> wf (with_app (set_rolled n (app s)) s).
Proof. intros [H1 H2 H3 H4 H5 H6 H7 H8]. by constructor. Qed.

Section Answers.
  Context (s : Skel) (fip : list byte) (fp ad : Z) (p : ptr) (x : SocketInfo) (d : Z).
  Hypotheses (Hwf : wf s) (Hd : d = die (app s) (rolled (app s)))
    (Had : addr_from_string fip = Some ad)
    (Hp : tcp_server_socket_map_ s !! mkEndpoint ad fp = Some p)
    (Hx : heap s !! p = Some x) (Htx : type_ x = T_TCP_LV).

(** The end of both handlers. *)
Lemma answer_2_eq data :
  (ToWriteThenRead (mkEndpoint (from_string_or_default fip) fp) T_TCP_LV data true ;;! ret 2)
    (with_app (set_rolled (S (rolled (app s))) (app s)) s) = Ret 2 (answered p x data s).
Proof.
  unfold from_string_or_default. rewrite Had. unfold bindM.
  by rewrite (ToWriteThenRead_answer _ _ p x) by (try apply wf_rolled; done).
Qed.

Lemma BB1_answer_eq req tip tp t :
  base_ok (req1_base req) -> int32 (bb1_a_ req) -> ptype_ (req1_base req) = T_REQ_TO_BB1 ->
  int32 (bb1_a_ req + d) ->
  BB1_ProcessData (bytes_ReqToBB1 req) fip fp tip tp t s =
    Ret 2 (answered p x (reply_bb1 (seq_ (req1_base req)) (bb1_a_ req + d)) s).
Proof.
  intros Hb Ha Hty Hs.
  assert (Hv : view_base (bytes_ReqToBB1 req) = Some (req1_base req))
    by (apply view_base_words; auto).
  assert (Hv1 : view_ReqToBB1 (bytes_ReqToBB1 req) = Some req) by (by apply packets_views).
  unfold BB1_ProcessData. rewrite (proj1 (view_base_members _ _ Hv)). unfold of_option at 1. unfold bindM at 1, ret at 1.
  rewrite Hty, Z.eqb_refl. cbn [negb]. rewrite Hv1.
  unfold of_option at 1. unfold bindM at 1, ret at 1.
  rewrite (bind_Ret _ _ _ _ _ (roll_eq s)), <- Hd.
  unfold int_op. rewrite (proj2 (in_int_spec _) Hs). unfold bindM at 1, ret at 1.
  apply answer_2_eq.
Qed.

Lemma BB2_answer_eq req tip tp t :
  base_ok (req2_base req) -> int32 (bb2_b_ req) -> ptype_ (req2_base req) = T_REQ_TO_BB2 ->
  int32 (bb2_b_ req + d) ->
  BB2_ProcessData (bytes_ReqToBB2 req) fip fp tip tp t s =
    Ret 2 (answered p x (reply_bb2 (seq_ (req2_base req)) (bb2_b_ req + d)) s).
Proof.
  intros Hb Ha Hty Hs.
  assert (Hv : view_base (bytes_ReqToBB2 req) = Some (req2_base req))
    by (apply view_base_words; auto).
  assert (Hv1 : view_ReqToBB2 (bytes_ReqToBB2 req) = Some req) by (by apply packets_views).
  unfold BB2_ProcessData. rewrite (proj1 (view_base_members _ _ Hv)). unfold of_option at 1. unfold bindM at 1, ret at 1.
  rewrite Hty, Z.eqb_refl. cbn [negb]. rewrite Hv1.
  unfold of_option at 1. unfold bindM at 1, ret at 1.
  rewrite (bind_Ret _ _ _ _ _ (roll_eq s)), <- Hd.
  unfold int_op. rewrite (proj2 (in_int_spec _) Hs). unfold bindM at 1, ret at 1.
  apply answer_2_eq.
Qed.

End Answers.

(** BB1 answers a request on the connection it came from.  The answer is one
    LV packet that carries the sequence number of the request and its number plus
    the random one; its write is started, and the handler returns 2. *)
Theorem BB1_answers s req fip fp tip tp t ad p x d :
  wf s -> base_ok (req1_base req) -> int32 (bb1_a_ req) ->
  ptype_ (req1_base req) = T_REQ_TO_BB1 ->
  d = die (app s) (rolled (app s)) -> int32 (bb1_a_ req + d) ->
  addr_from_string fip = Some ad ->
  tcp_server_socket_map_ s !! mkEndpoint ad fp = Some p -> heap s !! p = Some x ->
  type_ x = T_TCP_LV ->
  exists s' data,
    BB1_ProcessData (bytes_ReqToBB1 req) fip fp tip tp t s = Ret 2 s' /\
    pending s' = pending s ++ [async_write p data WThenReadL] /\
    (exists body, data = lv_packet body) /\
    view_RspFromBB1 data = Some (mkRspFromBB1
      (mkBase (bswap32 sizeof_RspFromBB1) T_RSP_FROM_BB1 (seq_ (req1_base req))) (bb1_a_ req + d)).
Proof.
  intros Hwf Hb Ha Hty Hd Hs Had Hp Hx Htx.
  eexists _, (reply_bb1 (seq_ (req1_base req)) (bb1_a_ req + d)).
  split; [by eapply BB1_answer_eq|]. split_and!; [done| |].
  - eexists. unfold reply_bb1, bytes_RspFromBB1, base_words. cbn [app len_ ptype_ seq_ rsp1_base].
    apply words_lv. unfold zlen. by rewrite length_words.
  - apply packets_views; [|done]. apply base_ok_new; [by apply int32_small|by apply base_ok_seq].
Qed.

End Backends.
