(* ===== verification/EndToEnd.v ===== *)
(** * A request from end to end: BF with its two back ends

    The three programs composed over the bytes they exchange: what BF writes for
    a request is what BB1 and BB2 read, what they write is what the callbacks of
    BF read, and what BF writes at last is what its client reads.  Each process
    has its own skeleton. *)

From S2P Require Import Prelude Wire SocketInfo Skeleton Handlers Reactor.
From S2P Require Import Invariant Safety.
From S2P Require Import Framing Requests Packets Bf Backends.

#[local] Existing Instance BF_PROG.
#[local] Existing Instance BF_Program.

Section EndToEnd.
  Context {B : Boost}.

(** The address text [ip] and the port [pt] name an LV connection of a server: a
    registered socket [p]. *)
Definition connected_at {P : PROG} (s : @Skel P) (ip : list byte) (pt : Z) (p : ptr) : Prop :=
  exists ad x, addr_from_string ip = Some ad /\
    tcp_server_socket_map_ s !! mkEndpoint ad pt = Some p /\
    heap s !! p = Some x /\ type_ x = T_TCP_LV.

(** What the die of a back end shows next. *)
Definition next_die (t : @Skel BB_PROG) : Z := die (app t) (rolled (app t)).

(** The initial local data of a request. *)
Definition recorded (seq g : Z) (fip : list byte) (fp : Z) : ReqLocalData :=
  mkReqLocalData false false
    (mkRspFromBF (mkBase (bswap32 sizeof_RspFromBF) T_RSP_FROM_BF seq) g 0) fip fp.

(** A back end answers what BF asks, and its write carries the reply packet. *)
Lemma bb1_serves t seq a fip fp tip tp at_ p :
  @wf BB_PROG t -> connected_at t fip fp p -> int32 seq -> int32 a -> int32 (a + next_die t) ->
  exists t', @BB1_ProcessData B (ask_bb1 seq a) fip fp tip tp at_ t = Ret 2 t' /\
    pending t' = pending t ++ [async_write p (reply_bb1 seq (a + next_die t)) WThenReadL].
Proof.
  intros Hwf (ad & x & Had & Hp & Hx & Hty) Hq Ha Hs. eexists. split.
  - unfold ask_bb1.
    apply (BB1_answer_eq t fip fp ad p x (next_die t) Hwf eq_refl Had Hp Hx Hty
             (mkReqToBB1 (mkBase (bswap32 sizeof_ReqToBB1) T_REQ_TO_BB1 seq) a)); [|done|done|done].
    by apply base_ok_new; [apply int32_small|].
  - done.
Qed.

Lemma bb2_serves t seq b fip fp tip tp at_ p :
  @wf BB_PROG t -> connected_at t fip fp p -> int32 seq -> int32 b -> int32 (b + next_die t) ->
  exists t', @BB2_ProcessData B (ask_bb2 seq b) fip fp tip tp at_ t = Ret 2 t' /\
    pending t' = pending t ++ [async_write p (reply_bb2 seq (b + next_die t)) WThenReadL].
Proof.
  intros Hwf (ad & x & Had & Hp & Hx & Hty) Hq Hb Hs. eexists. split.
  - unfold ask_bb2.
    apply (BB2_answer_eq t fip fp ad p x (next_die t) Hwf eq_refl Had Hp Hx Hty
             (mkReqToBB2 (mkBase (bswap32 sizeof_ReqToBB2) T_REQ_TO_BB2 seq) b)); [|done|done|done].
    by apply base_ok_new; [apply int32_small|].
  - done.
Qed.

(** C11: a request is answered with the sum, whatever happens in between, when the
    numbers and the sums are [int]s.  In a well-formed state of BF whose
    connections to back ends are LV, and with no request of the same number, BF
    records the request of a client and asks each back end about one number, each
    back end answers what BF asked with its number plus its die, and in every
    later state of BF in which the request still waits and the client is still
    connected (whatever other requests did to BF meanwhile) the two replies, in
    either order, lead to one write: the answer on the connection of the client,
    in which the client reads the sequence number, the sum of what the two back
    ends said and of what the memory of the record held (the program forgets to
    set [sum_]), and the error code 0. *)
Theorem request_answered (s : Skel) (t1 t2 : @Skel BB_PROG) seq a b fip fp tip tp at_
    ip1 pt1 p1 ip2 pt2 p2 :
  inv False s -> lv_clients s -> ld_ (app s) !! seq = None ->
  @wf BB_PROG t1 -> connected_at t1 ip1 pt1 p1 ->
  @wf BB_PROG t2 -> connected_at t2 ip2 pt2 p2 ->
  let g := sum_ (garbage (app s) seq) in
  let v1 := a + next_die t1 in
  let v2 := b + next_die t2 in
  Forall int32 [seq; a; b; v1; v2; g + v1; g + v2; g + v1 + v2] ->
  exists s1 s2 o1 o2 t1' t2' r1 r2,
    ProcessData (request_bf seq a b) fip fp tip tp at_ s = Ret 0 s2 /\
    pending s2 = pending s ++ [o1; o2] /\
    sends s1 o1 (bb1_endpoint_ (app s)) (ask_bb1 seq a) (Some ReceiveRspFromBB1CallBack) /\
    sends s2 o2 (bb2_endpoint_ (app s)) (ask_bb2 seq b) (Some ReceiveRspFromBB2CallBack) /\
    @BB1_ProcessData B (ask_bb1 seq a) ip1 pt1 tip tp at_ t1 = Ret 2 t1' /\
    pending t1' = pending t1 ++ [async_write p1 r1 WThenReadL] /\
    @BB2_ProcessData B (ask_bb2 seq b) ip2 pt2 tip tp at_ t2 = Ret 2 t2' /\
    pending t2' = pending t2 ++ [async_write p2 r2 WThenReadL] /\
    forall s3 p, wf s3 -> ld_ (app s3) !! seq = ld_ (app s2) !! seq -> connected_at s3 fip fp p ->
      exists s4 s5 s5' data,
        BF_ReceiveRspFromBB1CallBack r1 s3 = Ret 1 s5 /\ pending s5 = pending s3 /\
        BF_ReceiveRspFromBB2CallBack r2 s5 = Ret 1 s4 /\
        BF_ReceiveRspFromBB2CallBack r2 s3 = Ret 1 s5' /\ pending s5' = pending s3 /\
        BF_ReceiveRspFromBB1CallBack r1 s5' = Ret 1 s4 /\
        pending s4 = pending s3 ++ [async_write p data WThenReadL] /\
        view_RspFromBF data = Some (mkRspFromBF
          (mkBase (bswap32 sizeof_RspFromBF) T_RSP_FROM_BF seq) (g + v1 + v2) 0).
Proof.
  intros Hinv Hlv Hfree Hwf1 Hc1 Hwf2 Hc2 g v1 v2 Hall.
  rewrite !list.Forall_cons in Hall. destruct Hall as (Hq & Ha & Hb & H1 & H2 & Hs1 & Hs2 & Hs12 & _).
  destruct (BF_new_request s seq a b fip fp tip tp at_ Hinv Hlv Hq Ha Hb Hfree)
    as (s1 & s2 & o1 & o2 & E & Eld & Ep & S1 & S2 & _).
  destruct (bb1_serves t1 seq a ip1 pt1 tip tp at_ p1 Hwf1 Hc1 Hq Ha H1) as (t1' & E1 & P1).
  destruct (bb2_serves t2 seq b ip2 pt2 tip tp at_ p2 Hwf2 Hc2 Hq Hb H2) as (t2' & E2 & P2).
  exists s1, s2, o1, o2, t1', t2'. do 2 eexists. split_and!; try eassumption.
  intros s3 p Hwf3 Hld (ad & x & Had & Hp & Hx & Hty).
  rewrite Eld, lookup_insert_eq in Hld.
  change (ld_ (app s3) !! seq = Some (recorded seq g fip fp)) in Hld.
  destruct (replies_in_order s3 seq v1 v2 ad (recorded seq g fip fp) p x Hwf3 Hq
    H1 H2 Hld eq_refl Hs12 Had Hp Hx Hty Hs1)
    as (s5 & F1 & F2 & F3).
  destruct (replies_swapped s3 seq v1 v2 ad (recorded seq g fip fp) p x Hwf3 Hq
    H1 H2 Hld eq_refl Hs12 Had Hp Hx Hty Hs2)
    as (s5' & F4 & F5 & F6).
  exists (settled seq (recorded seq g fip fp) (g + v1 + v2) p x s3), s5, s5'.
  eexists. split_and!; try eassumption; [done|].
  apply packets_views; [apply base_ok_new; [by apply int32_small|done]|].
  repeat (apply List.Forall_cons; [first [exact Hs12|by apply int32_small]|]). apply List.Forall_nil.
Qed.

End EndToEnd.
