(* ===== verification/Clients.v ===== *)
(** * The client of the front server: [asio-based3/cb_lv_c.cc]

    On every tick of its timer it sends one request and waits for the answer in
    a callback. *)

From S2P Require Import Prelude Wire SocketInfo Skeleton Handlers Reactor.
From S2P Require Import Invariant Safety ApiSafety HandlerSafety.
From S2P Require Import SkeletonProps Framing Requests Packets Options.

(** The data member of [TestClient] and the [static] variables of
    [PrepareDataThenSend]. *)
Record TestClient := mkTestClient {
  server_endpoint_ : Endpoint;
  st_a : Z;
  st_b : Z;
  st_seq : Z
}.

(** The values the [static] variables start with. *)
Definition new_TestClient (e : Endpoint) : TestClient := mkTestClient e 0 (-1) 1.

Inductive ClientCallBack := MyReceiveCallBack.
Inductive ClientTimer := PrepareDataThenSend.

Definition Client_PROG : PROG :=
  {| App := TestClient; PacketCallBack := ClientCallBack; UserTimer := ClientTimer |}.
#[local] Existing Instance Client_PROG.

(** ** [main] *)

Record ClientOptions := mkClientOptions {
  c_timer_interval : Z;
  c_addr : Z;
  c_ec : bool;
  c_port : Z;
  c_option_num : Z
}.

Section Main.
  Context {P : PROG} {B : Boost}.

(** An invalid address is only reported: [main] goes on with the default
    address. *)
Definition client_option (o : ClientOptions) (c : byte) (optarg : list byte)
    : OptResult ClientOptions :=
  let 'mkClientOptions i ad e p n := o in
  match c with
  | x69 => let? v := atoi optarg in OGo (mkClientOptions v ad e p n)
  | x49 => match addr_from_string optarg with
           | Some v => OGo (mkClientOptions i v false p (n + 1))
           | None => OGo (mkClientOptions i 0 true p (n + 1))
           end
  | x70 => let? v := atoi optarg in OGo (mkClientOptions i ad e (u16 v) (n + 1))
  | x68 => OReturn 0
  | _ => OReturn (-1)
  end.

(** [main] of the TCP clients: [install] stores the address of the server in the
    data members, [tick] is the timer handler. *)
Definition client_main_of (install : Endpoint -> App -> App) (tick : UserTimer)
    (o0 : ClientOptions) (argv : OptionList) : M Skel Z :=
  match parse_options client_option argv o0 with
  | OReturn z => ret z
  | OExit z => stop (HExit z)
  | OUndefined => stop HUndefined
  | OGo o =>
      if c_option_num o <? 2 then ret (-1)
      else if (c_timer_interval o <? 0) || (100000 <? c_timer_interval o) then ret (-1)
      else
        modify (fun s => with_cfg (set_timer_trigger_interval (c_timer_interval o) (cfg s)) s) ;;!
        modify (fun s => with_app (install (mkEndpoint (c_addr o) (c_port o)) (app s)) s) ;;!
        AddTimerHandler (TUser tick) ;;!
        Run ;;!
        ret 0
  end.

End Main.

Definition install_client (e : Endpoint) (a : TestClient) : TestClient :=
  mkTestClient e (st_a a) (st_b a) (st_seq a).

Section Clients.
  Context {B : Boost}.

(** The callback logs the members of the answer. *)
Definition Client_MyReceiveCallBack (input_data : list byte) : M Skel Z :=
  let! rsp := of_option HUndefined (view_RspFromBF input_data) in ret 1.

(** [ProcessData] is not overridden: the one of [Skeleton] asserts. *)
Definition Skeleton_ProcessData : M Skel Z := assert_ false ;;! ret 0.

Definition Client_PrepareDataThenSend : M Skel unit :=
  let! c := gets app in
  let! a' := int_op (st_a c + 1) in
  let! b' := int_op (st_b c - 1) in
  let! seq' := int_op (st_seq c + 1) in
  modify (fun s => with_app (mkTestClient (server_endpoint_ c) a' b' seq') s) ;;!
  let req := mkReqToBF (mkBase (bswap32 sizeof_ReqToBF) T_REQ_TO_BF (st_seq c)) (st_a c) (st_b c) in
  ToWriteThenCallBack (server_endpoint_ c) T_TCP_LV (bytes_ReqToBF req) false
    (Some MyReceiveCallBack : option (@PacketCallBack Client_PROG)) ;;!
  ret tt.

Definition Client_Program : Program := {|
  ProcessData := fun _ _ _ _ _ _ => Skeleton_ProcessData;
  call_cb := fun (cb : @PacketCallBack Client_PROG) buf _ _ _ _ _ =>
    match cb with MyReceiveCallBack => Client_MyReceiveCallBack buf end;
  call_timer := fun (h : @UserTimer Client_PROG) =>
    match h with PrepareDataThenSend => Client_PrepareDataThenSend end
|}.
#[local] Existing Instance Client_Program.

Definition client_main : ClientOptions -> OptionList -> M Skel Z :=
  client_main_of install_client (PrepareDataThenSend : @UserTimer Client_PROG).

(** ** The contract and the requests *)

Lemma safe_PrepareDataThenSend strict : safe strict Client_PrepareDataThenSend.
Proof.
  unfold Client_PrepareDataThenSend. apply safe_bind; [apply safe_gets|intros c].
  do 3 (apply safe_bind; [apply safe_int_op|intros ?]).
  apply safe_bind; [by apply safe_modify_core|intros []].
  apply safe_bind; [apply safe_ToWriteThenCallBack|intros z; apply safe_ret].
Qed.

#[global] Instance Client_safe strict : ProgramSafe Client_Program strict.
Proof.
  split.
  - intros. apply safe_bind; [apply safe_assert|intros []; apply safe_ret].
  - intros cb buf. intros. destruct cb. cbn.
    apply safe_bind; [apply safe_of_option|intros r; apply safe_ret].
  - intros []. apply safe_PrepareDataThenSend.
Qed.

(** The members of the [k]-th request of a client. *)
Definition nth_request (k : Z) : ReqToBF :=
  mkReqToBF (mkBase (bswap32 sizeof_ReqToBF) T_REQ_TO_BF (1 + k)) k (-1 - k).

(** The state of the [static] variables after [k] requests. *)
Definition ticked (k : Z) (c : TestClient) : Prop := st_a c = k /\ st_b c = -1 - k /\ st_seq c = 1 + k.

(** The requests of a client.  The tick after [k] requests sends request [k]:
    sequence number [1 + k], operands [k] and [-1 - k], in one LV packet to the
    server, and the [static] variables move on; so no two ticks send the same
    sequence number, as long as the counters do not overflow. *)
Theorem client_tick s k :
  wf s -> lv_clients s -> 0 <= k < int_max - 1 -> ticked k (app s) ->
  exists s' o,
    Client_PrepareDataThenSend s = Ret tt s' /\ pending s' = pending s ++ [o] /\
    ticked (k + 1) (app s') /\
    (exists p, o = async_write p (bytes_ReqToBF (nth_request k)) WThenReadL \/
               o = async_connect p (server_endpoint_ (app s)) (bytes_ReqToBF (nth_request k))) /\
    exists body, bytes_ReqToBF (nth_request k) = lv_packet body.
Proof.
  intros Hwf Hlv Hk (Ha & Hb & Hq). unfold Client_PrepareDataThenSend.
  unfold bindM at 1, gets at 1. rewrite Ha, Hb, Hq.
  assert (Hi : forall z, - k - 3 <= z <= k + 2 -> int_op (S := Skel) z = ret z).
  { intros z Hz. unfold int_op. rewrite (proj2 (in_int_spec z)); [done|].
    unfold int_min, int_max in *. lia. }
  rewrite !Hi by lia. unfold bindM at 1 2 3, ret at 1 2 3. unfold bindM at 1, modify at 1.
  fold (nth_request k). set (s1 := with_app _ s).
  assert (Hwf1 : wf s1) by (destruct Hwf; by constructor).
  assert (Hbody : exists body, bytes_ReqToBF (nth_request k) = lv_packet body).
  { eexists. unfold bytes_ReqToBF, nth_request, base_words. cbn [app len_ ptype_ seq_ req_base].
    apply words_lv. unfold zlen. by rewrite length_words. }
  pose proof (ToWriteThenCallBack_eq s1 (server_endpoint_ (app s)) T_TCP_LV
    (bytes_ReqToBF (nth_request k)) (Some MyReceiveCallBack : option (@PacketCallBack Client_PROG)) Hwf1) as H.
  destruct (head (idle_sockets (server_endpoint_ (app s)) s1)) as [p|] eqn:Eh.
  - destruct H as (x & Hx & _ & H). destruct (idle_In s1 _ p Hwf1 Eh) as (y & Hy & _ & Hc & _).
    simplify_eq. specialize (H WThenReadL ltac:(by rewrite (Hlv p x Hx Hc))).
    rewrite (bind_eq _ _ _ _ _ H). eexists _, _. split; [reflexivity|].
    split_and!; [done|repeat split; simpl; lia|by eauto|done].
  - cbn zeta in H. rewrite (bind_eq _ _ _ _ _ H). eexists _, _. split; [reflexivity|].
    split_and!; [done|repeat split; simpl; lia|by eauto|done].
Qed.

End Clients.
