(* ===== verification/Erase.v ===== *)
(** * Programs with and without packet callbacks

    A program can receive its packets in callbacks, or all of them in
    [ProcessData].  [erase] forgets the callbacks of a skeleton; [sim] relates
    two computations that do the same on a skeleton and on its erasure.  Every
    operation and every handler of the skeleton is related to itself, and so is
    the event loop of two programs whose packet handlers are ([SameHandlers]),
    as long as each packet comes on a connection it is meant for ([typed]). *)

From S2P Require Import Prelude Wire SocketInfo Skeleton Handlers Reactor.

(** The same outcome, with related values and states. *)
Definition outcome_rel {S S' X Y} (R : X -> Y -> Prop) (E : S -> S')
    (o : outcome S X) (o' : outcome S' Y) : Prop :=
  match o, o' with
  | Ret a s, Ret b t => R a b /\ t = E s
  | Halt h s, Halt h' t => h = h' /\ t = E s
  | _, _ => False
  end.

Section Erase.
  Context {A C T : Type} {B : Boost}.

Definition with_callbacks : PROG := {| App := A; PacketCallBack := C; UserTimer := T |}.
Definition without_callbacks : PROG := {| App := A; PacketCallBack := Empty_set; UserTimer := T |}.

  Local Abbreviation P1 := with_callbacks.
  Local Abbreviation P2 := without_callbacks.

Definition erase_sk (x : @SocketInfo P1) : @SocketInfo P2 :=
  @mkSocketInfo P2 (remote_endpoint_ x) (local_endpoint_ x) (type_ x) (tcp_sk_open x)
    (create_time_ x) (access_time_ x) (in_use_ x) (is_client_ x) (is_connected_ x)
    (recv_buf_ x) (recv_buf_filled_ x) (send_buf_ x) None.

Definition erase_timer (h : @TimerHandler P1) : @TimerHandler P2 :=
  match h with
  | TSweep ms => @TSweep P2 ms
  | TUser h => @TUser P2 (h : T)
  end.

Definition erase (s : @Skel P1) : @Skel P2 :=
  @mkSkel P2 (cfg s) (app s) (erase_sk <$> heap s) (next_ptr s) (acceptors s) (udp_socket_ s)
    (tcp_server_socket_map_ s) (tcp_acceptor_map_ s) (tcp_client_socket_map_ s)
    (erase_timer <$> timer_handler_list_ s) (pending s) (stopped s) (now s).

(** Related from the states of [Pre]. *)
Definition sim_on {X Y} (Pre : @Skel P1 -> Prop) (R : X -> Y -> Prop)
    (m : M (@Skel P1) X) (m' : M (@Skel P2) Y) : Prop :=
  forall s, Pre s -> outcome_rel R erase (m s) (m' (erase s)).

Definition sim {X Y} (R : X -> Y -> Prop) (m : M (@Skel P1) X) (m' : M (@Skel P2) Y) : Prop :=
  sim_on (fun _ => True) R m m'.

(** ** The rules *)

Lemma sim_bind_on {X Y X' Y'} Pre (R : X -> Y -> Prop) (R' : X' -> Y' -> Prop) m m' k k' :
  sim_on Pre R m m' ->
  (forall a b, R a b -> sim_on (fun s => exists s0, Pre s0 /\ m s0 = Ret a s) R' (k a) (k' b)) ->
  sim_on Pre R' (bindM m k) (bindM m' k').
Proof.
  intros Hm Hk s Hs. specialize (Hm s Hs). unfold bindM.
  destruct (m s) as [a s1|h s1] eqn:E, (m' (erase s)) as [b t1|h' t1]; simpl in *; try done.
  destruct Hm as [HR ->]. apply Hk; eauto.
Qed.

Lemma sim_bind {X Y X' Y'} (R : X -> Y -> Prop) (R' : X' -> Y' -> Prop) m m' k k' :
  sim R m m' -> (forall a b, R a b -> sim R' (k a) (k' b)) -> sim R' (bindM m k) (bindM m' k').
Proof.
  intros Hm Hk. eapply sim_bind_on; [exact Hm|]. intros a b Hab s _. by apply Hk.
Qed.

Lemma sim_any {X Y} Pre (R : X -> Y -> Prop) m m' : sim R m m' -> sim_on Pre R m m'.
Proof. intros H s _. by apply H. Qed.

Lemma sim_weaken {X Y} (R R' : X -> Y -> Prop) m m' :
  sim R m m' -> (forall a b, R a b -> R' a b) -> sim R' m m'.
Proof.
  intros H HR s Hs. specialize (H s Hs). unfold outcome_rel in *.
  destruct (m s), (m' (erase s)); naive_solver.
Qed.

Lemma sim_ret {X Y} (R : X -> Y -> Prop) a b : R a b -> sim R (ret a) (ret b).
Proof. by intros H s _. Qed.
Lemma sim_ret_eq {X} (a : X) : sim eq (ret a) (ret a).
Proof. by apply sim_ret. Qed.
Lemma sim_ret_bind {X Y X' Y'} (R : X -> Y -> Prop) (a : X') (b : Y') k k' :
  sim R (k a) (k' b) -> sim R (bindM (ret a) k) (bindM (ret b) k').
Proof. done. Qed.
Lemma sim_stop {X Y} (R : X -> Y -> Prop) h : sim R (stop h) (stop h).
Proof. by intros s _. Qed.
Lemma sim_assert b : sim eq (assert_ b) (assert_ b).
Proof. by destruct b; intros s _. Qed.
Lemma sim_of_option {X} h (o : option X) : sim eq (of_option h o) (of_option h o).
Proof. by destruct o; intros s _. Qed.
Lemma sim_int_op z : sim eq (int_op z) (int_op z).
Proof. unfold int_op. by destruct (in_int z); intros s _. Qed.
Lemma sim_gets {X Y} (R : X -> Y -> Prop) f g :
  (forall s, R (f s) (g (erase s))) -> sim R (gets f) (gets g).
Proof. by intros H s _. Qed.
Lemma sim_modify f g : (forall s, g (erase s) = erase (f s)) -> sim eq (modify f) (modify g).
Proof. intros H s _. split; [done|apply H]. Qed.

Lemma sim_forM {X Y} (g : X -> Y) (l : list X) f f' :
  (forall x, x ∈ l -> sim eq (f x) (f' (g x))) -> sim eq (forM l f) (forM (g <$> l) f').
Proof.
  induction l as [|x l IH]; intros H; cbn [forM fmap list_fmap]; [by apply sim_ret|].
  eapply sim_bind; [apply H; by left|]. intros _ _ _. apply IH. intros y Hy. apply H. by right.
Qed.

(** Dropping the result on the left. *)
Lemma sim_then {X Y Z} (R : X -> Y -> Prop) (R' : Z -> Y -> Prop) m m' c :
  sim R m m' -> (forall a b, R a b -> R' c b) -> sim R' (m ;;! ret c) m'.
Proof.
  intros H HR s Hs. specialize (H s Hs). unfold bindM, outcome_rel in *.
  destruct (m s), (m' (erase s)); naive_solver.
Qed.

(** The same computation, written differently. *)
Lemma sim_ext {X Y} (R : X -> Y -> Prop) m n m' :
  (forall s, m s = n s) -> sim R n m' -> sim R m m'.
Proof. intros H Hn s Hs. rewrite H. by apply Hn. Qed.

(** ** Objects *)

Definition erased (x : @SocketInfo P1) (y : @SocketInfo P2) : Prop := y = erase_sk x.

Lemma erase_lookup s p : heap (erase s) !! p = erase_sk <$> heap s !! p.
Proof. apply lookup_fmap. Qed.

Lemma sim_deref p : sim erased (@deref P1 p) (@deref P2 p).
Proof.
  intros s _. unfold deref, bindM, gets. rewrite erase_lookup.
  by destruct (heap s !! p).
Qed.

(** A setter that leaves the callback alone. *)
Definition commutes (f : @SocketInfo P1 -> @SocketInfo P1) (f' : @SocketInfo P2 -> @SocketInfo P2)
    : Prop := forall x, f' (erase_sk x) = erase_sk (f x).

Lemma sim_update p f f' : commutes f f' -> sim eq (@update P1 p f) (@update P2 p f').
Proof.
  intros Hf. unfold update. eapply sim_bind; [apply sim_deref|]. intros x y ->.
  apply sim_modify. intros s. rewrite Hf. unfold erase, with_heap. simpl. by rewrite fmap_insert.
Qed.

(** Setting the callback before a computation that begins with a use of the
    object. *)
Lemma sim_set_cb {X Y} (R : X -> Y -> Prop) p cb (k : M (@Skel P1) X)
    (f : @SocketInfo P2 -> M (@Skel P2) Y) :
  sim R k (bindM (@deref P2 p) f) ->
  sim R (@update P1 p (set_cb cb) ;;! k) (bindM (@deref P2 p) f).
Proof.
  intros Hk s _. unfold update, deref at 1, bindM at 1 2 3, gets.
  destruct (heap s !! p) as [x|] eqn:Hx; cbn [of_option ret stop]; cycle 1.
  { unfold deref, bindM, gets. by rewrite erase_lookup, Hx. }
  unfold modify. set (s1 := with_heap _ _ s).
  assert (erase s1 = erase s) as <-; [|by apply Hk].
  unfold erase, s1, with_heap. simpl. rewrite fmap_insert, insert_id; [done|].
  by rewrite lookup_fmap, Hx.
Qed.

Lemma sim_alloc type : sim eq (@alloc P1 type) (@alloc P2 type).
Proof.
  intros s _. unfold alloc, bindM, gets, modify, ret, id. simpl. split; [done|].
  unfold erase, with_heap. simpl. by rewrite fmap_insert.
Qed.

(** ** Operations *)

Lemma sim_start o : sim eq (@start P1 o) (@start P2 o).
Proof. by apply sim_modify. Qed.

Lemma sim_cfg : sim eq (gets (@cfg P1)) (gets (@cfg P2)).
Proof. by apply sim_gets. Qed.
Lemma sim_now : sim eq (gets (@now P1)) (gets (@now P2)).
Proof. by apply sim_gets. Qed.
Lemma sim_clients : sim eq (gets (@tcp_client_socket_map_ P1)) (gets (@tcp_client_socket_map_ P2)).
Proof. by apply sim_gets. Qed.
Lemma sim_servers : sim eq (gets (@tcp_server_socket_map_ P1)) (gets (@tcp_server_socket_map_ P2)).
Proof. by apply sim_gets. Qed.
Lemma sim_app : sim eq (gets (@app P1)) (gets (@app P2)).
Proof. by apply sim_gets. Qed.
Lemma sim_acceptors : sim eq (gets (@acceptors P1)) (gets (@acceptors P2)).
Proof. by apply sim_gets. Qed.
Lemma sim_udp : sim eq (gets (@udp_socket_ P1)) (gets (@udp_socket_ P2)).
Proof. by apply sim_gets. Qed.

Create HintDb sim.
#[local] Hint Resolve sim_ret_eq sim_stop sim_assert sim_of_option sim_int_op sim_deref sim_alloc
  sim_start sim_cfg sim_now sim_clients sim_servers sim_app sim_acceptors sim_udp : sim.
#[local] Hint Extern 1 (sim _ (update _ _) (update _ _)) => apply sim_update; by intros ? : sim.
#[local] Hint Extern 1 (sim _ (modify _) (modify _)) => by apply sim_modify : sim.

(** Two computations of the same shape, step by step; a related object is
    replaced by the erasure it is. *)
Ltac sim_next :=
  let E := fresh "E" in intros ? ? E; unfold erased in E; subst;
  cbn [erase_sk remote_endpoint_ local_endpoint_ type_ tcp_sk_open access_time_ in_use_
       is_client_ is_connected_ recv_buf_ recv_buf_filled_ send_buf_].
Ltac sim_tac :=
  repeat lazymatch goal with
    | |- sim _ (bindM _ _) (bindM _ _) =>
        first [ eapply sim_bind; [solve [eauto with sim]|sim_next]
              | apply (sim_bind eq); [|sim_next] ]
    | |- sim _ (match ?x with _ => _ end) (match ?x with _ => _ end) => destruct x
    | |- sim _ (let _ := _ in _) _ => cbn zeta
    | |- sim _ _ _ => solve [eauto with sim]
    end.

Lemma sim_set_recv_buf_size p n : sim eq (@set_recv_buf_size P1 p n) (@set_recv_buf_size P2 p n).
Proof. unfold set_recv_buf_size. sim_tac. Qed.
Lemma sim_Touch_now p : sim eq (@Touch_now P1 p) (@Touch_now P2 p).
Proof. unfold Touch_now. sim_tac. Qed.
Lemma sim_InsertTCPServerSocket e p :
  sim eq (@InsertTCPServerSocket P1 e p) (@InsertTCPServerSocket P2 e p).
Proof. unfold InsertTCPServerSocket. sim_tac. Qed.
Lemma sim_InsertTCPClientSocket e p :
  sim eq (@InsertTCPClientSocket P1 e p) (@InsertTCPClientSocket P2 e p).
Proof. unfold InsertTCPClientSocket. sim_tac. Qed.
Lemma sim_FindTCPServerSocket e : sim eq (@FindTCPServerSocket P1 e) (@FindTCPServerSocket P2 e).
Proof. unfold FindTCPServerSocket. sim_tac. Qed.
Lemma sim_find_idle_loop l : sim eq (@find_idle_loop P1 l) (@find_idle_loop P2 l).
Proof. induction l; cbn [find_idle_loop]; sim_tac. Qed.
#[local] Hint Resolve sim_set_recv_buf_size sim_Touch_now sim_InsertTCPServerSocket
  sim_InsertTCPClientSocket sim_FindTCPServerSocket sim_find_idle_loop : sim.

Lemma sim_FindIdle e : sim eq (@FindIdleTCPClientSocket P1 e) (@FindIdleTCPClientSocket P2 e).
Proof. unfold FindIdleTCPClientSocket. sim_tac. Qed.
Lemma sim_DestroySocket p : sim eq (@DestroySocket P1 p) (@DestroySocket P2 p).
Proof. unfold DestroySocket. sim_tac. Qed.
Lemma sim_condition ec p n : sim eq (@HTTPHeadReadCompletionCondition P1 ec p n)
  (@HTTPHeadReadCompletionCondition P2 ec p n).
Proof. unfold HTTPHeadReadCompletionCondition. sim_tac. Qed.
#[local] Hint Resolve sim_FindIdle sim_DestroySocket sim_condition : sim.
Lemma sim_start_read_head p : sim eq (@start_read_head P1 p) (@start_read_head P2 p).
Proof. unfold start_read_head. sim_tac. Qed.
#[local] Hint Resolve sim_start_read_head : sim.
Lemma sim_ToReadHead p : sim eq (@ToReadHTTPHeadThenReadHTTPContent P1 p)
  (@ToReadHTTPHeadThenReadHTTPContent P2 p).
Proof. unfold ToReadHTTPHeadThenReadHTTPContent. sim_tac. Qed.
Lemma sim_ToReadL p : sim eq (@ToReadLThenReadV P1 p) (@ToReadLThenReadV P2 p).
Proof. unfold ToReadLThenReadV. sim_tac. Qed.
Lemma sim_ToWriteThenRead_sk p buf : sim eq (@ToWriteThenRead_sk P1 p buf) (@ToWriteThenRead_sk P2 p buf).
Proof. unfold ToWriteThenRead_sk. sim_tac. Qed.
#[local] Hint Resolve sim_ToReadHead sim_ToReadL sim_ToWriteThenRead_sk : sim.

Lemma sim_ToConnectThenWrite e ty buf cb :
  sim eq (@ToConnectThenWrite P1 e ty buf cb) (@ToConnectThenWrite P2 e ty buf None).
Proof. unfold ToConnectThenWrite. sim_tac. Qed.

#[local] Hint Resolve sim_ToConnectThenWrite : sim.

Lemma sim_ToWriteThenRead e ty buf srv :
  sim eq (@ToWriteThenRead P1 e ty buf srv) (@ToWriteThenRead P2 e ty buf srv).
Proof. unfold ToWriteThenRead. destruct srv; sim_tac. Qed.

Lemma sim_UDPToWrite e buf : sim eq (@UDPToWrite P1 e buf) (@UDPToWrite P2 e buf).
Proof.
  unfold UDPToWrite, update_udp, deref_udp. sim_tac.
Qed.

Lemma sim_UDPToRead : sim eq (@UDPToRead P1) (@UDPToRead P2).
Proof. unfold UDPToRead, udp_set_recv_buf_size, update_udp, deref_udp. sim_tac. Qed.

Lemma sim_Reset a : sim eq (@Reset P1 a) (@Reset P2 a).
Proof. unfold Reset, deref_acceptor. sim_tac. Qed.

Lemma sim_sweep ms : sim eq (@SweepServerSocket P1 ms) (@SweepServerSocket P2 ms).
Proof.
  unfold SweepServerSocket. sim_tac. rewrite <- (list_fmap_id (map_to_list b0)) at 2.
  apply sim_forM. intros [e p] _. unfold sweep_step. sim_tac.
Qed.
#[local] Hint Resolve sim_ToWriteThenRead sim_UDPToWrite sim_UDPToRead
  sim_Reset sim_sweep : sim.

(** Asking with a callback, and asking without one. *)
Lemma sim_ToWriteThenCallBack e ty buf cb :
  sim (fun _ _ => True) (@ToWriteThenCallBack P1 e ty buf false cb) (@ToWriteThenRead P2 e ty buf false).
Proof.
  unfold ToWriteThenCallBack, ToWriteThenRead. eapply sim_bind; [apply sim_FindIdle|].
  intros r _ <-. destruct r as [p|].
  - unfold ToWriteThenRead_sk at 2. apply sim_set_cb. apply (sim_then eq); [by apply sim_ToWriteThenRead_sk|].
    by intros.
  - apply (sim_then eq); [apply sim_ToConnectThenWrite|]. by intros.
Qed.

(** ** Handlers *)

(** The object at [p], if there is one, is in [Q]. *)
Definition at_obj (p : ptr) (Q : @SocketInfo P1 -> Prop) (s : @Skel P1) : Prop :=
  forall x, heap s !! p = Some x -> Q x.

Lemma sim_bind_keep {X Y X' Y'} Pre (R : X -> Y -> Prop) (R' : X' -> Y' -> Prop) m m' k k' :
  sim R m m' -> preserves Pre m -> (forall a b, R a b -> sim_on Pre R' (k a) (k' b)) ->
  sim_on Pre R' (bindM m k) (bindM m' k').
Proof.
  intros Hm Hp Hk. eapply sim_bind_on; [apply sim_any, Hm|].
  intros a b Hab s (s0 & Hs0 & E). apply Hk; [done|]. specialize (Hp s0 Hs0). by rewrite E in Hp.
Qed.

Lemma keep_same {X} p Q (m : M (@Skel P1) X) :
  (forall s, match m s with Ret _ s' => heap s' = heap s | Halt _ _ => True end) ->
  preserves (at_obj p Q) m.
Proof.
  intros H s Hs. specialize (H s). destruct (m s); [|done]. unfold at_obj. by rewrite H.
Qed.

Lemma keep_update p (Q : @SocketInfo P1 -> Prop) f :
  (forall x, Q x -> Q (f x)) -> preserves (at_obj p Q) (@update P1 p f).
Proof.
  intros Hf s Hs. unfold update, deref, bindM, gets, modify.
  destruct (heap s !! p) as [x|] eqn:Hx; [|done]. cbn [of_option ret]. intros y. simpl.
  rewrite lookup_insert_eq. intros [= <-]. by apply Hf, Hs.
Qed.

Lemma keep_deref p Q q : preserves (at_obj p Q) (@deref P1 q).
Proof.
  apply keep_same. intros s. unfold deref, bindM, gets. by destruct (heap s !! q).
Qed.
Lemma obj_keep_gets {X} p Q (f : @Skel P1 -> X) : preserves (at_obj p Q) (gets f).
Proof. by apply keep_same. Qed.
Lemma keep_start p Q o : preserves (at_obj p Q) (@start P1 o).
Proof. by apply keep_same. Qed.
Lemma obj_keep_assert p Q b : preserves (at_obj p Q) (assert_ b).
Proof. apply keep_same. by destruct b. Qed.
Lemma obj_keep_of_option {X} p Q h (o : option X) : preserves (at_obj p Q) (of_option h o).
Proof. apply keep_same. by destruct o. Qed.
Lemma keep_int_op p Q z : preserves (at_obj p Q) (int_op z).
Proof. apply keep_same. intros s. unfold int_op. by destruct (in_int z). Qed.
Lemma keep_Touch p (Q : @SocketInfo P1 -> Prop) :
  (forall x t, Q x -> Q (Touch t x)) -> preserves (at_obj p Q) (@Touch_now P1 p).
Proof.
  intros HQ. unfold Touch_now. eapply triple_bind; [apply obj_keep_gets|]. intros t.
  apply keep_update. auto.
Qed.

Section Handlers.
  Context {G : @Program P1 B} {G' : @Program P2 B} (ok : option C -> list byte -> Prop).

(** What the two programs owe each other: [ok cb buf] says that the packet [buf]
    may come on a connection with the callback [cb], or with none. *)
Class SameHandlers := {
  same_ProcessData buf fip fp tip tp t : ok None buf ->
    sim eq (ProcessData (Program := G) buf fip fp tip tp t)
           (ProcessData (Program := G') buf fip fp tip tp t);
  same_callback cb buf fip fp tip tp t : ok (Some cb) buf ->
    sim eq (call_cb (Program := G) cb buf fip fp tip tp t)
           (ProcessData (Program := G') buf fip fp tip tp t);
  same_timer h : sim eq (call_timer (Program := G) h) (call_timer (Program := G') h);
}.

  Context {HS : SameHandlers}.

(** The packet in the receive buffer may come on its connection; any packet
    may. *)
Definition meant (x : @SocketInfo P1) : Prop := ok (cb_ x) (recv_buf_ x).
Definition anything : Prop := forall buf, ok None buf.
Definition unrestricted (x : @SocketInfo P1) : Prop := cb_ x = None /\ anything.

Lemma sim_process p : sim_on (at_obj p meant) eq (@process P1 B G p) (@process P2 B G' p).
Proof.
  intros s Hs. unfold process, deref. unfold bindM at 1 2 4 5, gets at 1 3. rewrite erase_lookup.
  destruct (heap s !! p) as [x|] eqn:Hx; [|done]. cbn [fmap option_fmap option_map of_option ret].
  unfold bindM at 1 2, gets. change (now (erase s)) with (now s).
  change (cb_ (erase_sk x)) with (@None Empty_set).
  cbn [erase_sk remote_endpoint_ local_endpoint_ recv_buf_].
  specialize (Hs x Hx). unfold meant in Hs.
  destruct (cb_ x) as [cb|] eqn:Ec; [by apply same_callback|by apply same_ProcessData].
Qed.

Lemma sim_after_process p r again again' :
  (forall q, sim eq (again q) (again' q)) ->
  sim eq (@after_process P1 p r again) (@after_process P2 p r again').
Proof. intros Ha. unfold after_process. sim_tac. Qed.

#[local] Hint Resolve sim_after_process : sim.

Lemma sim_HandleReadV ec p n :
  sim_on (at_obj p meant) eq (@HandleReadVThenProcess P1 B G ec p n) (@HandleReadVThenProcess P2 B G' ec p n).
Proof.
  unfold HandleReadVThenProcess. destruct (negb (ec =? 0)); [apply sim_any; sim_tac|].
  eapply sim_bind_keep; [eauto with sim|by apply keep_Touch|sim_next].
  eapply sim_bind_keep; [eauto with sim|apply keep_deref|sim_next].
  eapply sim_bind_keep; [eauto with sim|apply obj_keep_of_option|sim_next].
  eapply sim_bind_keep; [eauto with sim|apply keep_int_op|sim_next].
  eapply sim_bind_keep; [eauto with sim|apply obj_keep_assert|sim_next].
  eapply sim_bind_on; [apply sim_process|]. sim_next. apply sim_any. auto with sim.
Qed.

Lemma meant_none x : unrestricted x -> meant x.
Proof. intros [E H]. unfold meant. by rewrite E. Qed.

Lemma sim_HandleReadContent ec p n :
  sim_on (at_obj p unrestricted) eq (@HandleReadHTTPContentThenProcess P1 B G ec p n)
    (@HandleReadHTTPContentThenProcess P2 B G' ec p n).
Proof.
  unfold HandleReadHTTPContentThenProcess. destruct (negb (ec =? 0)); [apply sim_any; sim_tac|].
  do 2 (eapply sim_bind_keep; [eauto with sim|by apply keep_update|sim_next]).
  eapply sim_bind_keep; [eauto with sim|by apply keep_Touch|sim_next].
  apply (sim_bind_on _ eq); [|sim_next; apply sim_any; auto with sim].
  intros s Hs. apply sim_process. intros x Hx. by apply meant_none, Hs.
Qed.

Lemma sim_HandleReadHead ec p n :
  sim_on (at_obj p unrestricted) eq (@HandleReadHTTPHeadThenReadHTTPContent P1 B G ec p n)
    (@HandleReadHTTPHeadThenReadHTTPContent P2 B G' ec p n).
Proof.
  unfold HandleReadHTTPHeadThenReadHTTPContent. destruct (negb (ec =? 0)); [apply sim_any; sim_tac|].
  eapply sim_bind_keep; [eauto with sim|by apply keep_Touch|sim_next].
  eapply sim_bind_keep; [eauto with sim|apply keep_deref|sim_next].
  destruct (search _ _); [|apply sim_any; sim_tac]. cbn zeta.
  destruct (search HTTP_key_length _); [|apply sim_any; sim_tac].
  destruct (lexical_cast_int _); [|apply sim_any; sim_tac].
  eapply sim_bind_keep; [eauto with sim|apply keep_int_op|sim_next].
  eapply sim_bind_keep; [eauto with sim|apply obj_keep_gets|sim_next].
  destruct (_ <? _); [apply sim_any; sim_tac|].
  apply (sim_bind_keep _ eq); [sim_tac| |sim_next].
  { destruct (_ <? _); [by apply keep_update|by apply keep_same]. }
  apply (sim_bind_on _ eq); [|sim_next; apply sim_any; sim_tac].
  destruct (_ =? 0); [apply sim_HandleReadContent|apply sim_any; sim_tac].
Qed.

Lemma sim_HandleAccept ec a re le :
  sim eq (@HandleAccept P1 ec a re le) (@HandleAccept P2 ec a re le).
Proof. unfold HandleAccept, deref_acceptor. sim_tac. Qed.
Lemma sim_HandleConnect ec p buf le :
  sim eq (@HandleConnectThenWrite P1 ec p buf le) (@HandleConnectThenWrite P2 ec p buf le).
Proof. unfold HandleConnectThenWrite. sim_tac. Qed.
Lemma sim_HandleWriteHead ec p n :
  sim eq (@HandleWriteThenReadHTTPHead P1 ec p n) (@HandleWriteThenReadHTTPHead P2 ec p n).
Proof. unfold HandleWriteThenReadHTTPHead. sim_tac. Qed.
Lemma sim_HandleWriteL ec p n :
  sim eq (@HandleWriteThenReadL P1 ec p n) (@HandleWriteThenReadL P2 ec p n).
Proof. unfold HandleWriteThenReadL. sim_tac. Qed.
Lemma sim_HandleReadL ec p n :
  sim eq (@HandleReadLThenReadV P1 ec p n) (@HandleReadLThenReadV P2 ec p n).
Proof. unfold HandleReadLThenReadV. sim_tac. Qed.
Lemma sim_HandleClose ec p n :
  sim eq (@HandleWriteThenClose P1 ec p n) (@HandleWriteThenClose P2 ec p n).
Proof. unfold HandleWriteThenClose. sim_tac. Qed.
Lemma sim_HandleNothing ec p n :
  sim eq (@HandleAnythingThenNothing P1 ec p n) (@HandleAnythingThenNothing P2 ec p n).
Proof. unfold HandleAnythingThenNothing. sim_tac. Qed.
Lemma sim_HandleTimeout ec :
  sim eq (@HandleTimeout P1 B G ec) (@HandleTimeout P2 B G' ec).
Proof.
  unfold HandleTimeout. apply (sim_bind eq); [|sim_next; sim_tac].
  destruct (negb _); [sim_tac|].
  eapply sim_bind; [by apply (sim_gets (fun a b => b = erase_timer <$> a))|]. intros l _ ->.
  apply sim_forM. intros [ms|h] _; simpl; [apply sim_sweep|apply same_timer].
Qed.
Lemma sim_HandleUDPWrite ec e n :
  sim eq (@HandleUDPWrite P1 ec e n) (@HandleUDPWrite P2 ec e n).
Proof. unfold HandleUDPWrite, update_udp, deref_udp. sim_tac. Qed.
Lemma sim_HandleUDPRead ec n : anything ->
  sim eq (@HandleUDPRead P1 B G ec n) (@HandleUDPRead P2 B G' ec n).
Proof.
  intros Hok. unfold HandleUDPRead, deref_udp. do 2 (apply (sim_bind eq); [sim_tac|sim_next]).
  eapply sim_bind; [apply same_ProcessData, Hok|sim_next]. sim_tac.
Qed.
#[local] Hint Resolve sim_HandleAccept sim_HandleConnect sim_HandleWriteHead sim_HandleWriteL
  sim_HandleReadL sim_HandleClose sim_HandleNothing sim_HandleTimeout sim_HandleUDPWrite : sim.

(** ** The event loop *)

(** What the completion of an operation may bring: where an LV packet is about
    to be complete, the buffer with the new bytes may come on the connection;
    the other ways a packet reaches the program are open if anything may. *)
Definition typed_op (s : @Skel P1) (o : AsyncOp) (c : Completion) : Prop :=
  match o, c with
  | async_read p off _ RVThenProcess, CRead _ data =>
      forall x, heap s !! p = Some x ->
        ok (cb_ x) (default (recv_buf_ x) (overwrite (recv_buf_ x) (Z.to_nat off) data))
  | async_read p _ _ RHTTPContent, _ | async_read_head p _ _, _ => at_obj p unrestricted s
  | async_receive_from, _ => anything
  | _, _ => True
  end.

Definition typed (s : @Skel P1) (ev : Event) : Prop :=
  match ev with
  | EvComplete i c => match pending s !! i with Some o => typed_op s o c | None => True end
  | EvClock _ => True
  end.

Fixpoint typed_run (evs : list Event) (s : @Skel P1) : Prop :=
  match evs with
  | [] => True
  | ev :: evs =>
      typed s ev /\ match @deliver P1 B G ev s with Ret _ s' => typed_run evs s' | Halt _ _ => True end
  end.

Lemma typed_complete s i c o : pending s !! i = Some o -> typed_op s o c -> typed s (EvComplete i c).
Proof. intros Hi Ht. unfold typed. by rewrite Hi. Qed.

Lemma typed_run_cons ev evs s s1 :
  typed s ev -> @deliver P1 B G ev s = Ret tt s1 -> typed_run evs s1 -> typed_run (ev :: evs) s.
Proof.
  intros Ht E Hr. refine (conj Ht _).
  change (match @deliver P1 B G ev s with Ret _ s0 => typed_run evs s0 | Halt _ _ => True end).
  by rewrite E.
Qed.

Lemma typed_run_one ev s : typed s ev -> typed_run [ev] s.
Proof. intros Ht. split; [done|]. by destruct deliver. Qed.

Lemma sim_receive p off data : sim eq (@receive P1 p off data) (@receive P2 p off data).
Proof. unfold receive. sim_tac. Qed.
#[local] Hint Resolve sim_receive : sim.

Lemma receive_obj p off data (Q : @SocketInfo P1 -> Prop) :
  triple (fun s => forall x, heap s !! p = Some x ->
            Q (SetRecvBuf_vec (default (recv_buf_ x) (overwrite (recv_buf_ x) (Z.to_nat off) data)) x))
    (receive p off data) (fun _ => at_obj p Q).
Proof.
  intros s Hs. unfold receive. destruct (Z.eqb_spec (zlen data) 0) as [Hz|].
  - destruct data; [|done]. intros x Hx. specialize (Hs x Hx). unfold overwrite in Hs.
    case_decide; simpl in Hs.
    + rewrite Nat.add_0_r, take_drop in Hs. by destruct x.
    + by destruct x.
  - unfold deref, bindM, gets, update, deref, bindM, gets, modify.
    destruct (heap s !! p) as [x|] eqn:Hx; [|done]. cbn [of_option ret].
    destruct (overwrite _ _ _) as [buf|] eqn:Eo; [|done]. cbn [of_option ret]. rewrite Hx.
    cbn [of_option ret]. intros y. simpl. rewrite lookup_insert_eq. intros [= <-].
    specialize (Hs x eq_refl). by rewrite Eo in Hs.
Qed.

(** The handlers of the completions that do not deliver content. *)
Lemma sim_call_write h ec p n :
  sim eq (@call_write_handler P1 h ec p n) (@call_write_handler P2 h ec p n).
Proof. destruct h; cbn [call_write_handler]; auto with sim. Qed.

Lemma sim_receive_from ec e data :
  sim eq (@receive_from P1 ec e data) (@receive_from P2 ec e data).
Proof. unfold receive_from, update_udp, deref_udp. sim_tac. Qed.
#[local] Hint Resolve sim_call_write sim_receive_from : sim.

(** Receiving and then a handler that needs [Q] of its socket. *)
Lemma sim_receive_then p off data (Q : @SocketInfo P1 -> Prop)
    (k : unit -> M (@Skel P1) unit) (k' : unit -> M (@Skel P2) unit) :
  sim_on (at_obj p Q) eq (k tt) (k' tt) ->
  sim_on (fun s => forall x, heap s !! p = Some x ->
            Q (SetRecvBuf_vec (default (recv_buf_ x) (overwrite (recv_buf_ x) (Z.to_nat off) data)) x))
    eq (bindM (@receive P1 p off data) k) (bindM (@receive P2 p off data) k').
Proof.
  intros Hk. eapply sim_bind_on; [apply sim_any, sim_receive|]. intros [] [] _ s (s0 & Hs0 & E).
  apply Hk. pose proof (receive_obj p off data Q s0 Hs0) as H. by rewrite E in H.
Qed.

Lemma sim_read_head_step p total ec data :
  sim_on (at_obj p unrestricted) eq (@read_head_step P1 B G p total ec data)
    (@read_head_step P2 B G' p total ec data).
Proof.
  intros s Hs. revert s Hs. unfold read_head_step.
  assert (Hk : forall Pre (Q : @SocketInfo P1 -> Prop) (m : M (@Skel P1) unit) m',
            sim_on Pre eq m m' -> (forall s, at_obj p Q s -> Pre s) -> sim_on (at_obj p Q) eq m m')
    by (intros Pre Q m m' H1 H2 s Hs; by apply H1, H2).
  eapply Hk; [apply (sim_receive_then p total data unrestricted)|by intros s Hs x Hx; apply (Hs x)].
  cbn zeta. eapply sim_bind_keep; [eauto with sim| |sim_next].
  { unfold HTTPHeadReadCompletionCondition. destruct (negb _); [by apply keep_same|].
    eapply triple_bind; [apply keep_deref|intros x].
    eapply triple_bind; [by apply keep_update|intros []].
    eapply triple_bind; [apply keep_deref|intros y].
    destruct (search _ _); [by apply keep_same|]. destruct (_ =? _); by apply keep_same. }
  eapply sim_bind_keep; [eauto with sim|apply keep_deref|sim_next].
  destruct (_ || _); [apply sim_HandleReadHead|apply sim_any; sim_tac].
Qed.

Lemma sim_complete o c :
  sim_on (fun s => typed_op s o c) eq (@complete P1 B G o c) (@complete P2 B G' o c).
Proof.
  intros s Hs. destruct o as [a|p e b|p b h|p off n h|p t l|t|d e|], c as [ec r l'|ec l'|ec k|ec data|ec|ec k|ec f data];
    try (cbn [complete]; done); cbn [complete].
  - by apply sim_HandleAccept.
  - by apply sim_HandleConnect.
  - by apply sim_call_write.
  - destruct h; cbn [call_read_handler].
    + apply (sim_bind eq); [apply sim_receive|intros ? ? _; apply sim_HandleReadL|done].
    + apply (sim_receive_then p off data meant); [apply sim_HandleReadV|].
      intros x Hx. by apply (Hs x).
    + apply (sim_receive_then p off data unrestricted); [apply sim_HandleReadContent|].
      intros x Hx. by apply (Hs x).
  - by apply sim_read_head_step.
  - by apply sim_HandleTimeout.
  - by apply sim_HandleUDPWrite.
  - apply (sim_bind eq); [apply sim_receive_from|intros ? ? <-; by apply sim_HandleUDPRead|done].
Qed.

Lemma sim_deliver ev s : typed s ev ->
  outcome_rel eq erase (@deliver P1 B G ev s) (@deliver P2 B G' ev (erase s)).
Proof.
  intros Ht. unfold deliver. unfold bindM at 1 2 4 5, gets. change (stopped (erase s)) with (stopped s).
  destruct (stopped s); [done|]. destruct ev as [i c|t]; [|done].
  change (pending (erase s)) with (pending s). unfold typed in Ht.
  destruct (pending s !! i) as [o|] eqn:Hi; [|done]. destruct (permitted o c); [|done].
  unfold bindM, modify. apply (sim_complete o c (with_pending (delete i (pending s)) s)).
  done.
Qed.

Lemma run_erased evs : forall s, typed_run evs s ->
  outcome_rel eq erase (@run P1 B G evs s) (@run P2 B G' evs (erase s)).
Proof.
  induction evs as [|ev evs IH]; intros s; [done|]. intros [Ht Hr]. unfold run. cbn [forM].
  pose proof (sim_deliver ev s Ht) as H. unfold bindM.
  destruct (deliver ev s) as [[] s1|h s1], (deliver ev (erase s)) as [[] t1|h' t1]; simpl in H; try done.
  destruct H as [_ ->]. by apply IH.
Qed.

End Handlers.
End Erase.
