(* ===== verification/SumServer.v ===== *)
(** * Front servers that receive every packet in [ProcessData]

    [lv_bf.cc], [http_bf.cc] and [udp_bf.cc] of [asio-based2/test] share one
    [ProcessData]: it looks at the type of a packet, records a request and asks
    the two back ends, or adds a reply to the request it belongs to and answers
    the client when both are in.  They differ in how they reach the back ends
    ([ask]) and the client ([answer_client]).  Their data members are an instance
    of [RequestTable]. *)

From S2P Require Import Prelude Wire SocketInfo Skeleton Handlers Reactor.
From S2P Require Import Invariant Safety ApiSafety.
From S2P Require Import SkeletonProps Framing Requests Packets Bf.

(** The data members the shared code uses, and their laws. *)
Class RequestTable (A : Type) := {
  requests : A -> gmap Z ReqLocalData;
  set_requests : gmap Z ReqLocalData -> A -> A;
  backend1 : A -> Endpoint;
  backend2 : A -> Endpoint;
  memory : A -> Z -> RspFromBF;
  requests_set m a : requests (set_requests m a) = m;
  set_requests_twice m n a : set_requests m (set_requests n a) = set_requests m a;
  backends_set m a : backend1 (set_requests m a) = backend1 a /\ backend2 (set_requests m a) = backend2 a;
}.

Section SumServer.
  Context {P : PROG} {B : Boost} {T : RequestTable App}.
  Variable ask : Endpoint -> list byte -> M Skel Z.
  Variable answer_client : list byte -> Z -> RspFromBF -> M Skel Z.

Definition put_request (q : Z) (d : ReqLocalData) : M Skel unit :=
  modify (fun s => with_app (set_requests (<[q := d]> (requests (app s))) (app s)) s).

(** The local data of a new request; the members of [rsp_] that are not assigned
    hold [g]. *)
Definition new_request (g : RspFromBF) (seq : Z) (ip : list byte) (port : Z) : ReqLocalData :=
  mkReqLocalData false false
    (mkRspFromBF (mkBase (bswap32 sizeof_RspFromBF) T_RSP_FROM_BF seq) (sum_ g) 0) ip port.

(** The branch of a request from a client. *)
Definition on_request (packet from_ip : list byte) (from_port : Z) : M Skel Z :=
  let! req_to_bf := of_option HUndefined (view_ReqToBF packet) in
  let seq := seq_ (req_base req_to_bf) in
  let! a := gets app in
  match requests a !! seq with
  | Some _ => ret (-1)
  | None =>
      put_request seq (new_request (memory a seq) seq from_ip from_port) ;;!
      ask (backend1 a) (ask_bb1 seq (a_ req_to_bf)) ;;!
      ask (backend2 a) (ask_bb2 seq (b_ req_to_bf)) ;;!
      ret 0
  end.

(** The end of the branches of the replies. *)
Definition when_complete (seq : Z) : M Skel Z :=
  let! a := gets app in
  match requests a !! seq with
  | None => ret (-1)
  | Some d =>
      if bb1_rsp_arrived_ d && bb2_rsp_arrived_ d
      then answer_client (client_ip_ d) (client_port_ d) (rsp_ d)
      else ret 1
  end.

(** A reply [v] to the request [seq]; [arrived] updates its local data. *)
Definition on_reply (seq v : Z) (arrived : Z -> ReqLocalData -> ReqLocalData) : M Skel Z :=
  let! a := gets app in
  match requests a !! seq with
  | None => ret (-1)
  | Some d =>
      let! sum := int_op (sum_ (rsp_ d) + v) in
      put_request seq (arrived sum d) ;;!
      when_complete seq
  end.

(** [ProcessData] from the test of the type on. *)
Definition dispatch (packet from_ip : list byte) (from_port : Z) : M Skel Z :=
  let! type := of_option HUndefined (view_type packet) in
  if type =? T_REQ_TO_BF then on_request packet from_ip from_port
  else if type =? T_RSP_FROM_BB1 then
    let! rsp := of_option HUndefined (view_RspFromBB1 packet) in
    on_reply (seq_ (rsp1_base rsp)) (another_a_ rsp) bb1_arrived
  else if type =? T_RSP_FROM_BB2 then
    let! rsp := of_option HUndefined (view_RspFromBB2 packet) in
    on_reply (seq_ (rsp2_base rsp)) (another_b_ rsp) bb2_arrived
  else ret (-1).

(** ** What it computes *)

Definition with_requests (m : gmap Z ReqLocalData) (s : Skel) : Skel :=
  with_app (set_requests m (app s)) s.

Lemma put_request_eq q d s :
  put_request q d s = Ret tt (with_requests (<[q := d]> (requests (app s))) s).
Proof. done. Qed.

Lemma with_requests_twice m n s : with_requests m (with_requests n s) = with_requests m s.
Proof. unfold with_requests. simpl. by rewrite set_requests_twice. Qed.

Lemma wf_with_requests m s : wf s -> wf (with_requests m s).
Proof. intros [H1 H2 H3 H4 H5 H6 H7 H8]. by constructor. Qed.

Lemma dispatch_type packet base ip port s :
  view_base packet = Some base ->
  dispatch packet ip port s =
    (if ptype_ base =? T_REQ_TO_BF then on_request packet ip port
     else if ptype_ base =? T_RSP_FROM_BB1 then
       let! rsp := of_option HUndefined (view_RspFromBB1 packet) in
       on_reply (seq_ (rsp1_base rsp)) (another_a_ rsp) bb1_arrived
     else if ptype_ base =? T_RSP_FROM_BB2 then
       let! rsp := of_option HUndefined (view_RspFromBB2 packet) in
       on_reply (seq_ (rsp2_base rsp)) (another_b_ rsp) bb2_arrived
     else ret (-1)) s.
Proof.
  intros Hb. unfold dispatch. by rewrite (proj1 (view_base_members _ _ Hb)).
Qed.

(** A request with a new sequence number is recorded, then the back ends are
    asked, in this order. *)
Lemma dispatch_request seq a b ip port s :
  int32 seq -> int32 a -> int32 b -> requests (app s) !! seq = None ->
  dispatch (request_bf seq a b) ip port s =
    (ask (backend1 (app s)) (ask_bb1 seq a) ;;! ask (backend2 (app s)) (ask_bb2 seq b) ;;! ret 0)
      (with_requests (<[seq := new_request (memory (app s) seq) seq ip port]> (requests (app s))) s).
Proof.
  intros Hq Ha Hb Hfree. destruct (request_views seq a b Hq Ha Hb) as [Hv1 Hv2].
  rewrite (dispatch_type _ _ _ _ _ Hv1). cbn [ptype_]. rewrite Z.eqb_refl.
  unfold on_request. rewrite (bind_of_option _ _ _ _ _ Hv2), bind_gets. cbn [req_base seq_ a_ b_].
  rewrite Hfree. by rewrite (bind_Ret _ _ _ _ _ (put_request_eq _ _ _)).
Qed.

Lemma on_reply_eq seq v arrived d s :
  requests (app s) !! seq = Some d -> int32 (sum_ (rsp_ d) + v) ->
  on_reply seq v arrived s =
    let d' := arrived (sum_ (rsp_ d) + v) d in
    (if bb1_rsp_arrived_ d' && bb2_rsp_arrived_ d'
     then answer_client (client_ip_ d') (client_port_ d') (rsp_ d') else ret 1)
      (with_requests (<[seq := d']> (requests (app s))) s).
Proof.
  intros Hd Hs. unfold on_reply. rewrite bind_gets, Hd. unfold int_op.
  rewrite (proj2 (in_int_spec _) Hs), bind_ret, (bind_Ret _ _ _ _ _ (put_request_eq _ _ _)).
  unfold when_complete. rewrite bind_gets. cbn zeta. cbn [with_requests app with_app].
  by rewrite requests_set, lookup_insert_eq.
Qed.

Lemma dispatch_bb1 seq v ip port s :
  int32 seq -> int32 v ->
  dispatch (reply_bb1 seq v) ip port s = on_reply seq v bb1_arrived s.
Proof.
  intros Hq Hv.
  assert (Hb : view_base (reply_bb1 seq v) = Some (mkBase (bswap32 sizeof_RspFromBB1) T_RSP_FROM_BB1 seq))
    by (apply view_base_reply; [by apply int32_small|done|done]).
  rewrite (dispatch_type _ _ _ _ _ Hb). cbn [ptype_ Z.eqb Pos.eqb T_RSP_FROM_BB1 T_REQ_TO_BF].
  erewrite bind_of_option; [|apply packets_views; [|done];
    apply base_ok_new; [by apply int32_small|done]]. done.
Qed.

Lemma dispatch_bb2 seq v ip port s :
  int32 seq -> int32 v ->
  dispatch (reply_bb2 seq v) ip port s = on_reply seq v bb2_arrived s.
Proof.
  intros Hq Hv.
  assert (Hb : view_base (reply_bb2 seq v) = Some (mkBase (bswap32 sizeof_RspFromBB2) T_RSP_FROM_BB2 seq))
    by (apply view_base_reply; [by apply int32_small|done|done]).
  rewrite (dispatch_type _ _ _ _ _ Hb).
  cbn [ptype_ Z.eqb Pos.eqb T_RSP_FROM_BB1 T_REQ_TO_BF T_RSP_FROM_BB2].
  erewrite bind_of_option; [|apply packets_views; [|done];
    apply base_ok_new; [by apply int32_small|done]]. done.
Qed.

(** ** The contract with the skeleton *)

Lemma safe_dispatch strict packet ip port :
  (forall e buf, safe strict (ask e buf)) ->
  (forall ip pt rsp, safe strict (answer_client ip pt rsp)) ->
  safe strict (dispatch packet ip port).
Proof.
  intros Hask Hans.
  assert (Hput : forall q d, safe strict (put_request q d)) by (intros q d; by apply safe_modify_core).
  assert (Hrep : forall q v arr, safe strict (on_reply q v arr)).
  { intros q v arr. unfold on_reply, when_complete.
    apply safe_bind; [apply safe_gets|intros a]. destruct (_ !! _); [|apply safe_ret].
    apply safe_bind; [apply safe_int_op|intros z]. apply safe_bind; [apply Hput|intros []].
    apply safe_bind; [apply safe_gets|intros a']. destruct (requests a' !! q); [|apply safe_ret].
    destruct (_ && _); [apply Hans|apply safe_ret]. }
  unfold dispatch, on_request. apply safe_bind; [apply safe_of_option|intros ty].
  repeat lazymatch goal with
    | |- safe _ (if ?b then _ else _) => destruct b
    | |- safe _ (bindM (of_option _ _) _) => apply safe_bind; [apply safe_of_option|intros ?]
    | |- safe _ (bindM (gets _) _) => apply safe_bind; [apply safe_gets|intros ?]
    | |- safe _ (bindM (ask _ _) _) => apply safe_bind; [apply Hask|intros ?]
    | |- safe _ (bindM (put_request _ _) _) => apply safe_bind; [apply Hput|intros ?]
    | |- safe _ (match ?x with _ => _ end) => destruct x
    | |- safe _ (on_reply _ _ _) => apply Hrep
    | |- safe _ (ret _) => apply safe_ret
    end.
Qed.

End SumServer.

(** ** Asking over LV connections *)

Section Asking.
  Context {P : PROG} {B : Boost}.

(** [ToWriteThenRead(bb_endpoint_, T_TCP_LV, ...)]. *)
Definition lv_ask (e : Endpoint) (data : list byte) : M Skel Z :=
  ToWriteThenRead e T_TCP_LV data false.

(** The operation [o] of the state [s] sends [data] to the server at [e]. *)
Definition asks (s : Skel) (o : AsyncOp) (e : Endpoint) (data : list byte) : Prop :=
  exists p x, heap s !! p = Some x /\ remote_endpoint_ x = e /\ is_client_ x = true /\
    type_ x = T_TCP_LV /\ (o = async_write p data WThenReadL \/ o = async_connect p e data).

Lemma lv_ask_eq s e data :
  inv False s -> lv_clients s ->
  exists s' o, lv_ask e data s = Ret 0 s' /\ pending s' = pending s ++ [o] /\ asks s' o e data /\
    inv False s' /\ lv_clients s' /\ app s' = app s.
Proof.
  intros Hinv Hlv. pose proof (client_request_eq s e T_TCP_LV data (proj1 Hinv)) as H.
  assert (Hsafe : forall s', lv_ask e data s = Ret 0 s' -> inv False s').
  { intros s' E. by apply (safe_start_anywhere False (lv_ask e data) s 0 s'
      (safe_ToWriteThenRead False _ _ _ _) Hinv E). }
  destruct (head (idle_sockets e s)) as [p|].
  - destruct H as (x & Hx & Hr & Hc & H). pose proof (Hlv p x Hx Hc) as Hty.
    specialize (H WThenReadL ltac:(by rewrite Hty)). fold (lv_ask e data) in H.
    eexists _, _. split; [exact H|]. split_and!; [done| |by apply Hsafe| |done].
    + eexists p, _. split; [apply lookup_insert_eq|]. split_and!; [done|done|done|by left].
    + intros q z. simpl. intros [[<- <-]|[_ Hz]]%lookup_insert_Some; [done|by apply Hlv with q].
  - fold (lv_ask e data) in H. cbn zeta in H. eexists _, _. split; [exact H|].
    split_and!; [done| |by apply Hsafe| |done].
    + eexists (next_ptr s), _. split; [apply lookup_insert_eq|]. split_and!; [done|done|done|by right].
    + intros q z. simpl. intros [[<- <-]|[_ Hz]]%lookup_insert_Some; [done|by apply Hlv with q].
Qed.

(** Both back ends are asked; the sockets that existed keep their kind. *)
Lemma both_asked s e1 data1 e2 data2 :
  inv False s -> lv_clients s ->
  exists s1 s2 o1 o2,
    (lv_ask e1 data1 ;;! lv_ask e2 data2 ;;! ret 0) s = Ret 0 s2 /\
    pending s2 = pending s ++ [o1; o2] /\ asks s1 o1 e1 data1 /\ asks s2 o2 e2 data2 /\
    inv False s2 /\ evolves False s s2 /\ app s2 = app s.
Proof.
  intros Hinv Hlv.
  destruct (lv_ask_eq s e1 data1 Hinv Hlv) as (s1 & o1 & E1 & P1 & A1 & I1 & L1 & F1).
  destruct (lv_ask_eq s1 e2 data2 I1 L1) as (s2 & o2 & E2 & P2 & A2 & I2 & L2 & F2).
  assert (E : (lv_ask e1 data1 ;;! lv_ask e2 data2 ;;! ret 0) s = Ret 0 s2)
    by (by rewrite (bind_Ret _ _ _ _ _ E1), (bind_Ret _ _ _ _ _ E2)).
  exists s1, s2, o1, o2. split_and!; try done.
  - rewrite P2, P1. by rewrite <- app_assoc.
  - eapply safe_start_anywhere; [|exact Hinv|exact E].
    do 2 (apply safe_bind; [apply safe_ToWriteThenRead|intros ?]). apply safe_ret.
  - by rewrite F2, F1.
Qed.

End Asking.
