(* ===== verification/LvPrograms.v ===== *)
(** * The programs without callbacks: [asio-based2/test/lv_bf.cc], [lv_c.cc] and [lv_c_for_bb1.cc]

    The same servers and clients as [cb_lv_bf.cc] and [cb_lv_c.cc], but every
    packet comes to [ProcessData].  [lv_bf_equivalent] states when the two front
    servers are the same program, [lv_bf_impersonated] what the difference
    costs. *)

From S2P Require Import Prelude Wire SocketInfo Skeleton Handlers Reactor.
From S2P Require Import Invariant Safety ApiSafety HandlerSafety.
From S2P Require Import SkeletonProps Framing Requests Packets Options.
From S2P Require Import Bf Clients Erase SumServer.

(** ** [lv_bf.cc] *)

(** [TestBF] of [lv_bf.cc] has the data members and the timer handler of that of
    [cb_lv_bf.cc], and no callbacks. *)
Definition LvBF_PROG : PROG :=
  {| App := TestBF; PacketCallBack := Empty_set; UserTimer := BfTimer |}.
#[local] Existing Instance LvBF_PROG.

#[export] Instance TestBF_table : RequestTable TestBF.
Proof. refine {| requests := ld_; set_requests := set_ld; backend1 := bb1_endpoint_;
  backend2 := bb2_endpoint_; memory := garbage |}; done. Defined.

Section LvBf.
  Context {B : Boost}.

Definition lv_answer (client_ip : list byte) (client_port : Z) (rsp : RspFromBF) : M Skel Z :=
  let! addr := of_option HThrow (addr_from_string client_ip) in
  ToWriteThenRead (mkEndpoint addr client_port) T_TCP_LV (bytes_RspFromBF rsp) true ;;!
  ret 1.

Definition LvBF_ProcessData (input_data from_ip : list byte) (from_port : Z)
    (to_ip : list byte) (to_port arrive_time : Z) : M Skel Z :=
  dispatch lv_ask lv_answer input_data from_ip from_port.

Definition LvBF_Program : Program := {|
  ProcessData := LvBF_ProcessData;
  call_cb := fun (cb : @PacketCallBack LvBF_PROG) _ _ _ _ _ _ => match cb with end;
  call_timer := fun (h : @UserTimer LvBF_PROG) => match h with BfPrintHeartBeat => ret tt end
|}.
#[local] Existing Instance LvBF_Program.

Definition lv_bf_main : BfOptions -> OptionList -> (Z -> bool) -> M Skel Z :=
  bf_main_of T_TCP_LV install_bf (BfPrintHeartBeat : @UserTimer LvBF_PROG).

#[global] Instance LvBF_safe strict : ProgramSafe LvBF_Program strict.
Proof.
  split; [intros buf fip fp tip tp t|intros []|intros []; apply safe_ret].
  apply safe_dispatch; [intros e data; apply safe_ToWriteThenRead|intros ip pt rsp].
  unfold lv_answer. apply safe_bind; [apply safe_of_option|intros ad].
  apply safe_bind; [apply safe_ToWriteThenRead|intros z; apply safe_ret].
Qed.

End LvBf.

(** ** [lv_c.cc] and [lv_c_for_bb1.cc] *)

(** [TestClient] of [lv_c.cc] has the members of that of [cb_lv_c.cc]. *)
Definition LvClient_PROG : PROG :=
  {| App := TestClient; PacketCallBack := Empty_set; UserTimer := ClientTimer |}.

Section LvClient.
  Context {B : Boost}.
  #[local] Existing Instance LvClient_PROG.

Definition LvClient_ProcessData (input_data : list byte) : M Skel Z :=
  let! rsp := of_option HUndefined (view_RspFromBF input_data) in ret 1.

Definition LvClient_PrepareDataThenSend : M Skel unit :=
  let! c := gets app in
  let! a' := int_op (st_a c + 1) in
  let! b' := int_op (st_b c - 1) in
  let! seq' := int_op (st_seq c + 1) in
  modify (fun s => with_app (mkTestClient (server_endpoint_ c) a' b' seq') s) ;;!
  let req := mkReqToBF (mkBase (bswap32 sizeof_ReqToBF) T_REQ_TO_BF (st_seq c)) (st_a c) (st_b c) in
  ToWriteThenRead (server_endpoint_ c) T_TCP_LV (bytes_ReqToBF req) false ;;!
  ret tt.

Definition LvClient_Program : Program := {|
  ProcessData := fun buf _ _ _ _ _ => LvClient_ProcessData buf;
  call_cb := fun (cb : @PacketCallBack LvClient_PROG) _ _ _ _ _ _ => match cb with end;
  call_timer := fun (h : @UserTimer LvClient_PROG) =>
    match h with PrepareDataThenSend => LvClient_PrepareDataThenSend end
|}.

Definition lv_client_main : ClientOptions -> OptionList -> M Skel Z :=
  client_main_of install_client (PrepareDataThenSend : @UserTimer LvClient_PROG).

#[global] Instance LvClient_safe strict : ProgramSafe LvClient_Program strict.
Proof.
  split; [intros buf|intros []|intros []]; intros.
  - apply safe_bind; [apply safe_of_option|intros r; apply safe_ret].
  - cbn. unfold LvClient_PrepareDataThenSend. apply safe_bind; [apply safe_gets|intros c].
    do 3 (apply safe_bind; [apply safe_int_op|intros ?]).
    apply safe_bind; [by apply safe_modify_core|intros []].
    apply safe_bind; [apply safe_ToWriteThenRead|intros z; apply safe_ret].
Qed.

End LvClient.

(** The data member and the [static] variables of the client of BB1. *)
Record TestClientBB1 := mkTestClientBB1 {
  bb1c_server_endpoint_ : Endpoint;
  bb1c_a : Z;
  bb1c_seq : Z
}.
Definition new_TestClientBB1 (e : Endpoint) : TestClientBB1 := mkTestClientBB1 e 0 1.

Definition Bb1Client_PROG : PROG :=
  {| App := TestClientBB1; PacketCallBack := Empty_set; UserTimer := ClientTimer |}.

Definition install_bb1_client (e : Endpoint) (a : TestClientBB1) : TestClientBB1 :=
  mkTestClientBB1 e (bb1c_a a) (bb1c_seq a).

Section Bb1Client.
  Context {B : Boost}.
  #[local] Existing Instance Bb1Client_PROG.

Definition Bb1Client_ProcessData (input_data : list byte) : M Skel Z :=
  let! rsp := of_option HUndefined (view_RspFromBB1 input_data) in ret 1.

Definition Bb1Client_PrepareDataThenSend : M Skel unit :=
  let! c := gets app in
  let! a' := int_op (bb1c_a c + 1) in
  let! seq' := int_op (bb1c_seq c + 1) in
  modify (fun s => with_app (mkTestClientBB1 (bb1c_server_endpoint_ c) a' seq') s) ;;!
  let req := mkReqToBB1 (mkBase (bswap32 sizeof_ReqToBB1) T_REQ_TO_BB1 (bb1c_seq c)) (bb1c_a c) in
  ToWriteThenRead (bb1c_server_endpoint_ c) T_TCP_LV (bytes_ReqToBB1 req) false ;;!
  ret tt.

Definition Bb1Client_Program : Program := {|
  ProcessData := fun buf _ _ _ _ _ => Bb1Client_ProcessData buf;
  call_cb := fun (cb : @PacketCallBack Bb1Client_PROG) _ _ _ _ _ _ => match cb with end;
  call_timer := fun (h : @UserTimer Bb1Client_PROG) =>
    match h with PrepareDataThenSend => Bb1Client_PrepareDataThenSend end
|}.

Definition bb1_client_main : ClientOptions -> OptionList -> M Skel Z :=
  client_main_of install_bb1_client (PrepareDataThenSend : @UserTimer Bb1Client_PROG).

#[global] Instance Bb1Client_safe strict : ProgramSafe Bb1Client_Program strict.
Proof.
  split; [intros buf|intros []|intros []]; intros.
  - apply safe_bind; [apply safe_of_option|intros r; apply safe_ret].
  - cbn. unfold Bb1Client_PrepareDataThenSend. apply safe_bind; [apply safe_gets|intros c].
    do 2 (apply safe_bind; [apply safe_int_op|intros ?]).
    apply safe_bind; [by apply safe_modify_core|intros []].
    apply safe_bind; [apply safe_ToWriteThenRead|intros z; apply safe_ret].
Qed.

End Bb1Client.

(** ** The two front servers *)

Section Equivalence.
  Context {B : Boost}.

(** The packet that may come on each kind of connection: the replies of a back
    end on a connection to it, anything else on a connection of a client. *)
Definition expected (cb : option BfCallBack) (buf : list byte) : Prop :=
  match cb with
  | Some ReceiveRspFromBB1CallBack => view_type buf = Some T_RSP_FROM_BB1
  | Some ReceiveRspFromBB2CallBack => view_type buf = Some T_RSP_FROM_BB2
  | None => view_type buf <> Some T_RSP_FROM_BB1 /\ view_type buf <> Some T_RSP_FROM_BB2
  end.

  Local Abbreviation bf_sim R := (sim (A := TestBF) (C := BfCallBack) (T := BfTimer) R).

Lemma bf_sim_app : bf_sim (@eq TestBF) (gets (@app BF_PROG)) (gets (@app LvBF_PROG)).
Proof. by apply sim_gets. Qed.

(** The table of requests is in the part of a skeleton that [erase] keeps. *)
Lemma sim_put_ld q d :
  bf_sim eq (@put_ld q d) (@put_request LvBF_PROG TestBF_table q d).
Proof. by apply sim_modify. Qed.

Lemma sim_reply seq :
  bf_sim eq (@reply_when_complete B seq) (@when_complete LvBF_PROG TestBF_table lv_answer seq).
Proof.
  unfold reply_when_complete, when_complete, get_app. eapply sim_bind; [apply bf_sim_app|].
  intros a _ <-. cbn [requests TestBF_table].
  destruct (ld_ a !! seq) as [d|]; [|by apply sim_ret].
  destruct (_ && _); [|by apply (sim_ext _ _ (ret 1)); [|apply sim_ret]].
  eapply (sim_ext _ _ (let! ad := of_option HThrow (addr_from_string (client_ip_ d)) in
    @ToWriteThenRead BF_PROG (mkEndpoint ad (client_port_ d)) T_TCP_LV (bytes_RspFromBF (rsp_ d)) true ;;! ret 1)).
  { intros s. unfold bindM. destruct (addr_from_string (client_ip_ d)); simpl; [|done]. by destruct (@ToWriteThenRead BF_PROG _ _ _ _ s). }
  unfold lv_answer. eapply sim_bind; [apply sim_of_option|]. intros ad _ <-.
  eapply sim_bind; [apply sim_ToWriteThenRead|]. intros _ _ _. by apply sim_ret.
Qed.

(** A callback, and the branch of [dispatch] for the same reply. *)
Lemma sim_on_reply seq v arrived (k : M (@Skel BF_PROG) Z) :
  (forall s, k s = (let! a := get_app in
     match ld_ a !! seq with
     | None => ret (-1)
     | Some d => let! sum := int_op (sum_ (rsp_ d) + v) in
                 put_ld seq (arrived sum d) ;;! reply_when_complete seq
     end) s) ->
  bf_sim eq k (@on_reply LvBF_PROG TestBF_table lv_answer seq v arrived).
Proof.
  intros Hk. eapply sim_ext; [exact Hk|]. unfold on_reply, get_app.
  eapply sim_bind; [apply bf_sim_app|]. intros a _ <-. cbn [requests TestBF_table].
  destruct (ld_ a !! seq) as [d|]; [|by apply sim_ret].
  eapply sim_bind; [apply sim_int_op|]. intros z _ <-.
  eapply sim_bind; [apply sim_put_ld|]. intros _ _ _. apply sim_reply.
Qed.

(** A read through the cast pointer on both sides. *)
Lemma sim_view {X Y} (o : option X) (k : X -> M (@Skel BF_PROG) Y) k' :
  (forall x, bf_sim eq (k x) (k' x)) ->
  bf_sim eq (let! x := of_option HUndefined o in k x) (let! x := of_option HUndefined o in k' x).
Proof. intros Hk. eapply sim_bind; [apply sim_of_option|]. intros x _ <-. apply Hk. Qed.

Lemma sim_ask e data cb :
  bf_sim (fun _ _ => True) (@ToWriteThenCallBack BF_PROG e T_TCP_LV data false cb)
    (lv_ask e data).
Proof. apply sim_ToWriteThenCallBack. Qed.

#[export] Instance lv_bf_same : SameHandlers (G := BF_Program) (G' := LvBF_Program) expected.
Proof.
  split.
  - intros buf fip fp tip tp t [Hn1 Hn2]. cbn. unfold BF_ProcessData, LvBF_ProcessData, dispatch.
    destruct (view_type buf) as [ty|]; [|by intros s _]. cbn [of_option].
    apply sim_ret_bind. destruct (Z.eqb_spec ty T_REQ_TO_BF) as [->|]; cycle 1.
    { rewrite !(proj2 (Z.eqb_neq _ _)) by congruence. by apply sim_ret. }
    unfold on_request, get_app. apply sim_view. intros r.
    eapply sim_bind; [apply bf_sim_app|]. intros a _ <-. cbn [requests TestBF_table].
    destruct (ld_ a !! _); [by apply sim_ret|].
    eapply sim_bind; [apply sim_put_ld|]. intros _ _ _.
    do 2 (eapply sim_bind; [apply sim_ask|]; intros _ _ _). by apply sim_ret.
  - intros [] buf fip fp tip tp t Hty; simpl in Hty; cbn; unfold LvBF_ProcessData, dispatch,
      BF_ReceiveRspFromBB1CallBack, BF_ReceiveRspFromBB2CallBack; rewrite Hty; cbn [of_option];
      apply sim_ret_bind; cbn [Z.eqb Pos.eqb T_REQ_TO_BF T_RSP_FROM_BB1 T_RSP_FROM_BB2];
      apply sim_view; intros r; by apply sim_on_reply.
  - intros []. by apply sim_ret.
Qed.

(** C12: the two front servers are the same program.  On every run of
    [cb_lv_bf.cc], from any state, in which a connection to a back end delivers
    only replies of the type of that back end, and a connection of a client none
    ([typed_run expected]), [lv_bf.cc] given the same events goes through the same states, less the callbacks of its sockets, and
    stops where it stops for the same reason. *)
Theorem lv_bf_equivalent evs s :
  typed_run (G := BF_Program) expected evs s ->
  outcome_rel eq erase
    (run (G := BF_Program) evs s) (run (G := LvBF_Program) evs (erase s)).
Proof. apply run_erased, lv_bf_same. Qed.

End Equivalence.

(** ** The two clients *)

Section Clients.
  Context {B : Boost}.

  Local Abbreviation c_sim R := (sim (A := TestClient) (C := ClientCallBack) (T := ClientTimer) R).

(** Every packet comes on a connection the client made with its callback. *)
Definition answers_only (cb : option ClientCallBack) (buf : list byte) : Prop := is_Some cb.

#[export] Instance lv_client_same : SameHandlers (G := Client_Program) (G' := LvClient_Program) answers_only.
Proof.
  split.
  - intros buf fip fp tip tp t [? [=]].
  - intros [] buf fip fp tip tp t _. cbn. unfold Client_MyReceiveCallBack, LvClient_ProcessData.
    eapply sim_bind; [apply sim_of_option|]. intros r _ <-. by apply sim_ret.
  - intros []. cbn. unfold Client_PrepareDataThenSend, LvClient_PrepareDataThenSend.
    assert (Happ : c_sim (@eq TestClient) (gets (@app Client_PROG)) (gets (@app LvClient_PROG)))
      by (by apply sim_gets).
    eapply sim_bind; [apply Happ|]. intros c _ <-.
    do 3 (eapply sim_bind; [apply sim_int_op|]; intros ? _ <-).
    apply (sim_bind eq); [by apply sim_modify|]. intros _ _ _.
    eapply sim_bind; [apply sim_ToWriteThenCallBack|]. intros _ _ _. by apply sim_ret.
Qed.

Lemma lv_client_equivalent evs s :
  typed_run (G := Client_Program) answers_only evs s ->
  outcome_rel eq erase
    (run (G := Client_Program) evs s) (run (G := LvClient_Program) evs (erase s)).
Proof. apply run_erased, lv_client_same. Qed.

End Clients.

(** ** A client that answers for a back end *)

Section Impersonation.
  Context {B : Boost}.

Lemma DestroySocket_server {P : PROG} (s : Skel) p x :
  heap s !! p = Some x -> is_client_ x = false ->
  DestroySocket p s = Ret 0 (with_server_map (delete (remote_endpoint_ x) (tcp_server_socket_map_ s))
                               (put p (close_tcp_sk x) s)).
Proof.
  intros Hp Hc. unfold DestroySocket. rewrite (bind_eq _ _ _ _ _ (update_eq s p x _ Hp)).
  rewrite (bind_eq _ _ _ _ _ (deref_put _ _ _)). simpl. by rewrite Hc.
Qed.

Lemma reply_bb1_lv seq v : exists body, reply_bb1 seq v = lv_packet body /\ 4 + zlen body = 16.
Proof.
  eexists. split; [apply words_lv; unfold zlen; by rewrite length_words|].
  unfold zlen. by rewrite length_words.
Qed.

(** The connection [p] of a client waits for a packet. *)
Definition client_waits {P : PROG} (s : Skel) (i : nat) (p : ptr) (x : SocketInfo) : Prop :=
  stopped s = false /\ pending s !! i = Some (async_read p 0 4 RLThenReadV) /\
  heap s !! p = Some x /\ zlen (recv_buf_ x) = 4 /\ is_client_ x = false /\ cb_ x = None /\
  16 <= max_recv_buf_size_ (cfg s).

(** The packet comes in its two parts, and the program gets it. *)
Lemma client_sends_bb1 {P : PROG} {G : Program} (s : Skel) i p x seq v :
  client_waits s i p x ->
  exists s1 s2 x2, deliver (EvComplete i (CRead 0 (take 4 (reply_bb1 seq v)))) s = Ret tt s1 /\
    app s2 = app s /\ heap s2 !! p = Some x2 /\ is_client_ x2 = false /\
    deliver (EvComplete (length (delete i (pending s))) (CRead 0 (drop 4 (reply_bb1 seq v)))) s1 =
      (let! r := ProcessData (reply_bb1 seq v) (addr_to_string (addr (remote_endpoint_ x2)))
         (port (remote_endpoint_ x2)) (addr_to_string (addr (local_endpoint_ x2)))
         (port (local_endpoint_ x2)) (now s2) in after_process p r ToReadLThenReadV) s2.
Proof.
  intros (Hst & Hi & Hp & Hb & Hc & Hcb & Hmax). destruct (reply_bb1_lv seq v) as (body & -> & Hl).
  destruct (lv_packet_delivered s i p x body Hst Hi Hp Hb) as (s1 & E1 & _ & E2);
    [lia|unfold int_max; lia|].
  set (s2 := packet_ready s i p x (lv_packet body)) in *.
  exists s1, s2, (Touch (now s) (SetRecvBuf_vec (lv_packet body) (Touch (now s) x))).
  split_and!; [done|done|apply lookup_insert_eq|done|]. rewrite E2. unfold process.
  unfold bindM at 1 2. rewrite (deref_eq s2 p _ (lookup_insert_eq _ _ _)). simpl cb_. rewrite Hcb.
  by rewrite bind_gets.
Qed.

(** What the callbacks are for.  A client of the front server sends a
    packet that looks like the reply of BB1 to a request that still waits for
    both back ends.  [cb_lv_bf.cc] refuses it: it closes the connection and its
    data members stay as they were.  [lv_bf.cc] takes it for the reply, and the
    process is aborted by the failing assertion of the skeleton. *)
Theorem lv_bf_impersonated (s : @Skel BF_PROG) i p x seq v d :
  client_waits s i p x -> int32 seq -> int32 v ->
  ld_ (app s) !! seq = Some d -> bb2_rsp_arrived_ d = false -> int32 (sum_ (rsp_ d) + v) ->
  let first := EvComplete i (CRead 0 (take 4 (reply_bb1 seq v))) in
  let rest := EvComplete (length (delete i (pending s))) (CRead 0 (drop 4 (reply_bb1 seq v))) in
  (exists s', run (G := BF_Program) [first; rest] s = Ret tt s' /\ app s' = app s /\
     exists y, heap s' !! p = Some y /\ tcp_sk_open y = false) /\
  (exists s', run (G := LvBF_Program) [first; rest] (erase s) = Halt HAssert s').
Proof.
  intros Hw Hq Hv Hd Hb2 Hs first rest.
  assert (Hbase : view_base (reply_bb1 seq v) = Some (mkBase (bswap32 sizeof_RspFromBB1) T_RSP_FROM_BB1 seq))
    by (apply view_base_reply; [by apply int32_small|done|done]).
  split.
  - destruct (client_sends_bb1 (G := BF_Program) s i p x seq v Hw)
      as (s1 & s2 & x2 & E1 & Ha & Hx & Hc & E2).
    eexists. unfold run. cbn [forM]. rewrite (bind_eq _ _ _ _ _ E1). unfold bindM at 1.
    unfold rest. rewrite E2. cbn [ProcessData BF_Program]. unfold BF_ProcessData.
    rewrite (proj1 (view_base_members _ _ Hbase)). unfold after_process, bindM at 1 2. simpl.
    rewrite (bind_eq _ _ _ _ _ (DestroySocket_server s2 p x2 Hx Hc)).
    split; [done|]. split; [done|]. eexists. split; [apply lookup_insert_eq|done].
  - assert (Hw' : client_waits (erase s) i p (erase_sk x)).
    { destruct Hw as (? & ? & Hp & ? & ? & ? & ?). split_and!; try done.
      etrans; [apply erase_lookup|]. exact (f_equal (fmap erase_sk) Hp). }
    destruct (client_sends_bb1 (G := LvBF_Program) (erase s) i p (erase_sk x) seq v Hw')
      as (s1 & s2 & x2 & E1 & Ha & Hx & Hc & E2).
    eexists. unfold run. cbn [forM]. rewrite (bind_eq _ _ _ _ _ E1). unfold bindM at 1.
    change (pending (erase s)) with (pending s) in E2. unfold rest. rewrite E2.
    cbn [ProcessData LvBF_Program]. unfold LvBF_ProcessData. unfold bindM at 1.
    rewrite dispatch_bb1 by done. rewrite (on_reply_eq lv_answer seq v bb1_arrived d s2);
      [|by rewrite Ha|done].
    simpl. rewrite Hb2. unfold ret at 1, after_process. simpl.
    rewrite (bind_eq _ _ _ _ _ (deref_eq (with_requests _ s2) p x2 Hx)). by rewrite Hc.
Qed.

End Impersonation.
