(* ===== verification/HttpPrograms.v ===== *)
(** * The programs over HTTP: [asio-based2/test/http_bf.cc] and [http_c.cc]

    The client posts its request to the front server over HTTP; the front server
    asks the back ends over LV and answers over HTTP.  The theorems compose the
    framing of the skeleton with both programs: a request that comes at once is
    served ([http_request_served]), one that comes in two pieces makes the server
    read behind its buffer ([http_split_undefined]). *)

From S2P Require Import Prelude Wire SocketInfo Skeleton Handlers Reactor.
From S2P Require Import Invariant Safety ApiSafety HandlerSafety.
From S2P Require Import SkeletonProps Framing Http Requests Packets Options.
From S2P Require Import Bf Clients SumServer LvPrograms.

Definition crlf : list byte := [x0d; x0a].
Definition text : String.string -> list byte := String.list_byte_of_string.

(** [http_req_header1] and [http_req_header2] of the client, [http_rsp_header1] and
    [http_rsp_header2] of the server. *)
Definition http_req_header1 : list byte := text "POST /xxx HTTP/1.1" ++ crlf ++ text "Content-Length ".
Definition http_req_header2 : list byte := crlf ++ text "User-Agent IE" ++ crlf ++ crlf.
Definition http_rsp_header1 : list byte := text "HTTP/1.1 200" ++ crlf ++ text "Content-Length ".
Definition http_rsp_header2 : list byte := crlf ++ text "Server: Nginx" ++ crlf ++ crlf.

(** The four [copy] calls into the resized buffer. *)
Definition http_message (header1 length_str header2 data : list byte) : list byte :=
  header1 ++ length_str ++ header2 ++ data.

(** The content of a received message, or [None] when there is no end of the
    head. *)
Definition http_content (input_data : list byte) : option (list byte) :=
  match search HTTP_key_end input_data with
  | None => None
  | Some input_it =>
      let content_start := to_int (Z.of_nat input_it + 4) in
      Some (drop (Z.to_nat content_start) input_data)
  end.

(** ** [http_bf.cc] *)

(** [TestBF] has the data members and the timer handler of that of [lv_bf.cc]. *)
Definition HttpBF_PROG : PROG := LvBF_PROG.
#[local] Existing Instance HttpBF_PROG.

Section HttpBf.
  Context {B : Boost}.
  (** [boost::lexical_cast<string>(int)], [None] for [bad_lexical_cast]. *)
  Variable lexical_cast_string : Z -> option (list byte).

Definition http_answer (client_ip : list byte) (client_port : Z) (rsp : RspFromBF) : M Skel Z :=
  match lexical_cast_string sizeof_RspFromBF with
  | None => ret (-1)
  | Some tmps =>
      let send_buf3 := http_message http_rsp_header1 tmps http_rsp_header2 (bytes_RspFromBF rsp) in
      let! addr := of_option HThrow (addr_from_string client_ip) in
      ToWriteThenRead (mkEndpoint addr client_port) T_TCP_HTTP send_buf3 true ;;!
      ret 1
  end.

Definition HttpBF_ProcessData (input_data from_ip : list byte) (from_port : Z)
    (to_ip : list byte) (to_port arrive_time : Z) : M Skel Z :=
  let! a := gets app in
  if bool_decide (to_ip = local_ip_ a) && (port_low_ a <=? to_port) && (to_port <=? port_high_ a) then
    match http_content input_data with
    | None => ret (-1)
    | Some packet => dispatch lv_ask http_answer packet from_ip from_port
    end
  else dispatch lv_ask http_answer input_data from_ip from_port.

Definition HttpBF_Program : Program := {|
  ProcessData := HttpBF_ProcessData;
  call_cb := fun (cb : @PacketCallBack HttpBF_PROG) _ _ _ _ _ _ => match cb with end;
  call_timer := fun (h : @UserTimer HttpBF_PROG) => match h with BfPrintHeartBeat => ret tt end
|}.
#[local] Existing Instance HttpBF_Program.

Definition http_bf_main : BfOptions -> OptionList -> (Z -> bool) -> M Skel Z :=
  bf_main_of T_TCP_HTTP install_bf (BfPrintHeartBeat : @UserTimer HttpBF_PROG).

#[global] Instance HttpBF_safe strict : ProgramSafe HttpBF_Program strict.
Proof.
  split; [intros buf fip fp tip tp t|intros []|intros []; apply safe_ret].
  assert (Hd : forall packet, safe strict (dispatch lv_ask http_answer packet fip fp)).
  { intros packet. apply safe_dispatch; [intros; apply safe_ToWriteThenRead|intros ip pt rsp].
    unfold http_answer. destruct (lexical_cast_string _); [|apply safe_ret].
    apply safe_bind; [apply safe_of_option|intros ad].
    apply safe_bind; [apply safe_ToWriteThenRead|intros z; apply safe_ret]. }
  cbn. unfold HttpBF_ProcessData. apply safe_bind; [apply safe_gets|intros a].
  destruct (_ && _ && _); [|done]. destruct (http_content buf); [done|apply safe_ret].
Qed.

End HttpBf.

(** ** [http_c.cc] *)

(** The members of the client of [lv_c.cc]. *)
Definition HttpClient_PROG : PROG := LvClient_PROG.

Section HttpClient.
  Context {B : Boost}.
  #[local] Existing Instance HttpClient_PROG.
  Variable lexical_cast_string : Z -> option (list byte).

Definition HttpClient_ProcessData (input_data : list byte) : M Skel Z :=
  match http_content input_data with
  | None => ret (-1)
  | Some packet => let! rsp := of_option HUndefined (view_RspFromBF packet) in ret 1
  end.

(** Nobody catches [bad_lexical_cast] here. *)
Definition HttpClient_PrepareDataThenSend : M Skel unit :=
  let! c := gets app in
  let! a' := int_op (st_a c + 1) in
  let! b' := int_op (st_b c - 1) in
  let! seq' := int_op (st_seq c + 1) in
  modify (fun s => with_app (mkTestClient (server_endpoint_ c) a' b' seq') s) ;;!
  let req := mkReqToBF (mkBase (bswap32 sizeof_ReqToBF) T_REQ_TO_BF (st_seq c)) (st_a c) (st_b c) in
  let! length_str := of_option HThrow (lexical_cast_string sizeof_ReqToBF) in
  ToWriteThenRead (server_endpoint_ c) T_TCP_HTTP
    (http_message http_req_header1 length_str http_req_header2 (bytes_ReqToBF req)) false ;;!
  ret tt.

Definition HttpClient_Program : Program := {|
  ProcessData := fun buf _ _ _ _ _ => HttpClient_ProcessData buf;
  call_cb := fun (cb : @PacketCallBack HttpClient_PROG) _ _ _ _ _ _ => match cb with end;
  call_timer := fun (h : @UserTimer HttpClient_PROG) =>
    match h with PrepareDataThenSend => HttpClient_PrepareDataThenSend end
|}.

Definition http_client_main : ClientOptions -> OptionList -> M Skel Z :=
  client_main_of install_client (PrepareDataThenSend : @UserTimer HttpClient_PROG).

#[global] Instance HttpClient_safe strict : ProgramSafe HttpClient_Program strict.
Proof.
  split; [intros buf|intros []|intros []]; intros.
  - cbn. unfold HttpClient_ProcessData. destruct (http_content buf); [|apply safe_ret].
    apply safe_bind; [apply safe_of_option|intros r; apply safe_ret].
  - cbn. unfold HttpClient_PrepareDataThenSend. apply safe_bind; [apply safe_gets|intros c].
    do 3 (apply safe_bind; [apply safe_int_op|intros ?]).
    apply safe_bind; [by apply safe_modify_core|intros []].
    apply safe_bind; [apply safe_of_option|intros l].
    apply safe_bind; [apply safe_ToWriteThenRead|intros z; apply safe_ret].
Qed.

End HttpClient.

(** ** A request on the wire *)

(** The head of the requests of the client, when the length is printed as
    "20". *)
Definition http_head : list byte := http_req_header1 ++ text "20" ++ http_req_header2.
Definition http_request (k : Z) : list byte :=
  http_message http_req_header1 (text "20") http_req_header2 (bytes_ReqToBF (nth_request k)).

Lemma http_request_eq k : http_request k = http_head ++ bytes_ReqToBF (nth_request k).
Proof. unfold http_request, http_message, http_head. by rewrite <- !app_assoc. Qed.

Lemma length_nth_request k : length (bytes_ReqToBF (nth_request k)) = 20%nat.
Proof. unfold bytes_ReqToBF. by rewrite length_words. Qed.

(** The members that change from one request to the next. *)
Definition numbers (k : Z) : list byte := le32_enc (1 + k) ++ le32_enc k ++ le32_enc (-1 - k).
Definition fixed_part : list byte := [x00; x00; x00; x14; x01; x00; x00].

Lemma nth_request_bytes k : bytes_ReqToBF (nth_request k) = fixed_part ++ x00 :: numbers k.
Proof. reflexivity. Qed.

Lemma key_continue_numbers k : 0 <= k < int_max - 1 -> numbers k <> HTTP_key_continue.
Proof.
  intros Hk H. unfold int_max in Hk.
  assert (H1 : le32_dec (le32_enc (1 + k)) = le32_dec (take 4 HTTP_key_continue)) by (by rewrite <- H).
  assert (H2 : le32_dec (le32_enc k) = le32_dec (take 4 (drop 4 HTTP_key_continue))) by (by rewrite <- H).
  rewrite le32_dec_enc in H1, H2 by (unfold int_min, int_max; lia).
  vm_compute in H1, H2. simplify_eq.
Qed.

Lemma zero_not_in_continue : x00 ∉ HTTP_key_continue.
Proof. by apply (bool_decide_unpack (x00 ∉ HTTP_key_continue)). Qed.

(** Neither the head nor the numbers ask for a 100 answer, however much of the
    content has come. *)
Lemma no_continue k j n :
  0 <= k < int_max - 1 ->
  search HTTP_key_continue ((http_head ++ take j (bytes_ReqToBF (nth_request k))) ++ zeros n) = None.
Proof.
  intros Hk. apply search_zeros; [apply zero_not_in_continue|done|].
  rewrite nth_request_bytes. destruct (decide (j < 8)%nat) as [Hj|Hj].
  - rewrite (take_app_le fixed_part (x00 :: numbers k)) by (simpl; lia).
    do 8 (destruct j as [|j]; [vm_compute; reflexivity|]). lia.
  - assert (take j (fixed_part ++ x00 :: numbers k) = fixed_part ++ x00 :: take (j - 8) (numbers k)) as ->.
    { rewrite take_app_ge by (simpl; lia). f_equal. change (length fixed_part) with 7%nat.
      replace (j - 7)%nat with (S (j - 8)) by lia. done. }
    rewrite app_assoc. apply search_skip; [apply zero_not_in_continue|vm_compute; reflexivity|].
    destruct (decide (12 <= j - 8)%nat) as [Hl|Hl].
    + rewrite take_ge by (change (length (numbers k)) with 12%nat; lia).
      destruct (search HTTP_key_continue (numbers k)) as [m|] eqn:E; [|reflexivity].
      destruct (search_Some _ _ _ E) as (pre & rest & Heq & _).
      assert (Hlen : length (numbers k) = (length pre + (12 + length rest))%nat)
        by (rewrite Heq, !length_app; done).
      change (length (numbers k)) with 12%nat in Hlen.
      destruct pre; [|simpl in Hlen; lia]. destruct rest; [|simpl in Hlen; lia].
      rewrite app_nil_r in Heq. by destruct (key_continue_numbers k Hk).
    + apply search_short. rewrite length_take. change (length HTTP_key_continue) with 12%nat. lia.
Qed.

(** ** From the wire to the back ends *)

Section Served.
  Context {B : Boost}.
  Variable lexical_cast_string : Z -> option (list byte).
  (** What the library prints and reads for the length of a request. *)
  Hypothesis prints_20 : lexical_cast_string 20 = Some (text "20").
  Hypothesis reads_20 : lexical_cast_int (text "20") = Some 20.
  #[local] Existing Instance HttpBF_PROG.
#[local] Instance http_bf_program : Program := HttpBF_Program lexical_cast_string.

(** The tick after [k] requests sends [http_request k]. *)
Lemma http_tick (s : @Skel HttpClient_PROG) k :
  0 <= k < int_max - 1 -> ticked k (app s) ->
  HttpClient_PrepareDataThenSend lexical_cast_string s =
    (ToWriteThenRead (server_endpoint_ (app s)) T_TCP_HTTP (http_request k) false ;;! ret tt)
      (@with_app HttpClient_PROG (mkTestClient (server_endpoint_ (app s)) (k + 1) (-1 - k - 1) (1 + k + 1)) s).
Proof.
  intros Hk (Ha & Hb & Hq). unfold HttpClient_PrepareDataThenSend. rewrite bind_gets, Ha, Hb, Hq.
  unfold int_op. rewrite !(proj2 (in_int_spec _)) by (unfold int_min, int_max in *; lia).
  rewrite !bind_ret, bind_modify. rewrite (bind_of_option _ _ _ _ _ prints_20). done.
Qed.

Lemma request_announces k j n :
  0 <= k < int_max - 1 ->
  announces ((http_head ++ take j (bytes_ReqToBF (nth_request k))) ++ zeros n) (zlen http_head) 20.
Proof.
  intros Hk. exists 52%nat, 20%nat.
  split_and!; [|done|by apply no_continue| |].
  - rewrite <- app_assoc. apply search_prefix. vm_compute. reflexivity.
  - rewrite <- app_assoc. apply search_prefix. vm_compute. reflexivity.
  - rewrite <- app_assoc. etrans; [|exact reads_20]. f_equal.
Qed.

(** The connection [p] of an HTTP client, accepted on one of the listening
    ports, waits for a request in a buffer of [n] bytes. *)
Definition http_waits (s : Skel) (i : nat) (p : ptr) (x : SocketInfo) (n : Z) : Prop :=
  waits_for_head s i p x n /\ is_client_ x = false /\ cb_ x = None /\
  addr_to_string (addr (local_endpoint_ x)) = local_ip_ (app s) /\
  port_low_ (app s) <= port (local_endpoint_ x) <= port_high_ (app s) /\
  76 <= n /\ 76 <= max_recv_buf_size_ (cfg s).

Lemma http_content_head rest : http_content (http_head ++ rest) = Some rest.
Proof.
  unfold http_content. by rewrite (search_prefix HTTP_key_end http_head rest 52) by (vm_compute; reflexivity).
Qed.

(** What the program does with a message that begins with the head. *)
Lemma http_process s i p x n rest :
  http_waits s i p x n ->
  let s' := request_ready s i p x (http_head ++ rest) in
  answer_request p s' =
    (let! r := dispatch lv_ask (http_answer lexical_cast_string) rest
                 (addr_to_string (addr (remote_endpoint_ x))) (port (remote_endpoint_ x)) in
     after_process p r ToReadHTTPHeadThenReadHTTPContent) s'.
Proof.
  intros (_ & _ & Hcb & Hip & Hport & _) s'.
  assert (E : process p s' = dispatch lv_ask (http_answer lexical_cast_string) rest
    (addr_to_string (addr (remote_endpoint_ x))) (port (remote_endpoint_ x)) s').
  { unfold process. rewrite (bind_eq _ _ _ _ _ (deref_eq s' p _ (lookup_insert_eq _ _ _))), bind_gets.
    cbn [cb_ local_endpoint_ remote_endpoint_ recv_buf_ Touch set_recv_buf_filled SetRecvBuf_vec].
    rewrite Hcb. cbn [ProcessData http_bf_program HttpBF_Program]. unfold HttpBF_ProcessData.
    rewrite bind_gets. change (app s') with (app s).
    rewrite Hip, bool_decide_eq_true_2, !(proj2 (Z.leb_le _ _)), http_content_head by (done || lia).
    done. }
  unfold answer_request, bindM. by rewrite E.
Qed.

Lemma zlen_http_request k : zlen (http_request k) = 76.
Proof. unfold zlen. rewrite http_request_eq, length_app, length_nth_request. reflexivity. Qed.
Lemma http_waits_wf s i p x n request :
  inv False s -> http_waits s i p x n -> inv False (request_ready s i p x request).
Proof.
  intros [Hwf _] ((_ & _ & Hp & _) & _). split; [|done].
  apply (wf_put_same _ p x); [|done..]. destruct Hwf as [H1 H2 H3 H4 H5 H6 H7 H8].
  assert (Hin : forall o, o ∈ delete i (pending s) -> o ∈ pending s).
  { intros o Ho. by eapply list.list_elem_of_delete_inv. }
  constructor; simpl; eauto.
Qed.

(** C13: a request over HTTP is served.  When the request the client of the
    repository sends at its tick [k] comes at once on a connection to
    [http_bf.cc] that waits for a head, and no request with its number waits, the
    server records it with the address of the client and asks BB1 about the first
    number and then BB2 about the second, over LV.  The read is the only operation
    that is taken from those in flight and the two questions are the only new
    ones; the connection is still there. *)
Theorem http_request_served s i p x n k :
  inv False s -> lv_clients s -> http_waits s i p x n -> 0 <= k < int_max - 1 ->
  ld_ (app s) !! (1 + k) = None ->
  exists s1 s2 o1 o2,
    deliver (EvComplete i (CRead 0 (http_request k))) s = Ret tt s2 /\
    ld_ (app s2) = <[1 + k := new_request (garbage (app s) (1 + k)) (1 + k)
      (addr_to_string (addr (remote_endpoint_ x))) (port (remote_endpoint_ x))]> (ld_ (app s)) /\
    pending s2 = delete i (pending s) ++ [o1; o2] /\
    asks s1 o1 (bb1_endpoint_ (app s)) (ask_bb1 (1 + k) k) /\
    asks s2 o2 (bb2_endpoint_ (app s)) (ask_bb2 (1 + k) (-1 - k)) /\
    (exists y, heap s2 !! p = Some y /\ is_client_ y = false /\ type_ y = type_ x) /\
    inv False s2.
Proof.
  intros Hinv Hlv Hw Hk Hfree. pose proof Hw as (Hwait & Hc & _ & _ & _ & Hn & Hmax).
  assert (Hann : announces (http_request k ++ zeros (n - zlen (http_request k))) (zlen http_head) 20).
  { rewrite http_request_eq. pose proof (request_announces k 20 (n - zlen (http_head ++ bytes_ReqToBF (nth_request k))) Hk) as H.
    by rewrite (take_ge (bytes_ReqToBF _)) in H by (by rewrite length_nth_request). }
  pose proof (zlen_http_request k) as Hz.
  rewrite (request_delivered s i p x n (http_request k) (zlen http_head) 20);
    [|done|by rewrite http_request_eq|lia|done|by rewrite Hz|done|lia].
  rewrite http_request_eq. rewrite (http_process s i p x n) by done.
  set (s' := request_ready s i p x _).
  assert (Hi' : inv False s') by (by eapply http_waits_wf).
  unfold bindM at 1.
  change (bytes_ReqToBF (nth_request k)) with (request_bf (1 + k) k (-1 - k)).
  rewrite dispatch_request; [|unfold int32, int_min, int_max in *; lia..|done].
  set (s'' := with_requests _ s').
  assert (Hlv'' : lv_clients s'').
  { intros q y. simpl. intros [[<- <-]|[_ Hy]]%lookup_insert_Some; simpl; [congruence|by apply Hlv with q]. }
  destruct (both_asked s'' (bb1_endpoint_ (app s)) (ask_bb1 (1 + k) k)
    (bb2_endpoint_ (app s)) (ask_bb2 (1 + k) (-1 - k))) as (s1 & s2 & o1 & o2 & E & Ep & A1 & A2 & I2 & V & F);
    [split; [apply wf_with_requests, Hi'|done]|done|].
  exists s1, s2, o1, o2. simpl backend1 in *. simpl backend2 in *.
  change (app s') with (app s). change (backend1 (app s)) with (bb1_endpoint_ (app s)).
  change (backend2 (app s)) with (bb2_endpoint_ (app s)). rewrite E.
  destruct (V p _ (lookup_insert_eq _ _ _)) as [(y & Hy & Hcy & Hty) _].
  split_and!; [|by rewrite F|by rewrite Ep|done|done|exists y; split_and!; [done|by rewrite Hcy|by rewrite Hty]|done].
  unfold after_process. simpl. rewrite (bind_eq _ _ _ _ _ (deref_eq s2 p y Hy)), Hcy. simpl. by rewrite Hc.
Qed.

(** A request over HTTP that does not come at once is the end of the server.
    When a part of the content comes after the head, wherever the content is
    split, the program is called on the part that came with the head, and reads
    the packet behind the end of the buffer. *)
Theorem http_split_undefined s i p x n k j :
  http_waits s i p x n -> 0 <= k < int_max - 1 -> (j < 20)%nat ->
  let content := bytes_ReqToBF (nth_request k) in
  exists s1 s2,
    deliver (EvComplete i (CRead 0 (http_head ++ take j content))) s = Ret tt s1 /\
    deliver (EvComplete (length (delete i (pending s))) (CRead 0 (drop j content))) s1 =
      Halt HUndefined s2.
Proof.
  intros Hw Hk Hj content. pose proof Hw as (Hwait & _ & _ & _ & _ & Hn & Hmax).
  assert (Hlen : length content = 20%nat) by apply length_nth_request.
  assert (Hz : zlen (http_head ++ take j content) = 56 + Z.of_nat j).
  { unfold zlen. rewrite length_app, length_take, Hlen. change (length http_head) with 56%nat. lia. }
  assert (Hd : zlen (drop j content) = 20 - Z.of_nat j) by (unfold zlen; rewrite length_drop; lia).
  destruct (content_dropped s i p x n (http_head ++ take j content) (zlen http_head) 20 (drop j content) Hwait)
    as (s1 & E1 & _ & E2); [done|lia|by apply request_announces|change (zlen http_head) with 56; lia
    |intros H; by rewrite H in Hd; change (zlen (@nil byte)) with 0 in Hd; lia|done|done|done|].
  exists s1. rewrite E2, (http_process s i p x n) by done. set (s' := request_ready s i p x _).
  exists s'. unfold bindM at 1, dispatch.
  destruct (request_views (1 + k) k (-1 - k)) as [Hv _]; [unfold int32, int_min, int_max in *; lia..|].
  pose proof (proj1 (view_base_members _ _ Hv)) as Hty.
  change (request_bf (1 + k) k (-1 - k)) with content in *.
  unfold view_type in *. rewrite load32_take. case_decide; [|done]. rewrite Hty.
  cbn [of_option]. rewrite bind_ret. cbn [ptype_ Z.eqb Pos.eqb T_REQ_TO_BF]. unfold on_request, view_ReqToBF.
  assert (load32 (take j content) 16 = None) as -> by (rewrite load32_take, decide_False by lia; done).
  destruct (view_base (take j content)); [|done]. by destruct (load32 (take j content) 12).
Qed.
End Served.
