(* ===== verification/UdpPrograms.v ===== *)
(** * The UDP programs: [asio-based3/udp_b.cc] and [asio-based3/udp_c.cc] *)

From S2P Require Import Prelude Wire SocketInfo Skeleton Handlers Reactor.
From S2P Require Import Invariant Safety ApiSafety HandlerSafety.
From S2P Require Import SkeletonProps Framing Packets Options UdpSync.

(** ** The server *)

(** [TestBB1] of [udp_b.cc]: [udie n] is the [n]-th random number. *)
Record UdpB := mkUdpB { udie : nat -> Z; urolled : nat }.

Inductive UdpTimer := UdpTick.

Definition UDPB_PROG : PROG :=
  {| App := UdpB; PacketCallBack := Empty_set; UserTimer := UdpTimer |}.
#[local] Existing Instance UDPB_PROG.

Section UdpServer.
  Context {B : Boost}.

Definition udp_roll : M Skel Z :=
  let! a := gets app in
  modify (fun s => with_app (mkUdpB (udie a) (S (urolled a))) s) ;;!
  ret (udie a (urolled a)).

Definition udp_from_string_or_default (ip : list byte) : Z :=
  match addr_from_string ip with Some a => a | None => 0 end.

Definition UdpB_ProcessData (input_data from_ip : list byte) (from_port : Z)
    (to_ip : list byte) (to_port arrive_time : Z) : M Skel Z :=
  let! type := of_option HUndefined (view_type input_data) in
  if negb (type =? T_REQ_TO_BB1) then ret (-1)
  else
    let! req_to_bb1 := of_option HUndefined (view_ReqToBB1 input_data) in
    let! d := udp_roll in
    let! v := int_op (bb1_a_ req_to_bb1 + d) in
    let rsp := mkRspFromBB1 (mkBase (bswap32 sizeof_RspFromBB1) T_RSP_FROM_BB1
                               (seq_ (req1_base req_to_bb1))) v in
    UDPToWrite (mkEndpoint (udp_from_string_or_default from_ip) from_port) (bytes_RspFromBB1 rsp) ;;!
    ret 2.

Definition UdpB_Program : Program := {|
  ProcessData := UdpB_ProcessData;
  call_cb := fun (cb : @PacketCallBack UDPB_PROG) _ _ _ _ _ _ => match cb with end;
  call_timer := fun (h : @UserTimer UDPB_PROG) => match h with UdpTick => ret tt end
|}.
#[local] Existing Instance UdpB_Program.

Record UdpBOptions := mkUdpBOptions {
  ub_timer_interval : Z;
  ub_ip : list byte;
  ub_port : Z;
  ub_option_num : Z
}.

Definition udp_b_option (o : UdpBOptions) (c : byte) (optarg : list byte) : OptResult UdpBOptions :=
  let 'mkUdpBOptions i ip p n := o in
  match c with
  | x69 => let? v := atoi optarg in OGo (mkUdpBOptions v ip p n)
  | x4c => OGo (mkUdpBOptions i optarg p (n + 1))
  | x70 => let? v := atoi optarg in OGo (mkUdpBOptions i ip (u16 v) (n + 1))
  | x68 => OReturn 0
  | _ => OReturn (-1)
  end.

(** The check counts three options, the program has two that count. *)
Definition udp_b_main (o0 : UdpBOptions) (argv : OptionList) (bind_ec : Z) : M Skel Z :=
  match parse_options udp_b_option argv o0 with
  | OReturn z => ret z
  | OExit z => stop (HExit z)
  | OUndefined => stop HUndefined
  | OGo o =>
      if ub_option_num o <? 3 then ret (-1)
      else if (ub_timer_interval o <? 0) || (100000 <? ub_timer_interval o) then ret (-1)
      else
        modify (fun s => with_cfg (set_timer_trigger_interval (ub_timer_interval o) (cfg s)) s) ;;!
        match addr_from_string (ub_ip o) with
        | None => stop (HExit 1)
        | Some addr =>
            InitUDPSocket (mkEndpoint addr (ub_port o)) bind_ec ;;!
            AddTimerHandler (TUser (UdpTick : @UserTimer UDPB_PROG)) ;;!
            Run ;;!
            ret 0
        end
  end.

#[global] Instance UdpB_safe strict : ProgramSafe UdpB_Program strict.
Proof.
  split; [intros buf fip fp tip tp t|intros []|intros []; apply safe_ret].
  cbn. unfold UdpB_ProcessData. apply safe_bind; [apply safe_of_option|intros base].
  destruct (negb _); [apply safe_ret|]. apply safe_bind; [apply safe_of_option|intros r].
  apply safe_bind; [|intros d; apply safe_bind; [apply safe_int_op|intros v]].
  - apply safe_bind; [apply safe_gets|intros a].
    apply safe_bind; [by apply safe_modify_core|intros []]. apply safe_ret.
  - apply safe_bind; [apply safe_UDPToWrite|intros z; apply safe_ret].
Qed.

Lemma UdpB_returns buf fip fp tip tp t s r s' :
  UdpB_ProcessData buf fip fp tip tp t s = Ret r s' -> r = -1 \/ r = 2.
Proof.
  unfold UdpB_ProcessData. intros H. apply bind_Ret_inv in H as (base & s1 & _ & H).
  destruct (negb _); [left; by injection H|right].
  apply bind_Ret_inv in H as (req & s2 & _ & H). apply bind_Ret_inv in H as (d & s3 & _ & H).
  apply bind_Ret_inv in H as (v & s4 & _ & H). apply bind_Ret_inv in H as (z & s5 & _ & H).
  by injection H.
Qed.

(** No receive is pending. *)
Definition not_receiving (s : Skel) : Prop := async_receive_from ∉ pending s.

Lemma not_receiving_same f : (forall s, pending (f s) = pending s) -> preserves not_receiving (modify f).
Proof. intros Hf. apply triple_modify. intros s Hs. unfold not_receiving. by rewrite Hf. Qed.

Lemma not_receiving_start o : o <> async_receive_from -> preserves not_receiving (start o).
Proof.
  intros Ho. apply triple_modify. intros s Hs. unfold not_receiving. simpl.
  rewrite elem_of_app, list_elem_of_singleton. naive_solver.
Qed.

(** Routines made of reads, writes of other fields and other starts. *)
Ltac nr_tac :=
  repeat lazymatch goal with
    | |- triple ?Pre (bindM _ _) _ => apply triple_bind with (R := fun _ => Pre); [|intros ?]
    | |- triple _ (ret _) _ => by apply triple_ret
    | |- triple _ (gets _) _ => by apply triple_gets
    | |- triple _ (stop _) _ => apply triple_stop
    | |- triple _ (modify _) _ => by apply not_receiving_same
    | |- triple _ (start _) _ => by apply not_receiving_start
    | |- triple _ (of_option _ _) _ => by apply triple_of_option
    | |- triple _ (int_op ?z) _ => unfold int_op
    | |- triple _ (if ?b then _ else _) _ => destruct b
    | |- triple _ (let (_, _) := ?x in _) _ => destruct x
    end.

Lemma UDPToWrite_not_receiving e buf : preserves not_receiving (UDPToWrite e buf).
Proof. unfold UDPToWrite, update_udp, deref_udp. nr_tac. Qed.

Lemma UdpB_not_receiving buf fip fp tip tp t :
  preserves not_receiving (UdpB_ProcessData buf fip fp tip tp t).
Proof.
  unfold UdpB_ProcessData, udp_roll. nr_tac. apply UDPToWrite_not_receiving.
Qed.

Lemma receive_stops ec from data :
  preserves not_receiving (let! n := receive_from ec from data in HandleUDPRead ec n).
Proof.
  apply triple_bind with (R := fun _ => not_receiving).
  - unfold receive_from, update_udp, deref_udp. nr_tac.
  - intros n. unfold HandleUDPRead, deref_udp.
    do 2 (apply triple_bind with (R := fun _ => not_receiving); [nr_tac|intros ?]).
    eapply triple_bind with (R := fun r s => not_receiving s /\ (r = -1 \/ r = 2)).
    + intros s Hs. cbn [ProcessData UdpB_Program].
      lazymatch goal with |- match UdpB_ProcessData ?x1 ?x2 ?x3 ?x4 ?x5 ?x6 s with _ => _ end =>
        pose proof (UdpB_not_receiving x1 x2 x3 x4 x5 x6 s Hs) as H;
        destruct (UdpB_ProcessData x1 x2 x3 x4 x5 x6 s) as [z s'|] eqn:E; [|done]
      end.
      split; [exact H|]. by eapply UdpB_returns.
    + intros r s [Hs [-> | ->]]; done.
Qed.

(** The UDP server stops at its first packet, of whatever kind.  It answers
    a request with the code 2, which the skeleton takes for a TCP code and
    asserts against, and after any other packet the skeleton does not read
    again: when a received packet is processed either the process has stopped,
    or no receive is pending any more. *)
Theorem udp_server_stops s i from data :
  stopped s = false -> pending s !! i = Some async_receive_from ->
  (forall j, j <> i -> pending s !! j <> Some async_receive_from) ->
  match deliver (EvComplete i (CRecvFrom 0 from data)) s with
  | Ret _ s' => async_receive_from ∉ pending s'
  | Halt _ _ => True
  end.
Proof.
  intros Hst Hi Hone. rewrite (deliver_eq s i _ _ Hst Hi) by done. set (s1 := with_pending _ s).
  assert (Hs1 : async_receive_from ∉ pending s1).
  { simpl. rewrite list_elem_of_lookup. intros [j Hj].
    destruct (decide (j < i)%nat).
    - rewrite list_lookup_delete_lt in Hj by lia. by apply (Hone j); [lia|].
    - rewrite list_lookup_delete_ge in Hj by lia. by apply (Hone (S j)); [lia|]. }
  clearbody s1. exact (receive_stops 0 from data s1 Hs1).
Qed.

End UdpServer.

(** ** The client *)

(** The data member of [TestClient] of [udp_c.cc] and the [static] variables of
    [PrepareDataThenSend]. *)
Record UdpC := mkUdpC { uc_server_endpoint_ : Endpoint; uc_a : Z; uc_seq : Z }.

Inductive UdpClientTimer := UdpPrepareDataThenSend.

Definition UDPC_PROG : PROG :=
  {| App := UdpC; PacketCallBack := Empty_set; UserTimer := UdpClientTimer |}.
#[local] Existing Instance UDPC_PROG.

Section UdpClient.
  Context {B : Boost}.

(** It logs the answer and returns 1, after which the skeleton does not read
    again. *)
Definition UdpC_ProcessData (input_data : list byte) : M (@Skel UDPC_PROG) Z :=
  let! rsp := of_option HUndefined (view_RspFromBB1 input_data) in ret 1.

Definition UdpC_PrepareDataThenSend : M (@Skel UDPC_PROG) unit :=
  let! c := gets app in
  let! a' := int_op (uc_a c + 1) in
  let! seq' := int_op (uc_seq c + 1) in
  modify (fun s => with_app (mkUdpC (uc_server_endpoint_ c) a' seq') s) ;;!
  let req := mkReqToBB1 (mkBase (bswap32 sizeof_ReqToBB1) T_REQ_TO_BB1 (uc_seq c)) (uc_a c) in
  UDPToWrite (uc_server_endpoint_ c) (bytes_ReqToBB1 req) ;;!
  ret tt.

Definition UdpC_Program : @Program UDPC_PROG B := {|
  ProcessData := fun buf _ _ _ _ _ => UdpC_ProcessData buf;
  call_cb := fun (cb : @PacketCallBack UDPC_PROG) _ _ _ _ _ _ => match cb with end;
  call_timer := fun (h : @UserTimer UDPC_PROG) =>
    match h with UdpPrepareDataThenSend => UdpC_PrepareDataThenSend end
|}.

(** ** [main] of [udp_c.cc]

    The [getopt] string does not have [L] and [P], so [getopt] never yields
    them; the switch has cases for them, and the ports and the local address
    then keep the values of [o0], which are indeterminate for the ports. *)

Record UdpCOptions := mkUdpCOptions {
  uc_timer_interval : Z;
  uc_addr1 : Z;
  uc_addr2 : Z;
  uc_port1 : Z;
  uc_port2 : Z;
  uc_ec : bool;
  uc_option_num : Z
}.

Definition udp_c_option (o : UdpCOptions) (c : byte) (optarg : list byte) : OptResult UdpCOptions :=
  let 'mkUdpCOptions i a1 a2 p1 p2 e n := o in
  match c with
  | x69 => let? v := atoi optarg in OGo (mkUdpCOptions v a1 a2 p1 p2 e n)
  | x4c => match addr_from_string optarg with
           | Some v => OGo (mkUdpCOptions i v a2 p1 p2 false (n + 1))
           | None => OGo (mkUdpCOptions i 0 a2 p1 p2 true (n + 1))
           end
  | x49 => match addr_from_string optarg with
           | Some v => OGo (mkUdpCOptions i a1 v p1 p2 false (n + 1))
           | None => OGo (mkUdpCOptions i a1 0 p1 p2 true (n + 1))
           end
  | x70 => let? v := atoi optarg in OGo (mkUdpCOptions i a1 a2 (u16 v) p2 e (n + 1))
  | x50 => let? v := atoi optarg in OGo (mkUdpCOptions i a1 a2 p1 (u16 v) e (n + 1))
  | x68 => OReturn 0
  | _ => OReturn (-1)
  end.

(** An invalid address is only reported. *)
Definition udp_c_main (o0 : UdpCOptions) (argv : OptionList) (bind_ec : Z) : M (@Skel UDPC_PROG) Z :=
  match parse_options udp_c_option argv o0 with
  | OReturn z => ret z
  | OExit z => stop (HExit z)
  | OUndefined => stop HUndefined
  | OGo o =>
      if uc_option_num o <? 2 then ret (-1)
      else if (uc_timer_interval o <? 0) || (100000 <? uc_timer_interval o) then ret (-1)
      else
        modify (fun s => with_cfg (set_timer_trigger_interval (uc_timer_interval o) (cfg s)) s) ;;!
        modify (fun s => with_app (mkUdpC (mkEndpoint (uc_addr2 o) (uc_port2 o))
                           (uc_a (app s)) (uc_seq (app s))) s) ;;!
        InitUDPSocket (mkEndpoint (uc_addr1 o) (uc_port1 o)) bind_ec ;;!
        AddTimerHandler (TUser (UdpPrepareDataThenSend : @UserTimer UDPC_PROG)) ;;!
        Run ;;!
        ret 0
  end.

#[global] Instance UdpC_safe strict : ProgramSafe UdpC_Program strict.
Proof.
  split; [intros buf; intros|intros []|intros []].
  - apply safe_bind; [apply safe_of_option|intros r; apply safe_ret].
  - cbn. unfold UdpC_PrepareDataThenSend. apply safe_bind; [apply safe_gets|intros c].
    do 2 (apply safe_bind; [apply safe_int_op|intros ?]).
    apply safe_bind; [by apply safe_modify_core|intros []].
    apply safe_bind; [apply safe_UDPToWrite|intros z; apply safe_ret].
Qed.

End UdpClient.
