(* ===== verification/Timers.v ===== *)
(** * The timer handlers of the programs leave the list of handlers alone

    [HandleTimeout] calls the handlers along the list while they run
    ([timer_loop]).  For a program whose handlers do not register others, and all
    the programs that are modelled are such, this is one pass over the list as it
    was ([timer_loop_snapshot]), which is how [Handlers.HandleTimeout] reads. *)

From S2P Require Import Prelude Wire SocketInfo Skeleton Handlers Reactor.
From S2P Require Import Invariant Safety Packets Options Bf Backends Clients SumServer LvPrograms HttpPrograms UdpPrograms.

Section Timers.
  Context {P : PROG} {B : Boost}.

(** An operation that registers no handler. *)
Definition keeps_timers {A} (m : M Skel A) : Prop :=
  forall l, triple (fun s => timer_handler_list_ s = l) m (fun _ s => timer_handler_list_ s = l).

Lemma timers_bind {A C} (m : M Skel A) (k : A -> M Skel C) :
  keeps_timers m -> (forall a, keeps_timers (k a)) -> keeps_timers (bindM m k).
Proof. intros Hm Hk l. eapply triple_bind; [apply Hm|intros a; apply Hk]. Qed.
Lemma timers_ret {A} (a : A) : keeps_timers (ret a).
Proof. intros l. by apply triple_ret. Qed.
Lemma timers_stop {A} h : keeps_timers (stop h : M Skel A).
Proof. intros l. apply triple_stop. Qed.
Lemma timers_gets {A} (f : Skel -> A) : keeps_timers (gets f).
Proof. intros l. by apply triple_gets. Qed.
Lemma timers_modify f :
  (forall s, timer_handler_list_ (f s) = timer_handler_list_ s) -> keeps_timers (modify f).
Proof. intros Hf l. apply triple_modify. intros s <-. apply Hf. Qed.
Lemma timers_option {A} h (o : option A) : keeps_timers (of_option h o).
Proof. destruct o; [apply timers_ret|apply timers_stop]. Qed.
Lemma timers_assert b : keeps_timers (assert_ b).
Proof. destruct b; [apply timers_ret|apply timers_stop]. Qed.
Lemma timers_int_op z : keeps_timers (int_op z).
Proof. unfold int_op. destruct (in_int z); [apply timers_ret|apply timers_stop]. Qed.
Lemma timers_forM {A} (l : list A) f : (forall x, keeps_timers (f x)) -> keeps_timers (forM l f).
Proof. intros H k. apply triple_forM. intros x. apply H. Qed.
End Timers.

Create HintDb timers.
#[export] Hint Resolve timers_ret timers_stop timers_gets timers_option timers_assert timers_int_op : timers.

Ltac timers_step :=
  lazymatch goal with
  | |- keeps_timers (bindM _ _) => apply timers_bind; [|intros ?]
  | |- keeps_timers (modify _) => by apply timers_modify
  | |- keeps_timers (if ?b then _ else _) => destruct b
  | |- keeps_timers (match ?x with _ => _ end) => destruct x
  | |- _ => solve [auto with timers]
  end.
Ltac timers_tac := repeat timers_step.

Section Operations.
  Context {P : PROG} {B : Boost}.

Lemma timers_deref p : keeps_timers (deref p).
Proof. unfold deref. timers_tac. Qed.
Lemma timers_update p f : keeps_timers (update p f).
Proof. unfold update. apply timers_bind; [apply timers_deref|intros x; timers_tac]. Qed.
Lemma timers_start o : keeps_timers (start o).
Proof. unfold start. timers_tac. Qed.
Lemma timers_alloc ty : keeps_timers (alloc ty).
Proof. unfold alloc. timers_tac. Qed.
#[local] Hint Resolve timers_deref timers_update timers_start timers_alloc : timers.

Lemma timers_find_idle l : keeps_timers (find_idle_loop l).
Proof. induction l as [|p l IH]; cbn [find_idle_loop]; [timers_tac|]. timers_tac. Qed.
#[local] Hint Resolve timers_find_idle : timers.

Lemma timers_ToConnectThenWrite e ty buf cb : keeps_timers (ToConnectThenWrite e ty buf cb).
Proof. unfold ToConnectThenWrite, InsertTCPClientSocket. timers_tac. Qed.
Lemma timers_ToWriteThenRead_sk p buf : keeps_timers (ToWriteThenRead_sk p buf).
Proof. unfold ToWriteThenRead_sk. timers_tac. Qed.
Lemma timers_FindIdle e : keeps_timers (FindIdleTCPClientSocket e).
Proof. unfold FindIdleTCPClientSocket. timers_tac. Qed.
Lemma timers_FindServer e : keeps_timers (FindTCPServerSocket e).
Proof. unfold FindTCPServerSocket. timers_tac. Qed.
#[local] Hint Resolve timers_ToConnectThenWrite timers_ToWriteThenRead_sk timers_FindIdle timers_FindServer : timers.

Lemma timers_ToWriteThenRead e ty buf srv : keeps_timers (ToWriteThenRead e ty buf srv).
Proof. unfold ToWriteThenRead. timers_tac. Qed.
Lemma timers_ToWriteThenCallBack e ty buf srv cb : keeps_timers (ToWriteThenCallBack e ty buf srv cb).
Proof. unfold ToWriteThenCallBack. timers_tac. Qed.

Lemma timers_UDPToWrite e buf : keeps_timers (UDPToWrite e buf).
Proof.
  unfold UDPToWrite. apply timers_bind; [unfold deref_udp; timers_tac|intros u].
  destruct (AddSendBuf e buf u) as [r u']. unfold update_udp, deref_udp. timers_tac.
Qed.

Lemma timers_SweepServerSocket ms : keeps_timers (SweepServerSocket ms).
Proof.
  unfold SweepServerSocket. do 2 (apply timers_bind; [apply timers_gets|intros ?]).
  apply timers_forM. intros it. unfold sweep_step. timers_tac.
Qed.
End Operations.

#[export] Hint Resolve timers_ToWriteThenRead timers_ToWriteThenCallBack timers_UDPToWrite
  timers_SweepServerSocket : timers.

(** ** One pass over the list *)

(** No handler of a program registers another. *)
Class SteadyTimers {P : PROG} {B : Boost} (G : Program) : Prop :=
  steady_timers : forall h, keeps_timers (call_timer (Program := G) h).

(** With enough fuel the loop along the list as it stands is a loop over the list
    as it was. *)
Theorem timer_loop_snapshot {P : PROG} {B : Boost} {G : Program} {HG : SteadyTimers G} fuel s :
  (length (timer_handler_list_ s) <= fuel)%nat ->
  timer_loop fuel 0 s =
    (let! l := gets timer_handler_list_ in forM l call_timer_handler ;;! ret (Some tt)) s.
Proof.
  enough (H : forall l2 l1 fuel s, timer_handler_list_ s = l1 ++ l2 -> (length l2 <= fuel)%nat ->
    timer_loop fuel (length l1) s = (forM l2 call_timer_handler ;;! ret (Some tt)) s)
    by (intros Hf; by apply (H (timer_handler_list_ s) [])).
  clear fuel s. induction l2 as [|h l2 IH]; intros l1 fuel s Hl Hf.
  - rewrite app_nil_r in Hl.
    destruct fuel; cbn [timer_loop]; unfold bindM at 1, gets; rewrite Hl, lookup_ge_None_2 by done; done.
  - destruct fuel as [|fuel]; [simpl in Hf; lia|].
    cbn [timer_loop forM]. unfold bindM at 1, gets. rewrite Hl, list_lookup_middle by done.
    assert (Hk : keeps_timers (call_timer_handler h))
      by (destruct h; [apply timers_SweepServerSocket|apply steady_timers]).
    specialize (Hk _ s Hl). unfold bindM. destruct (call_timer_handler h s) as [u s1|]; [|done].
    replace (S (length l1)) with (length (l1 ++ [h])) by (rewrite length_app; simpl; lia).
    rewrite (IH (l1 ++ [h]) fuel s1); [done| |simpl in Hf; lia]. by rewrite Hk, <- app_assoc.
Qed.

(** ** The programs *)

Section Programs.
  Context {B : Boost}.

#[export] Instance BF_timers : SteadyTimers BF_Program.
Proof. intros []. apply timers_ret. Qed.
#[export] Instance BB1_timers : SteadyTimers BB1_Program.
Proof. intros []. apply timers_ret. Qed.
#[export] Instance BB2_timers : SteadyTimers BB2_Program.
Proof. intros []. apply timers_ret. Qed.
#[export] Instance Client_timers : SteadyTimers Client_Program.
Proof. intros []. cbn. unfold Client_PrepareDataThenSend. timers_tac. Qed.
#[export] Instance LvBF_timers : SteadyTimers LvBF_Program.
Proof. intros []. apply timers_ret. Qed.
#[export] Instance LvClient_timers : SteadyTimers LvClient_Program.
Proof. intros []. cbn. unfold LvClient_PrepareDataThenSend. timers_tac. Qed.
#[export] Instance Bb1Client_timers : SteadyTimers Bb1Client_Program.
Proof. intros []. cbn. unfold Bb1Client_PrepareDataThenSend. timers_tac. Qed.
#[export] Instance HttpBF_timers f : SteadyTimers (HttpBF_Program f).
Proof. intros []. apply timers_ret. Qed.
#[export] Instance HttpClient_timers f : SteadyTimers (HttpClient_Program f).
Proof. intros []. cbn. unfold HttpClient_PrepareDataThenSend. timers_tac. Qed.
#[export] Instance UdpB_timers : SteadyTimers UdpB_Program.
Proof. intros []. apply timers_ret. Qed.
#[export] Instance UdpC_timers : SteadyTimers UdpC_Program.
Proof. intros []. cbn. unfold UdpC_PrepareDataThenSend. timers_tac. Qed.
End Programs.
