(* ===== verification/SyncClient.v ===== *)
(** * The blocking client: [asio-based2/include/sync_client.hpp]

    Class [Client]: a list of connections per server and blocking exchanges of
    LV packets on them. *)

From S2P Require Import Prelude Wire SocketInfo Skeleton Framing.

(** [Client] has no callbacks and no derived class. *)
Definition NoProgram : PROG :=
  {| App := unit; PacketCallBack := Empty_set; UserTimer := Empty_set |}.
#[local] Existing Instance NoProgram.

(** The data members, with the objects the [shared_ptr]s point to. *)
Record Client := mkClient {
  c_heap : gmap N SocketInfo;
  c_next_ptr : N;
  c_udp_socket_ : option UDPSocketInfo;
  c_tcp_client_socket_map_ : gmap Endpoint (list N);
  c_init_recv_buf_size_ : Z;
  c_max_recv_buf_size_ : Z;
  c_now : Z
}.

Definition new_Client (t : Z) : Client := mkClient ∅ 0 None ∅ 1024 (1024 * 1024 * 2) t.

Definition c_with_heap h n c := mkClient h n (c_udp_socket_ c) (c_tcp_client_socket_map_ c)
  (c_init_recv_buf_size_ c) (c_max_recv_buf_size_ c) (c_now c).
Definition c_with_map m c := mkClient (c_heap c) (c_next_ptr c) (c_udp_socket_ c) m
  (c_init_recv_buf_size_ c) (c_max_recv_buf_size_ c) (c_now c).
Definition c_with_udp u c := mkClient (c_heap c) (c_next_ptr c) u (c_tcp_client_socket_map_ c)
  (c_init_recv_buf_size_ c) (c_max_recv_buf_size_ c) (c_now c).

Definition c_deref (p : ptr) : M Client SocketInfo :=
  let! h := gets c_heap in of_option HUndefined (h !! p).

Definition c_update (p : ptr) (f : SocketInfo -> SocketInfo) : M Client unit :=
  let! x := c_deref p in
  modify (fun c => c_with_heap (<[p := f x]> (c_heap c)) (c_next_ptr c) c).

Definition c_alloc (type : SocketType) : M Client ptr :=
  let! c := gets id in
  modify (c_with_heap (<[c_next_ptr c := new_SocketInfo type (c_now c)]> (c_heap c))
            (N.succ (c_next_ptr c))) ;;!
  ret (c_next_ptr c).

Definition C_InitUDPSocket (local_endpoint : Endpoint) (bind_ec : Z) : M Client Z :=
  modify (c_with_udp (Some new_UDPSocketInfo)) ;;!
  if negb (bind_ec =? 0) then ret (-1)
  else
    modify (c_with_udp (Some (udp_set_local_endpoint local_endpoint new_UDPSocketInfo))) ;;! ret 0.

(** A socket that is not marked as a client socket trips the assertion. *)
Definition C_DestroySocket (skinfo : ptr) : M Client Z :=
  c_update skinfo close_tcp_sk ;;!
  let! x := c_deref skinfo in
  if is_client_ x then
    let! m := gets c_tcp_client_socket_map_ in
    match m !! remote_endpoint_ x with
    | None => ret (-1)
    | Some l =>
        let l' := remove_all skinfo l in
        modify (c_with_map (if zlen l' =? 0 then delete (remote_endpoint_ x) m
                            else <[remote_endpoint_ x := l']> m)) ;;!
        ret 0
    end
  else assert_ false ;;! ret 0.

Fixpoint c_find_idle_loop (l : list ptr) : M Client (option ptr) :=
  match l with
  | [] => ret None
  | p :: l' =>
      let! x := c_deref p in
      if in_use_ x || negb (is_connected_ x) then c_find_idle_loop l' else ret (Some p)
  end.

Definition C_FindIdleTCPClientSocket (key : Endpoint) : M Client (option ptr) :=
  let! m := gets c_tcp_client_socket_map_ in
  match m !! key with
  | Some l => c_find_idle_loop l
  | None => ret None
  end.

Definition C_InsertTCPClientSocket (key : Endpoint) (new_skinfo : ptr) : M Client Z :=
  let! m := gets c_tcp_client_socket_map_ in
  match m !! key with
  | Some l => modify (c_with_map (<[key := l ++ [new_skinfo]]> m)) ;;! ret 0
  | None => modify (c_with_map (<[key := [new_skinfo]]> m)) ;;! ret 0
  end.

(** [ToWriteThenReadSync(endpoint, ...)]: connect, exchange, keep the connection.
    As in [Skeleton], the second [read] is given the address behind the 4-byte
    vector. *)
Definition C_ToWriteThenReadSync_connect (remote_endpoint : Endpoint)
    (buf_to_send buf_to_fill : list byte) (io : SyncIO) : M Client (Z * list byte) :=
  let! p := c_alloc T_TCP_LV in
  c_update p (set_remote_endpoint remote_endpoint) ;;!
  if negb (connect_ec io =? 0) then ret (-1, buf_to_fill)
  else
    c_update p (set_is_connected true) ;;!
    c_update p (SetSendBuf buf_to_send) ;;!
    if negb (write_ec io =? 0) then ret (-1, buf_to_fill)
    else if negb (read_L_ec io =? 0) then ret (-1, buf_to_fill)
    else
      let! w := of_option HAssert (if zlen (read_L io) =? 4 then load32 (read_L io) 0 else None) in
      let len := bswap32 w in
      let! max := gets c_max_recv_buf_size_ in
      if (len <? 0) || (max <? len) then ret (-2, buf_to_fill)
      else
        let! buf := of_option HUndefined
                      (overwrite (resize (Z.to_nat len) x00 buf_to_fill) 0 (read_L io)) in
        (if 0 <? zlen (read_V io) then stop HUndefined else ret tt) ;;!
        if negb (read_V_ec io =? 0) then ret (-3, buf)
        else if negb (zlen (read_V io) =? len - 4) then stop HUndefined
        else
          C_InsertTCPClientSocket remote_endpoint p ;;!
          ret (0, buf).

(** [ToWriteThenReadSync(skinfo, ...)]: exchange on a connection.  The content is
    read behind the length field in the caller's buffer. *)
Definition C_ToWriteThenReadSync (p : ptr) (buf_to_send buf_to_fill : list byte) (io : SyncIO)
    : M Client (Z * list byte) :=
  c_update p (SetSendBuf buf_to_send) ;;!
  if negb (write_ec io =? 0) then C_DestroySocket p ;;! ret (-1, buf_to_fill)
  else if negb (read_L_ec io =? 0) then C_DestroySocket p ;;! ret (-1, buf_to_fill)
  else
    let! w := of_option HAssert (if zlen (read_L io) =? 4 then load32 (read_L io) 0 else None) in
    let len := bswap32 w in
    let! max := gets c_max_recv_buf_size_ in
    if (len <? 0) || (max <? len) then C_DestroySocket p ;;! ret (-2, buf_to_fill)
    else
      let! buf := of_option HUndefined
                    (overwrite (resize (Z.to_nat len) x00 buf_to_fill) 0 (read_L io)) in
      let! buf := of_option HUndefined (overwrite buf 4 (read_V io)) in
      if negb (read_V_ec io =? 0) then C_DestroySocket p ;;! ret (-3, buf)
      else if negb (zlen (read_V io) =? len - 4) then stop HUndefined
      else ret (0, buf).

(** ** Theorems *)

Lemma c_update_eq c p x f :
  c_heap c !! p = Some x ->
  c_update p f c = Ret tt (c_with_heap (<[p := f x]> (c_heap c)) (c_next_ptr c) c).
Proof. intros Hp. unfold c_update, c_deref, bindM, gets, modify. by rewrite Hp. Qed.

(** What the system answers when the peer sends the packet with content [body]. *)
Definition answers (body : list byte) : SyncIO :=
  mkSyncIO 0 0 0 (le32_enc (bswap32 (4 + zlen body))) 0 body.

(** C26: an exchange on an established connection returns 0 and fills the
    caller's buffer with exactly the packet the peer sent, whatever the buffer
    held, and changes nothing else than the send buffer of the connection. *)
Theorem exchange_fills_buffer c p x data fill body :
  c_heap c !! p = Some x -> 4 + zlen body <= c_max_recv_buf_size_ c -> 4 + zlen body <= int_max ->
  C_ToWriteThenReadSync p data fill (answers body) c =
    Ret (0, lv_packet body) (c_with_heap (<[p := SetSendBuf data x]> (c_heap c)) (c_next_ptr c) c).
Proof.
  intros Hp Hmax Hint. pose proof (zlen_nonneg body) as Hnn.
  unfold answers, lv_packet. set (len := 4 + zlen body) in *.
  assert (Hlen : bswap32 (bswap32 len) = len)
    by (apply bswap32_involutive; unfold int_min, int_max in *; lia).
  pose proof (bswap32_range len) as Hw. set (w := bswap32 len) in *. clearbody w.
  assert (Hload : load32 (le32_enc w) 0 = Some w)
    by (rewrite <- (app_nil_r (le32_enc w)); by apply load32_0_enc).
  assert (Hz : (zlen (le32_enc w) =? 4) = true) by done.
  assert (Hl4 : length (le32_enc w) = 4%nat) by done.
  set (hd := le32_enc w) in *. clearbody hd.
  set (r := resize (Z.to_nat len) x00 fill).
  assert (Hr : length r = (4 + length body)%nat).
  { unfold r. rewrite length_resize. unfold len, zlen. lia. }
  assert (Ho1 : overwrite r 0 hd = Some (hd ++ drop 4 r)).
  { unfold overwrite. rewrite decide_True by lia. by rewrite Hl4. }
  assert (Ho2 : overwrite (hd ++ drop 4 r) 4 body = Some (hd ++ body)).
  { rewrite <- Hl4. apply overwrite_tail. rewrite length_drop. lia. }
  unfold C_ToWriteThenReadSync. rewrite (bind_eq _ _ _ _ _ (c_update_eq c p x _ Hp)).
  cbn [write_ec read_L_ec read_V_ec read_L read_V]. change (negb (0 =? 0)) with false. cbv iota.
  rewrite Hz, Hload. rewrite (bind_eq (of_option HAssert (Some w)) _ _ w _ eq_refl).
  cbv zeta. rewrite Hlen.
  unfold bindM at 1, gets at 1. cbn [c_max_recv_buf_size_ c_with_heap].
  rewrite (proj2 (Z.ltb_ge len 0)) by lia.
  rewrite (proj2 (Z.ltb_ge (c_max_recv_buf_size_ c) len)) by lia. cbn [orb]. fold r.
  rewrite Ho1. unfold of_option at 1. unfold bindM at 1, ret at 1.
  rewrite Ho2. unfold of_option at 1. unfold bindM at 1, ret at 1.
  replace (len - 4) with (zlen body) by (unfold len; lia). by rewrite Z.eqb_refl.
Qed.

(** The operations of a [Client]. *)
Inductive ClientStep : Client -> Client -> Prop :=
| cs_init e ec r c c' : C_InitUDPSocket e ec c = Ret r c' -> ClientStep c c'
| cs_connect e data fill io r c c' :
    C_ToWriteThenReadSync_connect e data fill io c = Ret r c' -> ClientStep c c'
| cs_exchange p data fill io r c c' :
    C_ToWriteThenReadSync p data fill io c = Ret r c' -> ClientStep c c'.

Inductive client_reachable : Client -> Prop :=
| cr_init t : client_reachable (new_Client t)
| cr_step c c' : client_reachable c -> ClientStep c c' -> client_reachable c'.

(** Nothing marks a socket of a [Client] as a client socket. *)
Definition none_client (c : Client) : Prop := forall p x, c_heap c !! p = Some x -> is_client_ x = false.

Lemma none_client_update p f :
  (forall x, is_client_ (f x) = is_client_ x) -> preserves none_client (c_update p f).
Proof.
  intros Hf c Hc. unfold c_update, c_deref, bindM, gets, modify, of_option.
  destruct (c_heap c !! p) as [x|] eqn:Hp; [|done]. simpl.
  intros q y. simpl. intros [[<- <-]|[_ Hq]]%lookup_insert_Some; [rewrite Hf|]; by eapply Hc.
Qed.

Lemma none_client_alloc ty : preserves none_client (c_alloc ty).
Proof.
  intros c Hc q y. simpl. intros [[<- <-]|[_ Hq]]%lookup_insert_Some; [done|by eapply Hc].
Qed.

Lemma none_client_map m : preserves none_client (modify (c_with_map m)).
Proof. intros c Hc q y. apply Hc. Qed.

Ltac nc_tac :=
  repeat lazymatch goal with
    | |- triple ?Pre (bindM _ _) _ => apply triple_bind with (R := fun _ => Pre); [|intros ?]
    | |- triple _ (ret _) _ => by apply triple_ret
    | |- triple _ (gets _) _ => by apply triple_gets
    | |- triple _ (stop _) _ => apply triple_stop
    | |- triple _ (assert_ _) _ => by apply triple_assert
    | |- triple _ (of_option _ _) _ => by apply triple_of_option
    | |- triple _ (c_update _ _) _ => by apply none_client_update
    | |- triple _ (c_alloc _) _ => apply none_client_alloc
    | |- triple _ (modify (c_with_map _)) _ => apply none_client_map
    | |- triple _ (modify (c_with_udp _)) _ => apply triple_modify; intros ? H; exact H
    | |- triple _ (if ?b then _ else _) _ => destruct b
    | |- triple _ (match ?x with _ => _ end) _ => destruct x
    end.

Lemma none_client_reachable c : client_reachable c -> none_client c.
Proof.
  induction 1 as [t|c c' Hr IH Hst]; [intros p x H; simpl in H; by rewrite lookup_empty in H|].
  assert (Hd : forall p, preserves none_client (C_DestroySocket p))
    by (intros p; unfold C_DestroySocket, c_deref; nc_tac).
  destruct Hst as [e ec r ?? E|e data fill io r ?? E|p data fill io r ?? E].
  - assert (H : preserves none_client (C_InitUDPSocket e ec)) by (unfold C_InitUDPSocket; nc_tac).
    specialize (H _ IH). by rewrite E in H.
  - assert (H : preserves none_client (C_ToWriteThenReadSync_connect e data fill io)).
    { unfold C_ToWriteThenReadSync_connect, C_InsertTCPClientSocket. nc_tac. }
    specialize (H _ IH). by rewrite E in H.
  - assert (H : preserves none_client (C_ToWriteThenReadSync p data fill io)).
    { unfold C_ToWriteThenReadSync. nc_tac; apply Hd. }
    specialize (H _ IH). by rewrite E in H.
Qed.

(** An error on an established connection stops the process.  No operation
    of [Client] ever marks a socket as a client socket, so in every reachable
    state [DestroySocket] asserts: an exchange whose write or first read fails
    does not report -1 as the code means it to. *)
Theorem exchange_error_aborts c p x data fill io :
  client_reachable c -> c_heap c !! p = Some x -> write_ec io <> 0 \/ read_L_ec io <> 0 ->
  exists c', C_ToWriteThenReadSync p data fill io c = Halt HAssert c'.
Proof.
  intros Hr Hp Herr. pose proof (none_client_reachable c Hr p x Hp) as Hc.
  unfold C_ToWriteThenReadSync. rewrite (bind_eq _ _ _ _ _ (c_update_eq c p x _ Hp)).
  set (c1 := c_with_heap _ _ c).
  assert (Hd : exists c', (C_DestroySocket p ;;! ret (-1, fill)) c1 = Halt HAssert c').
  { unfold C_DestroySocket. unfold bindM at 1 2.
    rewrite (c_update_eq c1 p (SetSendBuf data x)) by apply lookup_insert_eq.
    unfold bindM at 1, c_deref, bindM at 1, gets. simpl. rewrite lookup_insert_eq. simpl.
    rewrite Hc. by eexists. }
  destruct (Z.eqb_spec (write_ec io) 0); cbn [negb]; [|exact Hd].
  destruct (Z.eqb_spec (read_L_ec io) 0); cbn [negb]; [|exact Hd]. by destruct Herr.
Qed.
