(* ===== verification/Demo.v ===== *)
(** * The theorems on a concrete run

    A front server that listens, accepts a client and connects to its back ends,
    executed on concrete answers of the system; every theorem with hypotheses is
    applied at one of its states. *)

From S2P Require Import Prelude Wire SocketInfo Skeleton Handlers Reactor.
From S2P Require Import Invariant Safety ApiSafety HandlerSafety Reachable.
From S2P Require Import SkeletonProps Framing Http Requests UdpSync Packets Options.
From S2P Require Import Bf Backends EndToEnd Clients UdpPrograms SyncClient.

(** The library: an address is printed as its four bytes. *)
#[local] Instance demo_boost : Boost := {|
  addr_to_string := le32_enc;
  addr_from_string := fun l => if Nat.eqb (length l) 4 then le32_dec l else None;
  lexical_cast_int := atoi
|}.

#[local] Existing Instance BF_PROG.
#[local] Existing Instance BF_Program.

(** ** The front server *)

Definition ep_listen := mkEndpoint 1 80.
Definition ep_client := mkEndpoint 2 5000.
Definition ep_bb1 := mkEndpoint 3 81.
Definition ep_bb2 := mkEndpoint 4 82.

Definition bf_zero : RspFromBF := mkRspFromBF (mkBase 0 0 0) 0 0.
Definition bf_app : TestBF := mkTestBF [] 80 80 ∅ ep_bb1 ep_bb2 (fun _ => bf_zero).

Definition bf0 : Skel := new_Skel 0 0 bf_app.
Definition bf1 : Skel := after (call (KAddTCPAcceptor ep_listen T_TCP_LV true)) bf0.
(** The client is accepted: socket 0 waits for a length. *)
Definition bf2 : Skel := after (deliver (EvComplete 0 (CAccept 0 (Some ep_client) (Some ep_listen)))) bf1.

Lemma step_from_call ok k s :
  ok k -> returned (call k) s = true -> reachable ok s -> reachable ok (after (call k) s).
Proof.
  intros Hok Hr Hs. destruct (after_returned _ _ Hr) as [r E].
  eapply reach_step; [exact Hs|]. by eapply step_call.
Qed.

Lemma step_from_event ok ev (s : Skel) :
  returned (deliver ev) s = true -> reachable ok s -> reachable ok (after (deliver ev) s).
Proof.
  intros Hr Hs. destruct (after_returned _ _ Hr) as [[] E].
  eapply reach_step; [exact Hs|]. by eapply step_event.
Qed.

Lemma bf2_reachable ok : ok (KAddTCPAcceptor ep_listen T_TCP_LV true) -> reachable ok bf2.
Proof.
  intros Hok. unfold bf2. apply step_from_event; [vm_compute; reflexivity|].
  unfold bf1. apply step_from_call; [done|vm_compute; reflexivity|]. apply reach_init.
Qed.

Lemma bf1_reachable ok : ok (KAddTCPAcceptor ep_listen T_TCP_LV true) -> reachable ok bf1.
Proof.
  intros Hok. unfold bf1. apply step_from_call; [done|vm_compute; reflexivity|]. apply reach_init.
Qed.

Lemma bf2_inv strict : inv strict bf2.
Proof. apply reachable_strict; [apply _|]. by apply bf2_reachable. Qed.

Lemma bf1_inv strict : inv strict bf1.
Proof. apply reachable_strict; [apply _|]. by apply bf1_reachable. Qed.

Lemma bf0_inv strict : inv strict bf0.
Proof. apply inv_init. Qed.

(** ** Witnesses *)

(** A blocking exchange with a back end leaves a socket in the client map that is
    not marked as a client's. *)
Definition io_empty : SyncIO := mkSyncIO 0 0 0 [x00; x00; x00; x04] 0 [].
Definition bf_sync : Skel :=
  after (call (KToWriteThenReadSync ep_bb1 [x00; x00; x00; x05; x2a] T_TCP_LV [] io_empty)) bf2.

Lemma bf_sync_reachable ok :
  ok (KAddTCPAcceptor ep_listen T_TCP_LV true) ->
  ok (KToWriteThenReadSync ep_bb1 [x00; x00; x00; x05; x2a] T_TCP_LV [] io_empty) ->
  reachable ok bf_sync.
Proof.
  intros H1 H2. unfold bf_sync. apply step_from_call; [done|vm_compute; reflexivity|by apply bf2_reachable].
Qed.

Lemma bf_sync_wf : wf bf_sync.
Proof. exact (proj1 (reachable_strict False bf_sync (bf_sync_reachable _ I I))). Qed.

Lemma reachable_well_formed_witness :
  (reachable (fun _ => True) bf2 /\ wf bf2) /\
  (reachable (fun _ => True) bf_sync /\ wf bf_sync /\
   tcp_client_socket_map_ bf_sync !! ep_bb1 = Some [3%N] /\
   (is_client_ <$> heap bf_sync !! 3%N) = Some false).
Proof.
  split.
  - split; [by apply bf2_reachable|].
    apply (reachable_well_formed (BF_safe False)). by apply bf2_reachable.
  - split_and!; [exact (bf_sync_reachable (fun _ => True) I I)| |vm_compute; reflexivity|vm_compute; reflexivity].
    apply (reachable_well_formed (BF_safe False)). exact (bf_sync_reachable (fun _ => True) I I).
Defined.

Lemma client_requests_exclusive_witness :
  reachable (call_ok True) bf2 /\
  forall p x, heap bf2 !! p = Some x -> lv_client x -> (length (ops_of p bf2) <= 1)%nat.
Proof.
  split; [by apply bf2_reachable|].
  apply (client_requests_exclusive (BF_safe True)). by apply bf2_reachable.
Defined.

Lemma FindIdle_first_witness :
  wf bf2 /\ FindIdleTCPClientSocket ep_bb1 bf2 = Ret (head (idle_sockets ep_bb1 bf2)) bf2.
Proof. split; [apply (bf2_inv False)|apply FindIdle_first, (bf2_inv False)]. Defined.

Lemma bf2_unlisted p e : ~ listed p e bf2.
Proof.
  intros (l & Hl & _). assert (E : tcp_client_socket_map_ bf2 = ∅) by (vm_compute; reflexivity).
  by rewrite E, lookup_empty in Hl.
Qed.

Definition sk_of (s : Skel) (p : ptr) : SocketInfo :=
  default (new_SocketInfo T_TCP_LV 0) (heap s !! p).

Lemma bf2_sk : heap bf2 !! 0%N = Some (sk_of bf2 0).
Proof. vm_compute. reflexivity. Qed.

(** The socket of a blocking exchange. *)
Definition sk_sync : SocketInfo := default (new_SocketInfo T_TCP_LV 0) (heap bf_sync !! 3%N).

Lemma DestroySocket_unregisters_witness :
  runs (DestroySocket 0%N) bf2 (fun _ s' =>
    heap s' = <[0%N := close_tcp_sk (sk_of bf2 0)]> (heap bf2) /\
    (forall e, ~ registered 0%N e s') /\ pending s' = pending bf2) /\
  runs (DestroySocket 3%N) bf_sync (fun _ s' =>
    heap s' = <[3%N := close_tcp_sk sk_sync]> (heap bf_sync) /\ registered 3%N ep_bb1 s').
Proof.
  pose proof (DestroySocket_unregisters bf2 0%N (sk_of bf2 0) (proj1 (bf2_inv False)) bf2_sk) as H.
  pose proof (DestroySocket_unregisters bf_sync 3%N sk_sync bf_sync_wf ltac:(vm_compute; reflexivity)) as K.
  unfold runs in *. split.
  - destruct (DestroySocket 0%N bf2) as [r s'|h s']; [|exact H].
    destruct H as (H1 & H2 & _ & H4). split_and!; [exact H1| |exact H4].
    intros e He. apply H2 in He as [_ Hin]. exact (bf2_unlisted 0%N e Hin).
  - destruct (DestroySocket 3%N bf_sync) as [r s'|h s']; [|exact K].
    destruct K as (K1 & K2 & _). split; [exact K1|]. apply K2. split; [vm_compute; reflexivity|].
    exists [3%N]. split; [vm_compute; reflexivity|by left].
Defined.


(** A day later the connection has expired. *)
Definition bf2_late : Skel := with_now (86400 * 1000000) bf2.

Lemma bf2_late_wf : wf bf2_late.
Proof. destruct (proj1 (bf2_inv False)). by constructor. Qed.

Lemma SweepServerSocket_spec_witness :
  tcp_server_socket_map_ bf2_late !! ep_client = Some 0%N /\
  runs (SweepServerSocket 10000) bf2_late (fun _ s' =>
    tcp_server_socket_map_ s' !! ep_client = None).
Proof.
  split; [vm_compute; reflexivity|].
  pose proof (SweepServerSocket_spec bf2_late 10000 bf2_late_wf) as H. cbn zeta in H.
  unfold runs in *. destruct (SweepServerSocket 10000 bf2_late) as [u s'|]; [|exact H].
  destruct H as [Hm _]. rewrite Hm. vm_compute. reflexivity.
Defined.

Definition demo_body : list byte := drop 4 (request_bf 7 1 2).

Lemma lv_packet_delivered_witness :
  exists s1,
    deliver (EvComplete 0 (CRead 0 (take 4 (lv_packet demo_body)))) bf2 = Ret tt s1 /\
    pending s1 = delete 0%nat (pending bf2) ++ [async_read 0%N 4 (zlen demo_body) RVThenProcess] /\
    deliver (EvComplete (length (delete 0%nat (pending bf2))) (CRead 0 (drop 4 (lv_packet demo_body)))) s1 =
      (let! r := process 0%N in after_process 0%N r ToReadLThenReadV)
        (packet_ready bf2 0 0%N (sk_of bf2 0) (lv_packet demo_body)).
Proof.
  apply (lv_packet_delivered bf2 0 0%N (sk_of bf2 0) demo_body);
    [vm_compute; reflexivity|vm_compute; reflexivity|exact bf2_sk|vm_compute; reflexivity| |];
    vm_compute; congruence.
Defined.

(** A length of three million, and one of three, in the receive buffer. *)
Definition sk_large : SocketInfo := SetRecvBuf_vec (le32_enc (bswap32 3000000)) (sk_of bf2 0).
Definition bf2_large : Skel := put 0%N sk_large bf2.

Lemma bf2_large_wf : wf bf2_large.
Proof. by apply (wf_put_same bf2 0%N (sk_of bf2 0) sk_large (proj1 (bf2_inv False)) bf2_sk). Qed.

Lemma lv_length_too_large_witness :
  runs (HandleReadLThenReadV 0 0%N 4) bf2_large (fun _ s' =>
    (exists x', heap s' !! 0%N = Some x' /\ tcp_sk_open x' = false) /\
    (forall e, ~ registered 0%N e s') /\ pending s' = pending bf2_large).
Proof.
  pose proof (lv_length_too_large bf2_large 0%N sk_large (bswap32 3000000) 4 bf2_large_wf
    ltac:(vm_compute; reflexivity) ltac:(vm_compute; reflexivity) ltac:(vm_compute; reflexivity)) as H.
  unfold runs in *. destruct (HandleReadLThenReadV 0 0%N 4 bf2_large) as [r s'|h s']; [|exact H].
  destruct H as (H1 & H2 & H3). split_and!; [exact H1| |exact H3].
  intros e He. apply H2 in He as [_ Hin]. exact (bf2_unlisted 0%N e Hin).
Defined.

Lemma lv_length_too_small_witness :
  exists s1,
    deliver (EvComplete 0 (CRead 0 (le32_enc (bswap32 3)))) bf2 = Ret tt s1 /\
    pending s1 = delete 0%nat (pending bf2) ++
      [async_read 0%N 4 (bswap32 (bswap32 3) - 4 + 2 ^ 64) RVThenProcess] /\
    exists s2, deliver (EvComplete (length (delete 0%nat (pending bf2))) (CRead 2 [x00])) s1
               = Halt HUndefined s2.
Proof.
  apply (lv_length_too_small bf2 0 0%N (sk_of bf2 0) (bswap32 3) 2 [x00]);
    [vm_compute; reflexivity|vm_compute; reflexivity|exact bf2_sk|vm_compute; reflexivity
    |apply bswap32_range|split; vm_compute; congruence|vm_compute; congruence|done|done|done].
Defined.

(** ** An HTTP connection *)

Definition bh1 : Skel := after (call (KAddTCPAcceptor ep_listen T_TCP_HTTP true)) bf0.
Definition bh2 : Skel := after (deliver (EvComplete 0 (CAccept 0 (Some ep_client) (Some ep_listen)))) bh1.

Definition crlf : list byte := [x0d; x0a].
Definition http_head1 : list byte := String.list_byte_of_string "POST / HTTP/1.1" ++ crlf.
Definition http_head2 : list byte := String.list_byte_of_string "Content-Length 2" ++ crlf ++ crlf.
Definition http_body : list byte := String.list_byte_of_string "ab".

Lemma bh2_waits : waits_for_head bh2 0 0%N (sk_of bh2 0) 1024.
Proof. split_and!; vm_compute; first [reflexivity | congruence]. Qed.

Lemma http_request_delivered_witness :
  deliver (EvComplete 0 (CRead 0 (http_head1 ++ http_head2 ++ http_body))) bh2 =
    answer_request 0%N (request_ready bh2 0 0%N (sk_of bh2 0) (http_head1 ++ http_head2 ++ http_body)).
Proof.
  apply (http_request_delivered bh2 0 0%N (sk_of bh2 0) 1024 (http_head1 ++ http_head2 ++ http_body)
           37 2 bh2_waits); first [ exists 33%nat, 17%nat; split_and!; vm_compute; reflexivity | vm_compute; congruence ].
Defined.

Lemma http_content_dropped_witness :
  exists s1,
    deliver (EvComplete 0 (CRead 0 (http_head1 ++ http_head2))) bh2 = Ret tt s1 /\
    pending s1 = delete 0%nat (pending bh2) ++
      [async_read 0%N (zlen (http_head1 ++ http_head2)) (zlen http_body) RHTTPContent] /\
    deliver (EvComplete (length (delete 0%nat (pending bh2))) (CRead 0 http_body)) s1 =
      answer_request 0%N (request_ready bh2 0 0%N (sk_of bh2 0) (http_head1 ++ http_head2)).
Proof.
  apply (http_content_dropped bh2 0 0%N (sk_of bh2 0) 1024 (http_head1 ++ http_head2)
           37 2 http_body bh2_waits); first [ exists 33%nat, 17%nat; split_and!; vm_compute; reflexivity | vm_compute; congruence ].
Defined.

Lemma http_pieces_overcounted_witness :
  exists s1,
    deliver (EvComplete 0 (CRead 0 http_head1)) bh2 = Ret tt s1 /\
    deliver (EvComplete (length (delete 0%nat (pending bh2))) (CRead 0 (http_head2 ++ http_body))) s1 =
      answer_request 0%N (request_ready bh2 0 0%N (sk_of bh2 0)
        (http_head1 ++ (http_head2 ++ http_body) ++ zeros (zlen http_head1))).
Proof.
  apply (http_pieces_overcounted bh2 0 0%N (sk_of bh2 0) 1024 http_head1 (http_head2 ++ http_body)
           37 2 bh2_waits); first [ exists 33%nat, 17%nat; split_and!; vm_compute; reflexivity | vm_compute; congruence ].
Defined.

Lemma ToWriteThenRead_client_witness :
  head (idle_sockets ep_bb1 bf2) = None /\
  exists s', ToWriteThenRead ep_bb1 T_TCP_LV [x00] false bf2 = Ret 0 s'.
Proof.
  split; [vm_compute; reflexivity|].
  pose proof (ToWriteThenRead_client bf2 ep_bb1 T_TCP_LV [x00] (proj1 (bf2_inv False))) as H.
  assert (Hi : head (idle_sockets ep_bb1 bf2) = None) by (vm_compute; reflexivity).
  rewrite Hi in H. eexists. exact H.
Defined.

Lemma ToWriteThenRead_server_witness :
  exists s', ToWriteThenRead ep_client T_TCP_LV [x00] true bf2 = Ret 0 s' /\
    ToWriteThenRead ep_bb1 T_TCP_LV [x00] true bf2 = Ret (-1) bf2.
Proof.
  pose proof (ToWriteThenRead_server bf2 ep_client T_TCP_LV [x00] (proj1 (bf2_inv False))) as H.
  pose proof (ToWriteThenRead_server bf2 ep_bb1 T_TCP_LV [x00] (proj1 (bf2_inv False))) as H2.
  assert (Hm : tcp_server_socket_map_ bf2 !! ep_client = Some 0%N) by (vm_compute; reflexivity).
  assert (Hm2 : tcp_server_socket_map_ bf2 !! ep_bb1 = None) by (vm_compute; reflexivity).
  rewrite Hm in H. rewrite Hm2 in H2. destruct H as (x & Hx & _ & H).
  assert (Hty : type_ x = T_TCP_LV) by (rewrite bf2_sk in Hx; injection Hx as <-; vm_compute; reflexivity).
  rewrite Hty in H. eexists. split; [exact H|exact H2].
Defined.

Definition demo_data : list byte := [x00; x00; x00; x05; x2a].

Lemma request_on_new_connection_witness :
  let p := next_ptr bf0 in
  ToWriteThenRead ep_bb1 T_TCP_LV demo_data false bf0 = Ret 0 (requested bf0 ep_bb1 T_TCP_LV demo_data) /\
  exists s2 x,
    deliver (EvComplete (length (pending bf0)) (CConnect 0 (Some ep_listen)))
      (requested bf0 ep_bb1 T_TCP_LV demo_data) = Ret tt s2 /\
    pending s2 = pending bf0 ++ [async_write p demo_data WThenReadL] /\
    tcp_client_socket_map_ s2 !! ep_bb1 = Some (default [] (tcp_client_socket_map_ bf0 !! ep_bb1) ++ [p; p]) /\
    heap s2 !! p = Some x /\ remote_endpoint_ x = ep_bb1 /\ local_endpoint_ x = ep_listen /\
    is_client_ x = true /\ is_connected_ x = true /\ in_use_ x = true /\ send_buf_ x = demo_data.
Proof.
  apply (request_on_new_connection bf0 ep_bb1 demo_data ep_listen WThenReadL T_TCP_LV);
    [done|apply (bf0_inv False)|done|done].
Defined.

Lemma connect_failure_forgets_witness :
  let p := next_ptr bf0 in
  exists s2,
    deliver (EvComplete (length (pending bf0)) (CConnect 111 None))
      (requested bf0 ep_bb1 T_TCP_LV demo_data) = Ret tt s2 /\
    pending s2 = pending bf0 /\
    tcp_client_socket_map_ s2 !! ep_bb1 = Some (default [] (tcp_client_socket_map_ bf0 !! ep_bb1)) /\
    exists x, heap s2 !! p = Some x /\ tcp_sk_open x = false.
Proof.
  apply (connect_failure_forgets bf0 ep_bb1 demo_data T_TCP_LV 111 None);
    [done|apply (bf0_inv False)|done].
Defined.

(** ** A request under way *)

Definition bf3 : Skel := after (call (KToWriteThenRead ep_bb1 T_TCP_LV demo_data false)) bf0.
Definition bf4 : Skel := after (deliver (EvComplete 0 (CConnect 0 (Some ep_listen)))) bf3.

Lemma bf4_inv : inv True bf4.
Proof.
  apply reachable_strict; [apply _|]. unfold bf4. apply step_from_event; [vm_compute; reflexivity|].
  unfold bf3. apply step_from_call; [done|vm_compute; reflexivity|]. apply reach_init.
Qed.

Lemma write_error_leaks_connection_witness :
  exists s', deliver (EvComplete 0 (CWrite 32 0)) bf4 = Ret tt s' /\
    ops_of 0%N s' = [] /\ (forall e, registered 0%N e s' <-> registered 0%N e bf4) /\
    (forall e, 0%N ∉ idle_sockets e s').
Proof.
  apply (write_error_leaks_connection bf4 0 0%N (sk_of bf4 0) demo_data 32 0);
    [vm_compute; reflexivity|exact bf4_inv|vm_compute; reflexivity|vm_compute; reflexivity
    |vm_compute; done|done|vm_compute; split; congruence].
Defined.

Lemma ToWriteThenClose_spec_witness :
  ToWriteThenClose ep_bb1 demo_data false bf2 = Halt HAssert bf2.
Proof.
  pose proof (ToWriteThenClose_spec bf2 ep_bb1 demo_data false (proj1 (bf2_inv False))) as H.
  assert (Hi : head (idle_sockets ep_bb1 bf2) = None) by (vm_compute; reflexivity).
  cbv iota in H. rewrite Hi in H. exact H.
Defined.

Definition bf1_acceptor : TCPAcceptorInfo := mkTCPAcceptorInfo T_TCP_LV 0.

Lemma HandleAccept_lv_witness :
  exists s' x,
    HandleAccept 0 1%N (Some ep_client) (Some ep_listen) bf1 = Ret tt s' /\
    tcp_server_socket_map_ s' = <[ep_client := 0%N]> (tcp_server_socket_map_ bf1) /\
    pending s' = pending bf1 ++ [async_read 0%N 0 4 RLThenReadV; async_accept 1%N] /\
    acceptors s' !! 1%N = Some (mkTCPAcceptorInfo T_TCP_LV (next_ptr bf1)) /\
    heap s' !! 0%N = Some x /\ type_ x = T_TCP_LV /\ remote_endpoint_ x = ep_client /\
    local_endpoint_ x = ep_listen /\ in_use_ x = true /\ is_client_ x = false /\ zlen (recv_buf_ x) = 4.
Proof.
  apply (HandleAccept_lv bf1 1%N bf1_acceptor ep_client ep_listen (proj1 (bf1_inv False)));
    [vm_compute; reflexivity|reflexivity|vm_compute; reflexivity|vm_compute; congruence].
Defined.

Lemma HandleAccept_lost_endpoint_witness :
  exists s', HandleAccept 0 1%N None (Some ep_listen) bf1 = Ret tt s' /\ pending s' = pending bf1 /\
    tcp_server_socket_map_ s' = tcp_server_socket_map_ bf1.
Proof.
  apply (HandleAccept_lost_endpoint bf1 1%N bf1_acceptor None (Some ep_listen) (proj1 (bf1_inv False)));
    [vm_compute; reflexivity|by left].
Defined.

(** ** UDP *)

Definition udp0 : Skel := with_udp (Some new_UDPSocketInfo) bf0.
Definition udp1 : Skel := after (UDPToWrite ep_bb1 demo_data) udp0.
Definition udp2 : Skel := after (UDPToWrite ep_bb2 demo_data) udp1.

Definition udp_of (s : Skel) : UDPSocketInfo := default new_UDPSocketInfo (udp_socket_ s).

Lemma UDPToWrite_spec_witness :
  (GetSendBufListLength (udp_of udp1) = max_length_of_send_buf_list_ (udp_of udp1) /\
     UDPToWrite ep_bb2 demo_data udp1 = Ret (-1) udp1) \/
  exists s' u', UDPToWrite ep_bb2 demo_data udp1 = Ret 0 s' /\ udp_socket_ s' = Some u' /\
    send_buf_list_ u' = send_buf_list_ (udp_of udp1) ++ [(ep_bb2, demo_data)] /\ udp_in_use_ u' = true /\
    GetSendBufListLength u' <= max_length_of_send_buf_list_ u' /\
    exists front, head (send_buf_list_ u') = Some front /\
    pending s' = pending udp1 ++ (if udp_in_use_ (udp_of udp1) then [] else [async_send_to front.2 front.1]).
Proof.
  apply (UDPToWrite_spec udp1 (udp_of udp1) ep_bb2 demo_data);
    [vm_compute; reflexivity|vm_compute; congruence].
Defined.

Lemma udp_front_resent_forever_witness :
  deliver (EvComplete 0 (CSendTo 0 5)) udp2 = Ret tt udp2.
Proof.
  apply (udp_front_resent_forever udp2 (udp_of udp2) [] ep_bb1 demo_data [(ep_bb2, demo_data)] 0 5);
    [vm_compute; reflexivity..|vm_compute; split; congruence].
Defined.

(** ** Blocking calls *)

Lemma ToWriteThenReadSync_success_witness :
  write_ec io_empty = 0 /\ read_L_ec io_empty = 0 /\ read_V_ec io_empty = 0 /\
  (exists w, load32 (read_L io_empty) 0 = Some w /\ bswap32 w = 4) /\ read_V io_empty = [] /\
  [x00; x00; x00; x04] = read_L io_empty.
Proof.
  apply (ToWriteThenReadSync_success bf0 ep_bb1 demo_data [] io_empty [x00; x00; x00; x04]
    (after (ToWriteThenReadSync ep_bb1 demo_data T_TCP_LV [] io_empty) bf0)).
  vm_compute. reflexivity.
Defined.

Definition client1 : Client :=
  after (C_ToWriteThenReadSync_connect ep_bb1 demo_data [] io_empty) (new_Client 0).

Definition client1_sk : @SocketInfo NoProgram :=
  default (@new_SocketInfo NoProgram T_TCP_LV 0) (c_heap client1 !! 0%N).

Lemma exchange_fills_buffer_witness :
  C_ToWriteThenReadSync 0%N demo_data [x00] (answers demo_body) client1 =
    Ret (0, lv_packet demo_body)
      (c_with_heap (<[0%N := SetSendBuf demo_data client1_sk]> (c_heap client1)) (c_next_ptr client1) client1).
Proof.
  apply (exchange_fills_buffer client1 0%N client1_sk demo_data [x00] demo_body);
    [vm_compute; reflexivity|vm_compute; congruence|vm_compute; congruence].
Defined.

Lemma exchange_error_aborts_witness :
  exists c', C_ToWriteThenReadSync 0%N demo_data [] (mkSyncIO 0 32 0 [] 0 []) client1 = Halt HAssert c'.
Proof.
  apply (exchange_error_aborts client1 0%N client1_sk).
  - eapply cr_step; [apply (cr_init 0)|].
    apply (cs_connect ep_bb1 demo_data [] io_empty (0, [x00; x00; x00; x04])). vm_compute. reflexivity.
  - vm_compute. reflexivity.
  - left. done.
Defined.

(** ** Packets and command lines *)

Lemma packets_round_trip_witness :
  view_ReqToBB1 (bytes_ReqToBB1 (mkReqToBB1 (mkBase (bswap32 16) 3 7) (-5))) =
    Some (mkReqToBB1 (mkBase (bswap32 16) 3 7) (-5)).
Proof.
  apply (proj1 (proj2 (proj2 packets_round_trip))); [|split; vm_compute; congruence].
  repeat (apply List.Forall_cons; [split; vm_compute; congruence|]). constructor.
Defined.

Lemma listen_ports_range_witness :
  runs (listen_ports listen_fuel T_TCP_LV 1 80 82 (fun _ => true)) bf0 (fun r s' =>
    r = true /\
    (forall e, is_Some (tcp_acceptor_map_ s' !! e) <->
       is_Some (tcp_acceptor_map_ bf0 !! e) \/ exists q, e = mkEndpoint 1 q /\ 80 <= q <= 82) /\
    exists l, pending s' = pending bf0 ++ l /\ zlen l = 82 - 80 + 1 /\
      Forall (fun o => exists a, o = async_accept a) l).
Proof. apply (listen_ports_range T_TCP_LV 1 80 82 bf0); [lia|lia|]. intros q _. apply lookup_empty. Defined.

Lemma listen_ports_never_ends_witness :
  match listen_ports 3 T_TCP_LV 1 65535 (2 ^ 16 - 1) (fun _ => true) bf0 with
  | Ret finished _ => finished = false
  | Halt _ _ => True
  end.
Proof. apply (listen_ports_never_ends 3 T_TCP_LV 1 65535 (fun _ => true) bf0). lia. Defined.

(** ** A request that waits for both back ends *)

Definition waiting : ReqLocalData :=
  mkReqLocalData false false
    (mkRspFromBF (mkBase (bswap32 sizeof_RspFromBF) T_RSP_FROM_BF 7) 0 0) (le32_enc 2) 5000.
Definition bf2_waiting : Skel := app_ld {[7 := waiting]} bf2.

Lemma bb_replies_commute_witness :
  exists final,
  (exists s1, BF_ReceiveRspFromBB1CallBack (reply_bb1 7 10) bf2_waiting = Ret 1 s1 /\
     pending s1 = pending bf2_waiting /\
     BF_ReceiveRspFromBB2CallBack (reply_bb2 7 20) s1 = Ret 1 final) /\
  (exists s2, BF_ReceiveRspFromBB2CallBack (reply_bb2 7 20) bf2_waiting = Ret 1 s2 /\
     pending s2 = pending bf2_waiting /\
     BF_ReceiveRspFromBB1CallBack (reply_bb1 7 10) s2 = Ret 1 final).
Proof.
  eexists.
  apply (bb_replies_commute bf2_waiting 7 10 20 waiting 2 0%N (sk_of bf2 0));
    first [apply wf_app_ld, (bf2_inv False) | split; vm_compute; congruence | vm_compute; reflexivity].
Defined.

Lemma bf2_lv_clients : lv_clients bf2.
Proof.
  intros p x Hx Hc.
  assert (H : Forall (fun px => is_client_ px.2 = false) (map_to_list (heap bf2)))
    by (vm_compute; repeat constructor).
  apply elem_of_map_to_list in Hx. rewrite list.Forall_forall in H.
  specialize (H _ Hx). cbn in H. congruence.
Qed.

Lemma BF_rejects_witness :
  ProcessData (reply_bb1 7 10) [] 0 [] 0 0 bf2 = Ret (-1) bf2.
Proof.
  apply (BF_rejects bf2 (reply_bb1 7 10) (mkBase (bswap32 16) T_RSP_FROM_BB1 7));
    [vm_compute; reflexivity|left; done].
Defined.

(** ** The other programs *)

Definition bb0 : @Skel BB_PROG := @new_Skel BB_PROG 0 0 (mkTestBB [] 81 81 (fun _ => 100) 0).
Definition bb1 : @Skel BB_PROG :=
  after (@call BB_PROG (@KAddTCPAcceptor BB_PROG ep_bb1 T_TCP_LV true)) bb0.
Definition bb2 : @Skel BB_PROG :=
  after (@deliver BB_PROG _ BB1_Program
           (EvComplete 0 (CAccept 0 (Some ep_client) (Some ep_bb1)))) bb1.

Lemma bb2_wf : @wf BB_PROG bb2.
Proof.
  refine (proj1 (@reachable_strict BB_PROG _ BB1_Program False (BB1_safe False) bb2 _)).
  destruct (after_returned (@call BB_PROG (@KAddTCPAcceptor BB_PROG ep_bb1 T_TCP_LV true)) bb0)
    as [r1 E1]; [vm_compute; reflexivity|].
  destruct (after_returned (@deliver BB_PROG _ BB1_Program
    (EvComplete 0 (CAccept 0 (Some ep_client) (Some ep_bb1)))) bb1) as [[] E2]; [vm_compute; reflexivity|].
  eapply reach_step; [|eapply step_event; exact E2].
  eapply reach_step; [apply reach_init|]. eapply step_call; [|exact E1]. done.
Qed.

Definition bb_request : ReqToBB1 := mkReqToBB1 (mkBase (bswap32 16) T_REQ_TO_BB1 7) 1.

Definition bb2_sk : @SocketInfo BB_PROG :=
  default (@new_SocketInfo BB_PROG T_TCP_LV 0) (heap bb2 !! 0%N).

Lemma BB1_answers_witness :
  exists s' data,
    BB1_ProcessData (bytes_ReqToBB1 bb_request) (le32_enc 2) 5000 [] 81 0 bb2 = Ret 2 s' /\
    pending s' = pending bb2 ++ [async_write 0%N data WThenReadL] /\
    (exists body, data = lv_packet body) /\
    view_RspFromBB1 data = Some (mkRspFromBB1
      (mkBase (bswap32 sizeof_RspFromBB1) T_RSP_FROM_BB1 (seq_ (req1_base bb_request))) (bb1_a_ bb_request + 100)).
Proof.
  apply (BB1_answers bb2 bb_request (le32_enc 2) 5000 [] 81 0 2 0%N bb2_sk 100 bb2_wf);
    first [ repeat (apply List.Forall_cons; [split; vm_compute; congruence|]); by constructor
          | split; vm_compute; congruence | vm_compute; reflexivity ].
Defined.

(** The request 1 + 2 of the client of [bf2], with back ends whose dice show 100. *)
Lemma request_answered_witness :
  exists s2 o1 o2 t1' t2' r1 r2,
    ProcessData (request_bf 7 1 2) (le32_enc 2) 5000 [] 80 0 bf2 = Ret 0 s2 /\
    pending s2 = pending bf2 ++ [o1; o2] /\
    BB1_ProcessData (ask_bb1 7 1) (le32_enc 2) 5000 [] 80 0 bb2 = Ret 2 t1' /\
    BB2_ProcessData (ask_bb2 7 2) (le32_enc 2) 5000 [] 80 0 bb2 = Ret 2 t2' /\
    pending t1' = pending bb2 ++ [async_write 0%N r1 WThenReadL] /\
    pending t2' = pending bb2 ++ [async_write 0%N r2 WThenReadL].
Proof.
  assert (Hc : connected_at bb2 (le32_enc 2) 5000 0%N)
    by (exists 2, bb2_sk; split_and!; vm_compute; reflexivity).
  destruct (request_answered bf2 bb2 bb2 7 1 2 (le32_enc 2) 5000 [] 80 0 (le32_enc 2) 5000 0%N
    (le32_enc 2) 5000 0%N (bf2_inv False) bf2_lv_clients ltac:(vm_compute; reflexivity)
    bb2_wf Hc bb2_wf Hc) as (s1 & s2 & o1 & o2 & t1' & t2' & r1 & r2 & E1 & E2 & _ & _ & E3 & E4 & E5 & E6 & _).
  { repeat (apply List.Forall_cons; [split; vm_compute; congruence|]). apply List.Forall_nil. }
  exists s2, o1, o2, t1', t2', r1, r2. split_and!; assumption.
Defined.

Definition c0 : @Skel Client_PROG := @new_Skel Client_PROG 0 0 (new_TestClient ep_listen).

Lemma client_tick_witness :
  exists s' o,
    Client_PrepareDataThenSend c0 = Ret tt s' /\ pending s' = pending c0 ++ [o] /\
    ticked (0 + 1) (app s') /\
    (exists p, o = async_write p (bytes_ReqToBF (nth_request 0)) WThenReadL \/
               o = async_connect p ep_listen (bytes_ReqToBF (nth_request 0))) /\
    exists body, bytes_ReqToBF (nth_request 0) = lv_packet body.
Proof.
  apply (client_tick c0 0).
  - apply (proj1 (@inv_init Client_PROG False 0 0 (new_TestClient ep_listen))).
  - intros p x Hx. simpl in Hx. by rewrite lookup_empty in Hx.
  - unfold int_max. lia.
  - done.
Defined.

Definition ub0 : @Skel UDPB_PROG := @new_Skel UDPB_PROG 1024 0 (mkUdpB (fun _ => 100) 0).
Definition ub1 : @Skel UDPB_PROG :=
  after (@call UDPB_PROG (@KInitUDPSocket UDPB_PROG ep_bb1 0)) ub0.

Lemma udp_server_stops_witness :
  match @deliver UDPB_PROG _ UdpB_Program
          (EvComplete 0 (CRecvFrom 0 ep_client (bytes_ReqToBB1 bb_request))) ub1 with
  | Ret _ s' => async_receive_from ∉ pending s'
  | Halt _ _ => True
  end.
Proof.
  apply (udp_server_stops ub1 0 ep_client (bytes_ReqToBB1 bb_request)).
  - vm_compute. reflexivity.
  - vm_compute. reflexivity.
  - intros [|j] Hj; [done|]. by destruct j.
Defined.
