(* ===== verification/SumDemo.v ===== *)
(** * The programs without callbacks on concrete runs

    Both front servers of [asio-based2/test] on a listening socket and a client,
    executed; the theorems of LvPrograms and HttpPrograms are applied there. *)

From S2P Require Import Prelude Wire SocketInfo Skeleton Handlers Reactor.
From S2P Require Import Invariant Safety ApiSafety HandlerSafety Reachable.
From S2P Require Import SkeletonProps Framing Http Requests Packets Options.
From S2P Require Import Bf Clients Erase SumServer LvPrograms HttpPrograms.
From S2P Require Demo.

#[local] Existing Instance Demo.demo_boost.

(** ** Over LV *)

Definition lv_first : Event := EvComplete 0 (CRead 0 (take 4 (request_bf 7 1 2))).
Definition lv_rest : Event := EvComplete 1 (CRead 0 (drop 4 (request_bf 7 1 2))).
Definition lv_between : @Skel BF_PROG := after (deliver (G := BF_Program) lv_first) Demo.bf2.

Lemma lv_bf_equivalent_witness :
  typed_run (G := BF_Program) expected [lv_first; lv_rest] Demo.bf2 /\
  outcome_rel eq erase
    (run (G := BF_Program) [lv_first; lv_rest] Demo.bf2)
    (run (G := LvBF_Program) [lv_first; lv_rest] (erase Demo.bf2)).
Proof.
  assert (H : typed_run (G := BF_Program) expected [lv_first; lv_rest] Demo.bf2).
  { apply (typed_run_cons (G := BF_Program) expected lv_first [lv_rest] Demo.bf2 lv_between);
      [exact I|vm_compute; reflexivity|]. apply typed_run_one.
    apply (typed_complete expected lv_between 1 _ (async_read 0%N 4 16 RVThenProcess));
      [vm_compute; reflexivity|]. intros x Hx. vm_compute in Hx. injection Hx as <-.
    vm_compute. split; congruence. }
  split; [exact H|]. apply (lv_bf_equivalent _ _ H).
Defined.

Lemma lv_bf_impersonated_witness :
  let first := EvComplete 0 (CRead 0 (take 4 (reply_bb1 7 9))) in
  let rest := EvComplete (length (delete 0%nat (pending Demo.bf2_waiting))) (CRead 0 (drop 4 (reply_bb1 7 9))) in
  (exists s', run (G := BF_Program) [first; rest] Demo.bf2_waiting = Ret tt s' /\ @app BF_PROG s' = @app BF_PROG Demo.bf2_waiting /\
     exists y, heap s' !! 0%N = Some y /\ tcp_sk_open y = false) /\
  (exists s', run (G := LvBF_Program) [first; rest] (erase Demo.bf2_waiting) = Halt HAssert s').
Proof.
  apply (lv_bf_impersonated Demo.bf2_waiting 0 0%N (Demo.sk_of Demo.bf2_waiting 0) 7 9 Demo.waiting);
    [split_and!; vm_compute; first [reflexivity|congruence]|by apply in_int_spec..
    |vm_compute; reflexivity|reflexivity|by apply in_int_spec].
Defined.

(** ** Over HTTP *)

Definition demo_print (z : Z) : option (list byte) :=
  if z =? 20 then Some (text "20") else None.

Definition http_app : TestBF :=
  mkTestBF (le32_enc 1) 80 80 ∅ Demo.ep_bb1 Demo.ep_bb2 (fun _ => Demo.bf_zero).
Definition http0 : @Skel HttpBF_PROG := @new_Skel HttpBF_PROG 0 0 http_app.
Definition http1 : @Skel HttpBF_PROG :=
  after (@call HttpBF_PROG (@KAddTCPAcceptor HttpBF_PROG Demo.ep_listen T_TCP_HTTP true)) http0.
Definition http2 : @Skel HttpBF_PROG :=
  after (deliver (G := HttpBF_Program demo_print)
    (EvComplete 0 (CAccept 0 (Some Demo.ep_client) (Some Demo.ep_listen)))) http1.
Definition http_sk : @SocketInfo HttpBF_PROG :=
  default (@new_SocketInfo HttpBF_PROG T_TCP_LV 0) (heap http2 !! 0%N).

Lemma http2_inv : inv False http2.
Proof.
  apply (reachable_strict (G := HttpBF_Program demo_print)); [apply _|].
  destruct (after_returned (@call HttpBF_PROG (@KAddTCPAcceptor HttpBF_PROG Demo.ep_listen T_TCP_HTTP true)) http0)
    as [r1 E1]; [vm_compute; reflexivity|].
  destruct (after_returned (deliver (G := HttpBF_Program demo_print)
    (EvComplete 0 (CAccept 0 (Some Demo.ep_client) (Some Demo.ep_listen)))) http1) as [[] E2]; [vm_compute; reflexivity|].
  eapply reach_step; [|eapply step_event; exact E2].
  eapply reach_step; [apply reach_init|]. eapply step_call; [|exact E1]. done.
Qed.

Lemma demo_reads_20 : lexical_cast_int (text "20") = Some 20.
Proof. vm_compute. reflexivity. Qed.

Lemma http2_waits : http_waits http2 0 0%N http_sk 1024.
Proof.
  unfold http_waits, waits_for_head. split_and!; vm_compute; first [reflexivity|congruence].
Qed.

Lemma http2_lv : lv_clients http2.
Proof.
  intros p x Hx Hc.
  assert (H : forallb (fun px : N * @SocketInfo HttpBF_PROG => negb (is_client_ px.2)) (map_to_list (heap http2) : list (N * @SocketInfo HttpBF_PROG)) = true)
    by (vm_compute; reflexivity).
  rewrite forallb_forall in H. apply elem_of_map_to_list, list_elem_of_In, H in Hx.
  cbn in Hx. by rewrite Hc in Hx.
Qed.

Lemma http_request_served_witness :
  exists (s1 s2 : @Skel HttpBF_PROG) (o1 o2 : AsyncOp),
    deliver (G := HttpBF_Program demo_print) (EvComplete 0 (CRead 0 (http_request 5))) http2 = Ret tt s2 /\
    ld_ (@app HttpBF_PROG s2) = <[6 := new_request Demo.bf_zero 6 (le32_enc 2) 5000]> (ld_ (@app HttpBF_PROG http2)) /\
    pending s2 = delete 0%nat (pending http2) ++ [o1; o2] /\
    asks s1 o1 Demo.ep_bb1 (ask_bb1 6 5) /\ asks s2 o2 Demo.ep_bb2 (ask_bb2 6 (-6)) /\
    (exists y, heap s2 !! 0%N = Some y /\ is_client_ y = false /\ type_ y = type_ http_sk) /\ inv False s2.
Proof.
  apply (http_request_served demo_print demo_reads_20 http2 0 0%N http_sk 1024 5 http2_inv http2_lv http2_waits);
    [split; [lia|vm_compute; reflexivity]|vm_compute; reflexivity].
Defined.

Lemma http_split_undefined_witness :
  let content := bytes_ReqToBF (nth_request 5) in
  exists s1 s2 : @Skel HttpBF_PROG,
    deliver (G := HttpBF_Program demo_print) (EvComplete 0 (CRead 0 (http_head ++ take 3 content))) http2 = Ret tt s1 /\
    deliver (G := HttpBF_Program demo_print)
      (EvComplete (length (delete 0%nat (pending http2))) (CRead 0 (drop 3 content))) s1 = Halt HUndefined s2.
Proof.
  apply (http_split_undefined demo_print demo_reads_20 http2 0 0%N http_sk 1024 5 3 http2_waits); [done|lia].
Defined.
