(* ===== verification/NfServer.v ===== *)
(** * The thread-pool server: [all-sync/server.hpp], [socket.hpp], [socketaddr.hpp]

    Class [Server] of namespace [NF]: a main thread waits with [epoll] and hands
    readable connections to worker threads through one ready list per listening
    socket; a worker gives a connection back through the reuse list and wakes the
    main thread with a byte on a local socket pair.

    A [Socket*] is an address in [sheap].  [delete] takes the object away, so a
    later use is undefined.  The system calls are arguments: each operation is
    given what the system answers to the calls it makes.  What the kernel holds is
    in the state: the open descriptors, the set [epoll_ctl] built, and the bytes
    in the local socket pair.  A critical section of a mutex is one operation. *)

From S2P Require Import Prelude Wire.

Abbreviation ptr := N (only parsing).

(** [inet_ntoa] ([None]: it returns 0) and [inet_aton] of the C library. *)
Class Inet := {
  inet_ntoa : Z -> option (list byte);
  inet_aton : list byte -> option Z
}.

(** ** [class Socket], [class SocketAddr], [class Packet] *)

Record Socket := mkSocket {
  sk_ : Z;
  my_ipstr_ : list byte;
  my_ip_ : Z;
  my_port_ : Z;
  peer_ipstr_ : list byte;
  peer_ip_ : Z;
  peer_port_ : Z;
  id_ : Z;
  sk_type_ : Z
}.

(** The constructor; it leaves [my_ip_] and [peer_ip_] indeterminate (0 here:
    they are set before they are read). *)
Definition new_Socket (sk : Z) : Socket := mkSocket sk [] 0 0 [] 0 0 (2 ^ 32 - 1) 0.

Definition set_my_ipstr (v : list byte) (x : Socket) : Socket :=
  mkSocket (sk_ x) v (my_ip_ x) (my_port_ x) (peer_ipstr_ x) (peer_ip_ x) (peer_port_ x) (id_ x) (sk_type_ x).
Definition set_my_ip (v : Z) (x : Socket) : Socket :=
  mkSocket (sk_ x) (my_ipstr_ x) v (my_port_ x) (peer_ipstr_ x) (peer_ip_ x) (peer_port_ x) (id_ x) (sk_type_ x).
Definition set_my_port (v : Z) (x : Socket) : Socket :=
  mkSocket (sk_ x) (my_ipstr_ x) (my_ip_ x) v (peer_ipstr_ x) (peer_ip_ x) (peer_port_ x) (id_ x) (sk_type_ x).
Definition set_peer_ipstr (v : list byte) (x : Socket) : Socket :=
  mkSocket (sk_ x) (my_ipstr_ x) (my_ip_ x) (my_port_ x) v (peer_ip_ x) (peer_port_ x) (id_ x) (sk_type_ x).
Definition set_peer_ip (v : Z) (x : Socket) : Socket :=
  mkSocket (sk_ x) (my_ipstr_ x) (my_ip_ x) (my_port_ x) (peer_ipstr_ x) v (peer_port_ x) (id_ x) (sk_type_ x).
Definition set_peer_port (v : Z) (x : Socket) : Socket :=
  mkSocket (sk_ x) (my_ipstr_ x) (my_ip_ x) (my_port_ x) (peer_ipstr_ x) (peer_ip_ x) v (id_ x) (sk_type_ x).
Definition set_id (v : Z) (x : Socket) : Socket :=
  mkSocket (sk_ x) (my_ipstr_ x) (my_ip_ x) (my_port_ x) (peer_ipstr_ x) (peer_ip_ x) (peer_port_ x) v (sk_type_ x).
Definition set_sk_type (v : Z) (x : Socket) : Socket :=
  mkSocket (sk_ x) (my_ipstr_ x) (my_ip_ x) (my_port_ x) (peer_ipstr_ x) (peer_ip_ x) (peer_port_ x) (id_ x) v.

Record SocketAddr := mkSocketAddr { ip_ : list byte; port_ : Z }.

(** [arrive_time_] is a member nobody sets or reads. *)
Record Packet := mkPacket { from_ : SocketAddr; to_ : SocketAddr; data_ : list byte }.

(** [htons] and [ntohs]. *)
Definition bswap16 (z : Z) : Z := (z mod 2 ^ 8) * 2 ^ 8 + (z / 2 ^ 8) mod 2 ^ 8.

(** ** The data members of [Server] *)

Record Server := mkServer {
  epoll_size_ : Z;
  max_server_socket_num_ : Z;
  timer_interval_ : Z;
  sheap : gmap N Socket;
  snext : N;
  listen_socket_list_ : list N;
  srv_udp_socket_ : option N;
  udp_recv_list_ : list Packet;
  server_socket_ready_list_ : list (list N);
  server_socket_reuse_list_ : gmap Z (list N);
  local_socket_ : option N;
  epoll_cancel_ : bool;
  open_fds : gset Z;
  epoll_set : gmap Z (Z * N);
  local_bytes : Z
}.

(** The constructor.  It does not initialise [udp_socket_], whose value is
    [garbage], nor [local_socket_], which [InitServer] sets. *)
Definition new_Server (epoll_size max_server_socket_num timer_interval : Z)
    (garbage : option ptr) (fds : gset Z) : Server :=
  mkServer epoll_size max_server_socket_num timer_interval ∅ 0 [] garbage [] [] ∅ None false fds ∅ 0.

Definition with_sheap h n s := mkServer (epoll_size_ s) (max_server_socket_num_ s) (timer_interval_ s)
  h n (listen_socket_list_ s) (srv_udp_socket_ s) (udp_recv_list_ s) (server_socket_ready_list_ s)
  (server_socket_reuse_list_ s) (local_socket_ s) (epoll_cancel_ s) (open_fds s) (epoll_set s) (local_bytes s).
Definition with_listen l s := mkServer (epoll_size_ s) (max_server_socket_num_ s) (timer_interval_ s)
  (sheap s) (snext s) l (srv_udp_socket_ s) (udp_recv_list_ s) (server_socket_ready_list_ s)
  (server_socket_reuse_list_ s) (local_socket_ s) (epoll_cancel_ s) (open_fds s) (epoll_set s) (local_bytes s).
Definition with_srv_udp u s := mkServer (epoll_size_ s) (max_server_socket_num_ s) (timer_interval_ s)
  (sheap s) (snext s) (listen_socket_list_ s) u (udp_recv_list_ s) (server_socket_ready_list_ s)
  (server_socket_reuse_list_ s) (local_socket_ s) (epoll_cancel_ s) (open_fds s) (epoll_set s) (local_bytes s).
Definition with_udp_recv l s := mkServer (epoll_size_ s) (max_server_socket_num_ s) (timer_interval_ s)
  (sheap s) (snext s) (listen_socket_list_ s) (srv_udp_socket_ s) l (server_socket_ready_list_ s)
  (server_socket_reuse_list_ s) (local_socket_ s) (epoll_cancel_ s) (open_fds s) (epoll_set s) (local_bytes s).
Definition with_ready l s := mkServer (epoll_size_ s) (max_server_socket_num_ s) (timer_interval_ s)
  (sheap s) (snext s) (listen_socket_list_ s) (srv_udp_socket_ s) (udp_recv_list_ s) l
  (server_socket_reuse_list_ s) (local_socket_ s) (epoll_cancel_ s) (open_fds s) (epoll_set s) (local_bytes s).
Definition with_reuse m s := mkServer (epoll_size_ s) (max_server_socket_num_ s) (timer_interval_ s)
  (sheap s) (snext s) (listen_socket_list_ s) (srv_udp_socket_ s) (udp_recv_list_ s) (server_socket_ready_list_ s)
  m (local_socket_ s) (epoll_cancel_ s) (open_fds s) (epoll_set s) (local_bytes s).
Definition with_local p s := mkServer (epoll_size_ s) (max_server_socket_num_ s) (timer_interval_ s)
  (sheap s) (snext s) (listen_socket_list_ s) (srv_udp_socket_ s) (udp_recv_list_ s) (server_socket_ready_list_ s)
  (server_socket_reuse_list_ s) p (epoll_cancel_ s) (open_fds s) (epoll_set s) (local_bytes s).
Definition with_cancel b s := mkServer (epoll_size_ s) (max_server_socket_num_ s) (timer_interval_ s)
  (sheap s) (snext s) (listen_socket_list_ s) (srv_udp_socket_ s) (udp_recv_list_ s) (server_socket_ready_list_ s)
  (server_socket_reuse_list_ s) (local_socket_ s) b (open_fds s) (epoll_set s) (local_bytes s).
Definition with_kernel fds e b s := mkServer (epoll_size_ s) (max_server_socket_num_ s) (timer_interval_ s)
  (sheap s) (snext s) (listen_socket_list_ s) (srv_udp_socket_ s) (udp_recv_list_ s) (server_socket_ready_list_ s)
  (server_socket_reuse_list_ s) (local_socket_ s) (epoll_cancel_ s) fds e b.

(** ** Objects and system calls *)

Definition sderef (p : ptr) : M Server Socket :=
  let! h := gets sheap in of_option HUndefined (h !! p).

Definition supdate (p : ptr) (f : Socket -> Socket) : M Server unit :=
  let! x := sderef p in
  modify (fun s => with_sheap (<[p := f x]> (sheap s)) (snext s) s).

(** [new Socket(fd)] on a descriptor the system has just opened. *)
Definition snew (fd : Z) : M Server ptr :=
  let! s := gets id in
  modify (fun s => with_sheap (<[snext s := new_Socket fd]> (sheap s)) (N.succ (snext s)) s) ;;!
  ret (snext s).

Definition sdelete (p : ptr) : M Server unit :=
  sderef p ;;! modify (fun s => with_sheap (delete p (sheap s)) (snext s) s).

(** The system opens a descriptor. *)
Definition sys_open (fd : Z) : M Server unit :=
  modify (fun s => with_kernel ({[fd]} ∪ open_fds s) (epoll_set s) (local_bytes s) s).

(** [Socket::Close]: the kernel also takes a closed descriptor out of the epoll
    set. *)
Definition Socket_Close (p : ptr) : M Server unit :=
  let! x := sderef p in
  modify (fun s => with_kernel (open_fds s ∖ {[sk_ x]}) (delete (sk_ x) (epoll_set s)) (local_bytes s) s).

(** [epoll_ctl(EPOLL_CTL_ADD)]: it fails when the descriptor is in the set, and
    when the system says so. *)
Definition epoll_ctl_add (fd events : Z) (data : ptr) (ok : bool) : M Server Z :=
  let! e := gets epoll_set in
  if ok && bool_decide (e !! fd = None)
  then modify (fun s => with_kernel (open_fds s) (<[fd := (events, data)]> e) (local_bytes s) s) ;;! ret 0
  else ret (-1).

Definition epoll_ctl_del (fd : Z) : M Server unit :=
  modify (fun s => with_kernel (open_fds s) (delete fd (epoll_set s)) (local_bytes s) s).

Definition EPOLLIN : Z := 1.
Definition EPOLLERR : Z := 8.
Definition EPOLLRDHUP : Z := 8192.

(** [uint32_t]. *)
Definition to_u32 (z : Z) : Z := z mod 2 ^ 32.

(** ** Setting up *)

(** [TimerHandler]: a derived class may do more; what it returns is the next
    timeout. *)
Definition TimerHandler (s : Server) : Z := timer_interval_ s.

(** [epoll_fd]: what [epoll_create] answers; [pair]: the two descriptors of
    [socketpair], or [None]. *)
Definition InitServer (epoll_fd : Z) (pair : option (Z * Z)) : M Server Z :=
  if epoll_fd <? 0 then ret (-1)
  else
    sys_open epoll_fd ;;!
    match pair with
    | None => ret (-1)
    | Some (fd0, fd1) =>
        sys_open fd0 ;;! sys_open fd1 ;;!
        let! p := snew fd1 in
        supdate p (set_id (2 ^ 32 - 1)) ;;!
        supdate p (set_sk_type 4) ;;!
        modify (with_local (Some p)) ;;!
        ret 0
    end.

Definition StopServer : M Server unit := modify (with_cancel true).

Section Server.
  Context {I : Inet}.

Definition AddListenSocket (ip : list byte) (port fd : Z) (bind_ok listen_ok : bool) : M Server Z :=
  if fd <? 0 then ret (-1)
  else
    sys_open fd ;;!
    match inet_aton ip with
    | None => ret (-1)
    | Some sin_addr =>
        if negb bind_ok then ret (-1)
        else if negb listen_ok then ret (-1)
        else
          let! newsk := snew fd in
          supdate newsk (set_my_ipstr ip) ;;!
          supdate newsk (set_my_ip sin_addr) ;;!
          supdate newsk (set_my_port port) ;;!
          let! l := gets listen_socket_list_ in
          supdate newsk (set_id (to_u32 (zlen l))) ;;!
          supdate newsk (set_sk_type 1) ;;!
          modify (with_listen (l ++ [newsk])) ;;!
          modify (fun s => with_ready (server_socket_ready_list_ s ++ [[]]) s) ;;!
          let! r := gets server_socket_ready_list_ in
          let index := to_int (zlen r) - 1 in
          assert_ (0 <=? index) ;;!
          ret index
    end.

Definition Server_InitUDPSocket (ip : list byte) (port fd : Z) (bind_ok : bool) : M Server Z :=
  if fd <? 0 then ret (-1)
  else
    sys_open fd ;;!
    match inet_aton ip with
    | None => ret (-1)
    | Some sin_addr =>
        if negb bind_ok then ret (-1)
        else
          let! p := snew fd in
          modify (with_srv_udp (Some p)) ;;!
          supdate p (set_my_ipstr ip) ;;!
          supdate p (set_my_ip sin_addr) ;;!
          supdate p (set_my_port port) ;;!
          supdate p (set_id (2 ^ 32 - 1)) ;;!
          supdate p (set_sk_type 3) ;;!
          ret 0
    end.

(** ** The lists the threads share *)

(** One turn of the loop of [InsertServerReadySocket]: append under the mutex of
    the list; the log reads the first socket. *)
Definition insert_ready_step (it : Z * list ptr) : M Server unit :=
  let! r := gets server_socket_ready_list_ in
  match r !! Z.to_nat it.1 with
  | None => stop HAssert
  | Some l =>
      modify (with_ready (<[Z.to_nat it.1 := l ++ it.2]> r)) ;;!
      let! p := of_option HUndefined (head it.2) in
      sderef p ;;! ret tt
  end.

(** [std::map] iterates in the order of the keys, [map_to_list] in another one: each
    turn appends to the list of its own key, so the order does not matter. *)
Definition InsertServerReadySocket (sk_map : gmap Z (list ptr)) : M Server unit :=
  forM (map_to_list sk_map) insert_ready_step.

(** [GetServerReadySocket] up to the point where it has a socket, returns null,
    or waits on the condition variable (and looks again when it wakes up). *)
Inductive GetResult :=
| GetNull
| GetWait
| GetSocket (p : ptr).

Definition GetServerReadySocket (index : Z) : M Server GetResult :=
  let! r := gets server_socket_ready_list_ in
  match r !! Z.to_nat index with
  | None => ret GetNull
  | Some [] => ret GetWait
  | Some (p :: l) =>
      modify (with_ready (<[Z.to_nat index := l]> r)) ;;!
      sderef p ;;!
      ret (GetSocket p)
  end.

(** [send_ret]: what [send] of the wake-up byte answers. *)
Definition InsertServerReuseSocket (pool_index : Z) (sk : ptr) (send_ret : Z) : M Server Z :=
  sderef sk ;;!
  modify (fun s => with_reuse
    (<[pool_index := default [] (server_socket_reuse_list_ s !! pool_index) ++ [sk]]>
       (server_socket_reuse_list_ s)) s) ;;!
  (if send_ret <=? 0 then ret tt
   else modify (fun s => with_kernel (open_fds s) (epoll_set s) (local_bytes s + 1) s)) ;;!
  ret send_ret.

Definition GetServerReuseSocketList : M Server (gmap Z (list ptr)) :=
  let! m := gets server_socket_reuse_list_ in
  modify (with_reuse ∅) ;;! ret m.

Definition InsertUDPRecvPacket (pkt_list : list Packet) : M Server Z :=
  modify (fun s => with_udp_recv (udp_recv_list_ s ++ pkt_list) s) ;;! ret 0.

(** [None]: it waits on the condition variable. *)
Definition GetUDPPacket : M Server (option Packet) :=
  let! l := gets udp_recv_list_ in
  match l with
  | [] => ret None
  | k :: l' => modify (with_udp_recv l') ;;! ret (Some k)
  end.

(** [SocketIO::UDPSend] under the mutex; [ret_]: what [sendto] answers. *)
Definition Server_UDPSend (to_ip : list byte) (to_port : Z) (buf : list byte) (ret_ : Z) : M Server Z :=
  let! u := gets srv_udp_socket_ in
  let! p := of_option HUndefined u in
  sderef p ;;!
  match inet_aton to_ip with
  | None => ret (-1)
  | Some _ => if ret_ <=? 0 then ret (-1) else ret 0
  end.

(** ** [EpollProcess] *)

(** What the system answers while one event is processed: the connections
    [accept] returns (descriptor, address, port in network order) until it fails,
    the datagrams [recvfrom] returns until it fails, and for which descriptors
    [epoll_ctl] succeeds. *)
Record Answers := mkAnswers {
  accepted : list (Z * Z * Z);
  datagrams : list (list byte * Z * Z);
  ctl_ok : Z -> bool
}.

(** One turn of the accept loop.  When [inet_ntoa] fails the object is deleted
    and its descriptor stays open.  The system never returns a descriptor that is
    open: such an answer changes nothing. *)
Definition accept_step (listen_sk : Socket) (ctl : Z -> bool) (a : Z * Z * Z) : M Server unit :=
  let '(new_fd, sin_addr, sin_port) := a in
  let! fds := gets open_fds in
  if bool_decide (new_fd ∈ fds) then ret tt else
  sys_open new_fd ;;!
  let! new_sk := snew new_fd in
  supdate new_sk (set_my_ip (my_ip_ listen_sk)) ;;!
  supdate new_sk (set_my_ipstr (my_ipstr_ listen_sk)) ;;!
  supdate new_sk (set_my_port (my_port_ listen_sk)) ;;!
  supdate new_sk (set_peer_ip sin_addr) ;;!
  supdate new_sk (set_peer_port (bswap16 sin_port)) ;;!
  supdate new_sk (set_id (id_ listen_sk)) ;;!
  supdate new_sk (set_sk_type 2) ;;!
  match inet_ntoa sin_addr with
  | None => sdelete new_sk
  | Some tmps =>
      supdate new_sk (set_peer_ipstr tmps) ;;!
      let! r := epoll_ctl_add new_fd (Z.lor EPOLLIN EPOLLRDHUP) new_sk (ctl new_fd) in
      if negb (r =? 0) then Socket_Close new_sk ;;! sdelete new_sk else ret tt
  end.

(** The datagrams up to the first whose address [inet_ntoa] does not print. *)
Fixpoint packets_of (udp_sk : Socket) (l : list (list byte * Z * Z)) : list Packet :=
  match l with
  | [] => []
  | (data, sin_addr, sin_port) :: l' =>
      match inet_ntoa sin_addr with
      | None => []
      | Some str =>
          mkPacket (mkSocketAddr str (bswap16 sin_port)) (mkSocketAddr (my_ipstr_ udp_sk) (my_port_ udp_sk)) data
            :: packets_of udp_sk l'
      end
  end.

(** [PLocal]: the event is on the local socket; the rest of that branch is
    [local_recv] and [local_add], between which the worker threads may run. *)
Inductive ProcessResult :=
| PResult (r : Z)
| PLocal.

Definition EpollProcess (events : Z) (triggered_sk : ptr) (server_sk_map : gmap Z (list ptr))
    (a : Answers) : M Server (ProcessResult * gmap Z (list ptr)) :=
  let! x := sderef triggered_sk in
  if negb (Z.land events EPOLLERR =? 0) then ret (PResult (-1), server_sk_map)
  else if negb (Z.land events EPOLLIN =? 0) || negb (Z.land events EPOLLRDHUP =? 0) then
    if sk_type_ x =? 1 then
      forM (accepted a) (accept_step x (ctl_ok a)) ;;!
      ret (PResult 0, server_sk_map)
    else if sk_type_ x =? 2 then
      if negb (Z.land events EPOLLRDHUP =? 0) then ret (PResult (-2), server_sk_map)
      else ret (PResult 1,
        <[id_ x := default [] (server_sk_map !! id_ x) ++ [triggered_sk]]> server_sk_map)
    else if sk_type_ x =? 3 then
      (match packets_of x (datagrams a) with
       | [] => ret tt
       | l => InsertUDPRecvPacket l ;;! ret tt
       end) ;;!
      ret (PResult 0, server_sk_map)
    else if sk_type_ x =? 4 then ret (PLocal, server_sk_map)
    else stop HAssert
  else ret (PResult 0, server_sk_map).

(** One [recv] of at most 1024 bytes from the local socket, which blocks while
    there are none: [None]; otherwise whether the loop goes on. *)
Definition local_recv : M Server (option bool) :=
  let! n := gets local_bytes in
  if n <=? 0 then ret None
  else
    let r := n `min` 1024 in
    modify (fun s => with_kernel (open_fds s) (epoll_set s) (n - r) s) ;;!
    ret (Some (r =? 1024)).

(** A [recv] that fails: whatever [errno] is, one of the three inequalities
    holds, and the process exits. *)
Definition local_recv_error (errno : Z) : M Server unit :=
  if negb (errno =? 11) || negb (errno =? 11) || negb (errno =? 4) then stop (HExit 1) else ret tt.

(** Put one socket that was given back into the epoll set. *)
Definition add_reused (ctl : Z -> bool) (p : ptr) : M Server unit :=
  let! x := sderef p in
  let! r := epoll_ctl_add (sk_ x) (Z.lor EPOLLIN EPOLLRDHUP) p (ctl (sk_ x)) in
  if r =? -1 then Socket_Close p ;;! sdelete p else ret tt.

(** Here too the order of the keys only changes the order in which the sockets are
    added to the epoll set. *)
Definition local_add (ctl : Z -> bool) : M Server unit :=
  let! sk_list := GetServerReuseSocketList in
  forM (map_to_list sk_list) (fun it => forM it.2 (add_reused ctl)).

(** ** [RunServer] and [EpollLoop] *)

(** The loop that adds the listening sockets: [false] when one could not be
    added. *)
Fixpoint add_listeners (ctl : Z -> bool) (l : list ptr) : M Server bool :=
  match l with
  | [] => ret true
  | p :: l' =>
      let! x := sderef p in
      let! r := epoll_ctl_add (sk_ x) EPOLLIN p (ctl (sk_ x)) in
      if r =? -1 then ret false else add_listeners ctl l'
  end.

(** [RunServer] up to [EpollLoop], which runs when this returns 0. *)
Definition RunServer (ctl : Z -> bool) : M Server Z :=
  let! s := gets id in
  match listen_socket_list_ s, srv_udp_socket_ s with
  | [], None => ret (-1)
  | l, u =>
      let! b := add_listeners ctl l in
      if negb b then ret (-2)
      else
        let! b := (match u with Some p => add_listeners ctl [p] | None => ret true end) in
        if negb b then ret (-2)
        else
          let! p := of_option HUndefined (local_socket_ s) in
          let! b := add_listeners ctl [p] in
          if negb b then ret (-2) else ret 0
  end.

(** The body of the loop over the events [epoll_wait] returned. *)
Definition loop_event (events : Z) (triggered_sk : ptr) (server_sk_map : gmap Z (list ptr))
    (a : Answers) : M Server (ProcessResult * gmap Z (list ptr)) :=
  let! rm := EpollProcess events triggered_sk server_sk_map a in
  match rm.1 with
  | PResult result =>
      (if (result <? 0) || (result =? 1) then
         let! x := sderef triggered_sk in
         epoll_ctl_del (sk_ x) ;;!
         if result <? 0 then Socket_Close triggered_sk ;;! sdelete triggered_sk else ret tt
       else ret tt) ;;!
      ret rm
  | PLocal => ret rm
  end.

(** After the events: hand the ready sockets over. *)
Definition loop_ready (server_sk_map : gmap Z (list ptr)) : M Server unit :=
  if bool_decide (server_sk_map = ∅) then ret tt else InsertServerReadySocket server_sk_map.

(** The timeout of the next [epoll_wait], from the seconds and microseconds at
    the start and at the end of this turn. *)
Definition next_timeout (s : Server) (timeout start_sec start_usec end_sec end_usec : Z) : Z :=
  let t := to_int (timeout - (end_sec - start_sec) * 1000 + Z.quot (end_usec - start_usec) 1000) in
  if t <=? 100 then TimerHandler s else t.

End Server.
