(* ===== verification/NfThreads.v ===== *)
(** * The threads of the server and who owns a socket

    The main thread ([RunServer], [EpollLoop]) and the workers as a step relation:
    a step is one critical section, one event, or one system call that may
    block, and steps of different threads come in any order.  A worker follows
    the protocol of the [Process] functions: it gets a ready socket, and either
    gives it back or closes and deletes it.

    The invariant says who owns a socket: the epoll set, the map of the main
    thread, a ready list, a worker, or the reuse list. *)

From S2P Require Import Prelude Wire NfServer.

Section Threads.
  Context {I : Inet}.

(** ** The system *)

(** Where the main thread is: setting up, at [epoll_wait], in the loop over the
    events, in the [recv] of the local socket, after it, or returned. *)
Inductive MainState :=
| MSetup
| MLoop
| MBatch (events : list (Z * N)) (server_sk_map : gmap Z (list N))
| MRecv (rest : list (Z * N)) (server_sk_map : gmap Z (list N))
| MReuse (rest : list (Z * N)) (server_sk_map : gmap Z (list N))
| MReturn.

Inductive WorkerState :=
| WRun
| WWait
| WHold (p : N).

Record Worker := mkWorker { pool_index_ : Z; wstate : WorkerState }.

Record System := mkSystem {
  srv : Server;
  main : MainState;
  timeout : Z;
  workers : list Worker
}.

Definition set_worker (w : nat) (st : WorkerState) (k : System) : list Worker :=
  match workers k !! w with
  | Some x => <[w := mkWorker (pool_index_ x) st]> (workers k)
  | None => workers k
  end.

(** Where the main thread goes after one event. *)
Definition after_event (r : ProcessResult) (rest : list (Z * N)) (m : gmap Z (list N)) : MainState :=
  match r with PResult _ => MBatch rest m | PLocal => MRecv rest m end.

(** What [epoll_wait] may return: at most [epoll_size_] events, on different
    descriptors of the set, with the pointers registered for them. *)
Definition awaited (s : Server) (events : list (Z * N)) : Prop :=
  events <> [] /\ zlen events <= epoll_size_ s /\
  exists fds, NoDup fds /\
    Forall2 (fun fd ev => exists mask, epoll_set s !! fd = Some (mask, ev.2)) fds events.

Definition fresh (fd : Z) (s : Server) : Prop := fd ∉ open_fds s.

(** [may_fail]: the wake-up byte of [InsertServerReuseSocket] may fail. *)
Inductive step (may_fail : Prop) : System -> System -> Prop :=
| step_init k efd pair r s' :
    main k = MSetup -> fresh efd (srv k) ->
    (forall fd0 fd1, pair = Some (fd0, fd1) ->
       fresh fd0 (srv k) /\ fresh fd1 (srv k) /\ NoDup [efd; fd0; fd1]) ->
    InitServer efd pair (srv k) = Ret r s' ->
    step may_fail k (mkSystem s' MSetup (timeout k) (workers k))
| step_listen k ip port fd b l r s' :
    main k = MSetup -> fresh fd (srv k) -> AddListenSocket ip port fd b l (srv k) = Ret r s' ->
    step may_fail k (mkSystem s' MSetup (timeout k) (workers k))
| step_udp k ip port fd b r s' :
    main k = MSetup -> fresh fd (srv k) -> Server_InitUDPSocket ip port fd b (srv k) = Ret r s' ->
    step may_fail k (mkSystem s' MSetup (timeout k) (workers k))
| step_run k ctl r s' :
    main k = MSetup -> RunServer ctl (srv k) = Ret r s' ->
    step may_fail k (mkSystem s' (if r =? 0 then MLoop else MReturn) (timer_interval_ s') (workers k))
| step_cancelled k :
    main k = MLoop -> epoll_cancel_ (srv k) = true ->
    step may_fail k (mkSystem (srv k) MReturn (timeout k) (workers k))
| step_wait_error k :
    main k = MLoop -> step may_fail k (mkSystem (srv k) MReturn (timeout k) (workers k))
| step_timeout k :
    main k = MLoop -> step may_fail k (mkSystem (srv k) MLoop (TimerHandler (srv k)) (workers k))
| step_wait k events :
    main k = MLoop -> epoll_cancel_ (srv k) = false -> awaited (srv k) events ->
    step may_fail k (mkSystem (srv k) (MBatch events ∅) (timeout k) (workers k))
| step_event k ev p rest m a r m' s' :
    main k = MBatch ((ev, p) :: rest) m -> loop_event ev p m a (srv k) = Ret (r, m') s' ->
    step may_fail k (mkSystem s' (after_event r rest m') (timeout k) (workers k))
| step_recv k rest m more s' :
    main k = MRecv rest m -> local_recv (srv k) = Ret (Some more) s' ->
    step may_fail k (mkSystem s' (if more : bool then MRecv rest m else MReuse rest m)
                       (timeout k) (workers k))
| step_reuse k rest m ctl s' :
    main k = MReuse rest m -> local_add ctl (srv k) = Ret tt s' ->
    step may_fail k (mkSystem s' (MBatch rest m) (timeout k) (workers k))
| step_ready k m ss su es eu s' :
    main k = MBatch [] m -> loop_ready m (srv k) = Ret tt s' ->
    step may_fail k (mkSystem s' MLoop (next_timeout s' (timeout k) ss su es eu) (workers k))
| step_stop k s' :
    StopServer (srv k) = Ret tt s' ->
    step may_fail k (mkSystem s' (main k) (timeout k) (workers k))
| step_get k w i r s' :
    workers k !! w = Some (mkWorker i WRun) -> GetServerReadySocket i (srv k) = Ret r s' ->
    step may_fail k (mkSystem s' (main k) (timeout k)
      (set_worker w (match r with GetNull => WRun | GetWait => WWait | GetSocket p => WHold p end) k))
| step_wake k w i :
    workers k !! w = Some (mkWorker i WWait) ->
    step may_fail k (mkSystem (srv k) (main k) (timeout k) (set_worker w WRun k))
| step_give k w i p sent r s' :
    workers k !! w = Some (mkWorker i (WHold p)) -> sent = 1 \/ (may_fail /\ sent <= 0) ->
    InsertServerReuseSocket i p sent (srv k) = Ret r s' ->
    step may_fail k (mkSystem s' (main k) (timeout k) (set_worker w WRun k))
| step_destroy k w i p s' :
    workers k !! w = Some (mkWorker i (WHold p)) ->
    (Socket_Close p ;;! sdelete p) (srv k) = Ret tt s' ->
    step may_fail k (mkSystem s' (main k) (timeout k) (set_worker w WRun k))
| step_packet k w i r s' :
    workers k !! w = Some (mkWorker i WRun) -> GetUDPPacket (srv k) = Ret r s' ->
    step may_fail k (mkSystem s' (main k) (timeout k) (workers k)).

(** The states of a run.  The memory of a new [Server] happens to hold a null
    [udp_socket_]. *)
Inductive reachable (may_fail : Prop) : System -> Prop :=
| reach_init es mx ti fds ws :
    Forall (fun w => 0 <= pool_index_ w /\ wstate w = WRun) ws ->
    reachable may_fail (mkSystem (new_Server es mx ti None fds) MSetup ti ws)
| reach_step k k' : reachable may_fail k -> step may_fail k k' -> reachable may_fail k'.

End Threads.

(** ** Counting *)

Fixpoint occ (p : N) (l : list N) : nat :=
  match l with
  | [] => 0
  | q :: l' => (if decide (p = q) then 1 else 0) + occ p l'
  end%nat.

Lemma occ_app p l l' : occ p (l ++ l') = (occ p l + occ p l')%nat.
Proof. induction l as [|q l IH]; simpl; [done|]. rewrite IH. lia. Qed.

Lemma occ_perm p l l' : l ≡ₚ l' -> occ p l = occ p l'.
Proof. induction 1; simpl; lia. Qed.

Lemma occ_pos p l : p ∈ l <-> (0 < occ p l)%nat.
Proof.
  induction l as [|q l IH]; simpl.
  - split; [intros []%elem_of_nil|lia].
  - rewrite elem_of_cons, IH. destruct (decide (p = q)); lia.
Qed.

Lemma occ_NoDup l : (forall p, (occ p l <= 1)%nat) -> NoDup l.
Proof.
  induction l as [|q l IH]; intros H; constructor.
  - rewrite occ_pos. specialize (H q). simpl in H. rewrite decide_True in H by done. lia.
  - apply IH. intros p. specialize (H p). simpl in H. lia.
Qed.

Definition epoll_ptrs (e : gmap Z (Z * N)) : list N := (map_to_list e).*2.*2.
Definition values `{Countable K} (m : gmap K (list N)) : list N := concat (map_to_list m).*2.

Lemma occ_epoll_insert p e fd ev q :
  e !! fd = None -> occ p (epoll_ptrs (<[fd := (ev, q)]> e)) = (occ p [q] + occ p (epoll_ptrs e))%nat.
Proof.
  intros H. unfold epoll_ptrs.
  erewrite occ_perm by (do 2 apply fmap_Permutation; by apply map_to_list_insert). cbn [fmap list_fmap snd occ]. rewrite Nat.add_0_r. done.
Qed.

Lemma occ_epoll_delete p e fd ev q :
  e !! fd = Some (ev, q) -> occ p (epoll_ptrs e) = (occ p [q] + occ p (epoll_ptrs (delete fd e)))%nat.
Proof.
  intros H. rewrite <- (occ_epoll_insert p (delete fd e) fd ev q) by apply lookup_delete_eq.
  by rewrite insert_delete_id.
Qed.

Lemma epoll_ptrs_In p e fd ev : e !! fd = Some (ev, p) -> (0 < occ p (epoll_ptrs e))%nat.
Proof.
  intros H. rewrite (occ_epoll_delete p e fd ev p H). simpl. rewrite decide_True by done. lia.
Qed.

Lemma occ_concat_perm p (l l' : list (list N)) : l ≡ₚ l' -> occ p (concat l) = occ p (concat l').
Proof. induction 1; simpl; rewrite ?occ_app; lia. Qed.

Lemma occ_values_fresh `{Countable K} p (m : gmap K (list N)) k l :
  m !! k = None -> occ p (values (<[k := l]> m)) = (occ p l + occ p (values m))%nat.
Proof.
  intros Hm. unfold values.
  erewrite occ_concat_perm by (apply fmap_Permutation; by apply map_to_list_insert).
  simpl. by rewrite occ_app.
Qed.

Lemma occ_values_insert `{Countable K} p (m : gmap K (list N)) k l :
  (occ p (values (<[k := l]> m)) + occ p (default [] (m !! k)) = occ p l + occ p (values m))%nat.
Proof.
  destruct (m !! k) as [l0|] eqn:E; simpl.
  - rewrite <- (insert_delete_eq m k l), occ_values_fresh by apply lookup_delete_eq.
    rewrite <- (insert_delete_id m k l0 E) at 2. rewrite occ_values_fresh by apply lookup_delete_eq. lia.
  - rewrite occ_values_fresh by done. lia.
Qed.

Lemma occ_values_In `{Countable K} p (m : gmap K (list N)) k l : m !! k = Some l -> (occ p l <= occ p (values m))%nat.
Proof. intros E. pose proof (occ_values_insert p m k []) as Hv. rewrite E in Hv. simpl in Hv. lia. Qed.

Lemma occ_concat_insert p (r : list (list N)) i l l' :
  r !! i = Some l -> (occ p (concat (<[i := l']> r)) + occ p l = occ p l' + occ p (concat r))%nat.
Proof.
  revert i. induction r as [|x r IH]; intros [|i] H; simpl in *; simplify_eq; rewrite ?occ_app; [lia|].
  specialize (IH i H). lia.
Qed.

Lemma occ_concat_In p (r : list (list N)) i l : r !! i = Some l -> (occ p l <= occ p (concat r))%nat.
Proof. intros E. pose proof (occ_concat_insert p r i l [] E). simpl in *. lia. Qed.
