(* ===== verification/NfOwnership.v ===== *)
(** * Every socket of the server has one owner

    The invariant of the threads and its preservation, operation by operation,
    for computations that are shown to return. *)

From S2P Require Import Prelude Wire NfServer NfThreads.

(** ** Computations that return *)

Section sure.
  Context {S : Type}.

Definition sure {A} (P : S -> Prop) (m : M S A) (Q : A -> S -> Prop) : Prop :=
  forall s, P s -> runs m s Q.

Lemma sure_bind {A C} P (m : M S A) (k : A -> M S C) R Q :
  sure P m R -> (forall a, sure (R a) (k a) Q) -> sure P (bindM m k) Q.
Proof. intros Hm Hk s Hs. eapply runs_bind; [by apply Hm|]. intros a s' H. by apply Hk. Qed.

Lemma sure_post {A} P (m : M S A) (Q Q' : A -> S -> Prop) :
  sure P m Q' -> (forall a s, Q' a s -> Q a s) -> sure P m Q.
Proof.
  intros H HQ s Hs. specialize (H s Hs). unfold runs in *. destruct (m s); [by apply HQ|done].
Qed.

Lemma sure_pre {A} (P P' : S -> Prop) (m : M S A) (Q : A -> S -> Prop) :
  sure P' m Q -> (forall s, P s -> P' s) -> sure P m Q.
Proof. intros H HP s Hs. apply H, HP, Hs. Qed.

Lemma sure_ret {A} P (a : A) Q : (forall s, P s -> Q a s) -> sure P (ret a) Q.
Proof. intros H s Hs. by apply H. Qed.

Lemma sure_forM {A} (P : list A -> S -> Prop) (l : list A) f :
  (forall x l', sure (P (x :: l')) (f x) (fun _ => P l')) -> sure (P l) (forM l f) (fun _ => P []).
Proof.
  intros H. induction l as [|x l IH]; simpl; [by apply sure_ret|].
  eapply sure_bind; [apply H|intros []; exact IH].
Qed.

Lemma sure_Ret {A} P (m : M S A) Q s a s' : sure P m Q -> P s -> m s = Ret a s' -> Q a s'.
Proof. intros H Hs E. specialize (H s Hs). unfold runs in H. by rewrite E in H. Qed.

End sure.

(** ** The invariant

    [m] is the map of the main thread, [b] the pointers of the events it has not
    processed, [h] the sockets held by threads.  [places]: in how many places a
    socket is. *)

Definition places (p : N) (m : gmap Z (list N)) (h : list N) (s : Server) : nat :=
  (occ p (epoll_ptrs (epoll_set s)) + occ p (values m) + occ p (concat (server_socket_ready_list_ s)) +
   occ p (values (server_socket_reuse_list_ s)) + occ p h)%nat.

Definition typed (x : Socket) : Prop := 1 <= sk_type_ x <= 4.
Definition kind_ok (n : Z) (x : Socket) : Prop := sk_type_ x = 1 \/ sk_type_ x = 2 -> 0 <= id_ x < n.
(** A server socket of listening socket [i]. *)
Definition server_of (i : Z) (x : Socket) : Prop := sk_type_ x = 2 /\ id_ x = i.

Record Inv (m : gmap Z (list N)) (b h : list N) (s : Server) : Prop := {
  inv_once p : (places p m h s <= 1)%nat;
  inv_live p : (0 < places p m h s)%nat -> exists x, sheap s !! p = Some x /\ typed x;
  inv_next p : is_Some (sheap s !! p) -> (p < snext s)%N;
  inv_fd p q x y : sheap s !! p = Some x -> sheap s !! q = Some y -> sk_ x = sk_ y -> p = q;
  inv_open p x : sheap s !! p = Some x -> sk_ x ∈ open_fds s;
  inv_epoll fd ev p : epoll_set s !! fd = Some (ev, p) -> exists x, sheap s !! p = Some x /\ sk_ x = fd;
  inv_ready i l p : server_socket_ready_list_ s !! i = Some l -> p ∈ l ->
    exists x, sheap s !! p = Some x /\ server_of (Z.of_nat i) x;
  inv_map k l : m !! k = Some l -> l <> [] /\ 0 <= k < zlen (server_socket_ready_list_ s) /\
    forall p, p ∈ l -> exists x, sheap s !! p = Some x /\ server_of k x;
  inv_kind p x : sheap s !! p = Some x -> kind_ok (zlen (server_socket_ready_list_ s)) x;
  inv_batch_once : NoDup b;
  inv_batch p : p ∈ b -> exists fd ev, epoll_set s !! fd = Some (ev, p)
}.

(** The clauses of the invariant as hypotheses. *)
Ltac clauses H :=
  pose proof (inv_once _ _ _ _ H) as inv_once0; pose proof (inv_live _ _ _ _ H) as inv_live0;
  pose proof (inv_next _ _ _ _ H) as inv_next0; pose proof (inv_fd _ _ _ _ H) as inv_fd0;
  pose proof (inv_open _ _ _ _ H) as inv_open0; pose proof (inv_epoll _ _ _ _ H) as inv_epoll0;
  pose proof (inv_ready _ _ _ _ H) as inv_ready0; pose proof (inv_map _ _ _ _ H) as inv_map0;
  pose proof (inv_kind _ _ _ _ H) as inv_kind0; pose proof (inv_batch_once _ _ _ _ H) as inv_batch_once0;
  pose proof (inv_batch _ _ _ _ H) as inv_batch0.

(** A socket nobody owns: the operation at hand works on it. *)
Definition Own (m : gmap Z (list N)) (b h : list N) (n : Z) (p : N) (x : Socket) (s : Server) : Prop :=
  Inv m b h s /\ places p m h s = 0%nat /\ sheap s !! p = Some x /\
  zlen (server_socket_ready_list_ s) = n.

Definition sput (p : N) (x : Socket) (s : Server) : Server :=
  with_sheap (<[p := x]> (sheap s)) (snext s) s.

Lemma inv_sub m b h h' s :
  Inv m b h s -> (forall p, (occ p h' <= occ p h)%nat) -> Inv m b h' s.
Proof.
  intros H Hle. assert (Hp : forall p, (places p m h' s <= places p m h s)%nat)
    by (intros p; unfold places; specialize (Hle p); lia).
  clauses H; constructor; try done.
  - intros p. specialize (Hp p). specialize (inv_once0 p). lia.
  - intros p Hpos. apply inv_live0. specialize (Hp p). lia.
Qed.

Lemma inv_perm m b h h' s : h ≡ₚ h' -> Inv m b h s -> Inv m b h' s.
Proof. intros Hp H. eapply inv_sub; [exact H|]. intros p. by rewrite (occ_perm p _ _ Hp). Qed.

Lemma inv_batch_sub m b b' h s : Inv m b h s -> NoDup b' -> (forall p, p ∈ b' -> p ∈ b) -> Inv m b' h s.
Proof. intros H Hn Hs. clauses H. constructor; try done. intros p Hp. by apply inv_batch0, Hs. Qed.

Lemma inv_batch_tail m p b h s : Inv m (p :: b) h s -> Inv m b h s.
Proof.
  intros H. apply (inv_batch_sub _ _ _ _ _ H).
  - pose proof (inv_batch_once _ _ _ _ H) as Hn. by apply list.NoDup_cons in Hn as [_ Hn].
  - intros q Hq. rewrite list.elem_of_cons. by right.
Qed.

Lemma batch_owned m b h s p : Inv m b h s -> p ∈ b -> (0 < places p m h s)%nat.
Proof.
  intros H Hp. destruct (inv_batch _ _ _ _ H p Hp) as (fd & ev & E).
  apply epoll_ptrs_In in E. unfold places. lia.
Qed.

(** *** Objects *)

Lemma sderef_eq s p x : sheap s !! p = Some x -> sderef p s = Ret x s.
Proof. unfold sderef, bindM, gets. by intros ->. Qed.

Lemma supdate_eq s p x f : sheap s !! p = Some x -> supdate p f s = Ret tt (sput p (f x) s).
Proof. intros H. unfold supdate, bindM. by rewrite (sderef_eq s p x H). Qed.

Lemma inv_sput m b h s p x y :
  Inv m b h s -> places p m h s = 0%nat -> sheap s !! p = Some y -> sk_ x = sk_ y ->
  kind_ok (zlen (server_socket_ready_list_ s)) x -> Inv m b h (sput p x s).
Proof.
  intros H H0 Hy Hsk Hk.
  assert (Hne : forall q, (0 < places q m h s)%nat -> (sput p x s).(sheap) !! q = sheap s !! q).
  { intros q Hq. simpl. rewrite lookup_insert_ne; [done|]. intros ->. lia. }
  assert (Hfd : forall q z, <[p := x]> (sheap s) !! q = Some z -> exists z', sheap s !! q = Some z' /\ sk_ z = sk_ z').
  { intros q z. rewrite lookup_insert. case_decide; [subst; intros [= <-]; eauto|eauto]. }
  clauses H. constructor; simpl; try done.
  - intros q Hq. simpl in Hne. rewrite Hne by done. by apply inv_live0.
  - intros q [z Hz]. destruct (Hfd q z Hz) as (z' & Hz' & _). apply inv_next0. eauto.
  - intros q r z z' Hq Hr E. destruct (Hfd q z Hq) as (? & ? & ?), (Hfd r z' Hr) as (? & ? & ?).
    eapply inv_fd0; [done..|congruence].
  - intros q z Hz. destruct (Hfd q z Hz) as (z' & Hz' & ->). by eapply inv_open0.
  - intros fd ev q Hq. simpl in Hne. rewrite Hne; [by eapply inv_epoll0|].
    apply epoll_ptrs_In in Hq. unfold places. lia.
  - intros i l q Hl Hq. simpl in Hne. rewrite Hne; [by eapply inv_ready0|].
    pose proof (occ_concat_In q _ _ _ Hl). apply occ_pos in Hq. unfold places. lia.
  - intros k l Hl. destruct (inv_map0 k l Hl) as (? & ? & Hm). split_and!; [done|lia|lia|].
    intros q Hq. simpl in Hne. rewrite Hne; [by apply Hm|].
    pose proof (occ_values_In q _ _ _ Hl). apply occ_pos in Hq. unfold places. lia.
  - intros q z. rewrite lookup_insert. case_decide; [by intros [= <-]|apply inv_kind0].
Qed.

Lemma own_update m b h n p x f :
  sk_ (f x) = sk_ x -> kind_ok n (f x) ->
  sure (Own m b h n p x) (supdate p f) (fun _ => Own m b h n p (f x)).
Proof.
  intros Hsk Hk s (H & H0 & Hp & Hn). eapply runs_ret_eq; [by apply supdate_eq|].
  split_and!; [|done|simpl; apply lookup_insert_eq|done].
  eapply inv_sput; [done..|by rewrite Hn].
Qed.

Lemma own_deref m b h n p x :
  sure (Own m b h n p x) (sderef p) (fun y s => y = x /\ Own m b h n p x s).
Proof. intros s (H & H0 & Hp & Hn). eapply runs_ret_eq; [by apply sderef_eq|]. done. Qed.

(** *** Descriptors *)

Definition Inv' (m : gmap Z (list N)) (b h : list N) (n : Z) (s : Server) : Prop :=
  Inv m b h s /\ zlen (server_socket_ready_list_ s) = n.

(** A descriptor was opened and no object has it. *)
Definition Opened (m : gmap Z (list N)) (b h : list N) (n fd : Z) (s : Server) : Prop :=
  Inv' m b h n s /\ fd ∈ open_fds s /\ forall p x, sheap s !! p = Some x -> sk_ x <> fd.

Lemma inv_open_fd m b h s fds :
  Inv m b h s -> open_fds s ⊆ fds -> Inv m b h (with_kernel fds (epoll_set s) (local_bytes s) s).
Proof. intros H Hs. clauses H. constructor; try done. intros p x Hp. apply Hs. by eapply inv_open0. Qed.

Lemma sure_sys_open m b h n fd :
  sure (fun s => Inv' m b h n s /\ fd ∉ open_fds s) (sys_open fd) (fun _ => Opened m b h n fd).
Proof.
  intros s ((H & Hn) & Hf). eapply runs_ret_eq; [done|]. split_and!; [split; [|done]| |].
  - apply inv_open_fd; [done|set_solver].
  - simpl. set_solver.
  - intros p x Hp E. apply Hf. rewrite <- E. by eapply inv_open.
Qed.

Lemma sure_snew m b h n fd :
  sure (Opened m b h n fd) (snew fd) (fun p => Own m b h n p (new_Socket fd)).
Proof.
  intros s ((H & Hn) & Hf & Hno). set (p := snext s). clauses H.
  assert (Hp : sheap s !! p = None).
  { destruct (sheap s !! p) eqn:E; [|done]. specialize (inv_next0 p (mk_is_Some _ _ E)). unfold p in *. lia. }
  assert (H0 : places p m h s = 0%nat).
  { destruct (places p m h s) eqn:E; [done|]. destruct (inv_live0 p) as (x & Hx & _); [lia|congruence]. }
  assert (Hne : forall q x, sheap s !! q = Some x -> <[p := new_Socket fd]> (sheap s) !! q = Some x).
  { intros q x Hq. rewrite lookup_insert_ne; [done|]. intros ->. congruence. }
  eapply runs_ret_eq; [done|].
  split_and!; [|done|simpl; apply lookup_insert_eq|done]. constructor; simpl; try done.
  - intros q Hq. destruct (inv_live0 q Hq) as (x & Hx & Ht). eauto.
  - intros q [x Hx]. rewrite lookup_insert in Hx. case_decide; [subst; unfold p; lia|].
    specialize (inv_next0 q (mk_is_Some _ _ Hx)). lia.
  - intros q r x y. rewrite !lookup_insert. do 2 case_decide; subst; intros Hx Hy E; simplify_eq; try done.
    + simpl in E. by destruct (Hno r y Hy).
    + simpl in E. by destruct (Hno q x Hx).
    + by eapply inv_fd0.
  - intros q x. rewrite lookup_insert. case_decide; [by intros [= <-]|by apply inv_open0].
  - intros fd' ev q Hq. destruct (inv_epoll0 _ _ _ Hq) as (x & Hx & ?). eauto.
  - intros i l q Hl Hq. destruct (inv_ready0 i l q Hl Hq) as (x & ? & ?). eauto.
  - intros k l Hl. destruct (inv_map0 k l Hl) as (? & ? & Hm). split_and!; [done|lia|lia|].
    intros q Hq. destruct (Hm q Hq) as (x & ? & ?). eauto.
  - intros q x. rewrite lookup_insert. case_decide; [|apply inv_kind0].
    intros [= <-] [E|E]; simpl in E; lia.
Qed.

Lemma own_delete m b h n p x :
  sure (Own m b h n p x) (sdelete p) (fun _ => Inv' m b h n).
Proof.
  intros s (H & H0 & Hp & Hn). unfold sdelete.
  eapply runs_ret_eq; [unfold bindM; by rewrite (sderef_eq s p x Hp)|]. split; [|done].
  assert (Hne : forall q, (0 < places q m h s)%nat -> delete p (sheap s) !! q = sheap s !! q).
  { intros q Hq. rewrite lookup_delete_ne; [done|]. intros ->. lia. }
  assert (Hd : forall q y, delete p (sheap s) !! q = Some y -> sheap s !! q = Some y).
  { intros q y. rewrite lookup_delete_Some. tauto. }
  clauses H. constructor; simpl; try done.
  - intros q Hq. rewrite Hne by done. by apply inv_live0.
  - intros q [y Hy]. apply inv_next0. eauto.
  - intros q r y z Hy Hz. eapply inv_fd0; eauto.
  - intros q y Hy. eauto.
  - intros fd ev q Hq. rewrite Hne; [by eapply inv_epoll0|].
    apply epoll_ptrs_In in Hq. unfold places. lia.
  - intros i l q Hl Hq. rewrite Hne; [by eapply inv_ready0|].
    pose proof (occ_concat_In q _ _ _ Hl). apply occ_pos in Hq. unfold places. lia.
  - intros k l Hl. destruct (inv_map0 k l Hl) as (? & ? & Hm). split_and!; [done|lia|lia|].
    intros q Hq. rewrite Hne; [by apply Hm|].
    pose proof (occ_values_In q _ _ _ Hl). apply occ_pos in Hq. unfold places. lia.
  - intros q y Hy. eauto.
Qed.

(** [Close] and [delete] of a socket nobody else has. *)
Lemma own_destroy m b h n p x :
  sure (Own m b h n p x) (Socket_Close p ;;! sdelete p) (fun _ => Inv' m b h n).
Proof.
  intros s (H & H0 & Hp & Hn). clauses H.
  assert (Hfree : epoll_set s !! sk_ x = None).
  { destruct (epoll_set s !! sk_ x) as [[ev q]|] eqn:E; [|done].
    destruct (inv_epoll0 _ _ _ E) as (y & Hy & Hsk). assert (q = p) as -> by (by eapply inv_fd0).
    apply epoll_ptrs_In in E. unfold places in H0. lia. }
  assert (Hown : Own m b h n p x s) by done.
  destruct (sdelete p s) as [[] s1|] eqn:E; cycle 1.
  { pose proof (own_delete m b h n p x s Hown) as Hr. unfold runs in Hr. by rewrite E in Hr. }
  pose proof (sure_Ret _ _ _ _ _ _ (own_delete m b h n p x) Hown E) as (H1 & Hn1).
  unfold sdelete, bindM in E. rewrite (sderef_eq s p x Hp) in E. injection E as <-.
  eapply runs_ret_eq.
  { unfold Socket_Close, bindM. rewrite (sderef_eq s p x Hp). unfold modify.
    unfold sdelete, bindM. erewrite sderef_eq by exact Hp. done. }
  split; [|done]. rewrite (delete_id (epoll_set s)) by done. constructor; try apply H1.
  intros q y Hy. simpl in *. pose proof Hy as [Hqp Hq]%lookup_delete_Some.
  apply elem_of_difference. split; [by eapply inv_open0|]. rewrite elem_of_singleton.
  intros Esk. apply Hqp. by eapply inv_fd0.
Qed.

(** *** The epoll set *)

Lemma own_add m b h n p x ev ok :
  typed x ->
  sure (Own m b h n p x) (epoll_ctl_add (sk_ x) ev p ok) (fun r s =>
    (r = 0 /\ Inv' m b h n s) \/ (r = -1 /\ Own m b h n p x s)).
Proof.
  intros Ht s (H & H0 & Hp & Hn). unfold runs, epoll_ctl_add, bindM, gets.
  destruct ok; cbn [andb]; [|by right]. case_bool_decide as Hfree; [|by right].
  cbn. left. split; [done|]. split; [|done]. clauses H.
  assert (Hpl : forall q, places q m h (with_kernel (open_fds s) (<[sk_ x := (ev, p)]> (epoll_set s)) (local_bytes s) s)
                          = (occ q [p] + places q m h s)%nat).
  { intros q. unfold places. cbn [epoll_set with_kernel server_socket_ready_list_ server_socket_reuse_list_].
    rewrite occ_epoll_insert by done. lia. }
  constructor; try done.
  - intros q. rewrite Hpl. simpl. destruct (decide (q = p)) as [->|]; [lia|]. apply inv_once0.
  - intros q. rewrite Hpl. simpl. destruct (decide (q = p)) as [->|]; [eauto|]. apply inv_live0.
  - intros fd ev' q. simpl. rewrite lookup_insert. case_decide; [|apply inv_epoll0].
    intros [= <- <-]. subst. eauto.
  - intros q Hq. destruct (inv_batch0 q Hq) as (fd & ev' & E). exists fd, ev'. simpl.
    rewrite lookup_insert_ne; [done|]. congruence.
Qed.

(** Taking a socket out of the epoll set. *)
Lemma own_del m b h n p x s :
  Inv' m b h n s -> sheap s !! p = Some x -> p ∉ b ->
  (exists fd ev, epoll_set s !! fd = Some (ev, p)) ->
  runs (epoll_ctl_del (sk_ x)) s (fun _ => Own m b h n p x).
Proof.
  intros (H & Hn) Hp Hb (fd & ev & E). clauses H.
  destruct (inv_epoll0 _ _ _ E) as (y & Hy & Hsk). rewrite Hp in Hy. injection Hy as <-. subst fd.
  eapply runs_ret_eq; [done|].
  assert (Hpl : forall q, places q m h s =
    (occ q [p] + places q m h (with_kernel (open_fds s) (delete (sk_ x) (epoll_set s)) (local_bytes s) s))%nat).
  { intros q. unfold places. cbn [epoll_set with_kernel server_socket_ready_list_ server_socket_reuse_list_].
    rewrite (occ_epoll_delete q _ _ _ _ E). lia. }
  split_and!; [|pose proof (inv_once0 p) as Ho; rewrite Hpl in Ho; simpl in Ho;
                 rewrite decide_True in Ho by done; lia|done|done].
  constructor; try done.
  - intros q. pose proof (inv_once0 q) as Ho. rewrite Hpl in Ho. lia.
  - intros q Hq. apply inv_live0. rewrite Hpl. lia.
  - intros fd ev' q. simpl. rewrite lookup_delete_Some. intros [_ Hq]. by eapply inv_epoll0.
  - intros q Hq. destruct (inv_batch0 q Hq) as (fd & ev' & E'). exists fd, ev'. simpl.
    rewrite lookup_delete_ne; [done|]. congruence.
Qed.

(** *** The map of the main thread *)

Lemma own_push m b h n p x k s :
  Own m b h n p x s -> server_of k x -> 0 <= k < n ->
  Inv' (<[k := default [] (m !! k) ++ [p]]> m) b h n s.
Proof.
  intros (H & H0 & Hp & Hn) Hk Hkn. split; [|done]. clauses H.
  assert (Hpl : forall q, places q (<[k := default [] (m !! k) ++ [p]]> m) h s =
                          (occ q [p] + places q m h s)%nat).
  { intros q. unfold places. pose proof (occ_values_insert q m k (default [] (m !! k) ++ [p])).
    rewrite occ_app in *. lia. }
  constructor; try done.
  - intros q. rewrite Hpl. simpl. destruct (decide (q = p)) as [->|]; [lia|]. apply inv_once0.
  - intros q. rewrite Hpl. simpl. destruct (decide (q = p)) as [->|]; [|apply inv_live0].
    intros _. exists x. split; [done|]. destruct Hk as [Ht _]. unfold typed. lia.
  - intros k' l. rewrite lookup_insert. case_decide as Ek; [|apply inv_map0].
    subst k'. intros [= <-]. split_and!; [by destruct (default [] (m !! k))|lia|lia|].
    intros q. rewrite elem_of_app. intros [Hq|Hq].
    + destruct (m !! k) as [l0|] eqn:E; [|by apply elem_of_nil in Hq].
      destruct (inv_map0 k l0 E) as (_ & _ & Hm). by apply Hm.
    + rewrite list.elem_of_cons in Hq. destruct Hq as [->|[]%elem_of_nil]. eauto.
Qed.
