(* ===== verification/NfSteps.v ===== *)
(** * The steps of the main thread and of the workers keep the owners

    One lemma per operation of [NfServer], each of them total: the operation
    returns in every state of the invariant. *)

From S2P Require Import Prelude Wire NfServer NfThreads NfOwnership.

Section Steps.
  Context {I : Inet}.
  Variables (n : Z).

Ltac kind := let E := fresh in intros [E|E]; simpl in E; first [lia | simpl; lia].
Ltac own_set := eapply sure_bind; [apply own_update; [done|kind]|intros []].

Lemma inv_drop m b h k s : Inv' m b (k ++ h) n s -> Inv' m b h n s.
Proof.
  intros [H Hn]. split; [|done]. eapply inv_sub; [exact H|]. intros p. rewrite occ_app. lia.
Qed.

(** A socket a thread holds, in its hands. *)
Lemma own_take m b h p s :
  Inv' m b (p :: h) n s -> exists x, Own m b h n p x s /\ typed x.
Proof.
  intros [H Hn]. destruct (inv_live _ _ _ _ H p) as (x & Hx & Ht).
  { unfold places. simpl. rewrite decide_True by done. lia. }
  exists x. split; [|done]. split_and!; [|  |done..].
  - eapply inv_sub; [exact H|]. intros q. simpl. lia.
  - pose proof (inv_once _ _ _ _ H p) as Ho. unfold places in *. simpl in Ho.
    rewrite decide_True in Ho by done. lia.
Qed.

(** *** [EpollProcess] *)

Lemma accept_step_inv m b h x0 ctl a :
  0 <= id_ x0 < n ->
  sure (Inv' m b h n) (accept_step x0 ctl a) (fun _ => Inv' m b h n).
Proof.
  intros Hid s Hs. destruct a as [[fd ad] po]. unfold accept_step.
  apply runs_gets. case_bool_decide as Hfd; [done|].
  refine (sure_bind _ _ _ _ _ (sure_sys_open m b h n fd) _ s (conj Hs Hfd)). intros [].
  eapply sure_bind; [apply sure_snew|]. intros p.
  do 7 own_set. destruct (inet_ntoa ad) as [str|].
  - own_set. eapply sure_bind; [apply own_add; unfold typed; simpl; lia|].
    intros r s' [[-> H]|[-> H]]; [done|]. exact (own_destroy _ _ _ _ _ _ s' H).
  - apply own_delete.
Qed.

Lemma inv_with_udp m b h l s : Inv' m b h n s -> Inv' m b h n (with_udp_recv l s).
Proof. intros [H Hn]. clauses H. split; [by constructor|done]. Qed.

(** Taking a triggered socket out of the epoll set. *)
Lemma take_event m b h p s :
  Inv' m (p :: b) h n s ->
  exists x, sheap s !! p = Some x /\ typed x /\ kind_ok n x /\
    Inv' m b h n s /\ runs (epoll_ctl_del (sk_ x)) s (fun _ => Own m b h n p x).
Proof.
  intros [H Hn]. clauses H.
  assert (Hp : (0 < places p m h s)%nat) by (eapply batch_owned; [done|rewrite list.elem_of_cons; by left]).
  destruct (inv_live0 p Hp) as (x & Hx & Ht). exists x.
  assert (Ht' : Inv' m b h n s) by (split; [by apply (inv_batch_tail _ p)|done]).
  split_and!; [done..|rewrite <- Hn; by apply (inv_kind0 p)|done|].
  apply own_del; [done..| |apply inv_batch0; rewrite list.elem_of_cons; by left].
  by apply list.NoDup_cons in inv_batch_once0 as [? _].
Qed.

Lemma own_runs_destroy m b h p x s :
  runs (epoll_ctl_del (sk_ x)) s (fun _ => Own m b h n p x) ->
  runs (epoll_ctl_del (sk_ x) ;;! (Socket_Close p ;;! sdelete p)) s (fun _ => Inv' m b h n).
Proof. intros H. eapply runs_bind; [exact H|]. intros [] s' Hs'. by eapply own_destroy. Qed.

Lemma loop_event_inv m b h ev p a :
  sure (Inv' m (p :: b) h n) (loop_event ev p m a) (fun rm => Inv' rm.2 b h n).
Proof.
  intros s Hs. destruct (take_event m b h p s Hs) as (x & Hp & Ht & Hk & Htl & Hdel).
  assert (Hremove : forall z : Z, z < 0 -> runs (
    (if (z <? 0) || (z =? 1) then
       let! x := sderef p in epoll_ctl_del (sk_ x) ;;!
       (if z <? 0 then Socket_Close p ;;! sdelete p else ret tt) else ret tt) ;;!
     ret (PResult z, m)) s (fun rm => Inv' rm.2 b h n)).
  { intros z Hz. rewrite (proj2 (Z.ltb_lt z 0) Hz). cbn [orb]. eapply runs_bind.
    - eapply runs_step; [by apply sderef_eq|].
      exact (own_runs_destroy _ _ _ _ _ _ Hdel).
    - intros [] s' Hs'. done. }
  unfold loop_event, EpollProcess. unfold bindM at 1 2. unfold runs. rewrite (sderef_eq s p x Hp).
  destruct (negb (Z.land ev EPOLLERR =? 0)); [by apply (Hremove (-1))|].
  destruct (negb (Z.land ev EPOLLIN =? 0) || negb (Z.land ev EPOLLRDHUP =? 0)); [|exact Htl].
  destruct (Z.eqb_spec (sk_type_ x) 1) as [E1|].
  { specialize (Hk (or_introl E1)). unfold bindM at 1.
    assert (Hf : runs (forM (accepted a) (accept_step x (ctl_ok a))) s (fun _ => Inv' m (p :: b) h n)).
    { apply (sure_forM (fun _ => Inv' m (p :: b) h n)); [|done].
      intros c l'. by apply accept_step_inv. }
    unfold runs in Hf. destruct (forM _ _ s) as [[] s'|]; [|done].
    destruct Hf as [Hf Hn']. split; [by apply (inv_batch_tail _ p)|done]. }
  destruct (Z.eqb_spec (sk_type_ x) 2) as [E2|].
  { destruct (negb (Z.land ev EPOLLRDHUP =? 0)); [by apply (Hremove (-2))|].
    unfold ret at 1. cbn [fst]. change ((1 <? 0) || (1 =? 1)) with true. cbv iota.
    unfold bindM at 1 2. rewrite (sderef_eq s p x Hp).
    change (1 <? 0) with false. cbv iota. unfold bindM at 1. unfold runs in Hdel.
    destruct (epoll_ctl_del (sk_ x) s) as [[] s'|]; [|done]. cbn.
    apply (own_push _ _ _ _ _ x); [done|done|]. apply Hk. by right. }
  destruct (Z.eqb_spec (sk_type_ x) 3).
  { destruct (packets_of x (datagrams a)); [exact Htl|]. by apply inv_with_udp. }
  destruct (Z.eqb_spec (sk_type_ x) 4); [exact Htl|]. unfold typed in Ht. lia.
Qed.

(** *** Handing the ready sockets over *)

Lemma ready_append m b h k l old s :
  Inv' (<[k := l]> m) b h n s -> m !! k = None -> 0 <= k ->
  server_socket_ready_list_ s !! Z.to_nat k = Some old ->
  Inv' m b h n (with_ready (<[Z.to_nat k := old ++ l]> (server_socket_ready_list_ s)) s).
Proof.
  intros [H Hn] Hm Hk Hold.
  assert (Hlen : zlen (<[Z.to_nat k := old ++ l]> (server_socket_ready_list_ s)) = n)
    by (unfold zlen in *; rewrite length_insert; done).
  split; [|done]. clauses H.
  assert (Hpl : forall q, places q m h (with_ready (<[Z.to_nat k := old ++ l]> (server_socket_ready_list_ s)) s)
                          = places q (<[k := l]> m) h s).
  { intros q. unfold places. simpl. rewrite occ_values_fresh by done.
    pose proof (occ_concat_insert q _ _ _ (old ++ l) Hold) as Hc. rewrite occ_app in Hc. lia. }
  constructor; try done.
  - intros q. rewrite Hpl. apply inv_once0.
  - intros q. rewrite Hpl. apply inv_live0.
  - intros i l' q. simpl. rewrite list_lookup_insert_Some. intros [(<- & <- & Hlt)|[_ Hl]] Hq;
      [|by eapply inv_ready0].
    rewrite Z2Nat.id by done. apply elem_of_app in Hq as [Hq|Hq].
    + destruct (inv_ready0 _ _ q Hold Hq) as (x & Hx & Hs). rewrite Z2Nat.id in Hs by done. eauto.
    + destruct (inv_map0 k l) as (_ & _ & Hin); [apply lookup_insert_eq|]. by apply Hin.
  - intros k' l' Hl'. simpl. rewrite Hlen, <- Hn. apply inv_map0. rewrite lookup_insert_ne; [done|].
    intros ->. congruence.
  - intros q x Hq. simpl. rewrite Hlen, <- Hn. by apply (inv_kind0 q).
Qed.

Lemma insert_ready_step_inv m b h k l :
  m !! k = None ->
  sure (Inv' (<[k := l]> m) b h n) (insert_ready_step (k, l)) (fun _ => Inv' m b h n).
Proof.
  intros Hm s [H Hn]. destruct (inv_map _ _ _ _ H k l) as (Hne & Hk & Hin); [apply lookup_insert_eq|].
  unfold insert_ready_step. apply runs_gets. cbn [fst snd].
  destruct (lookup_lt_is_Some_2 (server_socket_ready_list_ s) (Z.to_nat k)) as [old Hold];
    [unfold zlen in Hk; lia|].
  rewrite Hold. destruct l as [|p l]; [done|]. destruct (Hin p) as (x & Hx & _); [rewrite list.elem_of_cons; by left|].
  apply runs_modify. eapply runs_step; [done|]. eapply runs_step; [by apply sderef_eq|].
  apply ready_append; [done|done|lia|done].
Qed.

Lemma InsertServerReadySocket_inv m b h :
  sure (Inv' m b h n) (InsertServerReadySocket m) (fun _ => Inv' ∅ b h n).
Proof.
  unfold InsertServerReadySocket.
  apply (sure_pre _ (fun s => NoDup (map_to_list m).*1 /\
           Inv' (list_to_map (map_to_list m) : gmap Z (list N)) b h n s)); cycle 1.
  { intros s Hs. split; [apply NoDup_fst_map_to_list|]. by rewrite list_to_map_to_list. }
  eapply sure_post; [apply (sure_forM (fun l s => NoDup l.*1 /\
    Inv' (list_to_map l : gmap Z (list N)) b h n s))|].
  - intros [k l] l' s [Hnd Hs]. cbn in Hnd. apply list.NoDup_cons in Hnd as [Hk Hnd].
    assert (Hf : (list_to_map l' : gmap Z (list N)) !! k = None) by (by apply not_elem_of_list_to_map_1).
    pose proof (insert_ready_step_inv (list_to_map l') b h k l Hf s Hs) as Hr.
    unfold runs in *. destruct (insert_ready_step (k, l) s); [done|done].
  - intros u s [_ Hs]. exact Hs.
Qed.

Lemma loop_ready_inv m b h : sure (Inv' m b h n) (loop_ready m) (fun _ => Inv' ∅ b h n).
Proof.
  unfold loop_ready. case_bool_decide as Hm; [subst; by apply sure_ret|apply InsertServerReadySocket_inv].
Qed.

(** *** Taking the sockets back *)

Lemma add_reused_inv m b h ctl p :
  sure (Inv' m b (p :: h) n) (add_reused ctl p) (fun _ => Inv' m b h n).
Proof.
  intros s Hs. destruct (own_take m b h p s Hs) as (x & Hx & Ht). unfold add_reused.
  refine (sure_bind _ _ _ _ _ (own_deref m b h n p x) _ s Hx). intros y s' [-> Hy].
  refine (sure_bind _ _ _ _ _ (own_add m b h n p x _ _ Ht) _ s' Hy).
  intros r s'' [[-> H]|[-> H]]; [done|]. exact (own_destroy _ _ _ _ _ _ s'' H).
Qed.

Lemma reuse_to_hand m b h s :
  Inv' m b h n s -> Inv' m b (values (server_socket_reuse_list_ s) ++ h) n (with_reuse ∅ s).
Proof.
  intros [H Hn]. split; [|done]. clauses H.
  assert (Hpl : forall q, places q m (values (server_socket_reuse_list_ s) ++ h) (with_reuse ∅ s) = places q m h s).
  { intros q. unfold places. cbn [server_socket_reuse_list_ with_reuse epoll_set server_socket_ready_list_].
    rewrite occ_app. change (values (∅ : gmap Z (list N))) with (@nil N). simpl. lia. }
  constructor; try done; intros q; rewrite Hpl; [apply inv_once0|apply inv_live0].
Qed.

Lemma local_add_inv m b h ctl : sure (Inv' m b h n) (local_add ctl) (fun _ => Inv' m b h n).
Proof.
  intros s Hs. unfold local_add. eapply runs_step; [done|].
  apply reuse_to_hand in Hs. unfold values in Hs. revert Hs.
  generalize (map_to_list (server_socket_reuse_list_ s)) (with_reuse ∅ s). clear s. intros l s Hs.
  refine (sure_forM (fun l => Inv' m b (concat l.*2 ++ h) n) l _ _ s Hs).
  intros [k l1] l'. cbn [snd]. clear s Hs.
  change (concat ((k, l1) :: l').*2) with (l1 ++ concat l'.*2).
  eapply sure_pre; [apply (sure_forM (fun l => Inv' m b (l ++ concat l'.*2 ++ h) n))|].
  - intros p l2. simpl. apply add_reused_inv.
  - intros s Hs. by rewrite app_assoc.
Qed.

(** *** The workers *)

Lemma GetServerReadySocket_inv m b h i :
  0 <= i ->
  sure (Inv' m b h n) (GetServerReadySocket i) (fun r s =>
    Inv' m b (match r with GetSocket p => [p] | _ => [] end ++ h) n s /\
    forall p, r = GetSocket p -> exists x, sheap s !! p = Some x /\ server_of i x).
Proof.
  intros Hi s [H Hn]. unfold GetServerReadySocket. apply runs_gets.
  destruct (server_socket_ready_list_ s !! Z.to_nat i) as [[|p l]|] eqn:E; [done| |done].
  destruct (inv_ready _ _ _ _ H (Z.to_nat i) (p :: l) p E) as (x & Hx & Hs);
    [rewrite list.elem_of_cons; by left|]. rewrite Z2Nat.id in Hs by done.
  apply runs_modify. eapply runs_step; [by apply sderef_eq|].
  split; [|intros q [= <-]; eauto]. cbn [app].
  assert (Hlen : zlen (<[Z.to_nat i := l]> (server_socket_ready_list_ s)) = n)
    by (unfold zlen in *; rewrite length_insert; done).
  split; [|done]. clauses H.
  assert (Hpl : forall q, places q m (p :: h) (with_ready (<[Z.to_nat i := l]> (server_socket_ready_list_ s)) s)
                          = places q m h s).
  { intros q. unfold places. cbn [server_socket_ready_list_ with_ready epoll_set server_socket_reuse_list_ occ].
    pose proof (occ_concat_insert q _ _ _ l E) as Hc. simpl in Hc. lia. }
  constructor; try done.
  - intros q. rewrite Hpl. apply inv_once0.
  - intros q. rewrite Hpl. apply inv_live0.
  - intros j l' q. simpl. rewrite list_lookup_insert_Some. intros [(<- & <- & _)|[_ Hl]] Hq;
      [|by eapply inv_ready0].
    apply (inv_ready0 _ _ q E). rewrite list.elem_of_cons. by right.
  - intros k l' Hl'. simpl. rewrite Hlen, <- Hn. by apply inv_map0.
  - intros q y Hq. simpl. rewrite Hlen, <- Hn. by apply (inv_kind0 q).
Qed.

Lemma InsertServerReuseSocket_inv m b h i p sent :
  sure (Inv' m b (p :: h) n) (InsertServerReuseSocket i p sent) (fun _ => Inv' m b h n).
Proof.
  intros s Hs. destruct (own_take m b h p s Hs) as (x & (_ & _ & Hx & _) & _).
  set (s1 := with_reuse (<[i := default [] (server_socket_reuse_list_ s !! i) ++ [p]]> (server_socket_reuse_list_ s)) s).
  assert (H1 : Inv' m b h n s1).
  { destruct Hs as [H Hn]. split; [|done]. clauses H.
    assert (Hpl : forall q, places q m h s1 = places q m (p :: h) s).
    { intros q. unfold places, s1. cbn [server_socket_reuse_list_ with_reuse epoll_set server_socket_ready_list_ occ].
      pose proof (occ_values_insert q (server_socket_reuse_list_ s) i
        (default [] (server_socket_reuse_list_ s !! i) ++ [p])) as Hv. rewrite occ_app in Hv. simpl in Hv. lia. }
    constructor; try done; intros q; rewrite Hpl; [apply inv_once0|apply inv_live0]. }
  unfold InsertServerReuseSocket. eapply runs_step; [by apply sderef_eq|].
  apply runs_modify. fold s1. destruct (sent <=? 0); [exact H1|].
  destruct H1 as [H Hn]. clauses H. split; [by constructor|done].
Qed.

Lemma worker_destroy_inv m b h p :
  sure (Inv' m b (p :: h) n) (Socket_Close p ;;! sdelete p) (fun _ => Inv' m b h n).
Proof.
  intros s Hs. destruct (own_take m b h p s Hs) as (x & Hx & _). exact (own_destroy _ _ _ _ _ _ s Hx).
Qed.

Lemma GetUDPPacket_inv m b h : sure (Inv' m b h n) GetUDPPacket (fun _ => Inv' m b h n).
Proof.
  intros s Hs. unfold GetUDPPacket. apply runs_gets.
  destruct (udp_recv_list_ s); [done|]. by apply inv_with_udp.
Qed.

Lemma local_recv_inv m b h : sure (Inv' m b h n) local_recv (fun _ => Inv' m b h n).
Proof.
  intros s [H Hn]. unfold local_recv. apply runs_gets.
  destruct (_ <=? 0); [done|]. clauses H. by split; [constructor|].
Qed.

End Steps.
