(* ===== verification/NfReach.v ===== *)
(** * The reachable states of the server

    The theorems on the threads: one owner for every socket, the right worker
    pool for every connection, and no connection that is given back and
    forgotten. *)

From S2P Require Import Prelude Wire NfServer NfThreads NfOwnership NfSteps.

(** ** What an operation leaves alone *)

Section keep.
  Context {C : Type} (g : Server -> C).

Definition keep {A} (m : M Server A) : Prop := forall s a s', m s = Ret a s' -> g s' = g s.

Lemma keep_ret {A} (a : A) : keep (ret a).
Proof. by intros s b s' [= _ <-]. Qed.

Lemma keep_gets {A} (f : Server -> A) : keep (gets f).
Proof. by intros s b s' [= _ <-]. Qed.

Lemma keep_stop {A} h : keep (A := A) (stop h).
Proof. by intros s b s'. Qed.

Lemma keep_modify f : (forall s, g (f s) = g s) -> keep (modify f).
Proof. intros H s b s' [= _ <-]. apply H. Qed.

Lemma keep_of_option {A} h (o : option A) : keep (of_option h o).
Proof. destruct o; [apply keep_ret|apply keep_stop]. Qed.

Lemma keep_assert b : keep (assert_ b).
Proof. destruct b; [apply keep_ret|apply keep_stop]. Qed.

Lemma keep_bind {A B} (m : M Server A) (k : A -> M Server B) :
  keep m -> (forall a, keep (k a)) -> keep (bindM m k).
Proof.
  intros Hm Hk s b s' (a & s1 & E1 & E2)%bind_Ret_inv. rewrite (Hk a _ _ _ E2). by eapply Hm.
Qed.

Lemma keep_forM {A} (l : list A) f : (forall x, keep (f x)) -> keep (forM l f).
Proof. intros H. induction l; simpl; [apply keep_ret|by apply keep_bind]. Qed.

Lemma sure_keep {A} P (m : M Server A) Q F :
  sure P m Q -> keep m -> sure (fun s => P s /\ g s = F) m (fun a s => Q a s /\ g s = F).
Proof.
  intros H Hk s [Hs Hg]. specialize (H s Hs). unfold runs in *. destruct (m s) as [a s'|] eqn:E; [|done].
  split; [done|]. by rewrite (Hk _ _ _ E).
Qed.

End keep.

(** Case analysis on the code: at each primitive, the projection is computed. *)
Ltac keeps :=
  intros; repeat (cbv beta zeta; lazymatch goal with
  | |- keep _ (bindM _ _) => apply keep_bind; [|intros ?]
  | |- keep _ (ret _) => apply keep_ret
  | |- keep _ (gets _) => apply keep_gets
  | |- keep _ (stop _) => apply keep_stop
  | |- keep _ (modify _) => apply keep_modify; intros ?; reflexivity
  | |- keep _ (of_option _ _) => apply keep_of_option
  | |- keep _ (assert_ _) => apply keep_assert
  | |- keep _ (forM _ _) => apply keep_forM; intros ?
  | |- keep _ (match ?x with _ => _ end) => destruct x
  | |- keep _ (_ ?a) => first [progress unfold sderef, supdate, snew, sdelete, sys_open, Socket_Close,
        epoll_ctl_add, epoll_ctl_del, InsertUDPRecvPacket, add_reused, insert_ready_step | fail 1]
  end).

(** The members only the setting up changes. *)
Definition shared (s : Server) : list N * option N * option N :=
  (listen_socket_list_ s, srv_udp_socket_ s, local_socket_ s).

(** The members the notification of the main thread is about. *)
Definition notified (s : Server) : gmap Z (list N) * Z := (server_socket_reuse_list_ s, local_bytes s).

Section Reach.
  Context {I : Inet}.


Lemma add_listeners_keep {C} (g : Server -> C) ctl l :
  (forall e s, g (with_kernel (open_fds s) e (local_bytes s) s) = g s) -> keep g (add_listeners ctl l).
Proof.
  intros Hg. induction l as [|p l IH]; simpl; [apply keep_ret|].
  apply keep_bind; [keeps|intros x]. apply keep_bind; [|intros r; destruct (r =? -1); [apply keep_ret|done]].
  unfold epoll_ctl_add. apply keep_bind; [keeps|intros e]. destruct (_ && _); [|apply keep_ret].
  apply keep_bind; [|intros; apply keep_ret]. apply keep_modify. intros s. apply Hg.
Qed.

Lemma loop_event_keep ev p m a : keep shared (loop_event ev p m a) /\ keep notified (loop_event ev p m a).
Proof. split; unfold loop_event, EpollProcess, accept_step; keeps. Qed.

Lemma loop_ready_keep m : keep shared (loop_ready m) /\ keep notified (loop_ready m).
Proof. split; unfold loop_ready, InsertServerReadySocket; keeps. Qed.

Lemma worker_keep i p sent :
  keep shared (GetServerReadySocket i) /\ keep notified (GetServerReadySocket i) /\
  keep shared (InsertServerReuseSocket i p sent) /\
  keep shared (Socket_Close p ;;! sdelete p) /\ keep notified (Socket_Close p ;;! sdelete p) /\
  keep shared GetUDPPacket /\ keep notified GetUDPPacket.
Proof.
  unfold GetServerReadySocket, InsertServerReuseSocket, GetUDPPacket. split_and!; keeps.
Qed.

Lemma local_keep ctl : keep shared local_recv /\ keep shared (local_add ctl).
Proof. unfold local_recv, local_add, GetServerReuseSocketList. split; keeps. Qed.

Lemma setup_keep efd pair ip port fd b l ctl :
  keep notified (InitServer efd pair) /\ keep notified (AddListenSocket ip port fd b l) /\
  keep notified (Server_InitUDPSocket ip port fd b) /\ keep notified (RunServer ctl).
Proof.
  split_and!.
  - unfold InitServer. keeps.
  - unfold AddListenSocket. keeps.
  - unfold Server_InitUDPSocket. keeps.
  - assert (H : forall l, keep notified (add_listeners ctl l)) by (intros; by apply add_listeners_keep).
    unfold RunServer. keeps; apply H.
Qed.

(** ** The setting up *)

Lemma sure_triple {S A} (P : S -> Prop) (m : M S A) Q : sure P m Q -> triple P m Q.
Proof. intros H s Hs. specialize (H s Hs). unfold runs in H. destruct (m s); [done|done]. Qed.

Lemma own_hold m b h n p x s : Own m b h n p x s -> typed x -> Inv' m b (p :: h) n s.
Proof.
  intros (H & H0 & Hp & Hn) Ht. split; [|done]. clauses H.
  assert (Hpl : forall q, places q m (p :: h) s = (occ q [p] + places q m h s)%nat)
    by (intros q; unfold places; simpl; lia).
  constructor; try done.
  - intros q. rewrite Hpl. simpl. destruct (decide (q = p)) as [->|]; [lia|]. apply inv_once0.
  - intros q. rewrite Hpl. simpl. destruct (decide (q = p)) as [->|]; [eauto|]. apply inv_live0.
Qed.

(** A socket made while setting up, with the members it shares. *)
Definition Made h n F (p : N) (x : Socket) (s : Server) : Prop := Own ∅ [] h n p x s /\ shared s = F.

Lemma made_update h n F p x f :
  sk_ (f x) = sk_ x -> kind_ok n (f x) ->
  triple (Made h n F p x) (supdate p f) (fun _ => Made h n F p (f x)).
Proof. intros. apply sure_triple, sure_keep; [by apply own_update|keeps]. Qed.

Definition Idle h n (F : list N * option N * option N) (s : Server) : Prop :=
  Inv' ∅ [] h n s /\ shared s = F.

Lemma made_open h n F fd :
  triple (fun s => Idle h n F s /\ fd ∉ open_fds s) (sys_open fd)
    (fun _ s => Opened ∅ [] h n fd s /\ shared s = F).
Proof.
  intros s [[Hs HF] Hf].
  exact (sure_triple _ _ _ (sure_keep shared _ _ _ F (sure_sys_open ∅ [] h n fd) ltac:(keeps)) s
           (conj (conj Hs Hf) HF)).
Qed.

Lemma made_new h n F fd :
  triple (fun s => Opened ∅ [] h n fd s /\ shared s = F) (snew fd)
    (fun p => Made h n F p (new_Socket fd)).
Proof. apply sure_triple, sure_keep; [apply sure_snew|keeps]. Qed.

Ltac kind := let E := fresh in intros [E|E]; simpl in E; first [lia | simpl; lia].
Ltac made_set := eapply triple_bind; [apply made_update; [done|kind]|intros []].

Lemma idle_opened h n fd F s : Opened ∅ [] h n fd s /\ shared s = F -> Idle h n F s.
Proof. intros [[H _] HF]. by split. Qed.

Lemma inv_irrelevant m b h n s s' :
  Inv' m b h n s -> sheap s' = sheap s -> snext s' = snext s -> open_fds s' = open_fds s ->
  epoll_set s' = epoll_set s -> server_socket_ready_list_ s' = server_socket_ready_list_ s ->
  server_socket_reuse_list_ s' = server_socket_reuse_list_ s -> Inv' m b h n s'.
Proof.
  intros [H Hn] E1 E2 E3 E4 E5 E6. clauses H.
  assert (Hpl : forall q, places q m h s' = places q m h s)
    by (intros q; unfold places; by rewrite E4, E5, E6).
  split; [|by rewrite E5]. constructor; rewrite ?E1, ?E2, ?E3, ?E4, ?E5; try done;
    intros q; rewrite Hpl; [apply inv_once0|apply inv_live0].
Qed.

(** What [AddListenSocket] and the two others leave behind: nothing new, or one
    more socket. *)
Lemma AddListenSocket_inv h l u lo ip port fd b ls :
  triple (fun s => Idle h (zlen l) (l, u, lo) s /\ fd ∉ open_fds s) (AddListenSocket ip port fd b ls)
    (fun _ s => Idle h (zlen l) (l, u, lo) s \/
                exists p, Idle (p :: h) (zlen (l ++ [p])) (l ++ [p], u, lo) s).
Proof.
  unfold AddListenSocket. destruct (fd <? 0); [apply triple_ret; tauto|].
  eapply triple_bind; [apply made_open|intros []].
  destruct (inet_aton ip) as [ad|]; [|apply triple_ret; intros s Hs; left; by eapply idle_opened].
  destruct b; [|apply triple_ret; intros s Hs; left; by eapply idle_opened].
  destruct ls; [|apply triple_ret; intros s Hs; left; by eapply idle_opened].
  eapply triple_bind; [apply made_new|intros p]. do 3 made_set.
  intros s [Hs HF]. unfold bindM at 1, gets at 1.
  assert (listen_socket_list_ s = l /\ srv_udp_socket_ s = u /\ local_socket_ s = lo)
    as (-> & Hu & Hlo) by (injection HF; auto).
  set (x := set_my_port _ _) in Hs. pose proof Hs as (H & H0 & Hp & Hn).
  unfold bindM at 1. rewrite (supdate_eq s p x _ Hp).
  unfold bindM at 1. rewrite (supdate_eq _ p _ _ (lookup_insert_eq _ _ _)).
  set (y := set_sk_type 1 _).
  set (s2 := with_ready (server_socket_ready_list_ s ++ [[]]) (with_listen (l ++ [p]) s)).
  assert (Hz : zlen (l ++ [p]) = zlen l + 1) by (rewrite zlen_app; done).
  assert (H2 : Own ∅ [] h (zlen (l ++ [p])) p x s2).
  { assert (Hn2 : zlen (server_socket_ready_list_ s ++ [[]]) = zlen (l ++ [p]))
      by (rewrite Hz, zlen_app, Hn; done).
    assert (Hpl : forall q, places q ∅ h s2 = places q ∅ h s).
    { intros q. unfold places, s2. cbn [server_socket_ready_list_ with_ready with_listen epoll_set server_socket_reuse_list_].
      rewrite concat_app, occ_app. simpl. lia. }
    split_and!; [|by rewrite Hpl|done|done]. clauses H. constructor; try done.
    - intros q. rewrite Hpl. apply inv_once0.
    - intros q. rewrite Hpl. apply inv_live0.
    - intros i k q. simpl. rewrite lookup_app_Some, list_lookup_singleton_Some.
      intros [Hk|(_ & _ & <-)] Hq; [by eapply inv_ready0|by apply elem_of_nil in Hq].
    - intros q z Hq E. simpl. rewrite Hn2, Hz, <- Hn. specialize (inv_kind0 q z Hq E). lia. }
  unfold bindM at 1 2 3, modify at 1 2, gets at 1.
  destruct (bindM _ _ _) as [r s3|] eqn:E3; [|done].
  apply bind_Ret_inv in E3 as (t & s4 & E4 & E5). injection E5 as <- <-.
  assert (s4 = sput p y s2) as ->.
  { destruct (0 <=? _); [|done]. injection E4 as _ <-. unfold s2, sput, with_sheap, with_ready, with_listen.
    simpl. by rewrite insert_insert_eq. }
  right. exists p. split.
  - apply (own_hold _ _ _ _ _ y); [|unfold typed; simpl; lia].
    destruct H2 as (H2 & H20 & H2p & H2n). split_and!; [|done|simpl; apply lookup_insert_eq|done].
    apply (inv_sput _ _ _ _ _ y x); [done..|]. intros _. rewrite H2n, Hz. unfold y. simpl.
    unfold to_u32. pose proof (zlen_nonneg l). pose proof (Z.mod_le (zlen l) (2 ^ 32)).
    pose proof (Z.mod_pos_bound (zlen l) (2 ^ 32)). lia.
  - unfold shared. simpl. by rewrite Hu, Hlo.
Qed.

Lemma made_hold h n F p x s : Made h n F p x s -> typed x -> Idle (p :: h) n F s.
Proof. intros [H HF] Ht. split; [by eapply own_hold|done]. Qed.

Lemma local_socket_inv h n l u lo fd1 :
  triple (fun s => Idle h n (l, u, lo) s /\ fd1 ∉ open_fds s)
    (sys_open fd1 ;;!
     let! p := snew fd1 in
     supdate p (set_id (2 ^ 32 - 1)) ;;!
     supdate p (set_sk_type 4) ;;!
     modify (with_local (Some p)) ;;!
     ret 0)
    (fun _ s => Idle h n (l, u, lo) s \/ exists p, Idle (p :: h) n (l, u, Some p) s).
Proof.
  eapply triple_bind; [apply made_open|intros []]. eapply triple_bind; [apply made_new|intros p].
  do 2 made_set. apply (triple_bind _ _ _ (fun _ s => exists p, Idle (p :: h) n (l, u, Some p) s));
    [|intros []; apply triple_ret; tauto].
  apply triple_modify. intros s Hs. exists p.
  apply made_hold in Hs as [Hs HF]; [|unfold typed; simpl; lia]. split.
  - by eapply inv_irrelevant.
  - injection HF as <- <- _. done.
Qed.

Lemma InitServer_inv h n l u lo efd pair :
  triple (fun s => Idle h n (l, u, lo) s /\ (efd ∉ open_fds s) /\
            forall fd0 fd1, pair = Some (fd0, fd1) ->
              (fd0 ∉ open_fds s) /\ (fd1 ∉ open_fds s) /\ NoDup [efd; fd0; fd1])
    (InitServer efd pair)
    (fun _ s => Idle h n (l, u, lo) s \/ exists p, Idle (p :: h) n (l, u, Some p) s).
Proof.
  unfold InitServer. destruct (efd <? 0); [apply triple_ret; intros s (? & _); by left|].
  intros s (Hs & He & Hpair). unfold bindM at 1, sys_open at 1, modify at 1.
  set (s1 := with_kernel ({[efd]} ∪ open_fds s) (epoll_set s) (local_bytes s) s).
  assert (H1 : Idle h n (l, u, lo) s1).
  { destruct Hs as [[H Hn] HF]. split; [split; [|done]|done]. apply inv_open_fd; [done|apply union_subseteq_r]. }
  destruct pair as [[fd0 fd1]|]; [|by left]. destruct (Hpair fd0 fd1 eq_refl) as (H0 & Hfd1 & Hnd).
  unfold bindM at 1, sys_open at 1, modify at 1.
  set (s2 := with_kernel ({[fd0]} ∪ open_fds s1) (epoll_set s1) (local_bytes s1) s1).
  assert (H2 : Idle h n (l, u, lo) s2 /\ fd1 ∉ open_fds s2).
  { destruct H1 as [[H Hn] HF]. split; [split; [split; [|done]|done]|].
    - apply inv_open_fd; [done|apply union_subseteq_r].
    - unfold s2, s1. simpl. rewrite !not_elem_of_union, !not_elem_of_singleton.
      rewrite !list.NoDup_cons, !list.elem_of_cons in Hnd. intuition congruence. }
  exact (local_socket_inv h n l u lo fd1 s2 H2).
Qed.

Lemma InitUDPSocket_inv h n l u lo ip port fd b :
  triple (fun s => Idle h n (l, u, lo) s /\ fd ∉ open_fds s) (Server_InitUDPSocket ip port fd b)
    (fun _ s => Idle h n (l, u, lo) s \/ exists p, Idle (p :: h) n (l, Some p, lo) s).
Proof.
  unfold Server_InitUDPSocket. destruct (fd <? 0); [apply triple_ret; tauto|].
  eapply triple_bind; [apply made_open|intros []].
  destruct (inet_aton ip) as [ad|]; [|apply triple_ret; intros s Hs; left; by eapply idle_opened].
  destruct b; [|apply triple_ret; intros s Hs; left; by eapply idle_opened].
  eapply triple_bind; [apply made_new|intros p].
  eapply (triple_bind _ _ _ (fun _ => Made h n (l, Some p, lo) p (new_Socket fd))).
  { apply triple_modify. intros s [(H & H0 & Hp & Hn) HF]. split.
    - split_and!; [|done..]. assert (Hi : Inv' ∅ [] h n (with_srv_udp (Some p) s))
        by (by apply (inv_irrelevant _ _ _ _ s)). by destruct Hi.
    - injection HF as <- _ <-. done. }
  intros []. do 5 made_set. apply triple_ret. intros s Hs. right. exists p.
  apply made_hold in Hs; [done|unfold typed; simpl; lia].
Qed.

(** ** [RunServer] *)

Lemma add_listeners_inv m b h n ctl l :
  sure (Inv' m b (l ++ h) n) (add_listeners ctl l) (fun _ => Inv' m b h n).
Proof.
  induction l as [|p l IH]; simpl; [by apply sure_ret|].
  intros s Hs. destruct (own_take n m b (l ++ h) p s Hs) as (x & Hx & Ht).
  refine (sure_bind _ _ _ _ _ (own_deref m b (l ++ h) n p x) _ s Hx). intros y s' [-> Hy].
  refine (sure_bind _ _ _ _ _ (own_add m b (l ++ h) n p x _ _ Ht) _ s' Hy).
  intros r s'' [[-> H]|[-> (H & _ & _ & Hn)]].
  - by apply IH.
  - simpl. by apply (inv_drop n m b h l).
Qed.

(** The sockets the setting up has made. *)
Definition setup_held (s : Server) : list N :=
  listen_socket_list_ s ++ option_list (srv_udp_socket_ s) ++ option_list (local_socket_ s).

Lemma RunServer_adds h n ctl l u lo :
  triple (Inv' ∅ [] (l ++ option_list u ++ option_list lo ++ h) n)
    (let! b := add_listeners ctl l in
     if negb b then ret (-2)
     else
       (let! b := (match u with Some p => add_listeners ctl [p] | None => ret true end) in
        if negb b then ret (-2)
        else
          (let! p := of_option HUndefined lo in
           let! b := add_listeners ctl [p] in
           if negb b then ret (-2) else ret 0)))
    (fun _ => Inv' ∅ [] h n).
Proof.
  eapply triple_bind; [apply sure_triple, add_listeners_inv|].
  intros b. destruct b; simpl; [|apply triple_ret; intros s' H'; rewrite app_assoc in H'; by eapply inv_drop].
  apply (triple_bind _ _ _ (fun _ => Inv' ∅ [] (option_list lo ++ h) n)).
  { destruct u as [p|]; [apply sure_triple, (add_listeners_inv ∅ [] _ n ctl [p])|by apply triple_ret]. }
  intros b. destruct b; simpl; [|apply triple_ret; intros s' H'; by eapply inv_drop].
  destruct lo as [p|]; [|apply triple_stop].
  intros s Hs. revert s Hs. change (triple (Inv' ∅ [] (p :: h) n)
    (let! b := add_listeners ctl [p] in if negb b then ret (-2) else ret 0) (fun _ : Z => Inv' ∅ [] h n)).
  apply (triple_bind _ _ _ (fun _ => Inv' ∅ [] h n)).
  { apply sure_triple, (add_listeners_inv ∅ [] h n ctl [p]). }
  intros b. destruct b; by apply triple_ret.
Qed.

Lemma RunServer_inv h n ctl :
  triple (fun s => Inv' ∅ [] (setup_held s ++ h) n s) (RunServer ctl) (fun _ => Inv' ∅ [] h n).
Proof.
  intros s Hs. unfold RunServer. unfold bindM at 1, gets at 1, id.
  assert (Hd : Inv' ∅ [] h n s) by (by apply (inv_drop n _ _ _ _ s Hs)).
  unfold setup_held in Hs. rewrite <- !app_assoc in Hs.
  pose proof (RunServer_adds h n ctl (listen_socket_list_ s) (srv_udp_socket_ s) (local_socket_ s) s Hs) as Hgo.
  by destruct (listen_socket_list_ s), (srv_udp_socket_ s).
Qed.

(** ** The system *)

Definition view_map (st : MainState) : gmap Z (list N) :=
  match st with MBatch _ m | MRecv _ m | MReuse _ m => m | _ => ∅ end.
Definition view_batch (st : MainState) : list N :=
  match st with MBatch l _ | MRecv l _ | MReuse l _ => l.*2 | _ => [] end.
Definition view_held (st : MainState) (s : Server) : list N :=
  match st with MSetup => setup_held s | _ => [] end.

Definition worker_holds (w : Worker) : list N := match wstate w with WHold p => [p] | _ => [] end.
Definition held_of (ws : list Worker) : list N := concat (worker_holds <$> ws).

(** The sockets the threads have in their hands. *)
Definition in_hands (k : System) : list N := view_held (main k) (srv k) ++ held_of (workers k).

(** The number of places a socket is in. *)
Definition owners (p : N) (k : System) : nat := places p (view_map (main k)) (in_hands k) (srv k).

Definition SInv (k : System) : Prop :=
  Inv (view_map (main k)) (view_batch (main k)) (in_hands k) (srv k) /\
  Forall (fun w => 0 <= pool_index_ w) (workers k) /\
  (main k = MSetup -> zlen (server_socket_ready_list_ (srv k)) = zlen (listen_socket_list_ (srv k))).

Lemma held_set_worker k w i st st' :
  workers k !! w = Some (mkWorker i st) ->
  worker_holds (mkWorker i st) ++ held_of (set_worker w st' k) ≡ₚ
  worker_holds (mkWorker i st') ++ held_of (workers k).
Proof.
  unfold set_worker, held_of. intros E. rewrite E. cbn [pool_index_].
  revert w E. generalize (workers k). intros ws. induction ws as [|x ws IH]; intros [|w] E; simpl in *;
    simplify_eq; [by rewrite !app_assoc, (Permutation_app_comm (worker_holds _) (worker_holds _))|].
  rewrite Permutation_app_swap_app, IH by done. by rewrite Permutation_app_swap_app.
Qed.

Lemma pools_set_worker k w st :
  Forall (fun w => 0 <= pool_index_ w) (workers k) -> Forall (fun w => 0 <= pool_index_ w) (set_worker w st k).
Proof.
  intros H. unfold set_worker. destruct (workers k !! w) as [x|] eqn:E; [|done].
  apply Forall_insert; [done|]. by apply (Forall_lookup_1 _ _ _ _ H E).
Qed.

Lemma setup_held_shared s s' : shared s' = shared s -> setup_held s' = setup_held s.
Proof. unfold shared, setup_held. by intros [= -> -> ->]. Qed.

Lemma idle_SInv h n l u lo s t ws :
  Idle h n (l, u, lo) s -> n = zlen l ->
  (forall q, (occ q ((l ++ option_list u ++ option_list lo) ++ held_of ws) <= occ q h)%nat) ->
  Forall (fun w => 0 <= pool_index_ w) ws -> SInv (mkSystem s MSetup t ws).
Proof.
  intros [[H Hn] HF] Hl Hle Hw. injection HF as H1 H2 H3. split_and!; [|done|intros _; simpl; congruence].
  eapply inv_sub; [exact H|]. unfold in_hands. simpl. unfold setup_held. by rewrite H1, H2, H3.
Qed.

Lemma SInv_setup k :
  SInv k -> main k = MSetup ->
  Idle (in_hands k) (zlen (listen_socket_list_ (srv k))) (shared (srv k)) (srv k).
Proof.
  intros (H & _ & Hlen) E. rewrite E in H. split; [split; [done|by apply Hlen]|done].
Qed.

Lemma SInv_main k : SInv k -> Inv' (view_map (main k)) (view_batch (main k)) (in_hands k)
    (zlen (server_socket_ready_list_ (srv k))) (srv k).
Proof. intros (H & _). by split. Qed.

(** A step of the main thread once it runs. *)
Lemma main_SInv k n s' st t :
  SInv k -> main k <> MSetup -> st <> MSetup ->
  Inv' (view_map st) (view_batch st) (held_of (workers k)) n s' -> SInv (mkSystem s' st t (workers k)).
Proof.
  intros (_ & Hw & _) _ Hst [H Hn]. split_and!; [|done|done].
  unfold in_hands. simpl. by destruct st.
Qed.

Lemma in_hands_main k : main k <> MSetup -> in_hands k = held_of (workers k).
Proof. intros H. unfold in_hands. by destruct (main k). Qed.

(** A step of a worker. *)
Lemma worker_SInv k s' ws' t :
  SInv k -> shared s' = shared (srv k) ->
  Inv' (view_map (main k)) (view_batch (main k)) (view_held (main k) (srv k) ++ held_of ws')
    (zlen (server_socket_ready_list_ (srv k))) s' ->
  Forall (fun w => 0 <= pool_index_ w) ws' -> SInv (mkSystem s' (main k) t ws').
Proof.
  intros (_ & _ & Hlen) HF [H Hn] Hw.
  assert (Hv : view_held (main k) s' = view_held (main k) (srv k))
    by (destruct (main k); simpl; [by apply setup_held_shared|done..]).
  split_and!; [|done|].
  - unfold in_hands. cbn [main srv workers]. by rewrite Hv.
  - cbn [main srv]. intros E. rewrite Hn, Hlen by done. by injection HF as ->.
Qed.

Lemma awaited_batch h s events :
  Inv ∅ [] h s -> awaited s events -> Inv ∅ events.*2 h s.
Proof.
  intros H (_ & _ & fds & Hnd & Hf). clauses H.
  assert (Hin : forall p, p ∈ events.*2 -> exists fd ev, fd ∈ fds /\ epoll_set s !! fd = Some (ev, p)).
  { clear Hnd. induction Hf as [|fd [e p] fds' ev' [mask E] Hf IH]; [by intros p []%elem_of_nil|].
    intros q. cbn. rewrite list.elem_of_cons. intros [->|Hq]; [|destruct (IH q Hq) as (fd' & ? & ? & ?)];
      eexists _, _; (split; [|done]); rewrite list.elem_of_cons; [by left|by right]. }
  constructor; try done.
  - clear Hin. induction Hf as [|fd [e p] fds' ev' [mask E] Hf IH]; simpl; constructor.
    + apply list.NoDup_cons in Hnd as [Hfd _]. intros Hp. apply Hfd.
      destruct (list_elem_of_fmap_1 _ _ _ Hp) as ([e' q] & -> & Hq).
      apply list_elem_of_lookup in Hq as [i Hi].
      destruct (Forall2_lookup_r _ _ _ _ _ Hf Hi) as (fd' & Hfd' & mask' & E'). simpl in *.
      destruct (inv_epoll0 _ _ _ E) as (x & Hx & <-), (inv_epoll0 _ _ _ E') as (y & Hy & Hsk).
      rewrite Hx in Hy. injection Hy as <-. rewrite Hsk. by eapply list_elem_of_lookup_2.
    + apply IH. by apply list.NoDup_cons in Hnd as [_ Hnd].
  - intros p Hp. destruct (Hin p Hp) as (fd & ev & _ & E). eauto.
Qed.

Lemma worker_get k w i r s' t :
  SInv k -> workers k !! w = Some (mkWorker i WRun) -> GetServerReadySocket i (srv k) = Ret r s' ->
  SInv (mkSystem s' (main k) t
    (set_worker w (match r with GetNull => WRun | GetWait => WWait | GetSocket p => WHold p end) k)).
Proof.
  intros H Hw E. pose proof H as (_ & Hp & _).
  assert (Hi : 0 <= i) by exact (Forall_lookup_1 _ _ _ _ Hp Hw).
  pose proof (sure_Ret _ _ _ _ _ _ (GetServerReadySocket_inv _ _ _ _ i Hi) (SInv_main k H) E) as [H' _].
  apply worker_SInv; [done|by eapply (proj1 (worker_keep i 0 0))| |by apply pools_set_worker].
  destruct H' as [H' Hn']. split; [|done]. revert H'. apply inv_perm. unfold in_hands.
  pose proof (held_set_worker k w i WRun
    (match r with GetNull => WRun | GetWait => WWait | GetSocket p => WHold p end) Hw) as Hperm.
  cbn [worker_holds wstate app] in Hperm. rewrite Hperm. rewrite Permutation_app_swap_app. by destruct r.
Qed.

(** A worker puts the socket it holds out of its hands. *)
Lemma worker_release {A} k w i p (m : M Server A) r s' t :
  SInv k -> workers k !! w = Some (mkWorker i (WHold p)) -> keep shared m ->
  (forall mm b h n, sure (Inv' mm b (p :: h) n) m (fun _ => Inv' mm b h n)) ->
  m (srv k) = Ret r s' -> SInv (mkSystem s' (main k) t (set_worker w WRun k)).
Proof.
  intros H Hw Hk Hm E. apply worker_SInv; [done|by eapply Hk| |apply pools_set_worker, H].
  eapply (sure_Ret _ _ _ _ _ _ (Hm _ _ _ _)); [|exact E]. destruct (SInv_main k H) as [H' Hn'].
  split; [|done]. revert H'. apply inv_perm. unfold in_hands.
  pose proof (held_set_worker k w i (WHold p) WRun Hw) as Hperm.
  cbn [worker_holds wstate app] in Hperm. rewrite <- Hperm. by rewrite Permutation_middle.
Qed.

Lemma setup_occ q (l : list N) u lo p ws :
  (occ q ((l ++ [p]) ++ option_list u ++ option_list lo ++ ws) <=
   occ q (p :: (l ++ option_list u ++ option_list lo) ++ ws))%nat /\
  (occ q (l ++ [p] ++ option_list lo ++ ws) <=
   occ q (p :: (l ++ option_list u ++ option_list lo) ++ ws))%nat /\
  (occ q (l ++ option_list u ++ [p] ++ ws) <=
   occ q (p :: (l ++ option_list u ++ option_list lo) ++ ws))%nat.
Proof. simpl. rewrite !occ_app. simpl. rewrite !occ_app. simpl. lia. Qed.

Lemma setup_step k s' t :
  SInv k -> main k = MSetup ->
  (exists efd pair r, (efd ∉ open_fds (srv k)) /\
     (forall fd0 fd1, pair = Some (fd0, fd1) ->
        (fd0 ∉ open_fds (srv k)) /\ (fd1 ∉ open_fds (srv k)) /\ NoDup [efd; fd0; fd1]) /\
     InitServer efd pair (srv k) = Ret r s') \/
  (exists ip port fd b l r, (fd ∉ open_fds (srv k)) /\ AddListenSocket ip port fd b l (srv k) = Ret r s') \/
  (exists ip port fd b r, (fd ∉ open_fds (srv k)) /\ Server_InitUDPSocket ip port fd b (srv k) = Ret r s') ->
  SInv (mkSystem s' MSetup t (workers k)).
Proof.
  intros H E Hstep. pose proof (SInv_setup k H E) as Hi. pose proof H as (_ & Hw & _).
  unfold in_hands in Hi. rewrite E in Hi. cbn [view_held] in Hi. unfold setup_held in Hi.
  revert Hi. unfold shared at 1.
  generalize (listen_socket_list_ (srv k)) (srv_udp_socket_ (srv k)) (local_socket_ (srv k)). intros l u lo Hi.
  set (h := (l ++ option_list u ++ option_list lo) ++ held_of (workers k)) in *.
  assert (Hsame : Idle h (zlen l) (l, u, lo) s' -> SInv (mkSystem s' MSetup t (workers k)))
    by (intros; by eapply idle_SInv).
  destruct Hstep as [(efd & pair & r & Hf & Hpair & E')|[(ip & port & fd & b & ls & r & Hf & E')
    |(ip & port & fd & b & r & Hf & E')]].
  - pose proof (InitServer_inv h (zlen l) l u lo efd pair (srv k) (conj Hi (conj Hf Hpair))) as Hr.
    rewrite E' in Hr. destruct Hr as [Hr|[p Hr]]; [by apply Hsame|].
    eapply idle_SInv; [exact Hr|done| |done]. intros q. unfold h. rewrite <- !app_assoc.
    pose proof (setup_occ q l u lo p (held_of (workers k))) as (_ & _ & Ho).
    rewrite <- !app_assoc in Ho. exact Ho.
  - pose proof (AddListenSocket_inv h l u lo ip port fd b ls (srv k) (conj Hi Hf)) as Hr.
    rewrite E' in Hr. destruct Hr as [Hr|[p Hr]]; [by apply Hsame|].
    eapply idle_SInv; [exact Hr|done| |done]. intros q. unfold h.
    pose proof (setup_occ q l u lo p (held_of (workers k))) as (Ho & _).
    rewrite <- !app_assoc in *. exact Ho.
  - pose proof (InitUDPSocket_inv h (zlen l) l u lo ip port fd b (srv k) (conj Hi Hf)) as Hr.
    rewrite E' in Hr. destruct Hr as [Hr|[p Hr]]; [by apply Hsame|].
    eapply idle_SInv; [exact Hr|done| |done]. intros q. unfold h.
    pose proof (setup_occ q l u lo p (held_of (workers k))) as (_ & Ho & _).
    rewrite <- !app_assoc in *. exact Ho.
Qed.

Lemma step_SInv mf k k' : SInv k -> step mf k k' -> SInv k'.
Proof.
  intros H Hst. pose proof (SInv_main k H) as Hm. set (n := zlen (server_socket_ready_list_ (srv k))) in *.
  destruct Hst as [k efd pair r s' E Hf Hp E'|k ip port fd b l r s' E Hf E'|k ip port fd b r s' E Hf E'
    |k ctl r s' E E'|k E _|k E|k E|k evs E _ Ha|k ev p rest m a r m' s' E E'|k rest m more s' E E'
    |k rest m ctl s' E E'|k m ss su es eu s' E E'|k s' E'|k w i r s' Hw E'|k w i Hw
    |k w i p sent r s' Hw _ E'|k w i p s' Hw E'|k w i r s' Hw E'];
    try (rewrite (in_hands_main k) in Hm by (by rewrite E); rewrite E in Hm; cbn [view_map view_batch] in Hm).
  - apply (setup_step k); [done|done|left]. eexists _, _, _. split_and!; [done| |exact E'].
    intros fd0 fd1 Hpair. destruct (Hp fd0 fd1 Hpair) as (? & ? & ?). done.
  - apply (setup_step k); [done|done|right; left]. by eexists _, _, _, _, _, _.
  - apply (setup_step k); [done|done|right; right]. by eexists _, _, _, _, _.
  - pose proof (SInv_main k H) as Hm'. unfold in_hands in Hm'. rewrite E in Hm'.
    pose proof (RunServer_inv _ _ ctl (srv k) Hm') as Hr. rewrite E' in Hr. destruct Hr as [Hr Hn'].
    destruct H as (_ & Hw & _). destruct (r =? 0); split_and!; done.
  - eapply main_SInv; [done|by rewrite E|done|exact Hm].
  - eapply main_SInv; [done|by rewrite E|done|exact Hm].
  - eapply main_SInv; [done|by rewrite E|done|exact Hm].
  - eapply main_SInv; [done|by rewrite E|done|]. destruct Hm as [Hm Hn]. split; [|exact Hn].
    by apply awaited_batch.
  - pose proof (sure_Ret _ _ _ _ _ _ (loop_event_inv n m rest.*2 _ ev p a) Hm E') as Hr.
    eapply main_SInv; [done|by rewrite E|by destruct r|]. destruct r; exact Hr.
  - pose proof (sure_Ret _ _ _ _ _ _ (local_recv_inv n m rest.*2 _) Hm E') as Hr.
    eapply main_SInv; [done|by rewrite E|by destruct more|]. destruct more; exact Hr.
  - pose proof (sure_Ret _ _ _ _ _ _ (local_add_inv n m rest.*2 _ ctl) Hm E') as Hr.
    eapply main_SInv; [done|by rewrite E|done|exact Hr].
  - pose proof (sure_Ret _ _ _ _ _ _ (loop_ready_inv n m [] _) Hm E') as Hr.
    eapply main_SInv; [done|by rewrite E|done|exact Hr].
  - injection E' as <-. apply worker_SInv; [done|done| |apply H]. by apply (inv_irrelevant _ _ _ _ (srv k)).
  - by eapply worker_get.
  - apply worker_SInv; [done|done| |apply pools_set_worker, H].
    destruct Hm as [Hm Hn]. split; [|done]. revert Hm. apply inv_perm. unfold in_hands.
    pose proof (held_set_worker k w i WWait WRun Hw) as Hperm. cbn [worker_holds wstate app] in Hperm.
    by rewrite Hperm.
  - eapply (worker_release k w i p); [done|done| |intros; apply InsertServerReuseSocket_inv|exact E'].
    apply (worker_keep i p sent).
  - eapply (worker_release k w i p); [done|done| |intros; apply worker_destroy_inv|exact E'].
    apply (worker_keep i p 0).
  - apply worker_SInv; [done|by eapply (worker_keep i 0 0)| |apply H].
    exact (sure_Ret _ _ _ _ _ _ (GetUDPPacket_inv n _ _ _) Hm E').
Qed.

Lemma reachable_SInv mf k : reachable mf k -> SInv k.
Proof.
  induction 1 as [es mx ti fds ws Hw|k k' _ IH Hst]; [|by eapply step_SInv].
  assert (Hh : held_of ws = []).
  { induction Hw as [|x ws [_ Hx] Hw IH]; [done|]. change (worker_holds x ++ held_of ws = []).
    rewrite IH. unfold worker_holds. by rewrite Hx. }
  split_and!; [|exact (list.Forall_impl _ _ _ Hw (fun _ => @proj1 _ _))|done].
  unfold in_hands. cbn [view_held setup_held main srv workers]. rewrite Hh.
  assert (H0 : forall p, places p ∅ [] (new_Server es mx ti None fds) = 0%nat) by done.
  constructor; simpl; try done.
  - intros p. change (places p ∅ [] (new_Server es mx ti None fds) <= 1)%nat. rewrite H0. lia.
  - intros p. change ((0 < places p ∅ [] (new_Server es mx ti None fds))%nat ->
      exists x, (∅ : gmap N Socket) !! p = Some x /\ typed x). rewrite H0. lia.
  - intros p. rewrite lookup_empty. by intros [].
  - constructor.
  - by intros p Hp%elem_of_nil.
Qed.

End Reach.
