(* ===== verification/NfRouting.v ===== *)
(** * Which listening socket a connection of the server belongs to

    The index in a connection is that of the listening socket it was accepted on:
    in every reachable state the two have the same address, as long as the
    listening socket lives.  The indices do not wrap: the assertion at the end of
    [AddListenSocket] fails before the list is too long. *)

From S2P Require Import Prelude Wire NfServer NfThreads.

Section Routing.
  Context {I : Inet}.

(** The address a socket has on this side. *)
Definition my_address (x : Socket) : list byte * Z * Z := (my_ipstr_ x, my_ip_ x, my_port_ x).

(** The socket [x] has the index of a listening socket, and its address if that
    is not deleted. *)
Definition routed (s : Server) (x : Socket) : Prop :=
  0 <= id_ x /\ exists lp, listen_socket_list_ s !! Z.to_nat (id_ x) = Some lp /\
    forall lx, sheap s !! lp = Some lx -> my_address x = my_address lx.

(** Every connection and every listening socket is routed, but for the new socket
    [own]; [w] is a socket as it was read before. *)
Record RInv (w : option Socket) (own : option N) (s : Server) : Prop := {
  r_next p : is_Some (sheap s !! p) -> (p < snext s)%N;
  r_listed i lp : listen_socket_list_ s !! i = Some lp -> (lp < snext s)%N /\ own <> Some lp;
  r_listening i lp lx : listen_socket_list_ s !! i = Some lp -> sheap s !! lp = Some lx ->
    sk_type_ lx = 1 /\ id_ lx = Z.of_nat i;
  r_sockets p x : own <> Some p -> sheap s !! p = Some x -> sk_type_ x = 1 \/ sk_type_ x = 2 -> routed s x;
  r_watched x : w = Some x -> routed s x;
  r_length : zlen (listen_socket_list_ s) = zlen (server_socket_ready_list_ s) /\
    zlen (listen_socket_list_ s) <= int_max
}.

(** A new socket in the hands of an operation. *)
Definition Fresh (w : option Socket) (p : N) (x : Socket) (s : Server) : Prop :=
  RInv w (Some p) s /\ sheap s !! p = Some x.

(** A change of the heap that listed sockets do not see. *)
Lemma routed_heap s s' x :
  listen_socket_list_ s' = listen_socket_list_ s ->
  (forall i lp lx, listen_socket_list_ s !! i = Some lp -> sheap s' !! lp = Some lx -> sheap s !! lp = Some lx) ->
  routed s x -> routed s' x.
Proof.
  intros Hl Hh (Hi & lp & Hlp & Ha). split; [done|]. exists lp. rewrite Hl. split; [done|].
  intros lx Hlx. by eapply Ha, Hh.
Qed.

Lemma RInv_heap w own s s' :
  RInv w own s -> listen_socket_list_ s' = listen_socket_list_ s ->
  zlen (server_socket_ready_list_ s') = zlen (server_socket_ready_list_ s) -> (snext s <= snext s')%N ->
  (forall p, is_Some (sheap s' !! p) -> (p < snext s')%N) ->
  (forall p x, own <> Some p -> sheap s' !! p = Some x -> sheap s !! p = Some x) -> RInv w own s'.
Proof.
  intros [H1 H2 H3 H4 H5 H6] Hl Hr Hn Hnext Hh.
  assert (Hlh : forall i lp lx, listen_socket_list_ s !! i = Some lp -> sheap s' !! lp = Some lx -> sheap s !! lp = Some lx).
  { intros i lp lx Hi. apply Hh. by eapply H2. }
  split; rewrite ?Hl, ?Hr; try done.
  - intros i lp Hi. destruct (H2 i lp Hi). split; [lia|done].
  - intros i lp lx Hi Hlx. eapply H3; [done|by eapply Hlh].
  - intros p x Hp Hx Ht. eapply routed_heap; [done|exact Hlh|]. by eapply H4, Ht; [|apply Hh].
  - intros x Hx. eapply routed_heap; [done|exact Hlh|]. by apply H5.
Qed.

Lemma RInv_same w own s s' :
  RInv w own s -> sheap s' = sheap s -> snext s' = snext s -> listen_socket_list_ s' = listen_socket_list_ s ->
  zlen (server_socket_ready_list_ s') = zlen (server_socket_ready_list_ s) -> RInv w own s'.
Proof.
  intros H Hh Hn Hl Hr. eapply RInv_heap; [exact H|done|done|by rewrite Hn| |by rewrite Hh].
  rewrite Hh, Hn. apply H.
Qed.

(** ** Operations that make no socket *)

Definition routes {A} (m : M Server A) : Prop :=
  forall w own, triple (RInv w own) m (fun _ => RInv w own).

Lemma routes_bind {A B} (m : M Server A) (k : A -> M Server B) :
  routes m -> (forall a, routes (k a)) -> routes (bindM m k).
Proof. intros Hm Hk w own. eapply triple_bind; [apply Hm|intros a; apply Hk]. Qed.
Lemma routes_ret {A} (a : A) : routes (ret a).
Proof. intros w own. by apply triple_ret. Qed.
Lemma routes_gets {A} (f : Server -> A) : routes (gets f).
Proof. intros w own. by apply triple_gets. Qed.
Lemma routes_stop {A} h : routes (A := A) (stop h).
Proof. intros w own. apply triple_stop. Qed.
Lemma routes_of_option {A} h (o : option A) : routes (of_option h o).
Proof. destruct o; [apply routes_ret|apply routes_stop]. Qed.
Lemma routes_modify f :
  (forall s, sheap (f s) = sheap s /\ snext (f s) = snext s /\ listen_socket_list_ (f s) = listen_socket_list_ s /\
     server_socket_ready_list_ (f s) = server_socket_ready_list_ s) -> routes (modify f).
Proof.
  intros H w own. apply triple_modify. intros s Hs. destruct (H s) as (H1 & H2 & H3 & H4).
  eapply RInv_same; [exact Hs|done..|by rewrite H4].
Qed.
Lemma routes_forM {A} (l : list A) f : (forall x, routes (f x)) -> routes (forM l f).
Proof. intros H w own. apply triple_forM. intros x. apply H. Qed.

(** A list of ready sockets changes. *)
Lemma routes_ready i f (k : list (list N) -> M Server unit) :
  (forall r, routes (k r)) ->
  routes (let! r := gets server_socket_ready_list_ in modify (with_ready (<[i := f r]> r)) ;;! k r).
Proof.
  intros Hk w own s Hs. rewrite bind_gets, bind_modify. apply Hk. eapply RInv_same; [exact Hs|done..|].
  unfold zlen. simpl. by rewrite length_insert.
Qed.

Lemma routes_delete p : routes (modify (fun s => with_sheap (delete p (sheap s)) (snext s) s)).
Proof.
  intros w own. apply triple_modify. intros s Hs. eapply RInv_heap; [exact Hs|done|done|done| |].
  - intros q [x Hx]. simpl in Hx. apply lookup_delete_Some in Hx as [_ Hq]. by eapply (r_next _ _ _ Hs).
  - intros q x _ Hx. simpl in Hx. by apply lookup_delete_Some in Hx as [_ Hq].
Qed.

Ltac routes :=
  intros; repeat (cbv beta zeta; lazymatch goal with
  | |- routes (modify (fun s => with_sheap (delete _ _) _ _)) => apply routes_delete
  | |- routes (bindM _ _) => apply routes_bind; [|intros ?]
  | |- routes (ret _) => apply routes_ret
  | |- routes (gets _) => apply routes_gets
  | |- routes (stop _) => apply routes_stop
  | |- routes (modify _) => apply routes_modify; intros ?; by split_and!
  | |- routes (of_option _ _) => apply routes_of_option
  | |- routes (forM _ _) => apply routes_forM; intros ?
  | |- routes (match ?x with _ => _ end) => destruct x
  | |- routes (_ ?a) => first [progress unfold sderef, sdelete, sys_open, Socket_Close,
        epoll_ctl_add, epoll_ctl_del, InsertUDPRecvPacket, add_reused | fail 1]
  end).

Lemma routes_close p : routes (Socket_Close p ;;! sdelete p).
Proof. routes. Qed.

Lemma routes_local_recv : routes local_recv.
Proof. unfold local_recv. routes. Qed.

Lemma routes_local_add ctl : routes (local_add ctl).
Proof. unfold local_add, GetServerReuseSocketList. routes. Qed.

Lemma routes_add_listeners ctl l : routes (add_listeners ctl l).
Proof. induction l as [|p l IH]; simpl; routes. apply IH. Qed.

Lemma routes_RunServer ctl : routes (RunServer ctl).
Proof. unfold RunServer. routes; apply routes_add_listeners. Qed.

Lemma routes_GetUDPPacket : routes GetUDPPacket.
Proof. unfold GetUDPPacket. routes. Qed.

Lemma routes_InsertServerReuseSocket i p sent : routes (InsertServerReuseSocket i p sent).
Proof. unfold InsertServerReuseSocket. routes. Qed.

Lemma routes_with_ready {A} i l w own s (m : M Server A) :
  RInv w own s -> routes m ->
  match m (with_ready (<[i := l]> (server_socket_ready_list_ s)) s) with
  | Ret _ s' => RInv w own s' | Halt _ _ => True end.
Proof.
  intros Hs Hm. apply (Hm w own). eapply RInv_same; [exact Hs|done..|].
  unfold zlen. simpl. by rewrite length_insert.
Qed.

Lemma routes_GetServerReadySocket i : routes (GetServerReadySocket i).
Proof.
  intros w own s Hs. unfold GetServerReadySocket. rewrite bind_gets.
  destruct (server_socket_ready_list_ s !! Z.to_nat i) as [[|p l]|]; [done| |done].
  rewrite bind_modify. apply routes_with_ready; [done|]. routes.
Qed.

Lemma routes_loop_ready m : routes (loop_ready m).
Proof.
  unfold loop_ready. destruct (bool_decide _); [routes|]. apply routes_forM. intros it w own s Hs.
  unfold insert_ready_step. rewrite bind_gets.
  destruct (server_socket_ready_list_ s !! Z.to_nat it.1); [|done].
  rewrite bind_modify. apply routes_with_ready; [done|]. routes.
Qed.

(** ** New sockets *)

Lemma fresh_new w fd : triple (RInv w None) (snew fd) (fun p => Fresh w p (new_Socket fd)).
Proof.
  intros s Hs. unfold snew. rewrite bind_gets, bind_modify. unfold id. split; [|apply lookup_insert_eq].
  assert (Hne : forall p x, Some (snext s) <> Some p ->
            <[snext s := new_Socket fd]> (sheap s) !! p = Some x -> sheap s !! p = Some x)
    by (intros p x Hp; by rewrite lookup_insert_ne by congruence).
  eapply (RInv_heap w (Some (snext s)) s); [|done|done|simpl; lia| |exact Hne].
  - destruct Hs as [H1 H2 H3 H4 H5 H6]. split; try done; [|intros p x _; by apply H4].
    intros i lp Hi. destruct (H2 i lp Hi). split; [done|]. intros [= <-]. lia.
  - intros p [x Hx]. simpl in *. destruct (decide (p = snext s)) as [->|]; [lia|].
    rewrite lookup_insert_ne in Hx by done. pose proof (r_next _ _ _ Hs p (mk_is_Some _ _ Hx)). lia.
Qed.

Lemma fresh_update w p x f : triple (Fresh w p x) (supdate p f) (fun _ => Fresh w p (f x)).
Proof.
  intros s [Hs Hp]. unfold supdate, sderef, bindM, gets. rewrite Hp. unfold of_option, ret, modify. split.
  - eapply RInv_heap; [exact Hs|done|done|done| |].
    + intros q [y Hy]. simpl in Hy. apply (r_next _ _ _ Hs).
      apply lookup_insert_Some in Hy as [[<- _]|[_ Hq]]; by eexists.
    + intros q y Hq. simpl. by rewrite lookup_insert_ne by (intros ->; done).
  - apply lookup_insert_eq.
Qed.

(** The new socket is not a connection, or it is routed. *)
Lemma fresh_done w p x s :
  Fresh w p x s -> (sk_type_ x <> 1 /\ sk_type_ x <> 2) \/ routed s x -> RInv w None s.
Proof.
  intros [[H1 H2 H3 H4 H5 H6] Hp] Hx. split; try done.
  - intros i lp Hi. split; [by eapply H2|done].
  - intros q y _ Hq Ht. destruct (decide (q = p)) as [->|Hqp]; [|apply (H4 q); [by intros [= ->]|done|done]].
    rewrite Hp in Hq. injection Hq as <-. destruct Hx as [[Hx1 Hx2]|Hx]; [by destruct Ht|done].
Qed.

Lemma fresh_deleted w p x : triple (Fresh w p x) (sdelete p) (fun _ => RInv w None).
Proof.
  intros s [Hs Hp]. unfold sdelete, sderef, bindM, gets. rewrite Hp. unfold of_option, ret, modify.
  pose proof (routes_delete p w (Some p) s Hs) as H. unfold modify in H.
  destruct H as [H1 H2 H3 H4 H5 H6]. split; try done.
  - intros i lp Hi. split; [by eapply H2|done].
  - intros q y _ Hq Ht. eapply H4; [|exact Hq|done]. intros [= ->].
    simpl in Hq. by rewrite lookup_delete_eq in Hq.
Qed.

Ltac fresh_set := eapply triple_bind; [apply fresh_update|intros []].

Lemma accept_step_routed x0 ctl a :
  triple (RInv (Some x0) None) (accept_step x0 ctl a) (fun _ => RInv (Some x0) None).
Proof.
  destruct a as [[fd ad] po]. unfold accept_step.
  eapply triple_bind; [apply routes_gets|intros fds]. cbv beta.
  destruct (bool_decide _); [by apply triple_ret|].
  assert (Ho : routes (sys_open fd)) by routes.
  eapply triple_bind; [apply Ho|intros []]. eapply triple_bind; [apply fresh_new|intros p].
  do 7 fresh_set. destruct (inet_ntoa ad) as [str|]; [|apply fresh_deleted].
  fresh_set. intros s Hs. set (x := set_peer_ipstr str _) in Hs.
  assert (HR : RInv (Some x0) None s).
  { eapply fresh_done; [exact Hs|right]. destruct Hs as [Hs _]. exact (r_watched _ _ _ Hs x0 eq_refl). }
  revert s HR Hs. assert (Hr : routes (let! r := epoll_ctl_add fd (Z.lor EPOLLIN EPOLLRDHUP) p (ctl fd) in
    if negb (r =? 0) then Socket_Close p ;;! sdelete p else ret tt)) by routes.
  intros s HR _. by apply Hr.
Qed.

Lemma loop_event_routed ev p m a : triple (RInv None None) (loop_event ev p m a) (fun _ => RInv None None).
Proof.
  unfold loop_event. eapply (triple_bind _ _ _ (fun _ => RInv None None)).
  - unfold EpollProcess. intros s Hs. unfold sderef. unfold bindM at 1 2, gets at 1.
    destruct (sheap s !! p) as [x|] eqn:Hp; [|done]. unfold of_option at 1, ret at 1.
    assert (Hl : sk_type_ x = 1 -> RInv (Some x) None s).
    { intros Ht. destruct Hs as [H1 H2 H3 H4 H5 H6]. split; try done.
      intros y [= <-]. eapply H4; [done|exact Hp|by left]. }
    assert (Hk : forall (m' : M Server (ProcessResult * gmap Z (list N))), routes m' ->
              match m' s with Ret _ s' => RInv None None s' | Halt _ _ => True end)
      by (intros m' Hm'; by apply Hm').
    destruct (negb (Z.land ev EPOLLERR =? 0)); [done|].
    destruct (negb (Z.land ev EPOLLIN =? 0) || negb (Z.land ev EPOLLRDHUP =? 0)); [|done].
    destruct (Z.eqb_spec (sk_type_ x) 1) as [E1|]; [|apply Hk; routes].
    specialize (Hl E1). unfold bindM.
    pose proof (triple_forM (RInv (Some x) None) (accepted a) (accept_step x (ctl_ok a))
      (fun c => accept_step_routed x _ c) s Hl) as Hf.
    destruct (forM _ _ s) as [[] s'|]; [|done]. destruct Hf as [H1 H2 H3 H4 H5 H6]. by split.
  - intros [r m']. assert (Hk : forall (m1 : M Server (ProcessResult * gmap Z (list N))), routes m1 ->
      triple (RInv None None) m1 (fun _ => RInv None None)) by (intros m1 Hm1; apply Hm1).
    apply Hk. routes.
Qed.

(** ** Setting up *)

Lemma InitServer_routed efd pair : triple (RInv None None) (InitServer efd pair) (fun _ => RInv None None).
Proof.
  assert (Ho : forall fd, routes (sys_open fd)) by routes.
  unfold InitServer. destruct (efd <? 0); [by apply triple_ret|].
  eapply triple_bind; [apply Ho|intros []]. destruct pair as [[fd0 fd1]|]; [|by apply triple_ret].
  eapply triple_bind; [apply Ho|intros []]. eapply triple_bind; [apply Ho|intros []].
  eapply triple_bind; [apply fresh_new|intros p]. do 2 fresh_set.
  eapply (triple_bind _ _ _ (fun _ => RInv None None)); [|intros []; by apply triple_ret].
  apply triple_modify. intros s Hs. apply (RInv_same None None s); [|done..].
  eapply fresh_done; [exact Hs|by left].
Qed.

Lemma InitUDPSocket_routed ip port fd b :
  triple (RInv None None) (Server_InitUDPSocket ip port fd b) (fun _ => RInv None None).
Proof.
  assert (Ho : forall fd, routes (sys_open fd)) by routes.
  unfold Server_InitUDPSocket. destruct (fd <? 0); [by apply triple_ret|].
  eapply triple_bind; [apply Ho|intros []]. destruct (inet_aton ip); [|by apply triple_ret].
  destruct (negb b); [by apply triple_ret|].
  eapply triple_bind; [apply fresh_new|intros p].
  eapply (triple_bind _ _ _ (fun _ => Fresh None p (new_Socket fd))).
  { apply triple_modify. intros s [Hs Hp]. split; [by eapply RInv_same|done]. }
  intros []. do 5 fresh_set. apply triple_ret. intros s Hs. eapply fresh_done; [exact Hs|by left].
Qed.

(** The new listening socket is put into the list under its index. *)
Lemma listen_added p x y s :
  Fresh None p x s -> sk_type_ y = 1 -> id_ y = zlen (listen_socket_list_ s) -> my_address y = my_address x ->
  zlen (listen_socket_list_ s) < int_max ->
  RInv None None (with_ready (server_socket_ready_list_ s ++ [[]])
    (with_listen (listen_socket_list_ s ++ [p]) (with_sheap (<[p := y]> (sheap s)) (snext s) s))).
Proof.
  intros [[H1 H2 H3 H4 H5 H6] Hp] Ht Hid Ha Hlen.
  assert (Hrt : forall z, routed s z -> routed (with_ready (server_socket_ready_list_ s ++ [[]])
    (with_listen (listen_socket_list_ s ++ [p]) (with_sheap (<[p := y]> (sheap s)) (snext s) s))) z).
  { intros z (Hz & lp & Hlp & Hza). split; [done|]. exists lp. simpl. split; [by apply lookup_app_l_Some|].
    intros lx. rewrite lookup_insert_ne; [apply Hza|]. intros ->. by destruct (H2 _ _ Hlp). }
  split; simpl.
  - intros q [z [[<- _]|[_ Hq]]%lookup_insert_Some]; [apply H1; by eexists|apply H1; by eexists].
  - intros i lp [Hi|(_ & _ & <-)%(fun H => conj (proj1 H) (proj1 (list_lookup_singleton_Some _ _ _) (proj2 H)))]%lookup_app_Some.
    + by split; [eapply H2|].
    + split; [apply H1; by eexists|done].
  - intros i lp lx [Hi|[Hi [Hi0 <-]%list_lookup_singleton_Some]]%lookup_app_Some.
    + rewrite lookup_insert_ne; [by apply H3|]. intros ->. by destruct (H2 _ _ Hi).
    + rewrite lookup_insert_eq. intros [= <-]. split; [done|]. rewrite Hid. unfold zlen. lia.
  - intros q z _ [[<- <-]|[Hne Hq]]%lookup_insert_Some Hz.
    + split; [rewrite Hid; apply zlen_nonneg|]. exists p. simpl. rewrite Hid. unfold zlen. rewrite Nat2Z.id.
      rewrite lookup_app_r, Nat.sub_diag by done. split; [done|]. rewrite lookup_insert_eq. by intros lx [= <-].
    + apply Hrt, (H4 q); [by intros [= ->]|done|done].
  - done.
  - rewrite !zlen_app. change (zlen [p]) with 1. change (zlen [[]]) with 1. lia.
Qed.

Lemma AddListenSocket_routed ip port fd b ls :
  triple (RInv None None) (AddListenSocket ip port fd b ls) (fun _ => RInv None None).
Proof.
  assert (Ho : forall fd, routes (sys_open fd)) by routes.
  unfold AddListenSocket. destruct (fd <? 0); [by apply triple_ret|].
  eapply triple_bind; [apply Ho|intros []]. destruct (inet_aton ip) as [ad|]; [|by apply triple_ret].
  destruct (negb b); [by apply triple_ret|]. destruct (negb ls); [by apply triple_ret|].
  eapply triple_bind; [apply fresh_new|intros p]. do 3 fresh_set.
  intros s Hs. set (x := set_my_port _ _) in Hs. rewrite bind_gets.
  pose proof Hs as [HR Hp]. set (l := listen_socket_list_ s).
  assert (E1 : forall (t : Server) z f, sheap t !! p = Some z ->
    supdate p f t = Ret tt (with_sheap (<[p := f z]> (sheap t)) (snext t) t)).
  { intros t z f Hz. unfold supdate, sderef, bindM, gets. by rewrite Hz. }
  rewrite (bind_Ret _ _ _ _ _ (E1 s x _ Hp)).
  erewrite (bind_Ret (supdate p (set_sk_type 1))) by (apply E1, lookup_insert_eq).
  rewrite !bind_modify, bind_gets. cbn [snext sheap with_sheap]. rewrite insert_insert_eq.
  unfold assert_, bindM. destruct (0 <=? _) eqn:Hi; [|done]. apply Z.leb_le in Hi.
  destruct (r_length _ _ _ HR) as [Hlen Hmax]. cbn [server_socket_ready_list_ with_ready] in Hi.
  rewrite zlen_app in Hi. change (server_socket_ready_list_ _) with (server_socket_ready_list_ s) in Hi.
  change (zlen [[]]) with 1 in Hi. rewrite <- Hlen in Hi. fold l in Hlen, Hmax, Hi.
  assert (Hlt : zlen l < int_max).
  { destruct (Z.eq_dec (zlen l) int_max) as [E|]; [|lia]. exfalso. rewrite E in Hi. by vm_compute in Hi. }
  refine (listen_added p x (set_sk_type 1 (set_id (to_u32 (zlen l)) x)) s Hs eq_refl _ eq_refl Hlt).
  unfold to_u32, int_max in *. cbn [id_ set_sk_type set_id]. change (2 ^ 31) with 2147483648 in *.
  apply Z.mod_small. pose proof (zlen_nonneg l). change (2 ^ 32) with 4294967296. fold l. lia.
Qed.

(** ** The reachable states *)

Lemma step_routed mf k k' : RInv None None (srv k) -> step mf k k' -> RInv None None (srv k').
Proof.
  intros H Hst.
  assert (Ht : forall {A} (m : M Server A) a s', triple (RInv None None) m (fun _ => RInv None None) ->
    m (srv k) = Ret a s' -> RInv None None s').
  { intros A m a s' Hm E. pose proof (Hm _ H) as Hr. by rewrite E in Hr. }
  destruct Hst as [k efd pair r s' _ _ _ E'|k ip port fd b l r s' _ _ E'
    |k ip port fd b r s' _ _ E'|k ctl r s' _ E'|k _ _|k _|k _|k evs _ _ _|k ev p rest m a r m' s' _ E'
    |k rest m more s' _ E'|k rest m ctl s' _ E'|k m ss su es eu s' _ E'|k s' E'|k w i r s' _ E'|k w i _
    |k w i p sent r s' _ _ E'|k w i p s' _ E'|k w i r s' _ E']; simpl; try done; (eapply Ht; [|exact E']).
  - apply InitServer_routed.
  - apply AddListenSocket_routed.
  - apply InitUDPSocket_routed.
  - apply routes_RunServer.
  - apply loop_event_routed.
  - apply routes_local_recv.
  - apply routes_local_add.
  - apply routes_loop_ready.
  - unfold StopServer. by apply routes_modify.
  - apply routes_GetServerReadySocket.
  - apply routes_InsertServerReuseSocket.
  - apply routes_close.
  - apply routes_GetUDPPacket.
Qed.

Lemma reachable_routed mf k : reachable mf k -> RInv None None (srv k).
Proof.
  induction 1 as [es mx ti fds ws _|k k' _ IH Hst]; [|by eapply step_routed].
  split; simpl; try done.
  - intros p [x Hx]. by rewrite lookup_empty in Hx.
Qed.

End Routing.
