(* ===== verification/NfProps.v ===== *)
(** * What the threads of the server can rely on

    The theorems on the reachable states of the thread-pool server: one owner for
    every socket and no use after [delete]; the right worker pool for every
    connection; no connection given back and forgotten.  Then two places where
    the code does not do what it means to: the end of the drain of the local
    socket, and the sign in the computation of the next timeout. *)

From S2P Require Import Prelude Wire NfServer NfThreads NfOwnership NfSteps NfReach NfRouting.

Definition returns {S A} (m : M S A) (s : S) : Prop := exists a s', m s = Ret a s'.

(** The next thing each thread does returns: it meets no deleted object and no
    failing assertion.  [ctl] and [a] are what the system answers. *)
Definition main_returns `{Inet} (k : System) : Prop :=
  match main k with
  | MBatch ((ev, p) :: _) m => forall a, returns (loop_event ev p m a) (srv k)
  | MBatch [] m => returns (loop_ready m) (srv k)
  | MRecv _ _ => returns local_recv (srv k)
  | MReuse _ _ => forall ctl, returns (local_add ctl) (srv k)
  | _ => True
  end.

Definition worker_returns (s : Server) (w : Worker) : Prop :=
  match wstate w with
  | WRun => returns (GetServerReadySocket (pool_index_ w)) s /\ returns GetUDPPacket s
  | WWait => True
  | WHold p => (forall sent, returns (InsertServerReuseSocket (pool_index_ w) p sent) s) /\
               returns (Socket_Close p ;;! sdelete p) s
  end.

Section Props.
  Context {I : Inet}.

Lemma sure_returns {A} P (m : M Server A) Q s : sure P m Q -> P s -> returns m s.
Proof.
  intros H Hs. specialize (H s Hs). unfold runs in H. destruct (m s) as [a s'|] eqn:E; [|done].
  by exists a, s'.
Qed.

Lemma SInv_main_returns k : SInv k -> main_returns k.
Proof.
  intros H. pose proof (SInv_main k H) as Hm. unfold main_returns.
  destruct (main k) as [| |[|[ev p] rest] m|rest m|rest m|] eqn:E; try done; intros;
    (eapply sure_returns; [|exact Hm]); [apply loop_ready_inv|apply loop_event_inv|apply local_recv_inv|apply local_add_inv].
Qed.

Lemma held_split (ws : list Worker) w i p :
  ws !! w = Some (mkWorker i (WHold p)) -> exists h, held_of ws ≡ₚ p :: h.
Proof.
  revert w. induction ws as [|x ws IH]; intros [|w] E; simpl in E; simplify_eq; [by exists (held_of ws)|].
  destruct (IH w E) as [h Hh]. exists (worker_holds x ++ h).
  change (worker_holds x ++ held_of ws ≡ₚ p :: worker_holds x ++ h). rewrite Hh.
  by rewrite Permutation_middle.
Qed.

Lemma SInv_worker_returns k w x : SInv k -> workers k !! w = Some x -> worker_returns (srv k) x.
Proof.
  intros H E. pose proof (SInv_main k H) as Hm. destruct H as (_ & Hp & _). unfold worker_returns.
  destruct x as [i [| |p]]; cbn [wstate pool_index_]; [|done|].
  - split; [|by eapply sure_returns, Hm; apply GetUDPPacket_inv].
    eapply sure_returns, Hm. apply GetServerReadySocket_inv. exact (Forall_lookup_1 _ _ _ _ Hp E).
  - destruct (held_split _ _ _ _ E) as [h Hh].
    assert (Hm' : Inv' (view_map (main k)) (view_batch (main k)) (p :: view_held (main k) (srv k) ++ h)
                    (zlen (server_socket_ready_list_ (srv k))) (srv k)).
    { destruct Hm as [Hm Hn]. split; [|done]. revert Hm. apply inv_perm. unfold in_hands. rewrite Hh.
      by rewrite Permutation_middle. }
    split; [intros sent|]; (eapply sure_returns; [|exact Hm']);
      [apply InsertServerReuseSocket_inv|apply worker_destroy_inv].
Qed.

(** C3: In every reachable state, in whatever order the threads run and whatever
    the system answers, a socket is in at most one place (the epoll set, the map
    of the main thread, a ready list, the reuse list, the hands of a thread), a
    socket that is somewhere is not deleted, and the next operation of every
    thread returns: it uses no deleted socket and fails no assertion. *)
Theorem server_sockets_owned mf k :
  reachable mf k ->
  (forall p, (owners p k <= 1)%nat /\ ((0 < owners p k)%nat -> is_Some (sheap (srv k) !! p))) /\
  main_returns k /\
  (forall w x, workers k !! w = Some x -> worker_returns (srv k) x).
Proof.
  intros H%reachable_SInv. split_and!; [|by apply SInv_main_returns|intros; by eapply SInv_worker_returns].
  destruct H as (Hi & _). intros p. split; [by apply (inv_once _ _ _ _ Hi)|].
  intros Hp. destruct (inv_live _ _ _ _ Hi p Hp) as (x & Hx & _). eauto.
Qed.

(** C29: What a worker of pool [i] gets from [GetServerReadySocket] is a live
    connection with index [i], whose local address, which [accept] gave it, is that
    of the [i]th listening socket, if that is not deleted; it is out of the epoll
    set and of every list: no event on it can reach another thread. *)
Theorem ready_socket_routed mf k i p s' :
  reachable mf k -> 0 <= i -> GetServerReadySocket i (srv k) = Ret (GetSocket p) s' ->
  exists x lp, sheap s' !! p = Some x /\ sk_type_ x = 2 /\ id_ x = i /\
    listen_socket_list_ s' !! Z.to_nat i = Some lp /\
    (forall lx, sheap s' !! lp = Some lx ->
       sk_type_ lx = 1 /\ id_ lx = i /\ my_address x = my_address lx) /\
    epoll_set s' !! sk_ x = None /\
    places p (view_map (main k)) (in_hands k) s' = 0%nat.
Proof.
  intros Hr Hi E. pose proof (reachable_SInv _ _ Hr) as H. pose proof (reachable_routed _ _ Hr) as HR.
  pose proof (sure_Ret _ _ _ _ _ _ (GetServerReadySocket_inv _ _ _ _ i Hi) (SInv_main k H) E) as [[H' _] Hs].
  destruct (Hs p eq_refl) as (x & Hx & Ht & Hid).
  pose proof (routes_GetServerReadySocket i None None _ HR) as HR'. rewrite E in HR'.
  destruct (r_sockets _ _ _ HR' p x ltac:(done) Hx (or_intror Ht)) as (_ & lp & Hlp & Ha). rewrite Hid in Hlp.
  exists x, lp.
  pose proof (inv_once _ _ _ _ H' p) as Ho. unfold places in *. cbn [app occ] in Ho.
  rewrite decide_True in Ho by done. split_and!; [done..| | |lia].
  { intros lx Hlx. destruct (r_listening _ _ _ HR' _ _ _ Hlp Hlx) as [? ->]. rewrite Z2Nat.id by done. eauto. }
  destruct (epoll_set s' !! sk_ x) as [[ev q]|] eqn:Eq; [|done]. exfalso.
  destruct (inv_epoll _ _ _ _ H' _ _ _ Eq) as (y & Hy & Hsk).
  assert (q = p) as -> by (eapply (inv_fd _ _ _ _ H'); [exact Hy|exact Hx|done]).
  apply epoll_ptrs_In in Eq. lia.
Qed.

(** ** The wake-up byte *)

(** A step into a state in which the main thread is in the drain of the local
    socket and there is no byte. *)
Definition idles (rest : list (Z * N)) (m : gmap Z (list N)) (k k' : System) : Prop :=
  step False k k' /\ main k' = MRecv rest m /\ local_bytes (srv k') = 0.

(** The main thread waits in the drain of the local socket for one more byte: it
    has read exactly 1024 bytes, so that it reads again, and ever since it has
    been there and no byte came. *)
Definition waits_in_drain (k : System) : Prop :=
  exists rest m k0 k1, main k = MRecv rest m /\ local_bytes (srv k) = 0 /\
    main k0 = MRecv rest m /\ local_bytes (srv k0) = 1024 /\ idles rest m k0 k1 /\ rtc (idles rest m) k1 k.

(** Somebody will look at the list of sockets given back. *)
Definition noticed (k : System) : Prop :=
  0 < local_bytes (srv k) \/ (exists rest m, main k = MReuse rest m) \/ waits_in_drain k.

Definition NInv (k : System) : Prop :=
  0 <= local_bytes (srv k) /\ (server_socket_reuse_list_ (srv k) = ∅ \/ noticed k).

(** A step that leaves the members alone, of the main thread outside of the
    drain or of a worker. *)
Lemma NInv_same k s' st t ws :
  NInv k -> step False k (mkSystem s' st t ws) -> notified s' = notified (srv k) ->
  (match main k with MRecv _ _ | MReuse _ _ => st = main k | _ => True end) ->
  NInv (mkSystem s' st t ws).
Proof.
  unfold NInv, noticed. cbn [srv main]. intros (Hb & Hn) Hstep HF Hst. injection HF as -> Hlb. rewrite Hlb.
  split; [done|]. destruct Hn as [Hn|[Hn|[(rest & m & Hm)|Hn]]]; [tauto|tauto| |].
  - rewrite Hm in Hst. right; right; left. eauto.
  - right; right; right. destruct Hn as (rest & m & k0 & k1 & Hm & H0 & Hk0 & H1024 & Hs0 & Hrtc).
    rewrite Hm in Hst. exists rest, m, k0, k1. cbn [srv main]. split_and!; try done; [congruence|].
    eapply rtc_r; [done|]. split_and!; [done|done|cbn [srv]; congruence].
Qed.

Lemma local_add_reuse ctl s s' : local_add ctl s = Ret tt s' -> server_socket_reuse_list_ s' = ∅.
Proof.
  unfold local_add. intros (m & s1 & E1 & E2)%bind_Ret_inv.
  assert (Hk : keep server_socket_reuse_list_
    (forM (map_to_list m) (fun it => forM it.2 (add_reused ctl)))) by keeps.
  rewrite (Hk _ _ _ E2). unfold GetServerReuseSocketList, bindM, gets, modify, ret in E1.
  by injection E1 as _ <-.
Qed.

Lemma local_add_bytes ctl : keep local_bytes (local_add ctl).
Proof. unfold local_add, GetServerReuseSocketList. keeps. Qed.

Lemma local_recv_bytes s more s' :
  local_recv s = Ret (Some more) s' -> 0 <= local_bytes s -> 0 <= local_bytes s'.
Proof.
  unfold local_recv, bindM, gets. destruct (_ <=? 0) eqn:E; [done|]. intros [= _ <-] _. simpl. lia.
Qed.

(** One [recv] of the drain. *)
Lemma recv_noticed k rest m more s' :
  NInv k -> main k = MRecv rest m -> local_recv (srv k) = Ret (Some more) s' ->
  let k' := mkSystem s' (if more : bool then MRecv rest m else MReuse rest m) (timeout k) (workers k) in
  step False k k' -> NInv k'.
Proof.
  intros (Hb & _) Hm E k' Hst. split; [by eapply local_recv_bytes|]. right. unfold noticed, k'. cbn [srv main].
  revert E. unfold local_recv, bindM, gets. destruct (Z.leb_spec (local_bytes (srv k)) 0); [done|].
  unfold modify, ret. intros [= Hmore Hs]. destruct more; [|right; left; eauto].
  apply Z.eqb_eq in Hmore. assert (Hlb : local_bytes s' = local_bytes (srv k) - 1024)
    by (rewrite <- Hs; cbn [local_bytes with_kernel]; lia).
  destruct (Z.eq_dec (local_bytes (srv k)) 1024) as [He|He]; [|left; lia].
  right; right. assert (H0 : local_bytes (srv k') = 0) by (unfold k'; cbn [srv]; lia).
  exists rest, m, k, k'. by split_and!.
Qed.

(** The operation of the step leaves the members alone, by [K]. *)
Ltac kept K :=
  match goal with
  | k : System, E' : _ = Ret _ _ |- _ =>
      apply (NInv_same k); [done|done|exact (K _ _ _ E')|
        first [match goal with E : main k = _ |- _ => by rewrite E end | by destruct (main k)]]
  end.

Lemma step_NInv k k' : NInv k -> step False k k' -> NInv k'.
Proof.
  intros H Hst. pose proof Hst as Hst'.
  destruct Hst as [k efd pair r s' E _ _ E'|k ip port fd b l r s' E _ E'
    |k ip port fd b r s' E _ E'|k ctl r s' E E'|k E _|k E|k E|k evs E _ Ha|k ev p rest m a r m' s' E E'
    |k rest m more s' E E'|k rest m ctl s' E E'|k m ss su es eu s' E E'|k s' E'|k w i r s' Hw E'|k w i Hw
    |k w i p sent r s' Hw Hsent E'|k w i p s' Hw E'|k w i r s' Hw E'].
  all: try (apply (NInv_same k); [done|done|done|by rewrite ?E]; fail).
  - destruct (setup_keep efd pair [] 0 0 false false (fun _ => false)) as (K & _). kept K.
  - destruct (setup_keep 0 None ip port fd b l (fun _ => false)) as (_ & K & _). kept K.
  - destruct (setup_keep 0 None ip port fd b false (fun _ => false)) as (_ & _ & K & _). kept K.
  - destruct (setup_keep 0 None [] 0 0 false false ctl) as (_ & _ & _ & K). kept K.
  - destruct (loop_event_keep ev p m a) as [_ K]. kept K.
  - by eapply recv_noticed.
  - destruct H as (Hb & _). unfold NInv. cbn [srv main].
    split; [by rewrite (local_add_bytes ctl _ _ _ E')|left]. by eapply local_add_reuse.
  - destruct (loop_ready_keep m) as [_ K]. kept K.
  - injection E' as <-. apply (NInv_same k); [done|done|done|by destruct (main k)].
  - destruct (worker_keep i 0 0) as (_ & K & _). kept K.
  - apply (NInv_same k); [done|done|done|by destruct (main k)].
  - destruct Hsent as [->|[[] _]]. destruct H as (Hb & _).
    unfold InsertServerReuseSocket in E'. apply bind_Ret_inv in E' as (x & s1 & E1 & E').
    assert (s1 = srv k) as ->.
    { unfold sderef, bindM, gets, of_option in E1. destruct (sheap (srv k) !! p); [|done].
      by injection E1 as _ <-. }
    unfold bindM, modify, ret in E'. simpl in E'. injection E' as _ <-. unfold NInv, noticed. simpl.
    split; [lia|right; left; lia].
  - destruct (worker_keep i p 0) as (_ & _ & _ & _ & K & _). kept K.
  - destruct (worker_keep i 0 0) as (_ & _ & _ & _ & _ & _ & K). kept K.
Qed.

(** C4: As long as the wake-up byte can be sent, in every reachable state in which
    a connection that a worker gave back waits in the reuse list, one of three
    things holds: the local socket has a byte to read; the next step of the main
    thread takes the list; or the main thread waits in the drain of the local
    socket: it has read exactly 1024 bytes there, and ever since it has been in the
    next read and no byte has come. *)
Theorem reuse_notified k p :
  reachable False k -> p ∈ values (server_socket_reuse_list_ (srv k)) ->
  0 < local_bytes (srv k) \/ (exists rest m, main k = MReuse rest m) \/ waits_in_drain k.
Proof.
  intros H Hp. assert (HN : NInv k).
  { clear Hp. induction H as [|k k' _ IH Hst]; [split; [done|by left]|by eapply step_NInv]. }
  destruct HN as (_ & [Hr|Hn]); [|exact Hn].
  exfalso. rewrite Hr in Hp. by apply elem_of_nil in Hp.
Qed.

(** The loop that drains the local socket stops at a short read, and the socket
    blocks: with 1024 bytes, the whole of the first read, the second one waits
    and the reuse list is not looked at. *)
Lemma local_recv_blocks s :
  local_bytes s = 1024 ->
  exists s', local_recv s = Ret (Some true) s' /\ local_recv s' = Ret None s' /\
    server_socket_reuse_list_ s' = server_socket_reuse_list_ s.
Proof.
  intros H. eexists. unfold local_recv, bindM, gets. rewrite H. done.
Qed.

End Props.

(** ** The timer *)

(** The timeouts of successive turns, given the second and the microseconds at
    the start and at the end of each. *)
Definition timeouts (s : Server) (t : Z) (turns : list (Z * Z * Z)) : Z :=
  fold_left (fun t '(sec, start_usec, end_usec) => next_timeout s t sec start_usec sec end_usec) turns t.

(** The time a turn took is added to the timeout where it should be
    subtracted: over turns that do not cross a second the timeout never goes
    down, so the timer handler is never called. *)
Theorem timeout_never_expires s t turns :
  100 < t ->
  Forall (fun x => 0 <= x.1.2 <= x.2 /\ x.2 < 10 ^ 6) turns ->
  t + 1000 * zlen turns <= int_max ->
  t <= timeouts s t turns <= t + 1000 * zlen turns.
Proof.
  unfold timeouts. revert t. induction turns as [|[[sec a] b] turns IH]; intros t Ht Hf Hn;
    [unfold zlen; simpl; lia|].
  apply list.Forall_cons in Hf as [(Ha & Hb) Hf]. simpl in Ha, Hb. cbn [fold_left].
  assert (Hz : zlen ((sec, a, b) :: turns) = 1 + zlen turns) by (unfold zlen; simpl; lia).
  pose proof (zlen_nonneg turns). rewrite Hz in *.
  assert (Hq : 0 <= Z.quot (b - a) 1000 < 1000).
  { split; [apply Z.quot_pos; lia|apply Z.quot_lt_upper_bound; lia]. }
  assert (next_timeout s t sec a sec b = t + Z.quot (b - a) 1000) as ->.
  { unfold next_timeout. cbv zeta. rewrite Z.sub_diag, Z.mul_0_l, Z.sub_0_r, to_int_id
      by (unfold int_min, int_max in *; lia).
    destruct (Z.leb_spec (t + Z.quot (b - a) 1000) 100); lia. }
  specialize (IH (t + Z.quot (b - a) 1000) ltac:(lia) Hf ltac:(lia)). lia.
Qed.
