(* ===== verification/NfClient.v ===== *)
(** * The client of the thread-pool generation: [all-sync/client.hpp], [socketio.hpp]

    Class [Client]: a pool of idle connections, one queue for each server
    address, and a wait for several connections with [epoll]; [SocketIO], its base
    class, connects and sends.  As in [NfServer] a [Socket*] is an address, and
    what the system answers is an argument. *)

From S2P Require Import Prelude Wire NfServer NfThreads.

(** ** [SocketAddr::operator<] *)

(** [std::string] compares its characters as unsigned. *)
Fixpoint str_lt (a b : list byte) : bool :=
  match a, b with
  | _, [] => false
  | [], _ => true
  | x :: a', y :: b' => if Zb x <? Zb y then true else if Zb y <? Zb x then false else str_lt a' b'
  end.

Definition addr_lt (a o : SocketAddr) : bool :=
  if str_lt (ip_ a) (ip_ o) then true
  else if str_lt (ip_ o) (ip_ a) then false
  else port_ a <? port_ o.

(** The map of the pool is ordered by [operator<].  Two keys neither of which is
    less are equal ([addr_lt_total]), so a finite map is faithful. *)
#[global] Instance SocketAddr_eq_dec : EqDecision SocketAddr.
Proof. solve_decision. Defined.
#[global] Program Instance SocketAddr_countable : Countable SocketAddr :=
  inj_countable' (fun a => (ip_ a, port_ a)) (fun p => mkSocketAddr p.1 p.2) _.
Next Obligation. by intros []. Qed.

(** ** The state *)

Record Client := mkClient {
  cheap : gmap N Socket;
  cnext : N;
  client_socket_idle_list_ : gmap SocketAddr (list N);
  cfds : gset Z;
  cepoll : gmap Z (Z * Z)
}.

(** The constructor. *)
Definition new_Client (fds : gset Z) : Client := mkClient ∅ 0 ∅ fds ∅.

Definition with_idle m s := mkClient (cheap s) (cnext s) m (cfds s) (cepoll s).
Definition with_cepoll e s := mkClient (cheap s) (cnext s) (client_socket_idle_list_ s) (cfds s) e.

Definition cderef (p : ptr) : M Client Socket :=
  let! h := gets cheap in of_option HUndefined (h !! p).

(** [socket] opens a descriptor. *)
Definition c_open (fd : Z) : M Client unit :=
  modify (fun s => mkClient (cheap s) (cnext s) (client_socket_idle_list_ s) ({[fd]} ∪ cfds s) (cepoll s)).

Definition cnew (x : Socket) : M Client ptr :=
  let! p := gets cnext in
  modify (fun s => mkClient (<[p := x]> (cheap s)) (N.succ p) (client_socket_idle_list_ s) (cfds s) (cepoll s)) ;;!
  ret p.

(** What the programs do with a connection that failed: [sk->Close(); delete sk]. *)
Definition c_destroy (p : ptr) : M Client unit :=
  let! x := cderef p in
  modify (fun s => mkClient (delete p (cheap s)) (cnext s) (client_socket_idle_list_ s)
                     (cfds s ∖ {[sk_ x]}) (delete (sk_ x) (cepoll s))).

Definition c_ctl_add (fd events data : Z) (ok : bool) : M Client Z :=
  let! e := gets cepoll in
  if ok && bool_decide (e !! fd = None)
  then modify (with_cepoll (<[fd := (events, data)]> e)) ;;! ret 0
  else ret (-1).

Definition c_ctl_del (fd : Z) : M Client unit :=
  modify (fun s => with_cepoll (delete fd (cepoll s)) s).

Section Client.
  Context {I : Inet}.

(** ** [SocketIO] *)

(** What the system answers to [socket], [connect] and [getsockname] (address and
    port in network order). *)
Record ConnectAnswers := mkConnectAnswers {
  new_fd : Z;
  connect_ret : Z;
  sockname : option (Z * Z)
}.

(** A null pointer is [None].  On the error returns the descriptor stays open. *)
Definition MakeConnection (ip : list byte) (port : Z) (a : ConnectAnswers) : M Client (option ptr) :=
  if new_fd a <? 0 then ret None
  else
    c_open (new_fd a) ;;!
    match inet_aton ip with
    | None => ret None
    | Some server_addr =>
        if connect_ret a =? -1 then ret None
        else
          match sockname a with
          | None => ret None
          | Some (my_addr, my_port) =>
              let! tmpip := of_option HUndefined (inet_ntoa my_addr) in
              let x := set_my_ipstr tmpip (new_Socket (new_fd a)) in
              let x := set_my_ip my_addr x in
              let x := set_my_port (bswap16 my_port) x in
              let x := set_peer_ip server_addr x in
              let x := set_peer_ipstr ip x in
              let x := set_peer_port port x in
              let x := set_id (2 ^ 32 - 1) x in
              let! p := cnew (set_sk_type 5 x) in
              ret (Some p)
          end
    end.

(** What [send] answers: an error number or a number of bytes. *)
Inductive SendAnswer :=
| SendError (errno : Z)
| Sent (n : nat).

(** The loop of [TCPSend], with the bytes the system has taken.  No result: it
    still sends.  On Linux [EWOULDBLOCK] and [EAGAIN] are both 11. *)
Fixpoint send_loop (buf sent : list byte) (answers : list SendAnswer) : option (Z * list byte) :=
  match buf, answers with
  | [], _ => Some (0, sent)
  | _, [] => None
  | _, SendError errno :: l =>
      if negb (errno =? 11) || negb (errno =? 11) then Some (-2, sent) else send_loop buf sent l
  | _, Sent n :: l => send_loop (drop n buf) (sent ++ take n buf) l
  end.

Definition TCPSend (buf_to_send : option (list byte)) (answers : list SendAnswer) : option (Z * list byte) :=
  match buf_to_send with
  | None => Some (-1, [])
  | Some buf => send_loop buf [] answers
  end.

(** ** The pool of idle connections *)

Definition GetClientSocket (ip : list byte) (port : Z) : M Client (option ptr) :=
  let addr := mkSocketAddr ip port in
  let! m := gets client_socket_idle_list_ in
  match m !! addr with
  | None => ret None
  | Some l =>
      assert_ (negb (zlen l =? 0)) ;;!
      let! p := of_option HUndefined (head l) in
      modify (with_idle (<[addr := tail l]> m)) ;;!
      cderef p ;;!
      (if zlen (tail l) =? 0 then modify (with_idle (delete addr m)) else ret tt) ;;!
      ret (Some p)
  end.

Definition InsertClientSocket (sk : ptr) : M Client Z :=
  let! x := cderef sk in
  let addr := mkSocketAddr (peer_ipstr_ x) (peer_port_ x) in
  let! m := gets client_socket_idle_list_ in
  match m !! addr with
  | Some l =>
      assert_ (0 <? zlen l) ;;! modify (with_idle (<[addr := l ++ [sk]]> m))
  | None => modify (with_idle (<[addr := [sk]]> m))
  end ;;!
  ret 0.

Definition GetIdleClientSocket (to_ip : list byte) (to_port : Z) (a : ConnectAnswers) : M Client (option ptr) :=
  let! r := GetClientSocket to_ip to_port in
  match r with
  | Some p => ret (Some p)
  | None => MakeConnection to_ip to_port a
  end.

(** ** [TCPWaitToRead] *)

Definition EPOLLONESHOT : Z := 2 ^ 30.

(** The loop that adds the sockets.  [data] is a union: the index stored in
    [data.u32] replaces the descriptor in [data.fd], which [epoll_ctl] is given.
    The result is the index at which it gave up, or [None]. *)
Fixpoint add_sockets (i : Z) (sk_list_to_read : list ptr) (ctl : Z -> bool) : M Client (option Z) :=
  match sk_list_to_read with
  | [] => ret None
  | p :: l =>
      cderef p ;;!
      let data_u32 := i in
      let data_fd := to_int data_u32 in
      let! r := c_ctl_add data_fd (Z.lor EPOLLIN EPOLLONESHOT) data_u32 (ctl data_fd) in
      if r <? 0 then
        forM (seqZ 0 (i + 1)) (fun j => c_ctl_del (to_int j)) ;;!
        ret (Some i)
      else add_sockets (i + 1) l ctl
  end.

(** What [epoll_wait] answers: an error number, with the times before and after,
    or events ([events], [data.u32]); no event: the timeout. *)
Inductive WaitAnswer :=
| WaitError (errno start_sec start_usec end_sec end_usec : Z)
| WaitEvents (evs : list (Z * Z)).

Fixpoint triggered (evs : list (Z * Z)) (trig err : list Z) : M Client (list Z * list Z) :=
  match evs with
  | [] => ret (trig, err)
  | (events, u32) :: evs' =>
      c_ctl_del (to_int u32) ;;!
      if negb (Z.land events EPOLLIN =? 0) then triggered evs' (trig ++ [u32]) err
      else if negb (Z.land events EPOLLERR =? 0) then triggered evs' trig (err ++ [u32])
      else stop HAssert
  end.

(** The result and the two lists; no result: it still waits. *)
Fixpoint wait_loop (num_of_triggered_fd timeout : Z) (trig err : list Z) (ws : list WaitAnswer)
    : M Client (option Z * list Z * list Z) :=
  match ws with
  | [] => ret (None, trig, err)
  | WaitError errno ss su es eu :: ws' =>
      if negb (errno =? 4) then ret (Some (-3), trig, err)
      else
        let timeout := to_int (timeout - ((es - ss) * 1000 + Z.quot (eu - su) 1000)) in
        if timeout <=? 10 then ret (Some (-1), trig, err)
        else wait_loop num_of_triggered_fd timeout trig err ws'
  | WaitEvents evs :: ws' =>
      let! te := triggered evs trig err in
      let real_num := to_u32 (zlen te.2 + zlen te.1) in
      if num_of_triggered_fd <=? real_num then ret (Some 0, te.1, te.2)
      else wait_loop num_of_triggered_fd timeout te.1 te.2 ws'
  end.

Definition TCPWaitToRead (sk_list_to_read : list ptr) (trig err : list Z)
    (num_of_triggered_fd timeout_millisecs : Z) (ctl : Z -> bool) (ws : list WaitAnswer)
    : M Client (option Z * list Z * list Z) :=
  let len := to_u32 (zlen sk_list_to_read) in
  assert_ (num_of_triggered_fd <=? len) ;;!
  assert_ (0 <? num_of_triggered_fd) ;;!
  let! r := add_sockets 0 sk_list_to_read ctl in
  match r with
  | Some i => ret (Some (-2), trig, err ++ [i])
  | None => wait_loop num_of_triggered_fd timeout_millisecs trig err ws
  end.

End Client.
