(* ===== verification/NfPool.v ===== *)
(** * The pool of idle connections and the wait of the client

    The pool as a queue for each address, in every state the operations reach;
    then what [TCPWaitToRead] really waits for, and [TCPSend]. *)

From S2P Require Import Prelude Wire NfServer NfThreads NfClient.

(** ** The order of the keys *)

Lemma str_lt_irrefl a : str_lt a a = false.
Proof. induction a as [|x a IH]; simpl; [done|]. by rewrite Z.ltb_irrefl. Qed.

Lemma str_lt_trans a b c : str_lt a b = true -> str_lt b c = true -> str_lt a c = true.
Proof.
  revert b c. induction a as [|x a IH]; intros [|y b] [|z c]; simpl; try done.
  destruct (Z.ltb_spec (Zb x) (Zb y)), (Z.ltb_spec (Zb y) (Zb z)), (Z.ltb_spec (Zb x) (Zb z)); try done; try lia;
    destruct (Z.ltb_spec (Zb y) (Zb x)), (Z.ltb_spec (Zb z) (Zb y)), (Z.ltb_spec (Zb z) (Zb x));
    try done; try lia. apply IH.
Qed.

Lemma str_lt_total a b : str_lt a b = false -> str_lt b a = false -> a = b.
Proof.
  revert b. induction a as [|x a IH]; intros [|y b]; simpl; try done.
  destruct (Z.ltb_spec (Zb x) (Zb y)), (Z.ltb_spec (Zb y) (Zb x)); try done. intros Ha Hb.
  f_equal; [|by apply IH]. rewrite <- (bZ_Zb x), <- (bZ_Zb y). f_equal. lia.
Qed.

Lemma addr_lt_total a b : addr_lt a b = false -> addr_lt b a = false -> a = b.
Proof.
  destruct a as [i p], b as [j q]. unfold addr_lt. simpl.
  destruct (str_lt i j) eqn:E1, (str_lt j i) eqn:E2; try done. intros.
  assert (i = j) as -> by (by apply str_lt_total). f_equal. lia.
Qed.

Lemma addr_lt_irrefl a : addr_lt a a = false.
Proof. unfold addr_lt. rewrite str_lt_irrefl. apply Z.ltb_irrefl. Qed.

Lemma addr_lt_trans a b c : addr_lt a b = true -> addr_lt b c = true -> addr_lt a c = true.
Proof.
  destruct a as [i p], b as [j q], c as [k r]. unfold addr_lt. simpl.
  destruct (str_lt i j) eqn:Eij, (str_lt j k) eqn:Ejk.
  - by rewrite (str_lt_trans _ _ _ Eij Ejk).
  - destruct (str_lt k j) eqn:Ekj; [done|]. rewrite (str_lt_total j k) in Eij by done. by rewrite Eij.
  - destruct (str_lt j i) eqn:Eji; [done|]. rewrite <- (str_lt_total i j) in Ejk by done. by rewrite Ejk.
  - destruct (str_lt j i) eqn:Eji; [done|]. destruct (str_lt k j) eqn:Ekj; [done|].
    rewrite (str_lt_total i j), (str_lt_total j k), str_lt_irrefl by done. lia.
Qed.

(** ** The pool *)

Definition queue (s : Client) (a : SocketAddr) : list N := default [] (client_socket_idle_list_ s !! a).
Definition address (x : Socket) : SocketAddr := mkSocketAddr (peer_ipstr_ x) (peer_port_ x).

(** The client and the connections the programs have in their hands. *)
Record Pool := mkPool { cl : Client; held : list N }.

Section Pool.
  Context {I : Inet}.

(** The answers of the system make sense: a new descriptor, and an address that
    can be printed. *)
Definition sensible (s : Client) (a : ConnectAnswers) : Prop :=
  (new_fd a ∉ cfds s) /\ forall ad po, sockname a = Some (ad, po) -> is_Some (inet_ntoa ad).

Inductive pool_step : Pool -> Pool -> Prop :=
| pool_get k ip port a r s' :
    sensible (cl k) a -> GetIdleClientSocket ip port a (cl k) = Ret r s' ->
    pool_step k (mkPool s' (option_list r ++ held k))
| pool_put k p l s' :
    held k ≡ₚ p :: l -> InsertClientSocket p (cl k) = Ret 0 s' -> pool_step k (mkPool s' l)
| pool_drop k p l s' :
    held k ≡ₚ p :: l -> c_destroy p (cl k) = Ret tt s' -> pool_step k (mkPool s' l).

Inductive pool_reachable : Pool -> Prop :=
| pool_init fds : pool_reachable (mkPool (new_Client fds) [])
| pool_next k k' : pool_reachable k -> pool_step k k' -> pool_reachable k'.

Definition spots (p : N) (s : Client) (h : list N) : nat :=
  (occ p (values (client_socket_idle_list_ s)) + occ p h)%nat.

(** Every connection that exists is in one place: once in the queue of its address,
    or once in the hands [h] of a program. *)
Record PInv (s : Client) (h : list N) : Prop := {
  pi_once p : (spots p s h <= 1)%nat;
  pi_live p : (0 < spots p s h)%nat -> is_Some (cheap s !! p);
  pi_next p : is_Some (cheap s !! p) -> (p < cnext s)%N;
  pi_queue a l : client_socket_idle_list_ s !! a = Some l -> l <> [];
  pi_key a l p x : client_socket_idle_list_ s !! a = Some l -> (p ∈ l) -> cheap s !! p = Some x -> address x = a;
  pi_owned p : is_Some (cheap s !! p) -> (0 < spots p s h)%nat
}.

Lemma cderef_eq s p x : cheap s !! p = Some x -> cderef p s = Ret x s.
Proof. unfold cderef, bindM, gets. by intros ->. Qed.

Lemma queue_live s h a l p :
  PInv s h -> client_socket_idle_list_ s !! a = Some l -> (p ∈ l) ->
  exists x, cheap s !! p = Some x /\ address x = a.
Proof.
  intros H E Hp. destruct (pi_live _ _ H p) as [x Hx].
  - pose proof (occ_values_In p _ _ _ E). apply occ_pos in Hp. unfold spots. lia.
  - exists x. split; [done|]. by eapply (pi_key _ _ H).
Qed.

(** The pool after the first connection of a queue is taken. *)
Definition popped (a : SocketAddr) (l : list N) (s : Client) : Client :=
  with_idle (if zlen l =? 0 then delete a (client_socket_idle_list_ s)
             else <[a := l]> (client_socket_idle_list_ s)) s.

Lemma GetClientSocket_hit s h ip port p l :
  PInv s h -> client_socket_idle_list_ s !! mkSocketAddr ip port = Some (p :: l) ->
  GetClientSocket ip port s = Ret (Some p) (popped (mkSocketAddr ip port) l s).
Proof.
  intros H E. destruct (queue_live _ _ _ _ p H E) as (x & Hx & _); [rewrite list.elem_of_cons; by left|].
  unfold GetClientSocket, bindM, gets. rewrite E. unfold assert_.
  assert ((zlen (p :: l) =? 0) = false) as -> by (unfold zlen; simpl; lia).
  cbn -[zlen cderef]. erewrite cderef_eq by exact Hx. cbn -[zlen]. unfold popped.
  destruct (zlen l =? 0); reflexivity.
Qed.

Lemma GetClientSocket_miss s ip port :
  client_socket_idle_list_ s !! mkSocketAddr ip port = None -> GetClientSocket ip port s = Ret None s.
Proof. unfold GetClientSocket, bindM, gets. by intros ->. Qed.

Lemma occ_popped q a l p s :
  client_socket_idle_list_ s !! a = Some (p :: l) ->
  (occ q (values (client_socket_idle_list_ s)) =
   occ q [p] + occ q (values (client_socket_idle_list_ (popped a l s))))%nat.
Proof.
  intros E. unfold popped. destruct (zlen l =? 0) eqn:El; cbn [client_socket_idle_list_ with_idle].
  - assert (l = []) as -> by (destruct l; [done|unfold zlen in El; simpl in El; lia]).
    rewrite <- (insert_delete_id (client_socket_idle_list_ s) a [p] E) at 1.
    by rewrite occ_values_fresh by apply lookup_delete_eq.
  - pose proof (occ_values_insert q (client_socket_idle_list_ s) a l) as Hv.
    rewrite E in Hv. simpl in *. lia.
Qed.

Lemma popped_queue a l p s b :
  client_socket_idle_list_ s !! a = Some (p :: l) ->
  queue (popped a l s) b = if decide (a = b) then l else queue s b.
Proof.
  intros E. unfold queue, popped. destruct (zlen l =? 0) eqn:El; cbn [client_socket_idle_list_ with_idle].
  - assert (l = []) as -> by (destruct l; [done|unfold zlen in El; simpl in El; lia]).
    rewrite lookup_delete. by case_decide.
  - rewrite lookup_insert. by case_decide.
Qed.

Lemma popped_PInv s h a p l :
  PInv s h -> client_socket_idle_list_ s !! a = Some (p :: l) -> PInv (popped a l s) (p :: h).
Proof.
  intros H E. pose proof H as [H1 H2 H3 H4 H5 H6].
  assert (Hs : forall q, spots q (popped a l s) (p :: h) = spots q s h).
  { intros q. unfold spots. rewrite (occ_popped q a l p s E). simpl. lia. }
  assert (Hq : forall b m, client_socket_idle_list_ (popped a l s) !! b = Some m ->
            m <> [] /\ exists m', client_socket_idle_list_ s !! b = Some m' /\ forall q, q ∈ m -> q ∈ m').
  { intros b m. unfold popped. destruct (zlen l =? 0) eqn:El; cbn [client_socket_idle_list_ with_idle].
    - rewrite lookup_delete. case_decide; [done|]. intros Hm. split; [by eapply H4|eauto].
    - rewrite lookup_insert. case_decide as Hab; [|intros Hm; split; [by eapply H4|eauto]].
      intros [= <-]. subst b. split; [by destruct l|]. exists (p :: l). split; [done|].
      intros q ?. rewrite list.elem_of_cons. by right. }
  constructor; simpl.
  - intros q. rewrite Hs. apply H1.
  - intros q. rewrite Hs. apply H2.
  - exact H3.
  - intros b m Hm. apply (Hq b m Hm).
  - intros b m q x Hm Hin Hx. destruct (Hq b m Hm) as (_ & m' & Hm' & Hsub). eapply H5; [exact Hm'|by apply Hsub|done].
  - intros q. rewrite Hs. apply H6.
Qed.

(** A new connection: an address not in use. *)
Lemma cnew_PInv s h x :
  PInv s h -> exists s', cnew x s = Ret (cnext s) s' /\ PInv s' (cnext s :: h) /\
    cheap s' !! cnext s = Some x /\ client_socket_idle_list_ s' = client_socket_idle_list_ s /\
    spots (cnext s) s h = 0%nat.
Proof.
  intros H. pose proof H as [H1 H2 H3 H4 H5 H6]. set (p := cnext s).
  assert (Hp : cheap s !! p = None).
  { destruct (cheap s !! p) eqn:E; [|done]. specialize (H3 p (mk_is_Some _ _ E)). unfold p in *. lia. }
  assert (H0 : spots p s h = 0%nat).
  { destruct (spots p s h) eqn:E; [done|]. destruct (H2 p) as [y Hy]; [lia|congruence]. }
  eexists. split; [reflexivity|]. split_and!; [|apply lookup_insert_eq|done|exact H0].
  assert (Hs : forall q (s' : Client), client_socket_idle_list_ s' = client_socket_idle_list_ s ->
            spots q s' (p :: h) = (occ q [p] + spots q s h)%nat).
  { intros q s' E. unfold spots. rewrite E. simpl. lia. }
  constructor; cbn [cheap cnext client_socket_idle_list_].
  - intros q. rewrite Hs by done. simpl. destruct (decide (q = p)) as [->|]; [lia|apply H1].
  - intros q. rewrite Hs by done. rewrite lookup_insert. case_decide as Hqp; [by eexists|]. simpl.
    rewrite decide_False by done. apply H2.
  - intros q. rewrite lookup_insert. destruct (decide (cnext s = q)) as [<-|]; [lia|]. intros Hq. specialize (H3 q Hq). lia.
  - exact H4.
  - intros a l q y El Hq Hy. rewrite lookup_insert_ne in Hy; [by eapply H5|]. intros <-.
    destruct (queue_live _ _ _ _ _ H El Hq) as (z & Hz & _). fold p in Hz. congruence.
  - intros q. rewrite Hs by done. rewrite lookup_insert. case_decide as Hqp; simpl.
    + intros _. rewrite decide_True by done. lia.
    + intros Hq. specialize (H6 q Hq). lia.
Qed.

Lemma PInv_fds s h fds e :
  PInv s h -> PInv (mkClient (cheap s) (cnext s) (client_socket_idle_list_ s) fds e) h.
Proof. intros [H1 H2 H3 H4 H5 H6]. by constructor. Qed.

Lemma MakeConnection_PInv s h ip port a :
  PInv s h -> sensible s a -> exists r s', MakeConnection ip port a s = Ret r s' /\
    PInv s' (option_list r ++ h) /\ client_socket_idle_list_ s' = client_socket_idle_list_ s /\
    forall p, r = Some p -> spots p s h = 0%nat /\
      exists x, cheap s' !! p = Some x /\ address x = mkSocketAddr ip port.
Proof.
  intros H [_ Hn]. unfold MakeConnection.
  destruct (new_fd a <? 0); [by eexists None, s|]. unfold bindM at 1, c_open, modify.
  set (s1 := mkClient _ _ _ _ _). assert (H1 : PInv s1 h) by (by apply PInv_fds).
  destruct (inet_aton ip) as [ad|]; [|by eexists None, s1].
  destruct (connect_ret a =? -1); [by eexists None, s1|].
  destruct (sockname a) as [[my po]|]; [|by eexists None, s1].
  destruct (Hn my po eq_refl) as [str Hstr]. rewrite Hstr. unfold bindM at 1, of_option, ret. cbv zeta.
  match goal with |- context [cnew ?x] => destruct (cnew_PInv s1 h x H1) as (s2 & E & H2 & Hx & Hq & H0) end.
  unfold bindM. rewrite E. eexists (Some _), s2. split_and!; [done|done|done|].
  intros p [= <-]. split; [exact H0|]. eexists. split; [exact Hx|done].
Qed.

(** Everything about one call, in a state that satisfies the invariant. *)
Lemma GetIdleClientSocket_PInv s h ip port a :
  PInv s h -> sensible s a -> exists r s', GetIdleClientSocket ip port a s = Ret r s' /\
    PInv s' (option_list r ++ h) /\
    (forall p, r = Some p -> (p ∉ h) /\ exists x, cheap s' !! p = Some x /\ address x = mkSocketAddr ip port) /\
    (forall b, queue s' b = if decide (mkSocketAddr ip port = b) then tail (queue s b) else queue s b) /\
    (forall p l, queue s (mkSocketAddr ip port) = p :: l -> r = Some p).
Proof.
  intros H Ha. unfold GetIdleClientSocket.
  assert (Hh : forall p, spots p s h = 0%nat -> p ∉ h).
  { intros p H0 Hp%occ_pos. unfold spots in H0. lia. }
  destruct (client_socket_idle_list_ s !! mkSocketAddr ip port) as [[|p l]|] eqn:E.
  - by destruct (pi_queue _ _ H _ _ E).
  - destruct (queue_live _ _ _ _ p H E) as (x & Hx & Hk); [rewrite list.elem_of_cons; by left|].
    unfold bindM. erewrite GetClientSocket_hit by done. eexists (Some p), _.
    split; [done|]. split_and!; [by apply popped_PInv| | |].
    + intros q [= <-]. split; [|by exists x]. intros Hp%occ_pos.
      pose proof (pi_once _ _ H p) as Ho. pose proof (occ_values_In p _ _ _ E) as Hv. unfold spots in Ho.
      simpl in Hv. rewrite decide_True in Hv by done. lia.
    + intros b. erewrite popped_queue by exact E. case_decide as Hb; [|done].
      rewrite <- Hb. unfold queue. by rewrite E.
    + intros q m. unfold queue. rewrite E. by intros [= -> _].
  - unfold bindM. rewrite GetClientSocket_miss by done.
    destruct (MakeConnection_PInv s h ip port a H Ha) as (r & s' & -> & Hs & Hq & Hr).
    exists r, s'. split; [done|]. split_and!; [done| | |].
    + intros p Hp. destruct (Hr p Hp) as [H0 Hx]. split; [by apply Hh|done].
    + intros b. unfold queue. rewrite Hq. case_decide as Hb; [rewrite <- Hb; by rewrite E|done].
    + intros p l. unfold queue. by rewrite E.
Qed.

Lemma InsertClientSocket_PInv s h p x :
  PInv s (p :: h) -> cheap s !! p = Some x -> exists s', InsertClientSocket p s = Ret 0 s' /\ PInv s' h /\
    forall b, queue s' b = if decide (address x = b) then queue s b ++ [p] else queue s b.
Proof.
  intros H Hx. pose proof H as [H1 H2 H3 H4 H5 H6].
  set (m := client_socket_idle_list_ s).
  set (s' := with_idle (<[address x := queue s (address x) ++ [p]]> m) s).
  exists s'. split.
  { unfold InsertClientSocket, bindM at 1. erewrite cderef_eq by exact Hx.
    cbn -[zlen]. unfold bindM at 1, gets. fold m. change (mkSocketAddr (peer_ipstr_ x) (peer_port_ x)) with (address x).
    unfold s', queue. fold m. destruct (m !! address x) as [l|] eqn:E; [|done].
    assert ((0 <? zlen l) = true) as Hz.
    { specialize (H4 _ _ E). by destruct l. }
    unfold assert_. by rewrite Hz. }
  split.
  - assert (Hs : forall q, spots q s' h = spots q s (p :: h)).
    { intros q. unfold spots, s'. cbn [client_socket_idle_list_ with_idle]. fold m.
      pose proof (occ_values_insert q m (address x) (queue s (address x) ++ [p])) as Hv.
      change (default [] (m !! address x)) with (queue s (address x)) in Hv.
      rewrite occ_app in Hv. cbn [occ] in Hv |- *. lia. }
    constructor; try done.
    + intros q. rewrite Hs. apply H1.
    + intros q. rewrite Hs. apply H2.
    + intros a l. unfold s'. cbn [client_socket_idle_list_ with_idle]. rewrite lookup_insert.
      case_decide; [|apply H4]. intros [= <-]. by destruct (queue s (address x)).
    + intros a l q y. unfold s'. cbn [client_socket_idle_list_ with_idle cheap]. rewrite lookup_insert.
      case_decide as Ha; [|apply H5]. intros [= <-] Hq Hy. apply elem_of_app in Hq as [Hq|Hq].
      * unfold queue in Hq. fold m in Hq. destruct (m !! address x) as [l|] eqn:E; [|by apply elem_of_nil in Hq].
        subst a. by eapply H5.
      * apply list_elem_of_singleton in Hq as ->. congruence.
    + intros q. rewrite Hs. apply H6.
  - intros b. unfold s', queue. cbn [client_socket_idle_list_ with_idle]. fold m. rewrite lookup_insert.
    case_decide as Hb; [by subst b|done].
Qed.

Lemma c_destroy_PInv s h p s' : PInv s (p :: h) -> c_destroy p s = Ret tt s' -> PInv s' h.
Proof.
  intros H E. pose proof H as [H1 H2 H3 H4 H5 H6]. unfold c_destroy in E.
  apply bind_Ret_inv in E as (x & s1 & E1 & E2). unfold cderef, bindM, gets in E1.
  destruct (cheap s !! p) as [y|] eqn:Ep; [|done]. injection E1 as _ <-. injection E2 as <-.
  assert (Hs : forall q, spots q s (p :: h) = (occ q [p] + spots q s h)%nat)
    by (intros q; unfold spots; simpl; lia).
  assert (Hc : forall q (t : Client), client_socket_idle_list_ t = client_socket_idle_list_ s ->
            spots q t h = spots q s h) by (intros q t Et; unfold spots; by rewrite Et).
  constructor; cbn [cheap cnext client_socket_idle_list_]; try done.
  - intros q. rewrite Hc by done. specialize (H1 q). rewrite Hs in H1. lia.
  - intros q. rewrite Hc by done. intros Hq. rewrite lookup_delete_ne; [apply H2; rewrite Hs; lia|].
    intros <-. specialize (H1 p). rewrite Hs in H1. simpl in H1. rewrite decide_True in H1 by done. lia.
  - intros q. rewrite lookup_delete_is_Some. intros [_ Hq]. by apply H3.
  - intros a l q z. intros Hl Hq Hz. apply lookup_delete_Some in Hz as [_ Hz]. by eapply H5.
  - intros q. rewrite Hc by done. intros [Hne Hq]%lookup_delete_is_Some. specialize (H6 q Hq).
    rewrite Hs in H6. simpl in H6. rewrite decide_False in H6 by done. lia.
Qed.

Lemma PInv_perm s h h' : h ≡ₚ h' -> PInv s h -> PInv s h'.
Proof.
  intros Hp [H1 H2 H3 H4 H5 H6].
  assert (Hs : forall q, spots q s h' = spots q s h) by (intros q; unfold spots; by rewrite (occ_perm q _ _ Hp)).
  constructor; try done; intros q; rewrite Hs; [apply H1|apply H2|apply H6].
Qed.

(** With nothing in the hands of a program every connection is in its queue. *)
Lemma PInv_all_queued s p x : PInv s [] -> cheap s !! p = Some x -> p ∈ queue s (address x).
Proof.
  intros H Hx. pose proof (pi_owned _ _ H p (mk_is_Some _ _ Hx)) as Ho.
  unfold spots in Ho. simpl in Ho. rewrite Nat.add_0_r in Ho. apply occ_pos in Ho.
  apply list_elem_of_In, in_concat in Ho as (l & Hl & Hp). apply list_elem_of_In in Hl, Hp.
  apply list_elem_of_fmap in Hl as ([a l'] & -> & Hl). apply elem_of_map_to_list in Hl. simpl in Hp.
  rewrite (pi_key _ _ H a l' p x Hl Hp Hx). unfold queue. by rewrite Hl.
Qed.

Lemma PInv_held_live s p h : PInv s (p :: h) -> exists x, cheap s !! p = Some x.
Proof. intros H. apply (pi_live _ _ H p). unfold spots. simpl. rewrite decide_True by done. lia. Qed.

Lemma pool_reachable_PInv k : pool_reachable k -> PInv (cl k) (held k).
Proof.
  induction 1 as [fds|k k' _ IH Hst].
  - assert (H0 : forall q, spots q (new_Client fds) [] = 0%nat) by done.
    constructor; cbn [cl held]; try done.
    + intros q. rewrite H0. lia.
    + intros q. rewrite H0. lia.
    + intros q. cbn. rewrite lookup_empty. by intros [].
    + intros q. cbn. rewrite lookup_empty. by intros [].
  - destruct Hst as [k ip port a r s' Ha E|k p l s' Hp E|k p l s' Hp E]; cbn [cl held].
    + destruct (GetIdleClientSocket_PInv _ _ ip port a IH Ha) as (r' & s1 & E' & H' & _).
      rewrite E in E'. injection E' as -> ->. done.
    + apply (PInv_perm _ _ _ Hp) in IH. destruct (PInv_held_live _ _ _ IH) as [x Hx].
      destruct (InsertClientSocket_PInv _ _ _ x IH Hx) as (s1 & E' & H' & _).
      rewrite E in E'. by injection E' as ->.
    + apply (PInv_perm _ _ _ Hp) in IH. by eapply c_destroy_PInv.
Qed.

(** C5: In every reachable state the pool is a queue for each server address.
    [GetIdleClientSocket] returns (its assertion holds): the first connection of
    the queue of the address, which leaves it, or a new connection when the queue
    is empty; what it returns is alive, goes to that address, and is in nobody
    else's hands.  [InsertClientSocket] appends a connection to the queue of its
    address.  No other queue changes. *)
Theorem idle_pool_queues k :
  pool_reachable k ->
  (forall ip port a, sensible (cl k) a ->
     exists r s', GetIdleClientSocket ip port a (cl k) = Ret r s' /\
       (forall p, r = Some p -> (p ∉ held k) /\
          exists x, cheap s' !! p = Some x /\ address x = mkSocketAddr ip port) /\
       (forall b, queue s' b = if decide (mkSocketAddr ip port = b) then tail (queue (cl k) b) else queue (cl k) b) /\
       (forall p l, queue (cl k) (mkSocketAddr ip port) = p :: l -> r = Some p)) /\
  (forall p, p ∈ held k ->
     exists x s', cheap (cl k) !! p = Some x /\ InsertClientSocket p (cl k) = Ret 0 s' /\
       forall b, queue s' b = if decide (address x = b) then queue (cl k) b ++ [p] else queue (cl k) b).
Proof.
  intros H%pool_reachable_PInv. split.
  - intros ip port a Ha. destruct (GetIdleClientSocket_PInv _ _ ip port a H Ha) as (r & s' & ? & _ & ? & ? & ?).
    exists r, s'. done.
  - intros p Hp. apply list_elem_of_split in Hp as (l1 & l2 & E).
    assert (H' : PInv (cl k) (p :: l1 ++ l2)).
    { revert H. apply PInv_perm. rewrite E. by rewrite Permutation_middle. }
    destruct (PInv_held_live _ _ _ H') as [x Hx].
    destruct (InsertClientSocket_PInv _ _ _ x H' Hx) as (s' & ? & _ & ?). by exists x, s'.
Qed.

(** ** [TCPWaitToRead] *)

Definition registers (n : Z) (e : gmap Z (Z * Z)) : Prop :=
  forall fd, e !! fd = if bool_decide (0 <= fd < n) then Some (Z.lor EPOLLIN EPOLLONESHOT, fd) else None.

Lemma add_sockets_indices i sks ctl s :
  (forall p, p ∈ sks -> is_Some (cheap s !! p)) -> (forall fd, ctl fd = true) ->
  0 <= i -> i + zlen sks <= int_max -> registers i (cepoll s) ->
  exists s', add_sockets i sks ctl s = Ret None s' /\ cheap s' = cheap s /\
    registers (i + zlen sks) (cepoll s').
Proof.
  revert i s. induction sks as [|p l IH]; intros i s Hl Hc Hi Hn Hr; simpl.
  { exists s. change (zlen (@nil N)) with 0. by rewrite Z.add_0_r. }
  assert (Hz : zlen (p :: l) = 1 + zlen l) by (unfold zlen; simpl; lia).
  pose proof (zlen_nonneg l). destruct (Hl p) as [x Hx]; [rewrite list.elem_of_cons; by left|].
  unfold bindM at 1. erewrite cderef_eq by exact Hx.
  rewrite to_int_id by (unfold int_min, int_max in *; lia).
  assert (Hf : cepoll s !! i = None) by (rewrite Hr, bool_decide_eq_false_2; [done|lia]).
  unfold bindM at 1, c_ctl_add, bindM, gets. rewrite Hc, Hf. cbn.
  set (s1 := with_cepoll (<[i := (Z.lor EPOLLIN EPOLLONESHOT, i)]> (cepoll s)) s).
  destruct (IH (i + 1) s1) as (s' & E & Hh & Hr'); [|done|lia|rewrite Hz in Hn; lia| |].
  - intros q Hq. apply Hl. rewrite list.elem_of_cons. by right.
  - intros fd. unfold s1. cbn [cepoll with_cepoll]. rewrite lookup_insert. case_decide as Hfd.
    + subst fd. by rewrite bool_decide_eq_true_2 by lia.
    + rewrite Hr. destruct (decide (0 <= fd < i)).
      * by rewrite !bool_decide_eq_true_2 by lia.
      * by rewrite !bool_decide_eq_false_2 by lia.
  - exists s'. split_and!; [exact E|done|]. by rewrite Hz, Z.add_assoc.
Qed.

(** Whatever descriptors its sockets have, [TCPWaitToRead] waits for the
    descriptors 0, 1, 2, ... one for each socket (the index overwrites the
    descriptor in the union), when nothing is registered and the system accepts
    them: it waits for the process's own standard streams. *)
Theorem TCPWaitToRead_indices sks trig err num timeout ctl ws s :
  (forall p, p ∈ sks -> is_Some (cheap s !! p)) -> (forall fd, ctl fd = true) ->
  0 < num <= zlen sks -> zlen sks <= int_max -> cepoll s = ∅ ->
  exists s', TCPWaitToRead sks trig err num timeout ctl ws s = wait_loop num timeout trig err ws s' /\
    forall fd, cepoll s' !! fd =
      if bool_decide (0 <= fd < zlen sks) then Some (Z.lor EPOLLIN EPOLLONESHOT, fd) else None.
Proof.
  intros Hl Hc Hnum Hlen He.
  destruct (add_sockets_indices 0 sks ctl s) as (s' & E & _ & Hr); [done|done|lia|lia| |].
  { intros fd. rewrite He, bool_decide_eq_false_2 by lia. apply lookup_empty. }
  exists s'. split; [|exact Hr]. unfold TCPWaitToRead, to_u32. unfold int_max in Hlen.
  rewrite Z.mod_small by lia. cbv zeta. rewrite (proj2 (Z.leb_le _ _)), (proj2 (Z.ltb_lt _ _)) by lia.
  unfold assert_, bindM at 1 2, ret. unfold bindM. by rewrite E.
Qed.

(** [epoll_wait] that ends at the timeout changes nothing: the loop waits again
    with the same timeout, although -1 is documented for it. *)
Lemma wait_timeout_ignored num timeout trig err ws s :
  to_u32 (zlen err + zlen trig) < num ->
  wait_loop num timeout trig err (WaitEvents [] :: ws) s = wait_loop num timeout trig err ws s.
Proof.
  intros H. simpl. unfold bindM, ret. cbn [fst snd]. by destruct (Z.leb_spec num (to_u32 (zlen err + zlen trig))); [lia|].
Qed.

(** ** [TCPSend] *)

Lemma send_loop_prefix buf sent l r out :
  send_loop buf sent l = Some (r, out) ->
  exists rest, sent ++ buf = out ++ rest /\ (r = 0 /\ rest = [] \/ r = -2 /\ rest <> []).
Proof.
  revert buf sent. induction l as [|[e|n] l IH]; intros [|b buf] sent H; simpl in H; try done;
    try (injection H as <- <-; exists []; rewrite !app_nil_r; tauto).
  - destruct (_ || _) in H; [|by eapply IH]. injection H as <- <-. exists (b :: buf). auto.
  - apply IH in H as (rest & E & Hr). exists rest. split; [|done].
    by rewrite <- E, <- app_assoc, take_drop.
Qed.

(** [TCPSend] returns 0 only when the system has taken the whole buffer, in
    order; when it returns -2 a part of it is gone. *)
Lemma TCPSend_prefix buf l r out :
  TCPSend (Some buf) l = Some (r, out) ->
  exists rest, buf = out ++ rest /\ (r = 0 /\ rest = [] \/ r = -2 /\ rest <> []).
Proof. apply (send_loop_prefix buf []). Qed.

End Pool.
