(* ===== verification/NfDemo.v ===== *)
(** * Runs of the thread-pool server and of its client

    A server with one worker that accepts a connection, hands it to the worker
    and gets it back; a client pool that opens a connection, takes it back and
    hands it out again.  Each theorem with hypotheses is applied to a state of
    these runs. *)

From S2P Require Import Prelude Wire NfServer NfThreads NfReach NfProps NfClient NfPool.

(** A C library with one address, 7, printed as ["1"]. *)
Instance demo_inet : Inet := {|
  inet_ntoa a := if a =? 7 then Some [x31] else None;
  inet_aton s := if bool_decide (s = [x31]) then Some 7 else None
|}.

(** The state an operation leaves. *)
Definition left_by {S A} (m : M S A) (s : S) : S :=
  match m s with Ret _ s' | Halt _ s' => s' end.

(** ** The server *)

Definition all_ok (_ : Z) : bool := true.
Definition quiet : Answers := mkAnswers [] [] all_ok.
Definition one_client : Answers := mkAnswers [(7, 7, 80)] [] all_ok.

Definition s_new : Server := new_Server 16 100 1000 None ∅.
Definition s_init : Server := left_by (InitServer 3 (Some (4, 5))) s_new.
Definition s_listen : Server := left_by (AddListenSocket [x31] 80 6 true true) s_init.
Definition s_run : Server := left_by (RunServer all_ok) s_listen.
(** The listening socket is object 1; the connection becomes object 2. *)
Definition s_accept : Server := left_by (loop_event EPOLLIN 1 ∅ one_client) s_run.
Definition s_readable : Server := left_by (loop_event EPOLLIN 2 ∅ quiet) s_accept.
Definition map_of_2 : gmap Z (list N) := {[0 := [2%N]]}.
Definition s_ready : Server := left_by (loop_ready map_of_2) s_readable.
Definition s_get : Server := left_by (GetServerReadySocket 0) s_ready.
Definition s_give : Server := left_by (InsertServerReuseSocket 0 2 1) s_get.

Definition worker (st : WorkerState) : list Worker := [mkWorker 0 st].
Definition k_loop (s : Server) : System := mkSystem s MLoop 1000 (worker WRun).
Definition k_ready : System := mkSystem s_ready MLoop 1000 (worker WRun).
Definition k_hold : System := mkSystem s_get MLoop 1000 (worker (WHold 2)).
Definition k_give : System := mkSystem s_give MLoop 1000 (worker WRun).

Definition k_new : System := mkSystem s_new MSetup 1000 (worker WRun).
Definition k_init : System := mkSystem s_init MSetup 1000 (worker WRun).
Definition k_listen : System := mkSystem s_listen MSetup 1000 (worker WRun).

(** An equation or a membership between closed terms. *)
Ltac by_value := vm_compute; reflexivity.

Lemma reachable_init mf : reachable mf k_init.
Proof.
  assert (H : reachable mf k_new).
  { apply reach_init. repeat constructor. discriminate. }
  apply (reach_step mf _ _ H). apply (step_init mf k_new 3 (Some (4, 5)) 0 s_init); [reflexivity| | |by_value].
  - apply (bool_decide_eq_true_1 (3 ∉ open_fds s_new)). by_value.
  - intros fd0 fd1 [= <- <-]. split_and!;
      [apply (bool_decide_eq_true_1 (4 ∉ open_fds s_new))|apply (bool_decide_eq_true_1 (5 ∉ open_fds s_new))
      |apply (bool_decide_eq_true_1 (NoDup [3; 4; 5]))]; by_value.
Qed.

Lemma reachable_listen mf : reachable mf k_listen.
Proof.
  apply (reach_step mf _ _ (reachable_init mf)).
  apply (step_listen mf k_init [x31] 80 6 true true 0 s_listen); [reflexivity| |by_value].
  apply (bool_decide_eq_true_1 (6 ∉ open_fds s_init)). by_value.
Qed.

Lemma reachable_run mf : reachable mf (k_loop s_run).
Proof.
  apply (reach_step mf _ _ (reachable_listen mf)).
  apply (step_run mf k_listen all_ok 0 s_run); [reflexivity|by_value].
Qed.

(** One turn of the loop with one event on a descriptor. *)
Lemma turn mf s fd mask p a r m s1 s2 :
  reachable mf (k_loop s) -> epoll_cancel_ s = false -> epoll_set s !! fd = Some (mask, p) ->
  1 <= epoll_size_ s -> loop_event EPOLLIN p ∅ a s = Ret (PResult r, m) s1 -> loop_ready m s1 = Ret tt s2 ->
  reachable mf (k_loop s2).
Proof.
  intros H Hc He Hsz E1 E2.
  assert (Ha : awaited s [(EPOLLIN, p)]).
  { split_and!; [done|exact Hsz|]. exists [fd]. split; [apply list.NoDup_singleton|].
    constructor; [by exists mask|constructor]. }
  pose proof (reach_step mf _ _ H (step_wait mf (k_loop s) _ eq_refl Hc Ha)) as H1.
  pose proof (reach_step mf _ _ H1 (step_event mf (mkSystem s (MBatch [(EPOLLIN, p)] ∅) 1000 (worker WRun))
    _ _ _ _ _ _ _ _ eq_refl E1)) as H2.
  exact (reach_step mf _ _ H2 (step_ready mf (mkSystem s1 (MBatch [] m) 1000 (worker WRun))
    _ 0 0 0 0 _ eq_refl E2)).
Qed.

Lemma reachable_ready mf : reachable mf k_ready.
Proof.
  apply (turn mf s_accept 7 8193 2 quiet 1 map_of_2 s_readable s_ready); [|first [by_value|done]..].
  apply (turn mf s_run 6 1 1 one_client 0 ∅ s_accept s_accept); [|first [by_value|done]..].
  apply reachable_run.
Qed.

Lemma reachable_hold mf : reachable mf k_hold.
Proof.
  apply (reach_step mf _ _ (reachable_ready mf)).
  apply (step_get mf k_ready 0 0 (GetSocket 2) s_get); by_value.
Qed.

Lemma reachable_give mf : reachable mf k_give.
Proof.
  apply (reach_step mf _ _ (reachable_hold mf)).
  apply (step_give mf k_hold 0 0 2 1 1 s_give); [by_value|by left|by_value].
Qed.

Lemma server_sockets_owned_witness :
  owners 2 k_hold = 1%nat /\ is_Some (sheap s_get !! 2%N) /\ worker_returns s_get (mkWorker 0 (WHold 2)).
Proof.
  destruct (server_sockets_owned True k_hold (reachable_hold True)) as (Ho & _ & Hw).
  split; [vm_compute; reflexivity|]. split; [apply (Ho 2%N); vm_compute; lia|].
  exact (Hw 0%nat (mkWorker 0 (WHold 2)) eq_refl).
Defined.

Lemma ready_socket_routed_witness :
  exists x lp, sheap s_get !! 2%N = Some x /\ sk_type_ x = 2 /\ id_ x = 0 /\
    listen_socket_list_ s_get !! 0%nat = Some lp /\ epoll_set s_get !! sk_ x = None.
Proof.
  destruct (ready_socket_routed True k_ready 0 2 s_get (reachable_ready True) ltac:(lia) ltac:(by_value))
    as (x & lp & Hx & Ht & Hi & Hl & _ & He & _).
  exists x, lp. exact (conj Hx (conj Ht (conj Hi (conj Hl He)))).
Defined.

Lemma reuse_notified_witness : (2%N ∈ values (server_socket_reuse_list_ s_give)) /\ 0 < local_bytes s_give.
Proof.
  assert (Hp : 2%N ∈ values (server_socket_reuse_list_ s_give)) by (apply (bool_decide_eq_true_1 _); by_value).
  split; [exact Hp|].
  destruct (reuse_notified k_give 2 (reachable_give False) Hp) as [H|[(rest & m & H)|(rest & m & k0 & k1 & H & _)]];
    [exact H|discriminate..].
Defined.

(** Three turns of 0.2 s, 0.3 s and 0.1 s: the timeout goes up to 1.6 s. *)
Lemma timeout_never_expires_witness :
  let turns := [(0, 100000, 300000); (1, 0, 300000); (2, 500000, 600000)] in
  timeouts s_new 1000 turns = 1600 /\ 1000 <= timeouts s_new 1000 turns <= 4000.
Proof.
  cbv zeta. split; [reflexivity|].
  apply (timeout_never_expires s_new 1000 [(0, 100000, 300000); (1, 0, 300000); (2, 500000, 600000)]); [lia| |].
  - repeat constructor; cbn; lia.
  - vm_compute. discriminate.
Defined.

(** ** The pool of the client *)

Definition to_7 : ConnectAnswers := mkConnectAnswers 3 0 (Some (7, 80)).
Definition c_made : Client := left_by (GetIdleClientSocket [x31] 80 to_7) (new_Client ∅).
Definition c_idle : Client := left_by (InsertClientSocket 0) c_made.

Lemma sensible_to_7 s : bool_decide (3 ∉ cfds s) = true -> sensible s to_7.
Proof.
  intros H. split; [by apply bool_decide_eq_true in H|]. intros ad po [= <- <-]. by exists [x31].
Qed.

Lemma reachable_idle : pool_reachable (mkPool c_idle []).
Proof.
  assert (H : pool_reachable (mkPool c_made [0%N])).
  { apply (pool_next _ _ (pool_init ∅)).
    apply (pool_get (mkPool (new_Client ∅) []) [x31] 80 to_7 (Some 0%N) c_made); [|by_value].
    apply sensible_to_7. by_value. }
  apply (pool_next _ _ H). apply (pool_put (mkPool c_made [0%N]) 0 [] c_idle); [done|by_value].
Qed.

Definition to_8 : ConnectAnswers := mkConnectAnswers 8 0 (Some (7, 80)).

(** The idle connection is taken again instead of a new one. *)
Lemma idle_pool_queues_witness :
  queue c_idle (mkSocketAddr [x31] 80) = [0%N] /\
  exists s', GetIdleClientSocket [x31] 80 to_8 c_idle = Ret (Some 0%N) s' /\
             queue s' (mkSocketAddr [x31] 80) = [].
Proof.
  split; [vm_compute; reflexivity|].
  destruct (idle_pool_queues (mkPool c_idle []) reachable_idle) as [Hget _].
  destruct (Hget [x31] 80 to_8) as (r & s' & E & _ & Hq & Hr).
  - split; [apply (bool_decide_eq_true_1 (8 ∉ cfds c_idle)); by_value|]. intros ad po [= <- <-]. by exists [x31].
  - exists s'. cbn [cl] in *. rewrite E, (Hr 0%N [] eq_refl). split; [reflexivity|].
    by rewrite Hq, decide_True.
Defined.

(** The connection has descriptor 3; the wait is for descriptor 0. *)
Lemma TCPWaitToRead_indices_witness :
  sk_ <$> cheap c_made !! 0%N = Some 3 /\
  exists s', TCPWaitToRead [0%N] [] [] 1 1000 all_ok [] c_made = wait_loop 1 1000 [] [] [] s' /\
    cepoll s' !! 0 = Some (Z.lor EPOLLIN EPOLLONESHOT, 0) /\ cepoll s' !! 3 = None.
Proof.
  split; [vm_compute; reflexivity|].
  destruct (TCPWaitToRead_indices [0%N] [] [] 1 1000 all_ok [] c_made) as (s' & E & H).
  - intros p ->%list_elem_of_singleton. by eexists.
  - done.
  - done.
  - done.
  - done.
  - exists s'. split; [exact E|]. split; [exact (H 0)|exact (H 3)].
Defined.
