(* ===== verification/NfMessages.v ===== *)
(** * Packets on the connections of the thread-pool generation

    [TCPSend] of [all-sync/socketio.hpp] is in [NfClient].  This file has the
    other direction: the [TCPRecv] functions of the programs, which all have the
    same text, [TCPRecv_Line], and the datagrams of [SocketIO].

    What the peer of a connection does is a list of answers that [recv] gives in
    order.  A [recv] for which nothing has come blocks: the result is [None]. *)

From S2P Require Import Prelude Wire NfServer NfThreads NfClient NfPool.

(** ** [recv] *)

(** Bytes that have come (at least one), the end of the stream, an error. *)
Inductive RecvAnswer :=
| Arrived (l : list byte)
| PeerClosed
| RecvError (errno : Z).

(** How a loop over [recv] ends: it still waits, it has all its bytes, it has
    returned early.  The bytes received and the answers that are left. *)
Inductive RecvLoop :=
| RWaits
| RFull (got : list byte) (rest : list RecvAnswer)
| RStopped (got : list byte) (rest : list RecvAnswer).

(** [errno != EINTR || errno != EAGAIN || errno != EWOULDBLOCK]. *)
Definition recv_fails (errno : Z) : bool := negb (errno =? 4) || negb (errno =? 11) || negb (errno =? 11).

(** [while (byte_num < len)]: [n] bytes are missing.  Bytes that do not fit stay
    for the next [recv], and the end of the stream stays. *)
Fixpoint recv_loop (n : nat) (got : list byte) (s : list RecvAnswer) : RecvLoop :=
  match n, s with
  | O, _ => RFull got s
  | _, [] => RWaits
  | _, Arrived l :: s' =>
      if (length l <=? n)%nat then recv_loop (n - length l) (got ++ l) s'
      else RFull (got ++ take n l) (Arrived (drop n l) :: s')
  | _, PeerClosed :: _ => RStopped got s
  | _, RecvError errno :: s' => if recv_fails errno then RStopped got s' else recv_loop n got s'
  end.

Definition max_tcp_pkt_size : Z := 2 * 1024 * 1024.

(** [TCPRecv]: the code, the buffer and the answers that are left. *)
Definition TCPRecv (buf_to_fill : list byte) (s : list RecvAnswer) : option (Z * list byte * list RecvAnswer) :=
  match recv_loop 4 [] s with
  | RWaits => None
  | RStopped _ s1 => Some (-1, buf_to_fill, s1)
  | RFull len_field s1 =>
      let len := bswap32 (default 0 (le32_dec len_field)) in
      if (len <=? 0) || (max_tcp_pkt_size <? len) then Some (-2, buf_to_fill, s1)
      else
        match recv_loop (Z.to_nat len) [] s1 with
        | RWaits => None
        | RStopped got s2 => Some (-2, got ++ drop (length got) (resize (Z.to_nat len) x00 buf_to_fill), s2)
        | RFull got s2 => Some (0, got, s2)
        end
  end.

(** [TCPRecv_Line]: one [recv] of at most 1024 bytes; the end of the stream gives
    an empty buffer and no error. *)
Definition TCPRecv_Line (buf_to_fill : list byte) (s : list RecvAnswer) : option (Z * list byte * list RecvAnswer) :=
  match s with
  | [] => None
  | Arrived l :: s' =>
      Some (0, take 1024 l, if (length l <=? 1024)%nat then s' else Arrived (drop 1024 l) :: s')
  | PeerClosed :: _ => Some (0, [], s)
  | RecvError errno :: s' =>
      Some ((if recv_fails errno then -1 else -2), resize 1024 x00 buf_to_fill, s')
  end.

Section Datagrams.
  Context {I : Inet}.

(** [SocketIO::UDPRecv]: what [recvfrom] answers, a datagram with its sender
    (address and port in network order) or [None]; on success the buffer and the
    sender.  No result: a string is made from the null pointer of [inet_ntoa]. *)
Definition UDPRecv (answer : option (list byte * Z * Z)) : option (Z * option (list byte * list byte * Z)) :=
  match answer with
  | Some (b0 :: data, sin_addr, sin_port) =>
      match inet_ntoa sin_addr with
      | None => None
      | Some from_ip => Some (0, Some (take (Z.to_nat 65535) (b0 :: data), from_ip, bswap16 sin_port))
      end
  | _ => Some (-1, None)
  end.

(** [SocketIO::UDPSend]: what [sendto] answers. *)
Definition UDPSend (to_ip : list byte) (sendto_ret : Z) : Z :=
  match inet_aton to_ip with
  | None => -1
  | Some _ => if sendto_ret <=? 0 then -1 else 0
  end.

Definition MakeUDPSocket (fd : Z) : Z := if fd <? 0 then -1 else fd.

End Datagrams.

(** What the programs put into [buf_to_send]: the size in network order, then the
    object. *)
Definition frame (object : list byte) : list byte := le32_enc (bswap32 (zlen object)) ++ object.

Lemma length_frame object : length (frame object) = (4 + length object)%nat.
Proof. done. Qed.

(** ** What was sent is received *)

Lemma recv_loop_0 got s : recv_loop 0 got s = RFull got s.
Proof. by destruct s. Qed.

(** [recv_loop] takes the first [n] bytes of what comes, however it is cut, and
    leaves the others. *)
Lemma recv_loop_pieces segs n got tail :
  (n <= length (concat segs))%nat ->
  exists segs', recv_loop n got ((Arrived <$> segs) ++ tail) = RFull (got ++ take n (concat segs)) ((Arrived <$> segs') ++ tail) /\
    concat segs' = drop n (concat segs).
Proof.
  revert n got. induction segs as [|l segs IH]; intros n got Hn.
  - destruct n; [|simpl in Hn; lia]. exists []. by rewrite recv_loop_0, app_nil_r.
  - destruct n as [|n].
    { exists (l :: segs). by rewrite recv_loop_0, app_nil_r. }
    cbn [concat] in *. rewrite length_app in Hn. cbn [fmap list_fmap app recv_loop].
    destruct (Nat.leb_spec (length l) (S n)) as [Hl|Hl].
    + destruct (IH (S n - length l)%nat (got ++ l) ltac:(lia)) as (segs' & -> & Hs).
      exists segs'. rewrite Hs, take_app_ge, drop_app_ge by done. by rewrite app_assoc.
    + exists (drop (S n) l :: segs). rewrite take_app_le, drop_app_le by lia. done.
Qed.

(** When fewer bytes than wanted come before the stream ends, the loop stops. *)
Lemma recv_loop_short segs n got tail :
  (length (concat segs) < n)%nat ->
  recv_loop n got ((Arrived <$> segs) ++ PeerClosed :: tail) = RStopped (got ++ concat segs) (PeerClosed :: tail).
Proof.
  revert n got. induction segs as [|l segs IH]; intros [|n] got Hn; try (simpl in Hn; lia).
  - simpl. by rewrite app_nil_r.
  - cbn [concat] in *. rewrite length_app in Hn. cbn [fmap list_fmap app recv_loop].
    destruct (Nat.leb_spec (length l) (S n)); [|lia]. rewrite IH by lia. by rewrite app_assoc.
Qed.

Lemma recv_fails_always errno : recv_fails errno = true.
Proof. unfold recv_fails. destruct (Z.eqb_spec errno 4); [subst|]; done. Qed.

Lemma bswap32_zlen (object : list byte) : zlen object <= max_tcp_pkt_size -> bswap32 (bswap32 (zlen object)) = zlen object.
Proof.
  intros H. apply bswap32_involutive. pose proof (zlen_nonneg object).
  unfold max_tcp_pkt_size, int_min, int_max in *. lia.
Qed.

Lemma TCPRecv_frame segs object rest buf tail :
  concat segs = frame object ++ rest -> 0 < zlen object <= max_tcp_pkt_size ->
  exists segs', TCPRecv buf ((Arrived <$> segs) ++ tail) = Some (0, object, (Arrived <$> segs') ++ tail) /\
    concat segs' = rest.
Proof.
  intros Hs Ho. pose proof (bswap32_zlen object ltac:(lia)) as Hb. unfold TCPRecv.
  assert (Hlen : length (concat segs) = (4 + length object + length rest)%nat)
    by (rewrite Hs, length_app, length_frame; lia).
  destruct (recv_loop_pieces segs 4 [] tail ltac:(lia)) as (segs1 & -> & Hs1).
  rewrite Hs in *. unfold frame in *. rewrite <- !app_assoc in *.
  change (drop 4 (le32_enc ?z ++ ?l)) with l in Hs1. change ([] ++ take 4 (le32_enc ?z ++ ?l)) with (le32_enc z).
  rewrite le32_dec_enc by apply bswap32_range. change (default 0 (Some ?z)) with z. rewrite Hb.
  rewrite (proj2 (Z.leb_gt _ 0)) by lia. rewrite (proj2 (Z.ltb_ge _ (zlen object))) by lia. cbn [orb].
  destruct (recv_loop_pieces segs1 (Z.to_nat (zlen object)) [] tail) as (segs2 & -> & Hs2);
    rewrite Hs1 in *; unfold zlen in *; rewrite Nat2Z.id in *; [rewrite length_app; lia|].
  exists segs2. rewrite take_app_length, Hs2, drop_app_length. done.
Qed.

Lemma recv_loop_short_end n segs tail :
  (length (concat segs) < n)%nat -> exists got, recv_loop n [] ((Arrived <$> segs) ++ PeerClosed :: tail) = RStopped got (PeerClosed :: tail).
Proof. intros H. eexists. by apply recv_loop_short. Qed.

(** A packet of which the end is missing is an error. *)
Lemma TCPRecv_cut segs object lost buf tail :
  frame object = concat segs ++ lost -> lost <> [] -> 0 < zlen object <= max_tcp_pkt_size ->
  exists z b, TCPRecv buf ((Arrived <$> segs) ++ PeerClosed :: tail) = Some (z, b, PeerClosed :: tail) /\ z < 0.
Proof.
  intros Hs Hl Ho. pose proof (f_equal length Hs) as Hlen. rewrite length_frame, length_app in Hlen.
  assert (0 < length lost)%nat by (destruct lost; [done|simpl; lia]). unfold TCPRecv.
  destruct (Nat.lt_ge_cases (length (concat segs)) 4) as [H4|H4].
  - destruct (recv_loop_short_end _ _ tail H4) as [got ->]. by exists (-1), buf.
  - destruct (recv_loop_pieces segs 4 [] (PeerClosed :: tail) H4) as (segs1 & -> & Hs1).
    assert (Ht : take 4 (concat segs) = le32_enc (bswap32 (zlen object))).
    { apply (f_equal (take 4)) in Hs. by rewrite take_app_le in Hs. }
    change ([] ++ ?l) with l. rewrite Ht, le32_dec_enc by apply bswap32_range. change (default 0 (Some ?z)) with z.
    rewrite bswap32_zlen by lia. rewrite (proj2 (Z.leb_gt _ 0)) by lia.
    rewrite (proj2 (Z.ltb_ge _ (zlen object))) by lia. cbn [orb].
    destruct (recv_loop_short_end (Z.to_nat (zlen object)) segs1 tail) as [got ->].
    { rewrite Hs1, length_drop. unfold zlen. rewrite Nat2Z.id. lia. }
    do 2 eexists. split; [done|lia].
Qed.

(** C19: what one program sends another one receives.  When [TCPSend] of an
    object has returned 0, [TCPRecv] at the other end gives exactly the object,
    in however many pieces the bytes come and whatever they are followed by, and
    leaves what follows.  When [TCPSend] has failed and the connection is closed,
    [TCPRecv] gives an error, never a part of the object. *)
Theorem sent_packet_received object answers r out :
  0 < zlen object <= max_tcp_pkt_size -> TCPSend (Some (frame object)) answers = Some (r, out) ->
  (r = 0 -> forall segs rest buf tail, concat segs = out ++ rest ->
     exists segs', TCPRecv buf ((Arrived <$> segs) ++ tail) = Some (0, object, (Arrived <$> segs') ++ tail) /\
       concat segs' = rest) /\
  (r <> 0 -> forall segs buf tail, concat segs = out ->
     exists z b, TCPRecv buf ((Arrived <$> segs) ++ PeerClosed :: tail) = Some (z, b, PeerClosed :: tail) /\ z < 0).
Proof.
  intros Ho E. destruct (TCPSend_prefix _ _ _ _ E) as (lost & Hf & [[-> ->]|[-> Hl]]); split; intros Hr; try done.
  - intros segs rest buf tail Hs. rewrite app_nil_r in Hf. rewrite <- Hf in Hs. by apply TCPRecv_frame.
  - intros segs buf tail Hs. rewrite <- Hs in Hf. by eapply TCPRecv_cut.
Qed.
