(* ===== verification/NfPrograms.v ===== *)
(** * The programs of the thread-pool generation: [all-sync/test_*.cc]

    The servers derive from [Server] and [Processor]: one turn of the loop of a
    [Process] function gets a ready connection, reads a packet, answers it, and
    gives the connection back or closes it.  The definitions below are such turns
    from the point where [GetServerReadySocket] has returned the connection [sk];
    the last thing a turn does to it is its result ([Fate], carried out by
    [finish]).  A turn that blocks in a system call has no result.

    BB1 and BB2 add 1 to the number they are asked about; BF asks both and answers
    their sum; [test_c.cc] is its client.  [test_simple_server.cc] and
    [test_multi_pool_server.cc] add 1, echo lines and answer datagrams, for
    [test_simple_client.cc] and [test_multi_pool_client.cc]. *)

From S2P Require Import Prelude Wire NfServer NfThreads NfClient NfPool NfMessages.

(** ** A turn *)

(** The client pool, what comes in on each descriptor, and what was handed to
    [send] and taken, in order. *)
Record Work := mkWork {
  wclient : Client;
  incoming : gmap Z (list RecvAnswer);
  sends : list (Z * list byte)
}.

Definition with_wclient c w := mkWork c (incoming w) (sends w).
Definition with_incoming m w := mkWork (wclient w) m (sends w).
Definition with_sends l w := mkWork (wclient w) (incoming w) l.

(** [InsertServerReuseSocket(sk)], or [sk->Close(); delete sk]. *)
Inductive Fate := GiveBack | CloseDelete.

Notation "'let?' x := m 'in' k" :=
  (bindM m (fun o => match o with None => ret None | Some x => k end))
  (at level 200, x binder, m at level 100, k at level 200, right associativity).

Definition result {A} (a : A) : M Work (option A) := ret (Some a).

(** An operation of the client. *)
Definition on_client {A} (m : M Client A) : M Work A := fun w =>
  match m (wclient w) with
  | Ret a c => Ret a (with_wclient c w)
  | Halt h c => Halt h (with_wclient c w)
  end.

(** [TCPRecv] and [TCPRecv_Line] on a descriptor: the code and the buffer. *)
Definition w_recv_by (recv : list RecvAnswer -> option (Z * list byte * list RecvAnswer)) (fd : Z) :
    M Work (option (Z * list byte)) :=
  let! m := gets incoming in
  match recv (default [] (m !! fd)) with
  | None => ret None
  | Some (z, b, s) => modify (with_incoming (<[fd := s]> m)) ;;! result (z, b)
  end.

Definition w_recv (fd : Z) (buf : list byte) := w_recv_by (TCPRecv buf) fd.

(** [TCPSend] on a descriptor. *)
Definition w_send (fd : Z) (buf_to_send : list byte) (answers : list SendAnswer) : M Work (option Z) :=
  match TCPSend (Some buf_to_send) answers with
  | None => ret None
  | Some (z, out) =>
      let! l := gets sends in
      modify (with_sends (l ++ [(fd, out)])) ;;! result z
  end.

(** Three members of a packed object, read through the cast of the address of
    [buf[0]] and converted to host order; undefined behind the end of the buffer. *)
Definition three_members (buf : list byte) : M Work (Z * Z * Z) :=
  of_option HUndefined (l ← load32 buf 0; q ← load32 buf 4; v ← load32 buf 8;
                        Some (bswap32 l, bswap32 q, bswap32 v)).

(** An object of three members, in network order. *)
Definition three_words (l seq v : Z) : list byte := words [bswap32 l; bswap32 seq; bswap32 v].

(** ** [test_bb1.cc], [test_bb2.cc] *)

Definition TestBB1_Process (sk : Socket) (answers : list SendAnswer) : M Work (option Fate) :=
  let? r := w_recv (sk_ sk) [] in
  if r.1 <? 0 then result CloseDelete
  else
    let! req := three_members r.2 in
    let '(_, seq, a) := req in
    let! a2 := int_op (a + 1) in
    let? z := w_send (sk_ sk) (frame (three_words 12 seq a2)) answers in
    if z <? 0 then result CloseDelete else result GiveBack.

(** The same text with [b_] for [a_]. *)
Definition TestBB2_Process := TestBB1_Process.

(** ** [test_simple_server.cc], [test_multi_pool_server.cc] *)

(** [Req] and [Rsp] end in an array of 1000 integers; that of the answer is never
    set: [pad] is what the memory holds.  After a failed send the connection is
    given back. *)
Definition TestSimple_Process (pad : list byte) (sk : Socket) (answers : list SendAnswer) : M Work (option Fate) :=
  let? r := w_recv (sk_ sk) [] in
  if r.1 <? 0 then result CloseDelete
  else
    let! req := three_members r.2 in
    let '(_, seq, num) := req in
    let! num2 := int_op (num + 1) in
    let? z := w_send (sk_ sk) (frame (three_words 4012 seq num2 ++ pad)) answers in
    result GiveBack.

Definition TestSimpleProcessor1_Process (sk : Socket) (answers : list SendAnswer) : M Work (option Fate) :=
  let? r := w_recv (sk_ sk) [] in
  if r.1 <? 0 then result CloseDelete
  else
    let! req := three_members r.2 in
    let '(_, seq, num) := req in
    let! num2 := int_op (num + 1) in
    let? z := w_send (sk_ sk) (frame (three_words 12 seq num2)) answers in
    result GiveBack.

Definition newline : byte := x0a.
Definition you_sent : list byte := Eval cbv in String.list_byte_of_string "You sent: ".

(** [std::string::append(char pointer)]: up to the first null character. *)
Fixpoint c_string (l : list byte) : list byte :=
  match l with
  | [] => []
  | c :: l' => if Byte.eqb c x00 then [] else c :: c_string l'
  end.

(** The branch for -2 comes after the one for all negative codes. *)
Definition TestSimpleProcessor2_Process (sk : Socket) (answers : list SendAnswer) : M Work (option Fate) :=
  let? r := w_recv_by (TCPRecv_Line []) (sk_ sk) in
  if r.1 <? 0 then result CloseDelete
  else
    let i := find_byte newline r.2 in
    if Nat.eqb i (length r.2) then result CloseDelete
    else
      let cmdline := c_string (take i r.2 ++ x00 :: drop (S i) r.2) in
      let? z := w_send (sk_ sk) (you_sent ++ cmdline ++ [newline]) answers in
      result GiveBack.

Section Inet.
  Context {I : Inet}.

(** The worker of the datagrams; the sent bytes, their address, and the code of
    [UDPSend].  No result: it waits in [GetUDPPacket]. *)
Definition TestSimpleProcessor3_Process (sendto_ret : Z) : M Server (option (list byte * SocketAddr * Z)) :=
  let! k := GetUDPPacket in
  match k with
  | None => ret None
  | Some pkt =>
      let! seq := of_option HUndefined (load32 (data_ pkt) 0) in
      let! num := of_option HUndefined (load32 (data_ pkt) 4) in
      let! num2 := int_op (bswap32 num + 1) in
      let rsp := three_words 12 (bswap32 seq) num2 in
      let! z := Server_UDPSend (ip_ (from_ pkt)) (port_ (from_ pkt)) rsp sendto_ret in
      ret (Some (rsp, from_ pkt, z))
  end.

(** ** [test_bf.cc] *)

Definition local_ip : list byte := Eval cbv in String.list_byte_of_string "127.0.0.1".

(** What the system answers during a turn of BF. *)
Record BFAnswers := mkBFAnswers {
  bb1_connect : ConnectAnswers;
  bb1_send : list SendAnswer;
  bb2_connect : ConnectAnswers;
  bb2_send : list SendAnswer;
  wait_ctl : Z -> bool;
  wait_answers : list WaitAnswer;
  bf_send : list SendAnswer
}.

Definition destroy_both (bb1_sk bb2_sk : ptr) : M Work unit :=
  on_client (c_destroy bb1_sk) ;;! on_client (c_destroy bb2_sk).

(** The replies are read into [buf], and the answer is sent. *)
Definition BF_gather (sk : Socket) (bb1_sk bb2_sk : ptr) (buf : list byte) (recv_seq : Z) (an : BFAnswers) :
    M Work (option Fate) :=
  let! x1 := on_client (cderef bb1_sk) in
  let? r1 := w_recv (sk_ x1) buf in
  if r1.1 <? 0 then destroy_both bb1_sk bb2_sk ;;! result GiveBack
  else
    let! a2 := of_option HUndefined (load32 r1.2 8) in
    let recv_a := bswap32 a2 in
    let! x2 := on_client (cderef bb2_sk) in
    let? r2 := w_recv (sk_ x2) [] in
    if r2.1 <? 0 then destroy_both bb1_sk bb2_sk ;;! result GiveBack
    else
      let! b2 := of_option HUndefined (load32 r2.2 8) in
      let recv_b := bswap32 b2 in
      on_client (InsertClientSocket bb1_sk) ;;!
      on_client (InsertClientSocket bb2_sk) ;;!
      let! sum := int_op (recv_a + recv_b) in
      let? z := w_send (sk_ sk) (frame (three_words 12 recv_seq sum)) (bf_send an) in
      if z <? 0 then result CloseDelete else result GiveBack.

(** [GetIdleClientSocket] is [GetClientSocket] and, when there is none,
    [MakeConnection], as the statements here.  Where the connection to BB2, or the
    send on it, fails, nothing is done with [bb1_sk]. *)
Definition TestBF_Process (sk : Socket) (an : BFAnswers) : M Work (option Fate) :=
  let? r := w_recv (sk_ sk) [] in
  if r.1 <? 0 then result CloseDelete
  else
    let! req := three_members r.2 in
    let '(l, seq, a) := req in
    let! w3 := of_option HUndefined (load32 r.2 12) in
    let b := bswap32 w3 in
    let buf := words [l; seq; a; b] ++ drop 16 r.2 in
    let! c1 := on_client (GetIdleClientSocket local_ip 30021 (bb1_connect an)) in
    match c1 with
    | None => result GiveBack
    | Some bb1_sk =>
        let! x1 := on_client (cderef bb1_sk) in
        let? z1 := w_send (sk_ x1) (frame (three_words 12 seq a)) (bb1_send an) in
        if z1 <? 0 then on_client (c_destroy bb1_sk) ;;! result GiveBack
        else
          let! c2 := on_client (GetIdleClientSocket local_ip 30022 (bb2_connect an)) in
          match c2 with
          | None => result GiveBack
          | Some bb2_sk =>
              let! x2 := on_client (cderef bb2_sk) in
              let? z2 := w_send (sk_ x2) (frame (three_words 12 seq b)) (bb2_send an) in
              if z2 <? 0 then on_client (c_destroy bb2_sk) ;;! result GiveBack
              else
                let! t := on_client (TCPWaitToRead [bb1_sk; bb2_sk] [] [] 2 1000 (wait_ctl an) (wait_answers an)) in
                match t.1.1 with
                | None => ret None
                | Some z =>
                    if z <? 0 then destroy_both bb1_sk bb2_sk ;;! result GiveBack
                    else BF_gather sk bb1_sk bb2_sk buf seq an
                end
          end
    end.

(** ** The clients *)

(** [main] of [test_c.cc]: the code it returns and the answer it has read. *)
Definition TestClient_main (seq a b : Z) (cn : ConnectAnswers) (answers : list SendAnswer) :
    M Work (option (Z * option (Z * Z))) :=
  let! c := on_client (GetIdleClientSocket local_ip 20021 cn) in
  match c with
  | None => result (-1, None)
  | Some sk =>
      let! x := on_client (cderef sk) in
      let? z := w_send (sk_ x) (frame (words [bswap32 16; bswap32 seq; bswap32 a; bswap32 b])) answers in
      if z <? 0 then result (-2, None)
      else
        let? r := w_recv (sk_ x) [] in
        if r.1 <? 0 then result (-2, None)
        else
          let! rsp := three_members r.2 in
          result (0, Some (rsp.1.2, rsp.2))
  end.

(** One turn of [ClientThreadProc] of [test_simple_client.cc] with the two numbers
    drawn for it and the index of the server; [None] after an error, which
    deletes the connection. *)
Definition TestSimpleClient_turn (seq num index : Z) (pad : list byte) (cn : ConnectAnswers)
    (answers : list SendAnswer) : M Work (option (option (Z * Z))) :=
  let! c := on_client (GetIdleClientSocket local_ip (20031 + index) cn) in
  match c with
  | None => result None
  | Some sk =>
      let! x := on_client (cderef sk) in
      let? z := w_send (sk_ x) (frame (three_words 4012 seq num ++ pad)) answers in
      if z <? 0 then on_client (c_destroy sk) ;;! result None
      else
        let? r := w_recv (sk_ x) [] in
        if r.1 <? 0 then on_client (c_destroy sk) ;;! result None
        else
          let! rsp := three_members r.2 in
          on_client (InsertClientSocket sk) ;;! result (Some (rsp.1.2, rsp.2))
  end.

End Inet.

(** ** The end of a turn *)

(** [sent]: what [send] of the wake-up byte answers. *)
Definition finish (pool_index : Z) (sk : ptr) (sent : Z) (f : Fate) : M Server unit :=
  match f with
  | GiveBack => InsertServerReuseSocket pool_index sk sent ;;! ret tt
  | CloseDelete => Socket_Close sk ;;! sdelete sk
  end.
