(* ===== verification/NfExchange.v ===== *)
(** * What the programs of the thread-pool generation answer

    The turns of the servers of [NfPrograms] on whole packets, on packets that are
    cut short, and together: a client, BF and the two back ends on one request. *)

From S2P Require Import Prelude Wire NfServer NfThreads NfOwnership NfReach NfProps NfClient NfPool NfMessages NfPrograms.

(** ** Reading and writing *)

(** The peer sends [bytes], in some pieces, and then does [tail]. *)
Definition delivers (s : list RecvAnswer) (bytes : list byte) (tail : list RecvAnswer) : Prop :=
  exists segs, s = (Arrived <$> segs) ++ tail /\ concat segs = bytes.

Lemma load32_app buf ext off v : load32 buf off = Some v -> load32 (buf ++ ext) off = Some v.
Proof.
  intros H. pose proof (load32_Some _ _ _ H) as Hl. revert H. unfold load32. rewrite drop_app_le by lia.
  by destruct (drop off buf) as [|b0 [|b1 [|b2 [|b3 ?]]]].
Qed.

Lemma load32_words_app l ext k z :
  Forall int32 l -> l !! k = Some z -> load32 (words l ++ ext) (4 * k) = Some z.
Proof. intros. by apply load32_app, words_load. Qed.

Lemma int32_bswap z : int32 (bswap32 z).
Proof. apply bswap32_range. Qed.

Lemma bswap_list_ok l : Forall int32 (bswap32 <$> l).
Proof. apply Forall_fmap, list.Forall_true. intros. apply int32_bswap. Qed.

(** Reading member [k] of an object sent in network order. *)
Lemma load_member l ext k z :
  int32 z -> l !! k = Some z -> exists v, load32 (words (bswap32 <$> l) ++ ext) (4 * k) = Some v /\ bswap32 v = z.
Proof.
  intros Hz Hk. exists (bswap32 z). split; [|by apply bswap32_involutive].
  apply load32_words_app; [apply bswap_list_ok|]. by rewrite list_lookup_fmap, Hk.
Qed.

Lemma three_members_words l seq v ext (w : Work) :
  int32 l -> int32 seq -> int32 v -> three_members (three_words l seq v ++ ext) w = Ret (l, seq, v) w.
Proof.
  intros Hl Hs Hv. unfold three_members.
  destruct (load_member [l; seq; v] ext 0 l Hl eq_refl) as (x & Ex & <-).
  destruct (load_member [bswap32 x; seq; v] ext 1 seq Hs eq_refl) as (y & Ey & <-).
  destruct (load_member [bswap32 x; bswap32 y; v] ext 2 v Hv eq_refl) as (z & Ez & <-).
  unfold three_words. cbn [fmap list_fmap] in Ex, Ey, Ez. change (4 * 0)%nat with 0%nat in Ex.
  change (4 * 1)%nat with 4%nat in Ey. change (4 * 2)%nat with 8%nat in Ez. by rewrite Ex, Ey, Ez.
Qed.

Lemma zlen_words l : zlen (words l) = 4 * zlen l.
Proof. unfold zlen. rewrite length_words. lia. Qed.

Lemma w_recv_frame fd buf w s object rest tail :
  incoming w !! fd = Some s -> delivers s (frame object ++ rest) tail -> 0 < zlen object <= max_tcp_pkt_size ->
  exists s', w_recv fd buf w = Ret (Some (0, object)) (with_incoming (<[fd := s']> (incoming w)) w) /\
    delivers s' rest tail.
Proof.
  intros Hw (segs & -> & Hs) Ho. destruct (TCPRecv_frame segs object rest buf tail Hs Ho) as (segs' & E & Hr).
  exists ((Arrived <$> segs') ++ tail). split; [|by exists segs'].
  unfold w_recv, w_recv_by. rewrite bind_gets, Hw. change (default [] (Some ?x)) with x. by rewrite E.
Qed.

Lemma w_recv_cut fd buf w s object lost tail bytes :
  incoming w !! fd = Some s -> delivers s bytes (PeerClosed :: tail) ->
  frame object = bytes ++ lost -> lost <> [] -> 0 < zlen object <= max_tcp_pkt_size ->
  exists z b w', w_recv fd buf w = Ret (Some (z, b)) w' /\ z < 0 /\ sends w' = sends w /\ wclient w' = wclient w.
Proof.
  intros Hw (segs & -> & Hs) Ho Hl Hz. rewrite <- Hs in Ho.
  destruct (TCPRecv_cut segs object lost buf tail Ho Hl Hz) as (z & b & E & Hneg).
  exists z, b, (with_incoming (<[fd := PeerClosed :: tail]> (incoming w)) w). split_and!; [|done|done|done].
  unfold w_recv, w_recv_by. rewrite bind_gets, Hw. change (default [] (Some ?x)) with x. by rewrite E.
Qed.

Lemma w_send_eq fd buf an z out w :
  TCPSend (Some buf) an = Some (z, out) ->
  w_send fd buf an w = Ret (Some z) (with_sends (sends w ++ [(fd, out)]) w).
Proof. intros E. unfold w_send. by rewrite E. Qed.

(** A step of a turn that does not block. *)
Lemma bind_some {A B} (m : M Work (option A)) (k : A -> M Work (option B)) a w w' :
  m w = Ret (Some a) w' -> (let? x := m in k x) w = k a w'.
Proof. unfold bindM. by intros ->. Qed.

Lemma TCPSend_all buf an out : TCPSend (Some buf) an = Some (0, out) -> out = buf.
Proof.
  intros E. destruct (TCPSend_prefix _ _ _ _ E) as (rest & -> & [[_ ->]|[? _]]); [by rewrite app_nil_r|done].
Qed.

Lemma zlen_three l seq v ext : 0 < zlen (three_words l seq v ++ ext).
Proof. rewrite zlen_app. unfold three_words. rewrite zlen_words. pose proof (zlen_nonneg ext). unfold zlen at 1. simpl. lia. Qed.

(** ** The servers that add 1 *)

Definition add1_ok (num : Z) : Prop := int32 num /\ num < int_max.

Lemma int_op_add1 num (w : Work) : add1_ok num -> int_op (num + 1) w = Ret (num + 1) w.
Proof.
  intros [[H1 H2] H3]. unfold int_op. rewrite (proj2 (in_int_spec _)); [done|]. unfold int_min, int_max in *. lia.
Qed.

(** The turn of a back end on a whole request. *)
Lemma BB1_turn sk an w s l seq num ext rest tail z out :
  incoming w !! sk_ sk = Some s -> delivers s (frame (three_words l seq num ++ ext) ++ rest) tail ->
  int32 l -> int32 seq -> add1_ok num -> zlen (three_words l seq num ++ ext) <= max_tcp_pkt_size ->
  TCPSend (Some (frame (three_words 12 seq (num + 1)))) an = Some (z, out) ->
  exists s', TestBB1_Process sk an w =
    Ret (Some (if z <? 0 then CloseDelete else GiveBack))
        (mkWork (wclient w) (<[sk_ sk := s']> (incoming w)) (sends w ++ [(sk_ sk, out)])) /\
    delivers s' rest tail.
Proof.
  intros Hw Hd Hl Hseq Hn Hz E.
  destruct (w_recv_frame (sk_ sk) [] w s _ rest tail Hw Hd (conj (zlen_three _ _ _ _) Hz)) as (s' & Er & Hs').
  exists s'. split; [|done]. unfold TestBB1_Process. rewrite (bind_some _ _ _ _ _ Er). cbn [fst snd].
  rewrite (proj2 (Z.ltb_ge 0 0)) by done.
  rewrite (bind_Ret _ _ _ _ _ (three_members_words l seq num ext _ Hl Hseq (proj1 Hn))).
  cbn beta iota. rewrite (bind_Ret _ _ _ _ _ (int_op_add1 num _ Hn)).
  rewrite (bind_some _ _ _ _ _ (w_send_eq _ _ _ _ _ _ E)). by destruct (z <? 0).
Qed.

(** The servers of the simple tests on a whole request: the connection is given
    back even when the send has failed. *)
Lemma Simple_turn pad sk an w s l seq num ext rest tail z out :
  incoming w !! sk_ sk = Some s -> delivers s (frame (three_words l seq num ++ ext) ++ rest) tail ->
  int32 l -> int32 seq -> add1_ok num -> zlen (three_words l seq num ++ ext) <= max_tcp_pkt_size ->
  TCPSend (Some (frame (three_words 4012 seq (num + 1) ++ pad))) an = Some (z, out) ->
  exists s', TestSimple_Process pad sk an w =
    Ret (Some GiveBack) (mkWork (wclient w) (<[sk_ sk := s']> (incoming w)) (sends w ++ [(sk_ sk, out)])) /\
    delivers s' rest tail.
Proof.
  intros Hw Hd Hl Hseq Hn Hz E.
  destruct (w_recv_frame (sk_ sk) [] w s _ rest tail Hw Hd (conj (zlen_three _ _ _ _) Hz)) as (s' & Er & Hs').
  exists s'. split; [|done]. unfold TestSimple_Process. rewrite (bind_some _ _ _ _ _ Er). cbn [fst snd].
  rewrite (proj2 (Z.ltb_ge 0 0)) by done.
  rewrite (bind_Ret _ _ _ _ _ (three_members_words l seq num ext _ Hl Hseq (proj1 Hn))).
  cbn beta iota. rewrite (bind_Ret _ _ _ _ _ (int_op_add1 num _ Hn)).
  by rewrite (bind_some _ _ _ _ _ (w_send_eq _ _ _ _ _ _ E)).
Qed.

Lemma c_string_id l : x00 ∉ l -> c_string l = l.
Proof.
  induction l as [|c l IH]; intros H; [done|]. apply list.not_elem_of_cons in H as [Hc H]. simpl.
  destruct (Byte.eqb c x00) eqn:E; [|by rewrite IH]. by apply Byte.byte_dec_bl in E.
Qed.

Lemma c_string_stops l r : x00 ∉ l -> c_string (l ++ x00 :: r) = l.
Proof.
  induction l as [|c l IH]; intros H; [done|]. apply list.not_elem_of_cons in H as [Hc H]. simpl.
  destruct (Byte.eqb c x00) eqn:E; [by apply Byte.byte_dec_bl in E|by rewrite IH].
Qed.

Lemma find_byte_app c l r : c ∉ l -> find_byte c (l ++ c :: r) = length l.
Proof.
  induction l as [|x l IH]; intros H; simpl; [by rewrite bool_decide_true|].
  apply list.not_elem_of_cons in H as [Hc H]. rewrite bool_decide_false by done. by rewrite IH.
Qed.

(** A line that comes at once is echoed; what has come behind it with the same
    [recv] is lost. *)
Lemma line_echoed sk an w line more tail z out :
  incoming w !! sk_ sk = Some (Arrived (line ++ newline :: more) :: tail) ->
  (length (line ++ newline :: more) <= 1024)%nat -> newline ∉ line -> x00 ∉ line ->
  TCPSend (Some (you_sent ++ line ++ [newline])) an = Some (z, out) ->
  TestSimpleProcessor2_Process sk an w =
    Ret (Some GiveBack) (mkWork (wclient w) (<[sk_ sk := tail]> (incoming w)) (sends w ++ [(sk_ sk, out)])).
Proof.
  intros Hw Hlen Hn H0 E. unfold TestSimpleProcessor2_Process.
  assert (Er : w_recv_by (TCPRecv_Line []) (sk_ sk) w =
    Ret (Some (0, line ++ newline :: more)) (with_incoming (<[sk_ sk := tail]> (incoming w)) w)).
  { unfold w_recv_by. rewrite bind_gets, Hw. change (default [] (Some ?x)) with x. unfold TCPRecv_Line.
    rewrite take_ge by done. by rewrite (proj2 (Nat.leb_le _ _) Hlen). }
  rewrite (bind_some _ _ _ _ _ Er). cbn [fst snd]. rewrite (proj2 (Z.ltb_ge 0 0)) by done. cbv zeta.
  rewrite find_byte_app by done. rewrite length_app.
  rewrite (proj2 (Nat.eqb_neq _ _)) by (simpl; lia).
  rewrite take_app_length, c_string_stops by done. by rewrite (bind_some _ _ _ _ _ (w_send_eq _ _ _ _ _ _ E)).
Qed.

(** ** The pool during a turn *)

(** Computations that change nothing but the epoll set of the client. *)
Definition epoll_only {A} (m : M Client A) : Prop :=
  forall s a s', m s = Ret a s' -> exists e, s' = with_cepoll e s.

Lemma epoll_only_id {A} (m : M Client A) : (forall s a s', m s = Ret a s' -> s' = s) -> epoll_only m.
Proof. intros H s a s' E. exists (cepoll s). rewrite (H _ _ _ E). by destruct s. Qed.

Lemma epoll_only_bind {A B} (m : M Client A) (k : A -> M Client B) :
  epoll_only m -> (forall a, epoll_only (k a)) -> epoll_only (bindM m k).
Proof.
  intros Hm Hk s b s' E. step_ret E as a s1 E1. destruct (Hm _ _ _ E1) as [e1 ->].
  destruct (Hk _ _ _ _ E) as [e ->]. by exists e.
Qed.

Lemma epoll_only_set e : epoll_only (modify (with_cepoll e)).
Proof. intros s a s' [= _ <-]. by exists e. Qed.

Lemma epoll_only_forM {A} (l : list A) (f : A -> M Client unit) :
  (forall x, epoll_only (f x)) -> epoll_only (forM l f).
Proof.
  intros H. induction l as [|x l IH]; [apply epoll_only_id; by intros s a s' [=]|].
  by apply epoll_only_bind.
Qed.

Ltac epoll_step :=
  lazymatch goal with
  | |- epoll_only (bindM _ _) => apply epoll_only_bind; [|intros ?]
  | |- epoll_only (modify (with_cepoll _)) => apply epoll_only_set
  | |- epoll_only (c_ctl_del _) => intros ? ? ? [= _ <-]; by eexists
  | |- epoll_only (match ?x with _ => _ end) => destruct x
  | |- epoll_only (ret _) => apply epoll_only_id; by intros ? ? ? [=]
  | |- epoll_only (gets _) => apply epoll_only_id; by intros ? ? ? [=]
  | |- epoll_only (stop _) => by intros ? ? ?
  | |- epoll_only (assert_ ?b) => apply epoll_only_id; intros ? ? ?; unfold assert_; destruct b; by intros [=]
  | |- epoll_only (of_option _ ?o) => apply epoll_only_id; intros ? ? ?; unfold of_option; destruct o; by intros [=]
  | |- epoll_only (forM _ _) => apply epoll_only_forM; intros ?
  end.

Lemma epoll_only_wait l trig err num timeout ctl ws :
  epoll_only (TCPWaitToRead l trig err num timeout ctl ws).
Proof.
  assert (Ht : forall evs trig err, epoll_only (triggered evs trig err)).
  { induction evs as [|[ev u] evs IH]; intros; simpl; repeat first [apply IH|epoll_step]. }
  assert (Hw : forall ws num timeout trig err, epoll_only (wait_loop num timeout trig err ws)).
  { clear ws num timeout trig err. induction ws as [|[]]; intros; simpl; repeat first [apply Ht|apply IHws|epoll_step]. }
  assert (Ha : forall l i, epoll_only (add_sockets i l ctl)).
  { clear l. induction l as [|p l IH]; intros; simpl; unfold cderef, c_ctl_add; repeat first [apply IH|epoll_step]. }
  unfold TCPWaitToRead. repeat first [apply Ha|apply Hw|epoll_step].
Qed.

Lemma PInv_cepoll s h e : PInv s h -> PInv (with_cepoll e s) h.
Proof. intros [H1 H2 H3 H4 H5 H6]. by constructor. Qed.

Lemma on_client_eq {A} (m : M Client A) w a c :
  m (wclient w) = Ret a c -> on_client m w = Ret a (with_wclient c w).
Proof. intros E. unfold on_client. by rewrite E. Qed.

Lemma on_client_inv {A} (m : M Client A) w a w' :
  on_client m w = Ret a w' -> m (wclient w) = Ret a (wclient w') /\ sends w' = sends w /\ incoming w' = incoming w.
Proof. unfold on_client. destruct (m (wclient w)) as [b c|]; [|done]. by intros [= -> <-]. Qed.

Lemma with_wclient_id w : with_wclient (wclient w) w = w.
Proof. by destruct w. Qed.

Lemma on_client_deref p x w : cheap (wclient w) !! p = Some x -> on_client (cderef p) w = Ret x w.
Proof. intros H. rewrite (on_client_eq _ _ x (wclient w)) by (by apply cderef_eq). by rewrite with_wclient_id. Qed.

(** The last member of an object of three, with the conversion. *)
Lemma load_third l seq v ext :
  int32 v -> exists x, load32 (three_words l seq v ++ ext) 8 = Some x /\ bswap32 x = v.
Proof. intros Hv. exact (load_member [l; seq; v] ext 2 v Hv eq_refl). Qed.

Lemma int_op_in z (w : Work) : int32 z -> int_op z w = Ret z w.
Proof. intros H. unfold int_op. by rewrite (proj2 (in_int_spec z) H). Qed.

(** ** BF *)

(** A reply of a back end: any object of three members, with its last one [v]. *)
Definition reply_on (w : Work) (x : Socket) (v : Z) : Prop :=
  exists s l q ext rest tail, incoming w !! sk_ x = Some s /\
    delivers s (frame (three_words l q v ++ ext) ++ rest) tail /\
    int32 v /\ zlen (three_words l q v ++ ext) <= max_tcp_pkt_size.

Lemma reply_on_recv w x v buf :
  reply_on w x v -> exists obj b s', w_recv (sk_ x) buf w = Ret (Some (0, obj)) (with_incoming (<[sk_ x := s']> (incoming w)) w) /\
    load32 obj 8 = Some b /\ bswap32 b = v.
Proof.
  intros (s & l & q & ext & rest & tail & Hs & Hd & Hv & Hz).
  destruct (w_recv_frame (sk_ x) buf w s _ rest tail Hs Hd (conj (zlen_three l q v ext) Hz)) as (s' & E & _).
  destruct (load_third l q v ext Hv) as (b & Hb & Hb'). by exists (three_words l q v ++ ext), b, s'.
Qed.

Lemma reply_on_other w x y v s' :
  sk_ y <> sk_ x -> reply_on w x v -> reply_on (with_incoming (<[sk_ y := s']> (incoming w)) w) x v.
Proof.
  intros Hne (s & l & q & ext & rest & tail & Hs & H). exists s, l, q, ext, rest, tail.
  split; [|done]. cbn [incoming with_incoming]. by rewrite lookup_insert_ne.
Qed.

Lemma InsertClientSocket_cheap p s z s' : InsertClientSocket p s = Ret z s' -> cheap s' = cheap s.
Proof.
  intros E. unfold InsertClientSocket in E. step_ret E as x s1 E1. unfold cderef in E1. step_gets E1.
  destruct (cheap s !! p) in E1; [|done]. injection E1 as _ <-. cbv zeta in E. step_gets E.
  step_ret E as [] s2 E2. injection E as _ <-.
  destruct (client_socket_idle_list_ s !! _) as [l|]; [|by injection E2 as <-].
  step_ret E2 as [] s3 E3. unfold assert_ in E3. destruct (0 <? zlen l); [|done]. injection E3 as <-.
  by injection E2 as <-.
Qed.

Lemma BF_gather_eq sk p1 p2 x1 x2 buf seq an w v1 v2 z out :
  PInv (wclient w) [p1; p2] -> cheap (wclient w) !! p1 = Some x1 -> cheap (wclient w) !! p2 = Some x2 ->
  sk_ x1 <> sk_ x2 -> reply_on w x1 v1 -> reply_on w x2 v2 -> int32 (v1 + v2) ->
  TCPSend (Some (frame (three_words 12 seq (v1 + v2)))) (bf_send an) = Some (z, out) ->
  exists w', BF_gather sk p1 p2 buf seq an w = Ret (Some (if z <? 0 then CloseDelete else GiveBack)) w' /\
    sends w' = sends w ++ [(sk_ sk, out)] /\ PInv (wclient w') [] /\
    forall b, queue (wclient w') b = queue (wclient w) b ++
      (if decide (address x1 = b) then [p1] else []) ++ (if decide (address x2 = b) then [p2] else []).
Proof.
  intros Hp H1 H2 Hne Hr1 Hr2 Hsum E. unfold BF_gather.
  rewrite (bind_Ret _ _ _ _ _ (on_client_deref _ _ _ H1)).
  destruct (reply_on_recv w x1 v1 buf Hr1) as (o1 & b1 & t1 & E1 & L1 & B1).
  rewrite (bind_some _ _ _ _ _ E1). cbn [fst snd]. rewrite (proj2 (Z.ltb_ge 0 0)) by done.
  rewrite (bind_of_option _ _ _ _ _ L1), B1.
  set (w1 := with_incoming _ w). rewrite (bind_Ret _ _ w1 _ _ (on_client_deref _ _ w1 H2)).
  destruct (reply_on_recv w1 x2 v2 [] (reply_on_other _ _ _ _ _ Hne Hr2)) as (o2 & b2 & t2 & E2 & L2 & B2).
  rewrite (bind_some _ _ _ _ _ E2). cbn [fst snd]. rewrite (proj2 (Z.ltb_ge 0 0)) by done.
  rewrite (bind_of_option _ _ _ _ _ L2), B2. set (w2 := with_incoming _ w1).
  destruct (InsertClientSocket_PInv (wclient w2) [p2] p1 x1 Hp H1) as (c3 & E3 & Hp3 & Q3).
  rewrite (bind_Ret _ _ _ _ _ (on_client_eq _ w2 _ _ E3)).
  assert (Hx2 : cheap c3 !! p2 = Some x2) by (by rewrite (InsertClientSocket_cheap _ _ _ _ E3)).
  destruct (InsertClientSocket_PInv _ [] p2 x2 Hp3 Hx2) as (c4 & E4 & Hp4 & Q4).
  rewrite (bind_Ret _ _ _ _ _ (on_client_eq _ (with_wclient c3 w2) _ _ E4)).
  rewrite (bind_Ret _ _ _ _ _ (int_op_in _ _ Hsum)), (bind_some _ _ _ _ _ (w_send_eq _ _ _ _ _ _ E)).
  eexists. split; [by destruct (z <? 0)|]. split; [done|]. split; [done|].
  intros b. change (queue c4 b = queue (wclient w2) b ++
    (if decide (address x1 = b) then [p1] else []) ++ (if decide (address x2 = b) then [p2] else [])).
  rewrite Q4, Q3. repeat case_decide; by rewrite <- ?app_assoc, ?app_nil_r.
Qed.

(** Getting a connection keeps the others. *)
Lemma GetClientSocket_cheap ip port s r s' : GetClientSocket ip port s = Ret r s' -> cheap s' = cheap s.
Proof.
  intros E. unfold GetClientSocket in E. step_gets E.
  destruct (client_socket_idle_list_ s !! _) as [l|]; [|by injection E as _ <-].
  step_ret E as [] s1 E1. unfold assert_ in E1. destruct (negb _) in E1; [|done]. injection E1 as <-.
  step_ret E as q s2 E2. destruct (head l) in E2; [|done]. injection E2 as _ <-.
  step_ret E as [] s3 E3. injection E3 as <-. step_ret E as y s4 E4.
  unfold cderef in E4. step_gets E4. destruct (cheap _ !! q) in E4; [|done]. injection E4 as _ <-.
  step_ret E as [] s5 E5. injection E as _ <-. destruct (zlen _ =? 0) in E5; by injection E5 as <-.
Qed.

Section WithInet.
  Context {I : Inet}.

Lemma MakeConnection_keeps s h ip port a r s' p x :
  PInv s h -> MakeConnection ip port a s = Ret r s' -> cheap s !! p = Some x -> cheap s' !! p = Some x.
Proof.
  intros Hp E Hx. unfold MakeConnection in E. destruct (new_fd a <? 0); [by injection E as _ <-|].
  step_ret E as [] s1 E1. injection E1 as <-. destruct (inet_aton ip); [|by injection E as _ <-].
  destruct (connect_ret a =? -1); [by injection E as _ <-|].
  destruct (sockname a) as [[ad po]|]; [|by injection E as _ <-].
  step_ret E as str s2 E2. destruct (inet_ntoa ad); [|done]. injection E2 as _ <-.
  step_ret E as q s3 E3. injection E as _ <-. unfold cnew in E3. step_gets E3. step_ret E3 as [] s4 E4.
  injection E4 as <-. injection E3 as _ <-. cbn [cheap cnext].
  rewrite lookup_insert_ne; [done|]. intros Hn. pose proof (pi_next _ _ Hp p (ex_intro _ x Hx)). lia.
Qed.

Lemma GetIdleClientSocket_keeps s h ip port a r s' p x :
  PInv s h -> GetIdleClientSocket ip port a s = Ret r s' -> cheap s !! p = Some x -> cheap s' !! p = Some x.
Proof.
  intros Hp E Hx. unfold GetIdleClientSocket in E. step_ret E as o s1 E1.
  destruct o as [q|]; [injection E as _ <-; by rewrite (GetClientSocket_cheap _ _ _ _ _ E1)|].
  assert (s1 = s) as ->.
  { destruct (client_socket_idle_list_ s !! mkSocketAddr ip port) as [[|q l]|] eqn:El.
    - by destruct (pi_queue _ _ Hp _ _ El).
    - by rewrite (GetClientSocket_hit _ _ _ _ _ _ Hp El) in E1.
    - rewrite GetClientSocket_miss in E1 by done. by injection E1. }
  by eapply MakeConnection_keeps.
Qed.

(** The two back ends can be reached on the connections [p1] and [p2], take their
    requests, and the wait returns. *)
Record back_ends (an : BFAnswers) (c : Client) (seq a b : Z) (p1 p2 : N) (x1 x2 : Socket) (c2 c3 : Client) : Prop := {
  be_sensible1 : sensible c (bb1_connect an);
  be_first : exists c1, GetIdleClientSocket local_ip 30021 (bb1_connect an) c = Ret (Some p1) c1 /\
    sensible c1 (bb2_connect an) /\ cheap c1 !! p1 = Some x1 /\
    GetIdleClientSocket local_ip 30022 (bb2_connect an) c1 = Ret (Some p2) c2;
  be_second : cheap c2 !! p2 = Some x2;
  be_send1 : exists o1, TCPSend (Some (frame (three_words 12 seq a))) (bb1_send an) = Some (0, o1);
  be_send2 : exists o2, TCPSend (Some (frame (three_words 12 seq b))) (bb2_send an) = Some (0, o2);
  be_wait : exists z t e, 0 <= z /\
    TCPWaitToRead [p1; p2] [] [] 2 1000 (wait_ctl an) (wait_answers an) c2 = Ret (Some z, t, e) c3
}.

(** The connections to BB1 and BB2 have been taken from the front of their queues,
    when there was one, and put at the end; the other queues are the same. *)
Definition taken_and_back (c c' : Client) (p1 p2 : N) : Prop :=
  forall a, queue c' a =
    if decide (a = mkSocketAddr local_ip 30021) then tail (queue c a) ++ [p1]
    else if decide (a = mkSocketAddr local_ip 30022) then tail (queue c a) ++ [p2]
    else queue c a.

Lemma BF_turn sk an w s l seq a b ext rest tail p1 p2 x1 x2 c2 c3 v1 v2 z out :
  PInv (wclient w) [] -> back_ends an (wclient w) seq a b p1 p2 x1 x2 c2 c3 ->
  incoming w !! sk_ sk = Some s ->
  delivers s (frame (words (bswap32 <$> [l; seq; a; b]) ++ ext) ++ rest) tail ->
  Forall int32 [l; seq; a; b] -> zlen (words (bswap32 <$> [l; seq; a; b]) ++ ext) <= max_tcp_pkt_size ->
  sk_ sk <> sk_ x1 -> sk_ sk <> sk_ x2 -> sk_ x1 <> sk_ x2 -> reply_on w x1 v1 -> reply_on w x2 v2 -> int32 (v1 + v2) ->
  TCPSend (Some (frame (three_words 12 seq (v1 + v2)))) (bf_send an) = Some (z, out) ->
  exists w', TestBF_Process sk an w = Ret (Some (if z <? 0 then CloseDelete else GiveBack)) w' /\
    sends w' = sends w ++ [(sk_ x1, frame (three_words 12 seq a)); (sk_ x2, frame (three_words 12 seq b)); (sk_ sk, out)] /\
    PInv (wclient w') [] /\ taken_and_back (wclient w) (wclient w') p1 p2.
Proof.
  intros Hp [Hse1 (c1 & G1 & Hse2 & Hx1 & G2) Hx2 [o1 S1] [o2 S2] (zw & tr & er & Hzw & Wt)] Hin Hd Hall Hz
    Hn01 Hn02 Hn12 Hr1 Hr2 Hsum E. unfold TestBF_Process.
  assert (Hz' : 0 < zlen (words (bswap32 <$> [l; seq; a; b]) ++ ext)).
  { rewrite zlen_app, zlen_words. pose proof (zlen_nonneg ext). unfold zlen at 1. simpl. lia. }
  destruct (w_recv_frame (sk_ sk) [] w s (words (bswap32 <$> [l; seq; a; b]) ++ ext) rest tail Hin Hd (conj Hz' Hz))
    as (s' & Er & _).
  rewrite (bind_some _ _ _ _ _ Er). cbn [fst snd]. rewrite (proj2 (Z.ltb_ge 0 0)) by done.
  set (w0 := with_incoming _ w). repeat apply list.Forall_cons in Hall as [? Hall].
  replace (words (bswap32 <$> [l; seq; a; b]) ++ ext) with (three_words l seq a ++ le32_enc (bswap32 b) ++ ext)
    by (unfold three_words, words; cbn [fmap list_fmap map concat]; by rewrite <- !app_assoc).
  rewrite (bind_Ret _ _ w0 _ _ (three_members_words l seq a (le32_enc (bswap32 b) ++ ext) w0 ltac:(done) ltac:(done) ltac:(done))). cbn beta iota.
  assert (Lb : load32 (three_words l seq a ++ le32_enc (bswap32 b) ++ ext) 12 = Some (bswap32 b)).
  { apply (load32_app_enc (three_words l seq a)), bswap32_range. }
  rewrite (bind_of_option _ _ _ _ _ Lb), bswap32_involutive by done.
  destruct (GetIdleClientSocket_PInv (wclient w) [] local_ip 30021 _ Hp Hse1) as (r1' & c1' & G1' & Hp1 & A1 & Q1 & _).
  rewrite G1 in G1'. injection G1' as <- <-.
  rewrite (bind_Ret _ _ _ _ _ (on_client_eq _ w0 _ _ G1)).
  rewrite (bind_Ret _ _ _ _ _ (on_client_deref p1 x1 (with_wclient c1 w0) Hx1)).
  rewrite (bind_some _ _ _ _ _ (w_send_eq _ _ _ _ _ _ S1)). rewrite (proj2 (Z.ltb_ge 0 0)) by done.
  set (w1 := with_sends _ _).
  destruct (GetIdleClientSocket_PInv c1 [p1] local_ip 30022 _ Hp1 Hse2) as (r2' & c2' & G2' & Hp2 & A2 & Q2 & _).
  rewrite G2 in G2'. injection G2' as <- <-.
  rewrite (bind_Ret _ _ _ _ _ (on_client_eq _ w1 _ _ G2)).
  rewrite (bind_Ret _ _ _ _ _ (on_client_deref p2 x2 (with_wclient c2 w1) Hx2)).
  rewrite (bind_some _ _ _ _ _ (w_send_eq _ _ _ _ _ _ S2)). rewrite (proj2 (Z.ltb_ge 0 0)) by done.
  set (w2 := with_sends _ _).
  rewrite (bind_Ret _ _ _ _ _ (on_client_eq _ w2 _ _ Wt)). cbn [fst snd]. rewrite (proj2 (Z.ltb_ge zw 0)) by done.
  destruct (epoll_only_wait _ _ _ _ _ _ _ _ _ _ Wt) as [ep ->].
  destruct (A1 p1 eq_refl) as (_ & y1 & Hy1 & Ha1). rewrite Hx1 in Hy1. injection Hy1 as <-.
  destruct (A2 p2 eq_refl) as (_ & y2 & Hy2 & Ha2). rewrite Hx2 in Hy2. injection Hy2 as <-.
  edestruct (BF_gather_eq sk p1 p2 x1 x2) as (w' & Eg & Hs' & Hp' & Q'); [..|exists w'; split; [exact Eg|split; [|split; [exact Hp'|]]]].
  - change (PInv (with_cepoll ep c2) [p1; p2]). apply PInv_cepoll, (PInv_perm c2 [p2; p1]); [by constructor|exact Hp2].
  - exact (GetIdleClientSocket_keeps _ _ _ _ _ _ _ _ _ Hp1 G2 Hx1).
  - exact Hx2.
  - done.
  - by apply (reply_on_other w x1 sk).
  - by apply (reply_on_other w x2 sk).
  - done.
  - exact E.
  - rewrite Hs'. cbn. rewrite <- !app_assoc. apply TCPSend_all in S1, S2. by subst.
  - intros ad. rewrite Q'. change (queue (wclient (with_wclient (with_cepoll ep c2) w2)) ad) with (queue c2 ad).
    rewrite Q2, Q1, Ha1, Ha2. destruct (decide (ad = mkSocketAddr local_ip 30021)) as [->|Hn1].
    { repeat case_decide; try congruence. by rewrite ?app_nil_r. }
    destruct (decide (ad = mkSocketAddr local_ip 30022)) as [->|Hn2];
      repeat case_decide; try congruence; by rewrite ?app_nil_r.
Qed.

(** ** A client, BF and the back ends *)

(** What comes on a connection of a program. *)
Definition carries (w : Work) (x : Socket) (bytes : list byte) : Prop :=
  exists s tail, incoming w !! sk_ x = Some s /\ delivers s bytes tail.

Lemma carries_reply w x l q v :
  int32 v -> carries w x (frame (three_words l q v)) -> reply_on w x v.
Proof.
  intros Hv (s & tail & Hs & Hd). exists s, l, q, [], [], tail.
  rewrite !app_nil_r. split_and!; [done|done|done|].
  unfold three_words. rewrite zlen_words. unfold max_tcp_pkt_size, zlen. simpl. lia.
Qed.

Lemma BB1_answers_add1 sk an w seq num out :
  carries w sk (frame (three_words 12 seq num)) -> int32 seq -> add1_ok num ->
  TCPSend (Some (frame (three_words 12 seq (num + 1)))) an = Some (0, out) ->
  exists w', TestBB1_Process sk an w = Ret (Some GiveBack) w' /\ sends w' = sends w ++ [(sk_ sk, out)].
Proof.
  intros (s & tail & Hs & Hd) Hseq Hn E.
  destruct (BB1_turn sk an w s 12 seq num [] [] tail 0 out) as (s' & E' & _); try done.
  by eexists.
Qed.

(** The client on an answer of three members. *)
Lemma TestClient_eq seq a b cn an w p c1 x out q v :
  GetIdleClientSocket local_ip 20021 cn (wclient w) = Ret (Some p) c1 -> cheap c1 !! p = Some x ->
  TCPSend (Some (frame (words (bswap32 <$> [16; seq; a; b])))) an = Some (0, out) ->
  carries w x (frame (three_words 12 q v)) -> int32 q -> int32 v ->
  exists w', TestClient_main seq a b cn an w = Ret (Some (0, Some (q, v))) w' /\ sends w' = sends w ++ [(sk_ x, out)].
Proof.
  intros G Hx E (s & tail & Hs & Hd) Hq Hv. unfold TestClient_main.
  rewrite (bind_Ret _ _ _ _ _ (on_client_eq _ w _ _ G)).
  rewrite (bind_Ret _ _ _ _ _ (on_client_deref p x (with_wclient c1 w) Hx)).
  rewrite (bind_some _ _ _ _ _ (w_send_eq _ _ _ _ _ _ E)). rewrite (proj2 (Z.ltb_ge 0 0)) by done.
  set (w1 := with_sends _ _).
  destruct (w_recv_frame (sk_ x) [] w1 s (three_words 12 q v ++ []) [] tail) as (s' & Er & _).
  - done.
  - by rewrite !app_nil_r.
  - split; [apply zlen_three|]. rewrite app_nil_r. unfold three_words. rewrite zlen_words.
    unfold max_tcp_pkt_size, zlen. simpl. lia.
  - rewrite (bind_some _ _ _ _ _ Er). cbn [fst snd]. rewrite (proj2 (Z.ltb_ge 0 0)) by done.
    rewrite (bind_Ret _ _ _ _ _ (three_members_words 12 q v [] _ ltac:(by apply int32_small) Hq Hv)).
    by eexists.
Qed.

(** C18: end to end.  A client asks BF about [seq], [a] and [b]; the back ends can
    be reached and take their requests, and [TCPWaitToRead] returns success
    ([be_wait]; it does not wait for the sockets, see [TCPWaitToRead_indices]); BB1
    and BB2 are asked about [a] and [b]; what each program writes arrives at the
    other end, in any pieces.  Then all four turns end: the back ends answer
    [a + 1] and [b + 1]; BF answers the client their sum and keeps its connection,
    and each connection to a back end is at the end of the queue of its address
    again, so that no connection of BF is lost; the client reads [seq] and
    [a + b + 2]. *)
Theorem sum_answered seq a b c cn can cp c1 xc oc w an sk p1 p2 x1 x2 c2 c3 k1 y1 an1 r1 k2 y2 an2 r2 o :
  int32 seq -> add1_ok a -> add1_ok b -> int32 (a + 1 + (b + 1)) ->
  (* the client *)
  GetIdleClientSocket local_ip 20021 cn (wclient c) = Ret (Some cp) c1 -> cheap c1 !! cp = Some xc ->
  TCPSend (Some (frame (words (bswap32 <$> [16; seq; a; b])))) can = Some (0, oc) ->
  carries w sk oc -> carries c xc o ->
  (* BF *)
  PInv (wclient w) [] -> back_ends an (wclient w) seq a b p1 p2 x1 x2 c2 c3 ->
  sk_ sk <> sk_ x1 -> sk_ sk <> sk_ x2 -> sk_ x1 <> sk_ x2 ->
  TCPSend (Some (frame (three_words 12 seq (a + 1 + (b + 1))))) (bf_send an) = Some (0, o) ->
  (* the back ends *)
  carries k1 y1 (frame (three_words 12 seq a)) -> carries w x1 r1 ->
  TCPSend (Some (frame (three_words 12 seq (a + 1)))) an1 = Some (0, r1) ->
  carries k2 y2 (frame (three_words 12 seq b)) -> carries w x2 r2 ->
  TCPSend (Some (frame (three_words 12 seq (b + 1)))) an2 = Some (0, r2) ->
  (exists k1', TestBB1_Process y1 an1 k1 = Ret (Some GiveBack) k1' /\ sends k1' = sends k1 ++ [(sk_ y1, r1)]) /\
  (exists k2', TestBB2_Process y2 an2 k2 = Ret (Some GiveBack) k2' /\ sends k2' = sends k2 ++ [(sk_ y2, r2)]) /\
  (exists w', TestBF_Process sk an w = Ret (Some GiveBack) w' /\ PInv (wclient w') [] /\
     taken_and_back (wclient w) (wclient w') p1 p2 /\
     sends w' = sends w ++ [(sk_ x1, frame (three_words 12 seq a)); (sk_ x2, frame (three_words 12 seq b)); (sk_ sk, o)]) /\
  (exists c', TestClient_main seq a b cn can c = Ret (Some (0, Some (seq, a + b + 2))) c' /\
     sends c' = sends c ++ [(sk_ xc, oc)]).
Proof.
  intros Hseq Ha Hb Hsum Gc Hxc Ec (s & tail & Hs & Hd) Hco Hp Hbe Hn1 Hn2 Hn3 Eo Hk1 Hr1 E1 Hk2 Hr2 E2.
  assert (Hadd : forall num, add1_ok num -> int32 (num + 1)).
  { intros num [[H1 H2] H3]. unfold int32, int_min, int_max in *. lia. }
  split_and!; [by eapply BB1_answers_add1|by eapply BB1_answers_add1| |].
  - apply TCPSend_all in E1, E2, Ec. subst r1 r2 oc.
    destruct (BF_turn sk an w s 16 seq a b [] [] tail p1 p2 x1 x2 c2 c3 (a + 1) (b + 1) 0 o) as (w' & E & Hs' & Hp' & Hq');
      try done.
    + destruct Ha, Hb. by repeat (apply list.Forall_cons; split; [first [by apply int32_small|done]|]).
    + eapply carries_reply; [by apply Hadd|exact Hr1].
    + eapply carries_reply; [by apply Hadd|exact Hr2].
    + by exists w'.
  - replace (a + b + 2) with (a + 1 + (b + 1)) by lia. apply TCPSend_all in Eo. subst o.
    by eapply TestClient_eq.
Qed.

(** ** The connections of a turn of BF *)

(** Steps of a turn that leave the client as it is. *)
Definition same_client {A} (m : M Work A) : Prop :=
  forall w a w', m w = Ret a w' -> wclient w' = wclient w.

Lemma same_recv fd buf : same_client (w_recv fd buf).
Proof.
  intros w o w' E. unfold w_recv, w_recv_by in E. step_gets E.
  destruct (TCPRecv _ _) as [[[z b] s]|]; [|by injection E as _ <-].
  step_ret E as [] w1 E1. injection E1 as <-. by injection E as _ <-.
Qed.

Lemma same_send fd buf an : same_client (w_send fd buf an).
Proof.
  intros w o w' E. unfold w_send in E. destruct (TCPSend _ _) as [[z out]|]; [|by injection E as _ <-].
  step_gets E. step_ret E as [] w1 E1. injection E1 as <-. by injection E as _ <-.
Qed.

Lemma same_of_option {A} h (o : option A) : same_client (of_option h o).
Proof. intros w a w' E. unfold of_option in E. destruct o; [by injection E as _ <-|done]. Qed.

Lemma same_int_op z : same_client (int_op z).
Proof. intros w a w' E. unfold int_op in E. destruct (in_int z); [by injection E as _ <-|done]. Qed.

(** A step of the kind above, in an equation on a turn; a step of the client. *)
Tactic Notation "same_step" hyp(E) hyp(H) "as" simple_intropattern(a) ident(w) :=
  let E0 := fresh in
  step_ret E as a w E0;
  first [apply same_recv in E0|apply same_send in E0|apply same_of_option in E0|apply same_int_op in E0];
  rewrite <- E0 in H; clear E0.
Tactic Notation "client_step" hyp(E) "as" simple_intropattern(a) ident(w) ident(E0) :=
  step_ret E as a w E0; apply on_client_inv in E0 as (E0 & _ & _).

Lemma deref_same p c x c' : cderef p c = Ret x c' -> c' = c.
Proof. intros E. unfold cderef in E. step_gets E. destruct (cheap c !! p); [by injection E as _ <-|done]. Qed.

Lemma destroy_both_PInv p1 p2 w w' :
  PInv (wclient w) [p1; p2] -> destroy_both p1 p2 w = Ret tt w' -> PInv (wclient w') [].
Proof.
  intros H E. unfold destroy_both in E. client_step E as [] w1 E1. apply on_client_inv in E as (E & _ & _).
  eapply c_destroy_PInv; [|exact E]. by eapply c_destroy_PInv.
Qed.

Lemma InsertClientSocket_held p h s z s' :
  PInv s (p :: h) -> InsertClientSocket p s = Ret z s' -> PInv s' h.
Proof.
  intros H E. destruct (PInv_held_live _ _ _ H) as [x Hx].
  destruct (InsertClientSocket_PInv _ _ _ x H Hx) as (s1 & E1 & H1 & _). rewrite E in E1. by injection E1 as _ ->.
Qed.

Lemma BF_gather_PInv sk p1 p2 buf seq an w f w' :
  PInv (wclient w) [p1; p2] -> BF_gather sk p1 p2 buf seq an w = Ret (Some f) w' -> PInv (wclient w') [].
Proof.
  intros H E. unfold BF_gather in E.
  client_step E as x1 w1 E1. apply deref_same in E1. rewrite <- E1 in H.
  same_step E H as o1 w2. destruct o1 as [r1|]; [|done].
  destruct (r1.1 <? 0).
  { step_ret E as [] w3 E3. injection E as _ <-. by eapply destroy_both_PInv. }
  same_step E H as a2 w3. client_step E as x2 w4 E4. apply deref_same in E4. rewrite <- E4 in H.
  same_step E H as o2 w5. destruct o2 as [r2|]; [|done].
  destruct (r2.1 <? 0).
  { step_ret E as [] w6 E6. injection E as _ <-. by eapply destroy_both_PInv. }
  same_step E H as b2 w6. client_step E as z1 w7 E7. apply (InsertClientSocket_held _ _ _ _ _ H) in E7 as H7.
  client_step E as z2 w8 E8. apply (InsertClientSocket_held _ _ _ _ _ H7) in E8 as H8.
  same_step E H8 as sum w9. same_step E H8 as o3 w10. destruct o3 as [z|]; [|done].
  by destruct (z <? 0); injection E as _ <-.
Qed.

Lemma w_send_inv fd buf an w z w' :
  w_send fd buf an w = Ret (Some z) w' -> exists out, TCPSend (Some buf) an = Some (z, out).
Proof.
  intros E. unfold w_send in E. destruct (TCPSend _ _) as [[z' out]|]; [|done].
  step_gets E. step_ret E as [] w1 E1. injection E as -> _. by exists out.
Qed.

Lemma held_not_queued s p h a : PInv s (p :: h) -> p ∉ queue s a.
Proof.
  intros H Hp. unfold queue in Hp. destruct (client_socket_idle_list_ s !! a) as [l|] eqn:E; [|by apply elem_of_nil in Hp].
  pose proof (pi_once _ _ H p) as Ho. pose proof (occ_values_In p _ _ _ E) as Hv. apply occ_pos in Hp.
  unfold spots in Ho. simpl in Ho. rewrite decide_True in Ho by done. simpl in Hp. lia.
Qed.

(** C6: whatever the system answers, every connection to a back end that exists
    after a turn of BF is in the queue of its address (the turn has put it back, or
    has closed and deleted it, so that it does not exist), with one exception: when
    BB2 cannot be connected, or does not take its request, the connection to BB1,
    on which a request is under way, is lost: it is open and in no queue of the
    pool, and BF gives the connection of its client back without an answer. *)
Theorem bf_turn_connections sk an w f w' :
  PInv (wclient w) [] -> sensible (wclient w) (bb1_connect an) ->
  (forall o c1, GetIdleClientSocket local_ip 30021 (bb1_connect an) (wclient w) = Ret o c1 -> sensible c1 (bb2_connect an)) ->
  TestBF_Process sk an w = Ret (Some f) w' ->
  (PInv (wclient w') [] /\ forall p x, cheap (wclient w') !! p = Some x -> p ∈ queue (wclient w') (address x)) \/
  (f = GiveBack /\ exists p x, PInv (wclient w') [p] /\ cheap (wclient w') !! p = Some x /\
     (forall a, p ∉ queue (wclient w') a) /\
     ((exists c1, GetIdleClientSocket local_ip 30022 (bb2_connect an) c1 = Ret None (wclient w')) \/
      (exists buf z out, TCPSend (Some buf) (bb2_send an) = Some (z, out) /\ z < 0))).
Proof.
  intros H Hs1 Hs2 E. assert (Hfin : PInv (wclient w') [] -> PInv (wclient w') [] /\
    forall p x, cheap (wclient w') !! p = Some x -> p ∈ queue (wclient w') (address x))
    by (intros Hp; split; [done|intros p x; by apply PInv_all_queued]).
  unfold TestBF_Process in E. pose proof (conj H (conj Hs1 Hs2)) as H0. clear H Hs1 Hs2.
  same_step E H0 as o0 w0. destruct o0 as [r|]; [|done].
  destruct (r.1 <? 0); [injection E as _ <-; left; apply Hfin, H0|].
  same_step E H0 as lsa w1. destruct lsa as [[l seq] a]. same_step E H0 as b w2.
  destruct H0 as (H & Hs1 & Hs2).
  destruct (GetIdleClientSocket_PInv _ _ local_ip 30021 _ H Hs1) as (c1' & s1 & G1 & Hp1 & _).
  client_step E as c1 w3 G1'. rewrite G1 in G1'. injection G1' as <- ->.
  destruct c1' as [p1|]; [|injection E as _ <-; left; by apply Hfin].
  pose proof (conj Hp1 (Hs2 _ _ G1)) as H1. clear Hs2 Hp1.
  client_step E as x1 w4 E4. apply deref_same in E4. rewrite <- E4 in H1. clear E4.
  same_step E H1 as o1 w5. destruct o1 as [z1|]; [|done]. destruct H1 as [H1 Hs2].
  destruct (z1 <? 0).
  { step_ret E as [] w6 E6. apply on_client_inv in E6 as (E6 & _ & _). injection E as _ <-. left.
    apply Hfin. exact (c_destroy_PInv _ [] p1 _ H1 E6). }
  destruct (GetIdleClientSocket_PInv _ _ local_ip 30022 _ H1 Hs2) as (c2' & s2 & G2 & H2 & _).
  client_step E as c2 w6 G2'. rewrite G2 in G2'. injection G2' as <- ->.
  destruct c2' as [p2|].
  2: { injection E as <- <-. right. split; [done|]. change (PInv (wclient w6) [p1]) in H2. destruct (PInv_held_live _ _ _ H2) as [x Hx].
       exists p1, x. split_and!; [done|done|exact (fun a => held_not_queued _ _ _ a H2)|left; by eexists]. }
  client_step E as x2 w7 E7. apply deref_same in E7. rewrite <- E7 in H2. clear E7.
  step_ret E as o2 w8 E8. apply same_send in E8 as E8'. rewrite <- E8' in H2.
  destruct o2 as [z2|]; [|done]. destruct (Z.ltb_spec z2 0) as [Hz|Hz].
  { step_ret E as [] w9 E9. apply on_client_inv in E9 as (E9 & _ & _). injection E as <- <-. right. split; [done|].
    pose proof (c_destroy_PInv _ [p1] p2 _ H2 E9) as H9.
    destruct (PInv_held_live _ _ _ H9) as [x Hx]. exists p1, x.
    split_and!; [done|done|exact (fun a => held_not_queued _ _ _ a H9)|right].
    apply w_send_inv in E8 as [out E8]. by do 3 eexists. }
  client_step E as t w9 E9. destruct (epoll_only_wait _ _ _ _ _ _ _ _ _ _ E9) as [ep Hep].
  assert (H9 : PInv (wclient w9) [p1; p2]).
  { rewrite Hep. apply PInv_cepoll, (PInv_perm _ [p2; p1]); [by constructor|exact H2]. }
  left. apply Hfin. clear Hfin. destruct t.1.1 as [z|]; [|done]. destruct (z <? 0).
  { step_ret E as [] w10 E10. injection E as _ <-. by eapply destroy_both_PInv. }
  by eapply BF_gather_PInv.
Qed.

(** ** The end of a turn is a step of the threads *)

(** In a reachable state of the server a turn on the connection a worker holds can
    be ended, whatever it has come to, and that is a step of the system: the
    [Process] functions follow the protocol of [NfThreads]. *)
Lemma turn_is_step mf k w i p f sent :
  reachable mf k -> workers k !! w = Some (mkWorker i (WHold p)) -> sent = 1 \/ (mf /\ sent <= 0) ->
  exists s', finish i p sent f (srv k) = Ret tt s' /\
    step mf k (mkSystem s' (main k) (timeout k) (set_worker w WRun k)).
Proof.
  intros H Hw Hs. destruct (SInv_worker_returns k w _ (reachable_SInv mf k H) Hw) as [Hg Hd].
  destruct f; unfold finish.
  - destruct (Hg sent) as (r & s' & E). exists s'. cbn [pool_index_] in E. unfold bindM. rewrite E.
    split; [done|by eapply step_give].
  - destruct Hd as ([] & s' & E). exists s'. split; [done|by eapply step_destroy].
Qed.

End WithInet.
