(* ===== verification/NfMulti.v ===== *)
(** * The client of three formats: [all-sync/test_multi_pool_client.cc]

    [main] goes round for ever.  One turn sends a packet with a length to the
    first server, a line to the second and a datagram to the third of
    [test_multi_pool_server.cc], and reads each answer; any error ends the
    program.  [client1] and [client2] are two pools; the sequence number is
    [static].  Waiting for a key ([getchar]) is left out. *)

From S2P Require Import Prelude Wire NfServer NfThreads NfClient NfPool NfMessages NfPrograms NfExchange.

Record Multi := mkMulti { mseq : Z; part1 : Work; part2 : Work; udp_fds : list Z }.

Definition on_part1 {A} (m : M Work A) : M Multi A := fun s =>
  match m (part1 s) with
  | Ret a w => Ret a (mkMulti (mseq s) w (part2 s) (udp_fds s))
  | Halt h w => Halt h (mkMulti (mseq s) w (part2 s) (udp_fds s))
  end.
Definition on_part2 {A} (m : M Work A) : M Multi A := fun s =>
  match m (part2 s) with
  | Ret a w => Ret a (mkMulti (mseq s) (part1 s) w (udp_fds s))
  | Halt h w => Halt h (mkMulti (mseq s) (part1 s) w (udp_fds s))
  end.

(** [seq++]. *)
Definition seq_inc : M Multi Z :=
  let! n := gets mseq in
  let! n' := int_op (n + 1) in
  modify (fun s => mkMulti n' (part1 s) (part2 s) (udp_fds s)) ;;! ret n.

(** How a part of the turn ends: [main] returns a code, or it goes on. *)
Inductive Part (A : Type) := Returns (code : Z) | GoesOn (a : A).
Arguments Returns {A} code.
Arguments GoesOn {A} a.

Section Inet.
  Context {I : Inet}.

(** *** A packet with a length *)

Definition format1 (seq num : Z) (cn : ConnectAnswers) (answers : list SendAnswer) :
    M Work (option (Part (Z * Z * list byte))) :=
  let! c := on_client (GetIdleClientSocket local_ip 20031 cn) in
  match c with
  | None => result (Returns (-1))
  | Some sk =>
      let! x := on_client (cderef sk) in
      let? z := w_send (sk_ x) (frame (three_words 12 seq num)) answers in
      if z <? 0 then result (Returns (-2))
      else
        let? r := w_recv (sk_ x) [] in
        if r.1 <? 0 then result (Returns (-2))
        else
          let! rsp := three_members r.2 in
          on_client (InsertClientSocket sk) ;;!
          result (GoesOn (rsp.1.2, rsp.2, r.2))
  end.

(** *** A line *)

Definition cmd_line : list byte := Eval cbv in String.list_byte_of_string "Hello World!" ++ [x0a].

(** The line that is shown, whether it is reported as corrupted, and the buffer. *)
Definition format2 (buf : list byte) (cn : ConnectAnswers) (answers : list SendAnswer) :
    M Work (option (Part (list byte * bool * list byte))) :=
  let! c := on_client (GetIdleClientSocket local_ip 20032 cn) in
  match c with
  | None => result (Returns (-1))
  | Some sk =>
      let! x := on_client (cderef sk) in
      let? z := w_send (sk_ x) cmd_line answers in
      if z <? 0 then result (Returns (-2))
      else
        let? r := w_recv_by (TCPRecv_Line buf) (sk_ x) in
        if r.1 <? 0 then result (Returns (-2))
        else
          let! first := of_option HUndefined (r.2 !! 0%nat) in
          let i := find_byte newline r.2 in
          let found := (i <? length r.2)%nat in
          let tmp := if found then take i r.2 ++ x00 :: drop (S i) r.2 else r.2 in
          let rspline := if found then c_string tmp else [] in
          let corrupted := negb (Nat.eqb i (length r.2)) in
          if negb corrupted && (zlen rspline =? 0) then result (Returns (-2))
          else
            on_client (InsertClientSocket sk) ;;!
            result (GoesOn (rspline, corrupted, tmp))
  end.

(** *** A datagram *)

Definition opened (fd : Z) : M Multi unit :=
  modify (fun s => mkMulti (mseq s) (part1 s) (part2 s) (fd :: udp_fds s)).
Definition closed (fd : Z) : M Multi unit :=
  modify (fun s => mkMulti (mseq s) (part1 s) (part2 s) (remove_all fd (udp_fds s))).

(** What the system answers: the new descriptor, [sendto], [recvfrom]. *)
Definition format3 (fd sendto_ret : Z) (answer : option (list byte * Z * Z)) : M Multi (Part (Z * Z)) :=
  let udp_sk := MakeUDPSocket fd in
  (if udp_sk <? 0 then ret tt else opened udp_sk) ;;!
  if UDPSend local_ip sendto_ret <? 0 then closed udp_sk ;;! ret (Returns (-2))
  else
    let! r := of_option HUndefined (UDPRecv answer) in
    match r.2 with
    | None => closed udp_sk ;;! ret (Returns (-2))
    | Some (buf, from_ip, from_port) =>
        let! seq := of_option HUndefined (load32 buf 4) in
        let! num2 := of_option HUndefined (load32 buf 8) in
        ret (GoesOn (bswap32 seq, bswap32 num2))
    end.

(** *** The turn *)

Record MultiAnswers := mkMultiAnswers {
  m_connect1 : ConnectAnswers; m_send1 : list SendAnswer;
  m_connect2 : ConnectAnswers; m_send2 : list SendAnswer;
  m_udp_fd : Z; m_sendto : Z; m_recvfrom : option (list byte * Z * Z)
}.

(** The two numbers of a request. *)
Definition two_numbers : M Multi (Z * Z) :=
  let! seq := seq_inc in
  let! n := seq_inc in
  let! num := int_op (-1 * n) in ret (seq, num).

(** What is shown: the two numbers of the first answer, the line, the two numbers
    of the third. *)
Definition MultiClient_turn (an : MultiAnswers) :
    M Multi (option (Part ((Z * Z) * (list byte * bool) * (Z * Z)))) :=
  let! q1 := two_numbers in
  let! r1 := on_part1 (format1 q1.1 q1.2 (m_connect1 an) (m_send1 an)) in
  match r1 with
  | None => ret None
  | Some (Returns code) => ret (Some (Returns code))
  | Some (GoesOn (seq1, num1, buf)) =>
      let! r2 := on_part2 (format2 buf (m_connect2 an) (m_send2 an)) in
      match r2 with
      | None => ret None
      | Some (Returns code) => ret (Some (Returns code))
      | Some (GoesOn (line, corrupted, buf)) =>
          let! q3 := two_numbers in
          let! r3 := format3 (m_udp_fd an) (m_sendto an) (m_recvfrom an) in
          match r3 with
          | Returns code => ret (Some (Returns code))
          | GoesOn rsp3 => ret (Some (GoesOn ((seq1, num1), (line, corrupted), rsp3)))
          end
      end
  end.

(** ** One part at a time *)

Lemma two_numbers_eq s :
  0 <= mseq s -> mseq s + 2 <= int_max ->
  two_numbers s = Ret (mseq s, - (mseq s + 1)) (mkMulti (mseq s + 2) (part1 s) (part2 s) (udp_fds s)).
Proof.
  intros H0 H. unfold two_numbers, seq_inc, int_op, bindM, gets, modify, ret.
  unfold int_max in H. rewrite (proj2 (in_int_spec (mseq s + 1))) by (unfold int_min, int_max; lia). cbn [mseq].
  rewrite (proj2 (in_int_spec (mseq s + 1 + 1))) by (unfold int_min, int_max; lia).
  rewrite (proj2 (in_int_spec (-1 * (mseq s + 1)))) by (unfold int_min, int_max; lia).
  replace (mseq s + 1 + 1) with (mseq s + 2) by lia. by replace (-1 * (mseq s + 1)) with (- (mseq s + 1)) by lia.
Qed.

(** The connection that is used, at the start of a part. *)
Definition reaches (w : Work) (port : Z) (cn : ConnectAnswers) (p : N) (x : Socket) (c1 : Client) : Prop :=
  PInv (wclient w) [] /\ sensible (wclient w) cn /\
  GetIdleClientSocket local_ip port cn (wclient w) = Ret (Some p) c1 /\ cheap c1 !! p = Some x.

Lemma reaches_PInv w port cn p x c1 : reaches w port cn p x c1 -> PInv c1 [p].
Proof.
  intros (Hp & Hs & G & _). destruct (GetIdleClientSocket_PInv _ [] local_ip port cn Hp Hs) as (r & c & G' & Hp' & _).
  rewrite G in G'. by injection G' as <- <-.
Qed.

(** The connection has been taken from the front of its queue, when there was one,
    and put at the end; the other queues are the same. *)
Definition used_once (port : Z) (p : N) (c c' : Client) : Prop :=
  forall a, queue c' a =
    if decide (a = mkSocketAddr local_ip port) then tail (queue c a) ++ [p] else queue c a.

(** Giving back the connection that was reached. *)
Lemma reaches_back w port cn p x c1 (s : Client) :
  reaches w port cn p x c1 -> s = c1 ->
  exists c2, InsertClientSocket p s = Ret 0 c2 /\ PInv c2 [] /\ used_once port p (wclient w) c2.
Proof.
  intros Hr ->. pose proof (reaches_PInv _ _ _ _ _ _ Hr) as Hp1. destruct Hr as (Hp & Hs & G & Hx).
  destruct (GetIdleClientSocket_PInv _ [] local_ip port cn Hp Hs) as (r & c & G' & _ & A & Q & _).
  rewrite G in G'. injection G' as <- <-. destruct (A p eq_refl) as (_ & y & Hy & Ha).
  rewrite Hx in Hy. injection Hy as <-.
  destruct (InsertClientSocket_PInv c1 [] p x Hp1 Hx) as (c2 & E2 & Hp2 & Q2).
  exists c2. split_and!; [done|done|]. intros a. rewrite Q2, Q, Ha. by repeat case_decide; try congruence.
Qed.

(** Receiving an object of three members. *)
Lemma w_recv_three w x q v :
  carries w x (frame (three_words 12 q v)) ->
  exists s', w_recv (sk_ x) [] w = Ret (Some (0, three_words 12 q v ++ [])) (with_incoming (<[sk_ x := s']> (incoming w)) w).
Proof.
  intros (s & tail & Hs & Hd).
  destruct (w_recv_frame (sk_ x) [] w s (three_words 12 q v ++ []) [] tail) as (s' & Er & _); [done|by rewrite !app_nil_r| |].
  - split; [apply zlen_three|]. rewrite app_nil_r. unfold three_words. rewrite zlen_words.
    unfold max_tcp_pkt_size, zlen. simpl. lia.
  - by exists s'.
Qed.

Lemma format1_eq w cn answers seq num p x c1 out q v :
  reaches w 20031 cn p x c1 -> TCPSend (Some (frame (three_words 12 seq num))) answers = Some (0, out) ->
  carries w x (frame (three_words 12 q v)) -> int32 q -> int32 v ->
  exists w', format1 seq num cn answers w = Ret (Some (GoesOn (q, v, three_words 12 q v))) w' /\
    sends w' = sends w ++ [(sk_ x, out)] /\ PInv (wclient w') [] /\ used_once 20031 p (wclient w) (wclient w').
Proof.
  intros Hr E Hc Hq Hv. pose proof Hr as Hr0.
  destruct Hr as (_ & _ & G & Hx). unfold format1.
  rewrite (bind_Ret _ _ _ _ _ (on_client_eq _ w _ _ G)).
  rewrite (bind_Ret _ _ _ _ _ (on_client_deref p x (with_wclient c1 w) Hx)).
  rewrite (bind_some _ _ _ _ _ (w_send_eq _ _ _ _ _ _ E)), (proj2 (Z.ltb_ge 0 0)) by done.
  set (w1 := with_sends _ _). destruct (w_recv_three w1 x q v Hc) as [s' Er].
  rewrite (bind_some _ _ _ _ _ Er). cbn [fst snd]. rewrite (proj2 (Z.ltb_ge 0 0)) by done.
  set (w2 := with_incoming _ _).
  rewrite (bind_Ret _ _ w2 _ _ (three_members_words 12 q v [] _ ltac:(by apply int32_small) Hq Hv)).
  destruct (reaches_back _ _ _ _ _ _ (wclient w2) Hr0 eq_refl) as (c3 & E3 & Hp3 & Q3).
  rewrite (bind_Ret _ _ _ _ _ (on_client_eq _ w2 _ _ E3)). rewrite app_nil_r. by eexists.
Qed.

(** A line that comes at once is shown whole, and reported as corrupted. *)
Lemma format2_eq w buf cn answers p x c1 out line more tail :
  reaches w 20032 cn p x c1 -> TCPSend (Some cmd_line) answers = Some (0, out) ->
  incoming w !! sk_ x = Some (Arrived (line ++ newline :: more) :: tail) ->
  (length (line ++ newline :: more) <= 1024)%nat -> newline ∉ line -> x00 ∉ line ->
  exists w', format2 buf cn answers w = Ret (Some (GoesOn (line, true, line ++ x00 :: more))) w' /\
    sends w' = sends w ++ [(sk_ x, out)] /\ PInv (wclient w') [] /\ used_once 20032 p (wclient w) (wclient w').
Proof.
  intros Hr E Hs Hlen Hn H0. pose proof Hr as Hr0.
  destruct Hr as (_ & _ & G & Hx). unfold format2.
  rewrite (bind_Ret _ _ _ _ _ (on_client_eq _ w _ _ G)).
  rewrite (bind_Ret _ _ _ _ _ (on_client_deref p x (with_wclient c1 w) Hx)).
  rewrite (bind_some _ _ _ _ _ (w_send_eq _ _ _ _ _ _ E)), (proj2 (Z.ltb_ge 0 0)) by done.
  set (w1 := with_sends _ _).
  assert (Er : w_recv_by (TCPRecv_Line buf) (sk_ x) w1 =
    Ret (Some (0, line ++ newline :: more)) (with_incoming (<[sk_ x := tail]> (incoming w1)) w1)).
  { unfold w_recv_by. rewrite bind_gets. change (incoming w1) with (incoming w). rewrite Hs.
    change (default [] (Some ?y)) with y. unfold TCPRecv_Line.
    rewrite take_ge by done. by rewrite (proj2 (Nat.leb_le _ _) Hlen). }
  rewrite (bind_some _ _ _ _ _ Er). cbn [fst snd]. rewrite (proj2 (Z.ltb_ge 0 0)) by done. cbv zeta.
  set (w2 := with_incoming _ _).
  destruct ((line ++ newline :: more) !! 0%nat) as [b|] eqn:Eb; [|by destruct line].
  rewrite (bind_of_option _ _ b) by done. rewrite find_byte_app by done.
  rewrite (proj2 (Nat.ltb_lt _ _)), (proj2 (Nat.eqb_neq _ _)) by (rewrite length_app; simpl; lia).
  cbn [negb andb].
  destruct (reaches_back _ _ _ _ _ _ (wclient w2) Hr0 eq_refl) as (c3 & E3 & Hp3 & Q3).
  rewrite (bind_Ret _ _ _ _ _ (on_client_eq _ w2 _ _ E3)).
  rewrite take_app_length, c_string_stops by done.
  replace (drop (S (length line)) (line ++ newline :: more)) with more; [by eexists|].
  by rewrite cons_middle, app_assoc, drop_app_length' by (rewrite length_app; simpl; lia).
Qed.

(** The server of the first format on a whole request. *)
Lemma Processor1_turn sk an w seq num out :
  carries w sk (frame (three_words 12 seq num)) -> int32 seq -> add1_ok num ->
  TCPSend (Some (frame (three_words 12 seq (num + 1)))) an = Some (0, out) ->
  exists w', TestSimpleProcessor1_Process sk an w = Ret (Some GiveBack) w' /\ sends w' = sends w ++ [(sk_ sk, out)].
Proof.
  intros Hc Hseq Hn E. unfold TestSimpleProcessor1_Process. destruct (w_recv_three w sk seq num Hc) as [s' Er].
  rewrite (bind_some _ _ _ _ _ Er). cbn [fst snd]. rewrite (proj2 (Z.ltb_ge 0 0)) by done.
  set (w1 := with_incoming _ _).
  rewrite (bind_Ret _ _ w1 _ _ (three_members_words 12 seq num [] _ ltac:(by apply int32_small) Hseq (proj1 Hn))).
  cbn beta iota. rewrite (bind_Ret _ _ w1 _ _ (int_op_add1 num _ Hn)).
  rewrite (bind_some _ _ _ _ _ (w_send_eq _ _ _ _ _ w1 E)). by eexists.
Qed.

(** The server of datagrams on one with two numbers. *)
Lemma Processor3_answer sendto_ret u pkt l seq num rsp from z u' :
  udp_recv_list_ u = pkt :: l -> data_ pkt = words (bswap32 <$> [seq; num]) -> int32 seq -> add1_ok num ->
  TestSimpleProcessor3_Process sendto_ret u = Ret (Some (rsp, from, z)) u' ->
  rsp = three_words 12 seq (num + 1).
Proof.
  intros Hl Hd Hseq Hn E. unfold TestSimpleProcessor3_Process in E.
  assert (G : GetUDPPacket u = Ret (Some pkt) (with_udp_recv l u))
    by (unfold GetUDPPacket; rewrite bind_gets, Hl; reflexivity).
  rewrite (bind_Ret _ _ _ _ _ G) in E.
  destruct (load_member [seq; num] [] 0 seq Hseq eq_refl) as (a & Ea & Ba).
  destruct (load_member [seq; num] [] 1 num (proj1 Hn) eq_refl) as (b & Eb & Bb).
  rewrite app_nil_r in Ea, Eb. change (4 * 0)%nat with 0%nat in Ea. change (4 * 1)%nat with 4%nat in Eb.
  rewrite Hd, (bind_of_option _ _ _ _ _ Ea), (bind_of_option _ _ _ _ _ Eb), Ba, Bb in E.
  assert (Hi : forall s : Server, int_op (num + 1) s = Ret (num + 1) s).
  { intros s. destruct Hn as [[H1 H2] H3]. unfold int_op. rewrite (proj2 (in_int_spec _)); [done|].
    unfold int_min, int_max in *. lia. }
  rewrite (bind_Ret _ _ _ _ _ (Hi _)) in E. step_ret E as z' u1 E1. by injection E as <- _ _ _.
Qed.

(** The client's end of the datagrams: the descriptor stays open. *)
Lemma format3_eq fd sendto_ret seq num addr port ip s :
  0 <= fd -> 0 < sendto_ret -> is_Some (inet_aton local_ip) -> inet_ntoa addr = Some ip -> int32 seq -> int32 num ->
  format3 fd sendto_ret (Some (three_words 12 seq num, addr, port)) s =
    Ret (GoesOn (seq, num)) (mkMulti (mseq s) (part1 s) (part2 s) (fd :: udp_fds s)).
Proof.
  intros Hfd Hs [ad Had] Hip Hseq Hnum. unfold format3, MakeUDPSocket.
  rewrite (proj2 (Z.ltb_ge fd 0)) by lia. rewrite (proj2 (Z.ltb_ge fd 0)) by lia.
  unfold opened at 1. rewrite bind_modify. unfold UDPSend. rewrite Had, (proj2 (Z.leb_gt sendto_ret 0)) by lia.
  rewrite (proj2 (Z.ltb_ge 0 0)) by done.
  assert (E : UDPRecv (Some (three_words 12 seq num, addr, port)) = Some (0, Some (three_words 12 seq num, ip, bswap16 port))).
  { unfold UDPRecv, three_words, words. cbn [map concat le32_enc app]. by rewrite Hip. }
  rewrite (bind_of_option _ _ _ _ _ E). cbn [snd].
  destruct (load_member [12; seq; num] [] 1 seq Hseq eq_refl) as (a & Ea & Ba).
  destruct (load_member [12; seq; num] [] 2 num Hnum eq_refl) as (b & Eb & Bb).
  rewrite app_nil_r in Ea, Eb. change (4 * 1)%nat with 4%nat in Ea. change (4 * 2)%nat with 8%nat in Eb.
  unfold three_words. cbn [fmap list_fmap] in Ea, Eb.
  rewrite (bind_of_option _ _ _ _ _ Ea), (bind_of_option _ _ _ _ _ Eb). by rewrite Ba, Bb.
Qed.

(** What the three servers must do for a turn to succeed: they take what the
    client sends, answer, and their answers arrive, the line in one piece. *)
Record served (n : Z) (an : MultiAnswers) (s : Multi) (x1 x2 : Socket) : Prop := {
  sv_packet : exists k1 sk1 an1 o1 r1,
    TCPSend (Some (frame (three_words 12 n (- (n + 1))))) (m_send1 an) = Some (0, o1) /\ carries k1 sk1 o1 /\
    TCPSend (Some (frame (three_words 12 n (- n)))) an1 = Some (0, r1) /\ carries (part1 s) x1 r1 /\
    exists k1', TestSimpleProcessor1_Process sk1 an1 k1 = Ret (Some GiveBack) k1' /\ sends k1' = sends k1 ++ [(sk_ sk1, r1)];
  sv_line : exists k2 k2' sk2 an2 o2 r2 t2 t2',
    TCPSend (Some cmd_line) (m_send2 an) = Some (0, o2) /\ incoming k2 !! sk_ sk2 = Some (Arrived o2 :: t2) /\
    TestSimpleProcessor2_Process sk2 an2 k2 = Ret (Some GiveBack) k2' /\ sends k2' = sends k2 ++ [(sk_ sk2, r2)] /\
    TCPSend (Some (you_sent ++ cmd_line)) an2 = Some (0, r2) /\ incoming (part2 s) !! sk_ x2 = Some (Arrived r2 :: t2');
  sv_datagram : exists u u' pkt l from z ret_ rsp addr port ip,
    udp_recv_list_ u = pkt :: l /\ data_ pkt = words (bswap32 <$> [n + 2; - (n + 3)]) /\
    TestSimpleProcessor3_Process ret_ u = Ret (Some (rsp, from, z)) u' /\
    m_recvfrom an = Some (rsp, addr, port) /\ inet_ntoa addr = Some ip /\ is_Some (inet_aton local_ip) /\
    0 <= m_udp_fd an /\ 0 < m_sendto an
}.

End Inet.
