(* ===== verification/NfProgDemo.v ===== *)
(** * Runs of the programs of the thread-pool generation

    A client asks BF for 10 and 100 with the sequence number 1000, as [test_c.cc]
    does; the packets arrive in pieces.  And a turn of BF during which BB2 cannot
    be reached.  The theorems of [NfMessages] and [NfExchange] are applied to
    them. *)

From S2P Require Import Prelude Wire NfServer NfThreads NfClient NfPool NfMessages NfPrograms NfExchange NfMulti.

(** A C library that knows one address. *)
Instance local_inet : Inet := {|
  inet_ntoa a := if a =? 16777343 then Some local_ip else None;
  inet_aton s := if bool_decide (s = local_ip) then Some 16777343 else None
|}.

Definition in_two (l : list byte) : list RecvAnswer := [Arrived (take 6 l); Arrived (drop 6 l)].
Definition connect_as (fd : Z) : ConnectAnswers := mkConnectAnswers fd 0 (Some (16777343, 80)).
Definition no_connect (fd : Z) : ConnectAnswers := mkConnectAnswers fd (-1) None.
Definition ctl_all (_ : Z) : bool := true.

Definition request : list byte := frame (words (bswap32 <$> [16; 1000; 10; 100])).
Definition answer : list byte := frame (three_words 12 1000 112).

(** The system takes three bytes, then the rest. *)
Definition takes (n : nat) : list SendAnswer := [Sent 3; Sent n].

Definition client_work : Work := mkWork (new_Client ∅) {[5 := in_two answer]} [].
Definition bf_socket : Socket := new_Socket 10.
Definition bf_work : Work :=
  mkWork (new_Client ∅)
    {[10 := in_two request; 21 := in_two (frame (three_words 12 1000 11)); 22 := in_two (frame (three_words 12 1000 101))]} [].
Definition bb1_work : Work := mkWork (new_Client ∅) {[4 := in_two (frame (three_words 12 1000 10))]} [].
Definition bb2_work : Work := mkWork (new_Client ∅) {[4 := in_two (frame (three_words 12 1000 100))]} [].
Definition bb_socket : Socket := new_Socket 4.

Definition bf_answers : BFAnswers :=
  mkBFAnswers (connect_as 21) (takes 13) (connect_as 22) (takes 13) ctl_all [WaitEvents [(1, 0); (1, 1)]] (takes 13).

Definition c_one : Client := after (GetIdleClientSocket local_ip 30021 (connect_as 21)) (new_Client ∅).
Definition c_two : Client := after (GetIdleClientSocket local_ip 30022 (connect_as 22)) c_one.
Definition c_waited : Client := after (TCPWaitToRead [0%N; 1%N] [] [] 2 1000 ctl_all [WaitEvents [(1, 0); (1, 1)]]) c_two.
Definition c_client : Client := after (GetIdleClientSocket local_ip 20021 (connect_as 5)) (new_Client ∅).

Lemma new_pool : PInv (new_Client ∅) [].
Proof. exact (pool_reachable_PInv (mkPool (new_Client ∅) []) (pool_init ∅)). Qed.

Lemma sensible_connect_as c fd : bool_decide (fd ∉ cfds c) = true -> sensible c (connect_as fd).
Proof. intros H. split; [by apply bool_decide_eq_true in H|]. intros ad po [= <- <-]. by exists local_ip. Qed.

Lemma sensible_no_connect c fd : bool_decide (fd ∉ cfds c) = true -> sensible c (no_connect fd).
Proof. intros H. split; [by apply bool_decide_eq_true in H|]. by intros ad po. Qed.

Lemma delivers_in_two l : delivers (in_two l) l [].
Proof. exists [take 6 l; drop 6 l]. simpl. rewrite !app_nil_r. split; [done|apply take_drop]. Qed.

Lemma carries_in_two w x l : incoming w !! sk_ x = Some (in_two l) -> carries w x l.
Proof. intros H. exists (in_two l), []. split; [done|apply delivers_in_two]. Qed.

Lemma bf_back_ends : back_ends bf_answers (new_Client ∅) 1000 10 100 0 1
  (default bf_socket (cheap c_one !! 0%N)) (default bf_socket (cheap c_two !! 1%N)) c_two c_waited.
Proof.
  constructor.
  - apply sensible_connect_as. reflexivity.
  - exists c_one. split_and!; [vm_compute; reflexivity|apply sensible_connect_as; vm_compute; reflexivity|
      vm_compute; reflexivity|vm_compute; reflexivity].
  - vm_compute; reflexivity.
  - eexists. vm_compute; reflexivity.
  - eexists. vm_compute; reflexivity.
  - exists 0, [0; 1], []. split; [done|]. vm_compute; reflexivity.
Qed.

Lemma sent_packet_received_witness :
  let object := three_words 12 1000 112 in
  TCPSend (Some (frame object)) (takes 13) = Some (0, frame object) /\
  exists segs', TCPRecv [] (in_two (frame object) ++ [PeerClosed]) = Some (0, object, (Arrived <$> segs') ++ [PeerClosed]) /\
    concat segs' = [].
Proof.
  intros object. assert (E : TCPSend (Some (frame object)) (takes 13) = Some (0, frame object)) by (vm_compute; reflexivity).
  split; [exact E|].
  destruct (sent_packet_received object (takes 13) 0 (frame object)) as [H _]; [by vm_compute|exact E|].
  apply (H eq_refl [take 6 (frame object); drop 6 (frame object)] [] [] [PeerClosed]).
  vm_compute; reflexivity.
Defined.

Lemma sum_answered_witness :
  exists w' c', TestBF_Process bf_socket bf_answers bf_work = Ret (Some GiveBack) w' /\ length (sends w') = 3%nat /\
    TestClient_main 1000 10 100 (connect_as 5) (takes 17) client_work = Ret (Some (0, Some (1000, 112))) c'.
Proof.
  destruct (sum_answered 1000 10 100 client_work (connect_as 5) (takes 17) 0 c_client
    (default bf_socket (cheap c_client !! 0%N)) request bf_work bf_answers bf_socket 0 1
    (default bf_socket (cheap c_one !! 0%N)) (default bf_socket (cheap c_two !! 1%N)) c_two c_waited
    bb1_work bb_socket (takes 13) (frame (three_words 12 1000 11))
    bb2_work bb_socket (takes 13) (frame (three_words 12 1000 101)) answer)
    as (_ & _ & (w' & E1 & _ & _ & E2) & (c' & E3 & _)).
  1,4: by apply in_int_spec.
  1,2: split; [by apply in_int_spec|done].
  all: lazymatch goal with
       | |- carries _ _ _ => apply carries_in_two; vm_compute; reflexivity
       | |- PInv _ _ => apply new_pool
       | |- back_ends _ _ _ _ _ _ _ _ _ _ _ => apply bf_back_ends
       | |- _ = _ => vm_compute; reflexivity
       | |- _ <> _ => by vm_compute
       | |- _ => idtac
       end.
  - exists w', c'. split_and!; [exact E1|by rewrite E2|exact E3].
Defined.

(** BB2 refuses the connection: the one to BB1, object 0, is lost. *)
Definition bb2_down : BFAnswers :=
  mkBFAnswers (connect_as 21) (takes 13) (no_connect 22) (takes 13) ctl_all [] (takes 13).

Lemma bf_turn_connections_witness :
  exists w', TestBF_Process bf_socket bb2_down bf_work = Ret (Some GiveBack) w' /\
    client_socket_idle_list_ (wclient w') = ∅ /\ (sk_ <$> cheap (wclient w') !! 0%N) = Some 21 /\
    (PInv (wclient w') [] \/ exists p, PInv (wclient w') [p]).
Proof.
  set (w' := after (TestBF_Process bf_socket bb2_down) bf_work).
  assert (E : TestBF_Process bf_socket bb2_down bf_work = Ret (Some GiveBack) w') by (vm_compute; reflexivity).
  exists w'. split_and!; [exact E|vm_compute; reflexivity|vm_compute; reflexivity|].
  destruct (bf_turn_connections bf_socket bb2_down bf_work GiveBack w') as [[H _]|(_ & p & x & H & _)].
  - apply new_pool.
  - apply sensible_connect_as. reflexivity.
  - intros o c1 E1. assert (c1 = c_one) as -> by (vm_compute in E1; injection E1 as _ <-; vm_compute; reflexivity).
    apply sensible_no_connect. vm_compute; reflexivity.
  - exact E.
  - by left.
  - right. by exists p.
Defined.

(** ** The client of three formats *)

Definition whole_line : list byte := you_sent ++ cmd_line.
Definition multi_answers : MultiAnswers :=
  mkMultiAnswers (connect_as 5) (takes 13) (connect_as 6) (takes 10) 7 8
    (Some (three_words 12 9 (-9), 16777343, 80)).
Definition multi : Multi :=
  mkMulti 7 (mkWork (new_Client ∅) {[5 := in_two (frame (three_words 12 7 (-7)))]} [])
            (mkWork (new_Client ∅) {[6 := [Arrived whole_line]]} []) [].
Definition c_multi1 : Client := after (GetIdleClientSocket local_ip 20031 (connect_as 5)) (new_Client ∅).
Definition c_multi2 : Client := after (GetIdleClientSocket local_ip 20032 (connect_as 6)) (new_Client ∅).
Definition simple1_work : Work := mkWork (new_Client ∅) {[4 := in_two (frame (three_words 12 7 (-8)))]} [].
Definition line_work : Work := mkWork (new_Client ∅) {[4 := [Arrived cmd_line]]} [].
Definition udp_pkt : Packet :=
  mkPacket (mkSocketAddr local_ip 80) (mkSocketAddr local_ip 20033) (words (bswap32 <$> [9; -10])).
Definition udp_server : Server :=
  with_udp_recv [udp_pkt] (with_srv_udp (Some 0%N) (with_sheap {[0%N := bb_socket]} 1%N (new_Server 100 100 1000 None ∅))).

Lemma multi_served : served 7 multi_answers multi
  (default bf_socket (cheap c_multi1 !! 0%N)) (default bf_socket (cheap c_multi2 !! 0%N)).
Proof.
  constructor.
  - exists simple1_work, bb_socket, (takes 13), (frame (three_words 12 7 (-8))), (frame (three_words 12 7 (-7))).
    split_and!; [vm_compute; reflexivity|apply carries_in_two; vm_compute; reflexivity|vm_compute; reflexivity|
      apply carries_in_two; vm_compute; reflexivity|].
    eexists. split; vm_compute; reflexivity.
  - eexists line_work, _, bb_socket, (takes 20), cmd_line, whole_line, [], [].
    split_and!; try (vm_compute; reflexivity).
  - eexists udp_server, _, udp_pkt, [], _, _, 8, (three_words 12 9 (-9)), 16777343, 80, local_ip.
    split_and!; try (vm_compute; reflexivity); try done.
Qed.

