(* ===== verification/LeMem.v ===== *)
(** * The memory pool of the libevent generation: [libevent-based/src/memblock.cc]

    [MemPool] cuts blocks, whose sizes are multiples of a step, out of large
    chunks, and keeps the blocks given back in a list for each size.  A block is
    modelled with the bytes of its memory; its address is a chunk and an offset.

    The text does not compile as it stands.  It is read as follows:
    [max_block_size], [mp] and [reb_mb] are [max_block_size_], the pool and
    [ret_mb]; [free_item_pos_ = ;] sets 0; [front()] of a chunk stands for the
    address of its first byte; the static pointer [mem_pool_] is [inst_]; [curpos_] is the member [used_] of the header; the vector of chunks
    is the member [mem_pool_] of type [vector<vector<char>>] that the statements
    use (the header has a vector of pointers); [block_get_num_[multiple].begin()],
    which walks over the counters, is [block_get_num_.begin()]; the two-argument
    [list::insert] puts the new blocks in the list, which is empty there. *)

From S2P Require Import Prelude Wire.

(** [class MemBlock]; [start_] is a chunk and an offset in it, [mem_] the [len_]
    bytes from there on. *)
Record MemBlock := mkBlock {
  start_ : Z * Z;
  used_ : Z;
  len_ : Z;
  mem_ : list byte
}.

(** [class MemPool].  [mem_pool_] holds the [size()] of each chunk. *)
Record MemPool := mkPool {
  recycled_block_lists_ : list (list MemBlock);
  mem_pool_ : list Z;
  unorganized_byte_num_ : Z;
  free_item_pos_ : nat;
  free_start_pos_ : Z;
  block_get_num_ : list Z;
  max_block_size_ : Z;
  block_size_step_ : Z
}.

Definition with_recycled (r : list (list MemBlock)) (p : MemPool) : MemPool :=
  mkPool r (mem_pool_ p) (unorganized_byte_num_ p) (free_item_pos_ p) (free_start_pos_ p)
    (block_get_num_ p) (max_block_size_ p) (block_size_step_ p).
Definition with_counts (c : list Z) (p : MemPool) : MemPool :=
  mkPool (recycled_block_lists_ p) (mem_pool_ p) (unorganized_byte_num_ p) (free_item_pos_ p)
    (free_start_pos_ p) c (max_block_size_ p) (block_size_step_ p).
(** The next free byte, and how many are left. *)
Definition with_free (item : nat) (pos : Z) (left : Z) (p : MemPool) : MemPool :=
  mkPool (recycled_block_lists_ p) (mem_pool_ p) left item pos
    (block_get_num_ p) (max_block_size_ p) (block_size_step_ p).
Definition with_chunk (size added : Z) (p : MemPool) : MemPool :=
  mkPool (recycled_block_lists_ p) (mem_pool_ p ++ [size]) (unorganized_byte_num_ p + added)
    (free_item_pos_ p) (free_start_pos_ p) (block_get_num_ p ++ [0])
    (max_block_size_ p) (block_size_step_ p).

(** [MemPool()] and the two parameters [CreateMemPool] sets. *)
Definition new_MemPool (max_block_size block_size_step : Z) : MemPool :=
  mkPool [] [] 0 0 0 [] max_block_size block_size_step.

(** The smallest multiple of the step that is not less than [size], the way both
    functions compute it. *)
Definition round_to_step {S} (size step : Z) : M S Z :=
  if step =? 0 then stop HUndefined
  else
    let! r := int_op (Z.quot size step * step + step) in
    let! t := int_op (size + step) in
    if r =? t then int_op (r - step) else ret r.

(** The vector of a chunk is only reserved, so the [size()] of the new chunk
    is 0.  The function is one step: its second test, for another thread having
    enlarged the pool since the first, then never holds. *)
Definition EnlargeMemPool (size_to_add : Z) : M MemPool Z :=
  let! p := gets (fun p => p) in
  assert_ (unorganized_byte_num_ p =? 0) ;;!
  if size_to_add <=? 0 then ret (-1)
  else
    let! size_added := round_to_step size_to_add (block_size_step_ p) in
    modify (with_chunk 0 size_added) ;;! ret 0.

(** [CreateMemPool]: on the static instance, null at first. *)
Definition CreateMemPool (init_pool_size max_block_size block_size_step : Z) :
    M (option MemPool) Z := fun inst =>
  match inst with
  | Some p => Ret (-1) inst
  | None =>
      match EnlargeMemPool init_pool_size (new_MemPool max_block_size block_size_step) with
      | Ret z p => Ret z (Some p)
      | Halt h p => Halt h (Some p)
      end
  end.

Section Pool.
  (** What the memory at an address holds, for a number of bytes: the garbage of
      a new block. *)
  Context (raw : Z * Z -> Z -> list byte).

(** A new block at the next free byte of the current chunk; [front()] of a vector
    that is empty is undefined.  The source does not look at the room here: what
    it has compared with the size is the chunk before, when a new one is begun.
    The bytes behind the end of a chunk are not the pool's, so a block that would
    reach there has no memory of its own and the outcome is undefined. *)
Definition cut_block (len : Z) : M MemPool MemBlock :=
  let! p := gets (fun p => p) in
  let! size := of_option HUndefined (mem_pool_ p !! free_item_pos_ p) in
  if (size =? 0) || (size <? free_start_pos_ p + len) then stop HUndefined
  else
    let pos := (Z.of_nat (free_item_pos_ p), free_start_pos_ p) in
    modify (with_free (free_item_pos_ p) (free_start_pos_ p + len) (unorganized_byte_num_ p - len)) ;;!
    ret (mkBlock pos 0 len (raw pos len)).

(** [while (left_size > alloc_for_which * block_size_step_)]: the blocks cut from
    the rest of the chunk and what is left.  Each turn takes at least a byte when
    [unit] is positive, so [left] turns are enough. *)
Fixpoint cut_rest (fuel : nat) (left unit : Z) (acc : list MemBlock) : M MemPool (list MemBlock * Z) :=
  if left <=? unit then ret (acc, left)
  else match fuel with
       | O => stop HUndefined
       | S fuel' => let! b := cut_block unit in cut_rest fuel' (left - unit) unit (acc ++ [b])
       end.

(** [recycled_block_lists_[i].insert] and [push_back]. *)
Definition push_recycled (i : Z) (bs : list MemBlock) : M MemPool unit :=
  if i <? 0 then stop HUndefined
  else
    let! p := gets (fun p => p) in
    let! l := of_option HUndefined (recycled_block_lists_ p !! Z.to_nat i) in
    modify (with_recycled (<[Z.to_nat i := l ++ bs]> (recycled_block_lists_ p))).

(** The rest of the current chunk is made into blocks, and the next chunk becomes
    the current one. *)
Definition organize_rest (multiple : Z) (left_size : Z) : M MemPool unit :=
  let! p := gets (fun p => p) in
  let alloc_for_which := zlen (block_get_num_ p) in
  let step := block_size_step_ p in
  let! unit := int_op (alloc_for_which * step) in
  let! r := cut_rest (Z.to_nat left_size) left_size unit [] in
  push_recycled multiple r.1 ;;!
  (if r.2 =? 0 then ret tt
   else
     assert_ (Z.rem r.2 step =? 0) ;;!
     let! new_block := cut_block r.2 in
     let! q := gets (fun q => q) in
     assert_ (bool_decide (mem_pool_ q !! free_item_pos_ q = Some (free_start_pos_ q))) ;;!
     push_recycled (Z.quot r.2 step) [new_block]) ;;!
  modify (fun q => with_free (S (free_item_pos_ q)) 0 (unorganized_byte_num_ q) q).

(** The code and the block, null unless the code is 0. *)
Definition GetMemBlock (size : Z) : M MemPool (Z * option MemBlock) :=
  let! p := gets (fun p => p) in
  if (size <=? 0) || (max_block_size_ p <? size) then ret (-1, None)
  else
    let! real_size := round_to_step size (block_size_step_ p) in
    let multiple := Z.to_nat (Z.quot real_size (block_size_step_ p)) in
    let! c := of_option HUndefined (block_get_num_ p !! multiple) in
    modify (with_counts (<[multiple := c + 1]> (block_get_num_ p))) ;;!
    let! l := of_option HUndefined (recycled_block_lists_ p !! multiple) in
    match l with
    | [] =>
        let! chunk := of_option HUndefined (mem_pool_ p !! free_item_pos_ p) in
        let left_size := to_int (chunk - free_start_pos_ p) in
        if (left_size <? real_size) && Nat.eqb (S (free_item_pos_ p)) (length (mem_pool_ p))
        then ret (-2, None)
        else
          (if left_size <? real_size then organize_rest (Z.of_nat multiple) left_size else ret tt) ;;!
          let! ret_mb := cut_block real_size in
          ret (0, Some ret_mb)
    | ret_mb :: l' =>
        modify (fun q => with_recycled (<[multiple := l']> (recycled_block_lists_ q)) q) ;;!
        ret (0, Some ret_mb)
    end.

Definition set_used (n : Z) (b : MemBlock) : MemBlock := mkBlock (start_ b) n (len_ b) (mem_ b).

Definition ReturnMemBlock (mb : MemBlock) : M MemPool Z :=
  let! p := gets (fun p => p) in
  if block_size_step_ p =? 0 then stop HUndefined
  else
    let multiple := Z.quot (len_ mb) (block_size_step_ p) in
    push_recycled multiple [set_used 0 mb] ;;! ret 0.

(** ** Blocks are large enough and share no byte *)

Definition block_ok (n : Z) (b : MemBlock) : Prop :=
  n <= len_ b <= int_max /\ used_ b = 0 /\ zlen (mem_ b) = len_ b.

(** The addresses of the bytes of a block. *)
Definition bytes_of (b : MemBlock) : list (Z * Z) :=
  (fun i => ((start_ b).1, i)) <$> seqZ (start_ b).2 (len_ b).

Definition extent (l : list MemBlock) : list (Z * Z) := l ≫= bytes_of.

#[global] Instance extent_perm : Proper (Permutation ==> Permutation) extent.
Proof. intros l l' H. unfold extent. by rewrite H. Qed.

Definition idle_blocks (p : MemPool) : list MemBlock := recycled_block_lists_ p ≫= id.

(** The memory of a block is memory of its chunk. *)
Definition inside (p : MemPool) (b : MemBlock) : Prop :=
  exists size, mem_pool_ p !! Z.to_nat (start_ b).1 = Some size /\
    0 <= (start_ b).1 /\ 0 <= (start_ b).2 /\ (start_ b).2 + len_ b <= size.

(** An address that has been given to a block already. *)
Definition organized (p : MemPool) (a : Z * Z) : Prop :=
  a.1 < Z.of_nat (free_item_pos_ p) \/
  (a.1 = Z.of_nat (free_item_pos_ p) /\ a.2 < free_start_pos_ p).

(** The pool while its clients hold the blocks [live]. *)
Record pool_inv (p : MemPool) (live : list MemBlock) : Prop := mkPoolInv {
  pi_step : 0 < block_size_step_ p;
  pi_typed : forall i l b, recycled_block_lists_ p !! i = Some l -> b ∈ l ->
    block_ok (Z.of_nat i * block_size_step_ p) b;
  pi_apart : NoDup (extent (idle_blocks p ++ live));
  pi_old : forall a, a ∈ extent (idle_blocks p ++ live) -> organized p a;
  pi_pos : 0 <= free_start_pos_ p;
  pi_inside : forall b, b ∈ idle_blocks p ++ live -> inside p b
}.


Hypothesis raw_length : forall a n, 0 <= n -> zlen (raw a n) = n.

Lemma bind_insert {A} (r : list (list A)) i l l2 :
  r !! i = Some l -> (<[i := l2]> r ≫= id) ++ l ≡ₚ (r ≫= id) ++ l2.
Proof.
  intros Hi. rewrite insert_take_drop by (by eapply lookup_lt_Some).
  rewrite <- (take_drop_middle r i l Hi) at 3. rewrite !bind_app, !bind_cons.
  unfold id at 2 5. set (u := take i r ≫= id). set (v := drop (S i) r ≫= id).
  rewrite <- !app_assoc. apply Permutation_app_head.
  rewrite (Permutation_app_comm v l), (Permutation_app_comm v l2), !app_assoc.
  apply Permutation_app_tail, Permutation_app_comm.
Qed.

#[local] Instance pool_inv_proper p : Proper (Permutation ==> iff) (pool_inv p).
Proof.
  assert (H : forall l l', l ≡ₚ l' -> pool_inv p l -> pool_inv p l').
  { intros l l' Hl [H1 H2 H3 H4 H5 H6]. split; [done|done|by rewrite <- Hl| |done|].
    - intros a. rewrite <- Hl. apply H4.
    - intros b. rewrite <- Hl. apply H6. }
  intros l l' Hl. split; by apply H.
Qed.

(** What a client writes into its block does not matter. *)
Lemma pool_inv_same_place p b b' live :
  start_ b' = start_ b -> len_ b' = len_ b -> pool_inv p (b :: live) -> pool_inv p (b' :: live).
Proof.
  intros Hs Hl. assert (H : extent (idle_blocks p ++ b' :: live) = extent (idle_blocks p ++ b :: live)).
  { unfold extent. rewrite !bind_app, !bind_cons. unfold bytes_of. by rewrite Hs, Hl. }
  intros [H1 H2 H3 H4 H5 H6]. split; [done|done|by rewrite H|by rewrite H|done|].
  intros c [Hc|[->|Hc]%elem_of_cons]%elem_of_app.
  - apply H6, elem_of_app. by left.
  - unfold inside. rewrite Hs, Hl. apply (H6 b), elem_of_app. right. by left.
  - apply H6, elem_of_app. right. by right.
Qed.

(** Changing what is idle and what is live by a permutation, with the same free
    byte. *)
Lemma pool_inv_perm p q live live' :
  pool_inv p live ->
  idle_blocks q ++ live' ≡ₚ idle_blocks p ++ live ->
  free_item_pos_ q = free_item_pos_ p -> free_start_pos_ q = free_start_pos_ p ->
  block_size_step_ q = block_size_step_ p -> mem_pool_ q = mem_pool_ p ->
  (forall i l b, recycled_block_lists_ q !! i = Some l -> b ∈ l ->
     block_ok (Z.of_nat i * block_size_step_ p) b) ->
  pool_inv q live'.
Proof.
  intros [H1 H2 H3 H4 H5 H6] Hp Hi Hs Hst Hm Ht.
  split; [congruence|by rewrite Hst|by rewrite Hp| |congruence|].
  - intros a. rewrite Hp. unfold organized. rewrite Hi, Hs. apply H4.
  - intros b. rewrite Hp. unfold inside. rewrite Hm. apply H6.
Qed.

Lemma cut_block_inv live len p b p' :
  pool_inv p live -> 0 <= len <= int_max -> cut_block len p = Ret b p' ->
  pool_inv p' (b :: live) /\ block_ok len b /\
  p' = with_free (free_item_pos_ p) (free_start_pos_ p + len) (unorganized_byte_num_ p - len) p.
Proof.
  intros [H1 H2 H3 H4 H5 H6] Hlen. unfold cut_block, bindM, gets, of_option.
  destruct (mem_pool_ p !! free_item_pos_ p) as [size|] eqn:Hsize; [|done]. simpl.
  destruct (size =? 0); [done|]. simpl. destruct (Z.ltb_spec size (free_start_pos_ p + len)); [done|].
  unfold modify, ret. intros [= <- <-].
  set (b := mkBlock _ 0 len _).
  assert (Hb : extent (idle_blocks p ++ b :: live) ≡ₚ bytes_of b ++ extent (idle_blocks p ++ live))
    by (rewrite <- Permutation_middle; done).
  assert (Hnew : forall a, a ∈ bytes_of b ->
            a.1 = Z.of_nat (free_item_pos_ p) /\ free_start_pos_ p <= a.2 < free_start_pos_ p + len).
  { intros a (i & -> & Hi)%list_elem_of_fmap. apply elem_of_seqZ in Hi. done. }
  split_and!; [split| |done].
  - done.
  - intros i l b' Hl Hb'. by eapply H2.
  - change (idle_blocks _) with (idle_blocks p). rewrite Hb. apply list.NoDup_app. split_and!; [| |done].
    + unfold bytes_of. apply NoDup_fmap_2; [intros ?? [=]; done|]. apply NoDup_seqZ.
    + intros a Ha Ha'. apply Hnew in Ha. apply H4 in Ha'. unfold organized in Ha'. lia.
  - change (idle_blocks _) with (idle_blocks p). intros a. rewrite Hb, elem_of_app. unfold organized. simpl.
    intros [Ha|Ha]; [apply Hnew in Ha; lia|]. apply H4 in Ha. unfold organized in Ha. lia.
  - simpl. lia.
  - change (idle_blocks _) with (idle_blocks p). intros c.
    rewrite <- Permutation_middle. intros [->|Hc]%elem_of_cons; [|by apply H6].
    exists size. simpl. rewrite Nat2Z.id. split_and!; [done|lia|lia|lia].
  - split_and!; [simpl; lia|simpl; lia|done|]. simpl. apply raw_length. lia.
Qed.

Lemma cut_rest_inv live fuel unit left acc p r p' :
  pool_inv p (acc ++ live) -> 0 <= unit <= int_max -> Forall (block_ok unit) acc ->
  cut_rest fuel left unit acc p = Ret r p' ->
  pool_inv p' (r.1 ++ live) /\ Forall (block_ok unit) r.1 /\ block_size_step_ p' = block_size_step_ p /\
  r.2 <= left.
Proof.
  intros Hp Hu. revert left acc p Hp. induction fuel as [|fuel IH]; intros left acc p Hp Ha; simpl.
  - destruct (left <=? unit); [|done]. intros [= <- <-]. split_and!; try done; simpl; lia.
  - destruct (left <=? unit); [intros [= <- <-]; split_and!; try done; simpl; lia|]. intros E.
    step_ret E as b p1 E1.
    destruct (cut_block_inv _ _ _ _ _ Hp Hu E1) as (Hp1 & Hb & ->).
    assert (Hp2 : pool_inv (with_free (free_item_pos_ p) (free_start_pos_ p + unit)
              (unorganized_byte_num_ p - unit) p) ((acc ++ [b]) ++ live)).
    { rewrite <- app_assoc. simpl. by rewrite <- Permutation_middle. }
    destruct (IH (left - unit) _ _ Hp2) as (H1 & H2 & H3 & H4);
      [apply Forall_app; split; [done|by apply list.Forall_singleton]|exact E|].
    split_and!; [done|done|done|lia].
Qed.

Lemma push_recycled_inv live i bs p p' :
  pool_inv p (bs ++ live) -> Forall (block_ok (i * block_size_step_ p)) bs ->
  push_recycled i bs p = Ret tt p' ->
  pool_inv p' live /\ exists r, p' = with_recycled r p.
Proof.
  intros Hp Hbs. unfold push_recycled, bindM, gets, of_option. destruct (Z.ltb_spec i 0); [done|].
  destruct (recycled_block_lists_ p !! Z.to_nat i) as [l|] eqn:Hl; [|done]. intros [= <-].
  split; [|by eexists]. eapply pool_inv_perm; [exact Hp| |done|done|done|done|].
  - unfold idle_blocks. simpl. rewrite !app_assoc. apply Permutation_app_tail.
    pose proof (bind_insert (recycled_block_lists_ p) _ l (l ++ bs) Hl) as Hi.
    apply (Permutation_app_inv_r l). rewrite Hi.
    by rewrite <- app_assoc, (Permutation_app_comm bs l).
  - intros j l' b. simpl. intros [(<- & <- & _)|(_ & Hj)]%list_lookup_insert_Some Hb.
    + apply elem_of_app in Hb as [Hb|Hb]; [by eapply (pi_typed _ _ Hp)|].
      rewrite Z2Nat.id by done. eapply list.Forall_forall; [exact Hbs|done].
    + by eapply (pi_typed _ _ Hp).
Qed.

Lemma round_to_step_cases {S} size step (s : S) :
  (exists r, round_to_step size step s = Ret r s) \/ round_to_step size step s = Halt HUndefined s.
Proof.
  unfold round_to_step, int_op. destruct (step =? 0); [by right|].
  destruct (in_int (_ * _ + _)); [|by right]. unfold bindM, ret.
  destruct (in_int (size + step)); [|by right]. destruct (_ =? _); [|by left; eexists].
  destruct (in_int _); [by left; eexists|by right].
Qed.

Lemma round_to_step_ok {S} size step (s s' : S) r :
  0 < step -> 0 < size -> round_to_step size step s = Ret r s' ->
  s' = s /\ r mod step = 0 /\ size <= r < size + step /\ r <= int_max.
Proof.
  intros Hst Hsz. unfold round_to_step, int_op. destruct (Z.eqb_spec step 0); [lia|].
  rewrite Z.quot_div_nonneg by lia. pose proof (Z.div_mod size step ltac:(lia)) as Hd.
  pose proof (Z.mod_pos_bound size step Hst) as Hm. set (q := size / step) in *.
  destruct (in_int (q * step + step)) eqn:Hi1; [|done]. simpl. apply in_int_spec in Hi1.
  destruct (in_int (size + step)); [|done]. unfold bindM, ret. simpl.
  destruct (Z.eqb_spec (q * step + step) (size + step)) as [He|He].
  - destruct (in_int _); [|done]. intros [= <- <-].
    replace (q * step + step - step) with (q * step) by lia.
    rewrite Z.mod_mul by lia. split_and!; first [done|lia].
  - intros [= <- <-]. replace (q * step + step) with ((q + 1) * step) by lia.
    rewrite Z.mod_mul by lia. split_and!; [done|done|nia|nia|nia].
Qed.

Lemma pool_inv_next_chunk p live n :
  pool_inv p live -> pool_inv (with_free (S (free_item_pos_ p)) 0 n p) live.
Proof.
  intros [H1 H2 H3 H4 H5 H6]. split; try done. intros a Ha. specialize (H4 a Ha).
  unfold organized in *. simpl. lia.
Qed.

Lemma organize_rest_inv live m left p p' :
  pool_inv p live -> 0 <= m < zlen (block_get_num_ p) -> left <= int_max ->
  organize_rest m left p = Ret tt p' ->
  pool_inv p' live /\ block_size_step_ p' = block_size_step_ p.
Proof.
  intros Hp Hm Hleft E. unfold organize_rest in E. step_gets E.
  pose proof (pi_step _ _ Hp) as Hst. set (unit := zlen (block_get_num_ p) * block_size_step_ p) in *.
  step_ret E as u p0 E0. unfold int_op in E0.
  destruct (in_int unit) eqn:Hi; [|done]. injection E0 as <- <-. apply in_int_spec in Hi.
  step_ret E as r p1 E1.
  destruct (cut_rest_inv live _ unit left [] p r p1 Hp ltac:(unfold unit in *; nia) ltac:(by constructor) E1)
    as (Hp1 & Hr & Hst1 & Hrl).
  step_ret E as [] p2 E2.
  assert (Hr2 : Forall (block_ok (m * block_size_step_ p1)) r.1).
  { eapply list.Forall_impl; [exact Hr|]. intros b (Hb & Hb'). split; [|done].
    rewrite Hst1. unfold unit in Hb. nia. }
  destruct (push_recycled_inv live _ _ _ _ Hp1 Hr2 E2) as (Hp2 & rr & ->).
  step_ret E as [] p3 E3. injection E as <-.
  assert (pool_inv p3 live /\ block_size_step_ p3 = block_size_step_ p) as [Hp3 Hst3].
  { destruct (r.2 =? 0); [injection E3 as <-; done|].
    step_ret E3 as [] p4 E4.
    destruct (Z.eqb_spec (Z.rem r.2 (block_size_step_ p)) 0) as [Hrem|]; [|done]. injection E4 as <-.
    step_ret E3 as b p5 E5.
    step_gets E3.
    step_ret E3 as [] p6 E6. destruct (bool_decide _); [|done]. injection E6 as <-.
    destruct (Z.ltb_spec (Z.quot r.2 (block_size_step_ p)) 0) as [Hn|Hn];
      [unfold push_recycled in E3; by rewrite (proj2 (Z.ltb_lt _ _) Hn) in E3|].
    assert (Hr0 : r.2 = Z.quot r.2 (block_size_step_ p) * block_size_step_ p).
    { rewrite (Z.quot_rem' r.2 (block_size_step_ p)) at 1. rewrite Hrem. ring. }
    destruct (cut_block_inv live r.2 _ _ _ Hp2 ltac:(split; [rewrite Hr0; nia|lia]) E5) as (Hp5 & Hb & ->).
    rewrite Hr0, <- Hst1 in Hb at 1.
    destruct (push_recycled_inv live (Z.quot r.2 (block_size_step_ p)) [b] _ p3 Hp5) as (Hp6 & rr' & ->);
      [apply list.Forall_singleton; simpl; by rewrite Hst1 in *|exact E3|done]. }
  split; [by apply pool_inv_next_chunk|done].
Qed.

Lemma pool_inv_counts p live c : pool_inv p live -> pool_inv (with_counts c p) live.
Proof. intros [H1 H2 H3 H4 H5 H6]. by split. Qed.

(** Taking the first block of a list. *)
Lemma pop_recycled_inv p live i b l :
  pool_inv p live -> recycled_block_lists_ p !! i = Some (b :: l) ->
  pool_inv (with_recycled (<[i := l]> (recycled_block_lists_ p)) p) (b :: live) /\
  block_ok (Z.of_nat i * block_size_step_ p) b.
Proof.
  intros Hp Hi. split; [|eapply (pi_typed _ _ Hp); [exact Hi|by left]].
  eapply pool_inv_perm; [exact Hp| |done|done|done|done|].
  - unfold idle_blocks. simpl. rewrite <- Permutation_middle, app_comm_cons. apply Permutation_app_tail.
    pose proof (bind_insert (recycled_block_lists_ p) _ _ l Hi) as H.
    apply (Permutation_app_inv_r l). rewrite <- H. simpl. apply Permutation_middle.
  - intros j l' b' Hj Hb. simpl in Hj.
    apply list_lookup_insert_Some in Hj as [(<- & <- & _)|(_ & Hj)];
      (eapply (pi_typed _ _ Hp); [eassumption|]); [by right|done].
Qed.

Lemma GetMemBlock_inv p live size z o p' :
  pool_inv p live -> GetMemBlock size p = Ret (z, o) p' ->
  (z = 0 /\ exists b, o = Some b /\ block_ok size b /\ 0 < size <= max_block_size_ p /\
     pool_inv p' (b :: live)) \/
  (z <> 0 /\ o = None /\ pool_inv p' live).
Proof.
  intros Hp E. unfold GetMemBlock in E. step_gets E. pose proof (pi_step _ _ Hp) as Hst.
  destruct (Z.leb_spec size 0); [injection E as <- <- <-; by right|].
  destruct (Z.ltb_spec (max_block_size_ p) size); [injection E as <- <- <-; by right|].
  cbn [orb] in E. step_ret E as real p1 E1.
  destruct (round_to_step_ok _ _ _ _ _ Hst ltac:(done) E1) as (-> & Hmod & Hreal & Hri).
  set (m := Z.to_nat _) in E.
  assert (Hm : Z.of_nat m * block_size_step_ p = real).
  { unfold m. rewrite Z.quot_div_nonneg, Z2Nat.id by (try apply Z.div_pos; lia).
    pose proof (Z.div_mod real (block_size_step_ p) ltac:(lia)). lia. }
  step_ret E as c p2 E2. destruct (block_get_num_ p !! m) eqn:Hc; [|done]. injection E2 as <- <-.
  step_ret E as [] p3 E3. injection E3 as <-. apply (pool_inv_counts _ _ (<[m := z0 + 1]> (block_get_num_ p))) in Hp.
  set (q := with_counts _ p) in *. step_ret E as l p4 E4.
  change (recycled_block_lists_ p) with (recycled_block_lists_ q) in E4.
  destruct (recycled_block_lists_ q !! m) as [l0|] eqn:Hl; [|done]. injection E4 as <- <-.
  assert (Hok : forall b, block_ok (Z.of_nat m * block_size_step_ q) b -> block_ok size b).
  { intros b [Hb ?]. change (block_size_step_ q) with (block_size_step_ p) in Hb. split; [lia|done]. }
  destruct l0 as [|b l].
  - step_ret E as chunk p5 E5. destruct (mem_pool_ p !! free_item_pos_ p); [|done]. injection E5 as <- <-.
    destruct (_ && _); [injection E as <- <- <-; by right|]. left.
    step_ret E as [] p6 E6.
    assert (Hp6 : pool_inv p6 live).
    { destruct (_ <? real); [|by injection E6 as <-].
      eapply organize_rest_inv; [exact Hp| |apply to_int_range|exact E6]. split; [lia|].
      unfold zlen. change (block_get_num_ q) with (<[m := z0 + 1]> (block_get_num_ p)).
      rewrite length_insert. apply lookup_lt_Some in Hc. lia. }
    step_ret E as b p7 E7. injection E as <- <- <-.
    destruct (cut_block_inv live real _ _ _ Hp6 ltac:(lia) E7) as (Hp7 & (Hb & Hb') & _).
    split; [done|]. exists b. split_and!; [done|split; [lia|done]|lia|done|done].
  - step_ret E as [] p5 E5. injection E5 as <-. injection E as <- <- <-. left. split; [done|]. exists b.
    destruct (pop_recycled_inv q live m b l Hp Hl) as [Hp5 Hb]. split_and!; auto.
Qed.

Lemma ReturnMemBlock_inv p live b z p' :
  pool_inv p (b :: live) -> zlen (mem_ b) = len_ b -> len_ b <= int_max -> ReturnMemBlock b p = Ret z p' ->
  z = 0 /\ pool_inv p' live.
Proof.
  intros Hp Hb Hbi E. unfold ReturnMemBlock in E. step_gets E. pose proof (pi_step _ _ Hp) as Hst.
  destruct (Z.eqb_spec (block_size_step_ p) 0); [lia|]. step_ret E as [] p1 E1. injection E as <- <-.
  split; [done|]. pose proof (zlen_nonneg (mem_ b)).
  destruct (push_recycled_inv live (Z.quot (len_ b) (block_size_step_ p)) [set_used 0 b] p p1)
    as [Hp1 _]; [| |exact E1|exact Hp1].
  - by apply (pool_inv_same_place _ b).
  - apply list.Forall_singleton. split; [|done]. simpl. rewrite Z.quot_div_nonneg by lia.
    pose proof (Z.mul_div_le (len_ b) (block_size_step_ p) Hst). lia.
Qed.

(** ** The pool and its clients *)

(** What can happen: a block is asked for, written and used by the client that
    holds it, given back; the pool is enlarged. *)
Inductive pool_step : MemPool * list MemBlock -> MemPool * list MemBlock -> Prop :=
| step_get size z o p p' live :
    GetMemBlock size p = Ret (z, o) p' -> pool_step (p, live) (p', option_list o ++ live)
| step_use b n data p live live' :
    live ≡ₚ b :: live' -> zlen data = len_ b ->
    pool_step (p, live) (p, mkBlock (start_ b) n (len_ b) data :: live')
| step_return b z p p' live live' :
    live ≡ₚ b :: live' -> ReturnMemBlock b p = Ret z p' -> pool_step (p, live) (p', live')
| step_enlarge n z p p' live :
    EnlargeMemPool n p = Ret z p' -> pool_step (p, live) (p', live).

Definition clients_inv (s : MemPool * list MemBlock) : Prop :=
  pool_inv s.1 s.2 /\ Forall (fun b => zlen (mem_ b) = len_ b /\ len_ b <= int_max) s.2.

Lemma EnlargeMemPool_inv p live n z p' :
  pool_inv p live -> EnlargeMemPool n p = Ret z p' -> pool_inv p' live.
Proof.
  intros Hp E. unfold EnlargeMemPool in E. step_gets E. step_ret E as [] p1 E1.
  destruct (unorganized_byte_num_ p =? 0); [|done]. injection E1 as <-.
  destruct (n <=? 0); [by injection E as _ <-|]. step_ret E as k p2 E2.
  destruct (round_to_step_cases n (block_size_step_ p) p) as [[r Hr]|Hr]; rewrite Hr in E2; [|done].
  injection E2 as _ <-.
  step_ret E as [] p3 E3. injection E3 as <-. injection E as _ <-.
  destruct Hp as [H1 H2 H3 H4 H5 H6]. split; try done. intros b Hb.
  destruct (H6 b Hb) as (size & Hl & H). exists size. split; [|done]. by apply lookup_app_l_Some.
Qed.

Lemma pool_step_inv s s' : pool_step s s' -> clients_inv s -> clients_inv s'.
Proof.
  intros Hstep [Hp Hl]. destruct Hstep as [size z o p p' live E|b n data p live live' Hperm Hd|
    b z p p' live live' Hperm E|n z p p' live E]; simpl in *.
  - destruct (GetMemBlock_inv _ _ _ _ _ _ Hp E) as [(_ & b & -> & ([_ Hi] & _ & Hb) & _ & Hp')|(_ & -> & Hp')].
    + split; [done|]. by apply list.Forall_cons.
    + done.
  - rewrite Hperm in Hp. rewrite Hperm in Hl. apply list.Forall_cons in Hl as [[_ Hi] Hl].
    split; [by apply (pool_inv_same_place _ b)|by apply list.Forall_cons].
  - rewrite Hperm in Hp. rewrite Hperm in Hl. apply list.Forall_cons in Hl as [[Hb Hi] Hl].
    split; [|done]. by eapply ReturnMemBlock_inv.
  - split; [by eapply EnlargeMemPool_inv|done].
Qed.

Lemma clients_invariant s s' : rtc pool_step s s' -> clients_inv s -> clients_inv s'.
Proof. induction 1; [done|]. intros. eauto using pool_step_inv. Qed.

(** A pool that has given no block yet, whatever the lengths of its chunks, of the
    lists of blocks and of the counters.  The constructor leaves all of them empty
    ([created_pool_undefined] below), so this is a pool whose vectors somebody has
    given room. *)
Definition unused_pool (p : MemPool) : Prop :=
  0 < block_size_step_ p /\ idle_blocks p = [] /\ 0 <= free_start_pos_ p.

Lemma unused_pool_inv p : unused_pool p -> clients_inv (p, []).
Proof.
  intros (Hst & Hidle & Hpos). split; [|done]. split; simpl; [done| | | |done|].
  - intros i l b Hl Hb. exfalso. assert (H : b ∈ idle_blocks p).
    { unfold idle_blocks. apply list_elem_of_bind. exists l. split; [done|].
      by eapply list_elem_of_lookup_2. }
    rewrite Hidle in H. by apply elem_of_nil in H.
  - rewrite Hidle. apply NoDup_nil_2.
  - rewrite Hidle. intros a Ha. by apply elem_of_nil in Ha.
  - rewrite Hidle. intros b Hb. by apply elem_of_nil in Hb.
Qed.

(** C7: from a pool whose vectors have room and that has given no block yet,
    whatever the clients ask for and give back, every block, held or recycled, lies
    inside its chunk, and no byte belongs to two of them; and a block that
    [GetMemBlock] grants is at least as large as what was asked for, is marked as
    empty, lies inside its chunk, and shares no byte with the blocks the clients
    hold. *)
Theorem pool_blocks_apart p0 p live :
  unused_pool p0 -> rtc pool_step (p0, []) (p, live) ->
  (NoDup (extent (idle_blocks p ++ live)) /\ Forall (inside p) (idle_blocks p ++ live)) /\
  forall size b p', GetMemBlock size p = Ret (0, Some b) p' ->
    0 < size <= len_ b /\ len_ b <= int_max /\ used_ b = 0 /\ zlen (mem_ b) = len_ b /\
    inside p' b /\ NoDup (extent (b :: live)).
Proof.
  intros H0 Hrtc. assert (Hinv : clients_inv (p, live)).
  { eapply clients_invariant; [exact Hrtc|by apply unused_pool_inv]. }
  destruct Hinv as [Hp _]. split; [split; [apply Hp|apply list.Forall_forall, Hp]|]. intros size b p' E.
  destruct (GetMemBlock_inv _ _ _ _ _ _ Hp E) as [(_ & b' & [= <-] & (H1 & H2 & H3) & H4 & Hp')|(? & ? & _)];
    [|done].
  split_and!; [lia|lia|lia|done|done| |].
  - apply (pi_inside _ _ Hp'), elem_of_app. right. by left.
  - pose proof (pi_apart _ _ Hp') as H. unfold extent in *. rewrite bind_app in H.
    by apply list.NoDup_app in H as (_ & _ & H).
Qed.

(** The room of a chunk that is begun is not compared with the size: when it is
    too small the block would reach behind its end. *)
Theorem next_chunk_too_small len p size :
  mem_pool_ p !! free_item_pos_ p = Some size -> size < free_start_pos_ p + len ->
  cut_block len p = Halt HUndefined p.
Proof.
  intros Hs Hl. unfold cut_block, bindM, gets, of_option. rewrite Hs. simpl.
  by rewrite (proj2 (Z.ltb_lt _ _) Hl), orb_true_r.
Qed.

(** The pool [CreateMemPool] makes: the lists of blocks and the counters have not
    the lengths the sizes need. *)
Lemma CreateMemPool_eq n max step p :
  CreateMemPool n max step None = Ret 0 (Some p) ->
  exists added, p = with_chunk 0 added (new_MemPool max step).
Proof.
  unfold CreateMemPool. destruct (EnlargeMemPool _ _) as [z q|] eqn:E; [|done]. intros [= -> ->].
  unfold EnlargeMemPool in E. step_gets E. step_ret E as [] p1 E1. injection E1 as <-.
  destruct (n <=? 0); [done|]. step_ret E as k p2 E2. step_ret E as [] p3 E3. injection E3 as <-.
  injection E as <-. exists k. destruct (round_to_step_cases n step (new_MemPool max step)) as [[r Hr]|Hr];
    cbn [block_size_step_ new_MemPool] in E2; rewrite Hr in E2; [|done]. by injection E2 as -> <-.
Qed.

(** A pool made by [CreateMemPool] never grants a block: a size out of range
    is refused with -1, and any other one is an access behind the end of a
    vector, since the constructor gives the vectors of lists and of counters no
    room. *)
Theorem created_pool_undefined n max step p size :
  CreateMemPool n max step None = Ret 0 (Some p) -> 0 < step ->
  (size <= 0 \/ max < size -> GetMemBlock size p = Ret (-1, None) p) /\
  (0 < size <= max -> exists p', GetMemBlock size p = Halt HUndefined p').
Proof.
  intros Hc Hstep. destruct (CreateMemPool_eq _ _ _ p Hc) as [added ->].
  set (q := with_chunk 0 added _). unfold GetMemBlock.
  erewrite (bind_Ret (gets _) _ q) by reflexivity. change (max_block_size_ q) with max.
  split.
  - intros Hs. assert ((size <=? 0) || (max <? size) = true) as ->; [|done].
    apply orb_true_iff. rewrite Z.leb_le, Z.ltb_lt. done.
  - intros Hs. assert ((size <=? 0) || (max <? size) = false) as ->.
    { apply orb_false_iff. rewrite Z.leb_gt, Z.ltb_ge. done. }
    unfold bindM at 1.
    destruct (round_to_step size (block_size_step_ q) q) as [r q'|h q'] eqn:E.
    + destruct (round_to_step_ok size step q q' r Hstep ltac:(lia) E) as (-> & Hmod & Hr & _).
      eexists. unfold bindM at 1, of_option.
      rewrite (lookup_ge_None_2 (block_get_num_ q)); [done|].
      cbn [block_size_step_ q with_chunk new_MemPool] in *. simpl.
      rewrite Z.quot_div_nonneg by lia. pose proof (Z.div_mod r step ltac:(lia)). nia.
    + destruct (round_to_step_cases size (block_size_step_ q) q) as [[r Hr]|Hr]; rewrite Hr in E; [done|].
      injection E as <- <-. by eexists.
Qed.

End Pool.
