(* ===== verification/LeSocket.v ===== *)
(** * The sockets of the libevent generation

    [libevent-based/src/socket.cc], [tcp_socket.cc], [bin_tcp_socket.cc],
    [line_tcp_socket.cc], [http_tcp_socket.cc].  A socket object assembles packets
    out of what [read] returns, and sends a list of blocks with [writev].

    The text does not compile as it stands.  It is read as follows: the
    full-width semicolons are semicolons; [recv_mb_ = GetMemBlock(n)] stores the
    block that the two-argument function grants, null if it grants none; in
    [LineTcpSocket::ReadHandler] the [len] that is not declared is the size of the
    buffer; [*it->start_], [*it->used_] and [vec[i].len] are the fields of the
    block and of the vector; [server_port_] of [Reconnect] is [peer_port_].

    What the system answers is in the state: the answers of [read] in order, the
    bytes [writev] has taken. *)

From S2P Require Import Prelude Wire LeMem.

(** ** What a socket needs of a memory pool *)

(** A source of blocks grants blocks that are large enough, empty, and whose
    memory is all theirs. *)
Class BlockSource := {
  source : Type;
  source_ok : source -> Prop;
  get_block : Z -> M source (option MemBlock);
  give_block : MemBlock -> M source unit;
  get_block_ok : forall n s o s', source_ok s -> get_block n s = Ret o s' ->
    source_ok s' /\ forall b, o = Some b -> 0 < n <= len_ b /\ len_ b <= int_max /\ used_ b = 0 /\ zlen (mem_ b) = len_ b
}.

(** The pool of [memblock.cc] is one, whatever its clients hold. *)
Section PoolSource.
  Context (raw : Z * Z -> Z -> list byte).
  Hypothesis raw_length : forall a n, 0 <= n -> zlen (raw a n) = n.

#[refine] Instance pool_source : BlockSource := {|
  source := MemPool;
  source_ok := fun p => exists live, pool_inv p live;
  get_block := fun n => let! r := GetMemBlock raw n in ret r.2;
  give_block := fun b => ReturnMemBlock b ;;! ret tt
|}.
Proof.
  intros n p o p' [live Hp] E. apply bind_Ret_inv in E as ([z o'] & p1 & E & E'). injection E' as <- <-.
  destruct (GetMemBlock_inv raw raw_length _ _ _ _ _ _ Hp E)
    as [(-> & b & -> & (H1 & H2 & H3) & H4 & Hp')|(_ & -> & Hp')].
  - split; [by eexists|]. intros b' [= <-]. split_and!; try done; lia.
  - split; [by eexists|done].
Defined.
End PoolSource.

(** ** Data *)

(** [Socket::SocketType], [Socket::SocketStatus], [Socket::DataFormat]. *)
Inductive SocketType := T_TCP_LISTEN | T_TCP_CLIENT | T_TCP_SERVER | T_UDP_CLIENT | T_UDP_SERVER.
Inductive SocketStatus := S_NOTREADY | S_CLOSED | S_ERROR | S_ESTABLISHED | S_CONNECTING | S_LISTEN.
Inductive DataFormat := DF_BIN | DF_HTTP | DF_LINE | DF_USR_1 | DF_USR_2 | DF_USR_3.

#[global] Instance SocketType_eq_dec : EqDecision SocketType.
Proof. solve_decision. Defined.
#[global] Instance SocketStatus_eq_dec : EqDecision SocketStatus.
Proof. solve_decision. Defined.
#[global] Instance DataFormat_eq_dec : EqDecision DataFormat.
Proof. solve_decision. Defined.

(** The members that [BinTcpSocket], [LineTcpSocket] and [HttpTcpSocket] add to
    [Socket]; [len_field_] is the four bytes of the integer. *)
Inductive Derived :=
| BinTcpSocket (len_field_ : list byte) (len_field_read_ : Z)
| LineTcpSocket (non_packetized_buf_ : option MemBlock)
| HttpTcpSocket (non_packetized_buf_ : option MemBlock).

(** [class Socket] with what its class adds. *)
Record Socket := mkSocket {
  fd_ : Z;
  type_ : SocketType;
  status_ : SocketStatus;
  data_format_ : DataFormat;
  my_ipstr_ : list byte;
  my_port_ : Z;
  peer_ipstr_ : list byte;
  peer_port_ : Z;
  want_to_read_ : bool;
  want_to_write_ : bool;
  last_use_ : Z;
  retry_times_ : Z;
  recv_mb_ : option MemBlock;
  send_mb_list_ : list MemBlock;
  font_mb_cur_pos_ : Z;
  derived : Derived
}.

(** [Socket()]: it does not set [recv_mb_], which holds [garbage]. *)
Definition new_Socket (now : Z) (garbage : option MemBlock) (d : Derived) : Socket :=
  mkSocket (-1) T_TCP_CLIENT S_NOTREADY DF_BIN [] 0 [] 0 true false now 0 garbage [] 0 d.

Definition set_recv_mb (b : option MemBlock) (x : Socket) : Socket :=
  mkSocket (fd_ x) (type_ x) (status_ x) (data_format_ x) (my_ipstr_ x) (my_port_ x) (peer_ipstr_ x)
    (peer_port_ x) (want_to_read_ x) (want_to_write_ x) (last_use_ x) (retry_times_ x) b
    (send_mb_list_ x) (font_mb_cur_pos_ x) (derived x).
Definition set_send_list (l : list MemBlock) (pos : Z) (x : Socket) : Socket :=
  mkSocket (fd_ x) (type_ x) (status_ x) (data_format_ x) (my_ipstr_ x) (my_port_ x) (peer_ipstr_ x)
    (peer_port_ x) (want_to_read_ x) (want_to_write_ x) (last_use_ x) (retry_times_ x) (recv_mb_ x)
    l pos (derived x).
Definition set_derived (d : Derived) (x : Socket) : Socket :=
  mkSocket (fd_ x) (type_ x) (status_ x) (data_format_ x) (my_ipstr_ x) (my_port_ x) (peer_ipstr_ x)
    (peer_port_ x) (want_to_read_ x) (want_to_write_ x) (last_use_ x) (retry_times_ x) (recv_mb_ x)
    (send_mb_list_ x) (font_mb_cur_pos_ x) d.
Definition set_fd (fd : Z) (x : Socket) : Socket :=
  mkSocket fd (type_ x) (status_ x) (data_format_ x) (my_ipstr_ x) (my_port_ x) (peer_ipstr_ x)
    (peer_port_ x) (want_to_read_ x) (want_to_write_ x) (last_use_ x) (retry_times_ x) (recv_mb_ x)
    (send_mb_list_ x) (font_mb_cur_pos_ x) (derived x).
Definition set_kind (t : SocketType) (f : DataFormat) (x : Socket) : Socket :=
  mkSocket (fd_ x) t (status_ x) f (my_ipstr_ x) (my_port_ x) (peer_ipstr_ x)
    (peer_port_ x) (want_to_read_ x) (want_to_write_ x) (last_use_ x) (retry_times_ x) (recv_mb_ x)
    (send_mb_list_ x) (font_mb_cur_pos_ x) (derived x).
Definition set_status (st : SocketStatus) (x : Socket) : Socket :=
  mkSocket (fd_ x) (type_ x) st (data_format_ x) (my_ipstr_ x) (my_port_ x) (peer_ipstr_ x)
    (peer_port_ x) (want_to_read_ x) (want_to_write_ x) (last_use_ x) (retry_times_ x) (recv_mb_ x)
    (send_mb_list_ x) (font_mb_cur_pos_ x) (derived x).
Definition set_my (ip : list byte) (pt : Z) (x : Socket) : Socket :=
  mkSocket (fd_ x) (type_ x) (status_ x) (data_format_ x) ip pt (peer_ipstr_ x)
    (peer_port_ x) (want_to_read_ x) (want_to_write_ x) (last_use_ x) (retry_times_ x) (recv_mb_ x)
    (send_mb_list_ x) (font_mb_cur_pos_ x) (derived x).
Definition set_peer (ip : list byte) (pt : Z) (x : Socket) : Socket :=
  mkSocket (fd_ x) (type_ x) (status_ x) (data_format_ x) (my_ipstr_ x) (my_port_ x) ip pt
    (want_to_read_ x) (want_to_write_ x) (last_use_ x) (retry_times_ x) (recv_mb_ x)
    (send_mb_list_ x) (font_mb_cur_pos_ x) (derived x).
(** [PushDataToSend]. *)
Definition PushDataToSend (mb : MemBlock) (now : Z) (x : Socket) : Socket :=
  mkSocket (fd_ x) (type_ x) (status_ x) (data_format_ x) (my_ipstr_ x) (my_port_ x) (peer_ipstr_ x)
    (peer_port_ x) (want_to_read_ x) (want_to_write_ x) now (retry_times_ x) (recv_mb_ x)
    (send_mb_list_ x ++ [mb]) (font_mb_cur_pos_ x) (derived x).

(** ** The system *)

Definition EAGAIN : Z := 11.
(** [errno == EAGAIN || errno == EWOULDBLOCK || errno == 0]; the two constants are
    one. *)
Definition not_ready (errno : Z) : bool := (errno =? EAGAIN) || (errno =? 0).

(** An answer of the descriptor to [read]: bytes that have come (at least one),
    the end of the stream, an error. *)
Inductive ReadAnswer := Bytes (l : list byte) | Eof | Error (errno : Z).

(** The answers to come, [errno], and the bytes [writev] has taken. *)
Record Sys := mkSys { input : list ReadAnswer; errno_ : Z; wire : list byte }.

(** ** Preparing the descriptor *)

(** What the system calls answer; the address [getsockname] or [getpeername]
    gives is a text and a port. *)
Record SockCalls := mkCalls {
  c_socket : Z;
  c_getfl : Z;
  c_setfl : Z;
  c_aton : bool;
  c_bind : Z;
  c_setsockopt : Z;
  c_listen : Z;
  c_connect : Z;
  c_connect_errno : Z;
  c_getsockname : option (list byte * Z);
  c_getpeername : option (list byte * Z)
}.

(** [fd_ = socket(...) < 0]: the comparison binds first, so the descriptor is its
    truth value. *)
Definition open_fd (c : SockCalls) : Z := if c_socket c <? 0 then 1 else 0.

(** [errno != EAGAIN || errno != EWOULDBLOCK] with one value for both names. *)
Definition connect_fails (c : SockCalls) : bool :=
  (c_connect c =? -1) && negb (c_connect_errno c =? EAGAIN).

Definition PrepareListenSocket (c : SockCalls) (listen_ip : list byte) (listen_port : Z)
    (type : SocketType) (data_format : DataFormat) (x : Socket) : Z * Socket :=
  if bool_decide (listen_ip = []) || negb (bool_decide (type = T_TCP_LISTEN)) then (-1, x)
  else
    let x := set_kind type data_format (set_my listen_ip listen_port x) in
    let x := set_fd (open_fd c) x in
    if negb (fd_ x =? 0) then (-3, x)
    else if c_getfl c =? -1 then (-3, x)
    else if c_setfl c =? -1 then (-3, x)
    else if negb (c_aton c) then (-3, x)
    else if c_bind c =? -1 then (-3, x)
    else if c_setsockopt c <? 0 then (-3, x)
    else if c_listen c =? -1 then (-3, x)
    else (0, x).

Definition PrepareClientSocket (c : SockCalls) (server_ip : list byte) (server_port : Z)
    (type : SocketType) (data_format : DataFormat) (x : Socket) : Z * Socket :=
  if bool_decide (server_ip = []) || negb (bool_decide (type = T_TCP_CLIENT)) then (-1, x)
  else
    let x := set_kind type data_format (set_peer server_ip server_port x) in
    let x := set_fd (open_fd c) x in
    if negb (fd_ x =? 0) then (-3, x)
    else if c_getfl c =? -1 then (-3, x)
    else if c_setfl c =? -1 then (-3, x)
    else if negb (c_aton c) then (-3, x)
    else if connect_fails c then (-3, x)
    else match c_getsockname c with
         | None => (-3, x)
         | Some (ip, pt) => let x := set_my ip pt x in if bool_decide (ip = []) then (-3, x) else (0, x)
         end.

Definition PrepareServerSocket (c : SockCalls) (fd : Z) (type : SocketType)
    (data_format : DataFormat) (x : Socket) : Z * Socket :=
  let x := set_kind type data_format (set_fd fd x) in
  if c_getfl c =? -1 then (-3, x)
  else if c_setfl c =? -1 then (-3, x)
  else match c_getsockname c with
       | None => (-3, x)
       | Some (ip, pt) =>
           let x := set_my ip pt x in
           if bool_decide (ip = []) then (-3, x)
           else match c_getpeername c with
                | None => (-3, x)
                | Some (ip, pt) =>
                    let x := set_peer ip pt x in if bool_decide (ip = []) then (-3, x) else (0, x)
                end
       end.

Definition Reconnect (c : SockCalls) (x : Socket) : Z :=
  if negb (bool_decide (type_ x = T_TCP_CLIENT)) then -1
  else if negb (c_aton c) then -3
  else if connect_fails c then -3
  else 0.

(** [GetSocketError]: the answer of [getsockopt], an error value or a failure. *)
Definition GetSocketError (answer : option Z) : Z * Z :=
  match answer with Some error => (0, error) | None => (-2, 0) end.

Section Socket.
  Context {Src : BlockSource}.

(** A socket object with its pool and its descriptor. *)
Record Env := mkEnv { sk : Socket; pool : source; sys : Sys }.

Definition on_sk (f : Socket -> Socket) (e : Env) : Env := mkEnv (f (sk e)) (pool e) (sys e).
Definition with_pool (p : source) (e : Env) : Env := mkEnv (sk e) p (sys e).
Definition with_sys (y : Sys) (e : Env) : Env := mkEnv (sk e) (pool e) y.

(** An operation of the pool. *)
Definition on_pool {A} (m : M source A) : M Env A := fun e =>
  match m (pool e) with
  | Ret a p => Ret a (with_pool p e)
  | Halt h p => Halt h (with_pool p e)
  end.

(** [read] of at most [n] bytes: the bytes; none (-1, or 0 at the end of the
    stream, or for [n = 0]) leaves [errno] as the test finds it.  A descriptor
    without data answers [EAGAIN]; bytes that do not fit stay. *)
Definition sys_read (n : Z) : M Env (list byte) :=
  let! y := gets sys in
  if n =? 0 then ret []
  else match input y with
       | [] => modify (with_sys (mkSys [] EAGAIN (wire y))) ;;! ret []
       | Bytes l :: r =>
           let taken := take (Z.to_nat n) l in
           let r' := if bool_decide (drop (Z.to_nat n) l = []) then r else Bytes (drop (Z.to_nat n) l) :: r in
           modify (with_sys (mkSys r' (errno_ y) (wire y))) ;;! ret taken
       | Eof :: r => modify (with_sys (mkSys r (errno_ y) (wire y))) ;;! ret []
       | Error e :: r => modify (with_sys (mkSys r e (wire y))) ;;! ret []
       end.

(** What the handlers return when [read_num <= 0]. *)
Definition read_failed : M Env Z :=
  let! y := gets sys in ret (if not_ready (errno_ y) then 0 else -2).

(** [memcpy] to, and [read] into, the memory of a block from byte [off]. *)
Definition block_write (off : Z) (data : list byte) (b : MemBlock) : M Env MemBlock :=
  if off <? 0 then stop HUndefined
  else
    let! m := of_option HUndefined (overwrite (mem_ b) (Z.to_nat off) data) in
    ret (mkBlock (start_ b) (used_ b) (len_ b) m).

(** ** [BinTcpSocket::ReadHandler] *)

(** Reading the length field: the value to return, or none to go on. *)
Definition Bin_read_length (len_field : list byte) (len_field_read : Z) : M Env (option Z) :=
  let! l := sys_read (4 - len_field_read) in
  match l with
  | [] => let! z := read_failed in ret (Some z)
  | _ =>
      let! f := of_option HUndefined (overwrite len_field (Z.to_nat len_field_read) l) in
      let n := len_field_read + zlen l in
      modify (on_sk (set_derived (BinTcpSocket f n))) ;;!
      if n <? 4 then ret (Some 0)
      else
        assert_ (n =? 4) ;;!
        let! x := gets sk in
        assert_ (match recv_mb_ x with None => true | Some _ => false end) ;;!
        let! v := of_option HUndefined (load32 f 0) in
        let! mb := on_pool (get_block (bswap32 v)) in
        let! b := of_option HUndefined mb in
        let! b := block_write 0 f b in
        modify (on_sk (set_recv_mb (Some (set_used (used_ b + 4) b)))) ;;!
        ret None
  end.

(** The rest of the packet, once the length field and the block are there. *)
Definition Bin_read_value : M Env Z :=
  let! x := gets sk in
  let! b := of_option HUndefined (recv_mb_ x) in
  let! v := of_option HUndefined (load32 (mem_ b) 0) in
  let len := bswap32 v mod 2 ^ 32 in
  assert_ (len <=? len_ b mod 2 ^ 32) ;;!
  let! l := sys_read ((len - used_ b) mod 2 ^ 32) in
  match l with
  | [] => read_failed
  | _ =>
      let n := used_ b + zlen l in
      let! b := block_write (used_ b) l b in
      modify (on_sk (set_recv_mb (Some (set_used n b)))) ;;!
      ret (if n mod 2 ^ 32 =? len then 1 else 0)
  end.

(** The length is compared with [sizeof], so as an unsigned number. *)
Definition Bin_ReadHandler (len_field : list byte) (len_field_read : Z) : M Env Z :=
  let! early := (if to_size len_field_read <? 4 then Bin_read_length len_field len_field_read
                 else ret None) in
  match early with Some z => ret z | None => Bin_read_value end.

(** ** [LineTcpSocket] *)

Definition newline : byte := x0a.
Definition NON_PACKETIZED_BUFFER_SIZE : Z := 1048576.

(** The buffer of the constructor; when the pool grants none the pointer is left
    as it was. *)
Definition new_LineTcpSocket (garbage : option MemBlock) : M source Derived :=
  let! mb := get_block NON_PACKETIZED_BUFFER_SIZE in
  ret (LineTcpSocket (match mb with Some b => Some b | None => garbage end)).

(** [while (pos2 > pos1)]: down from [pos1 + n] to [pos1], the first position that
    holds a newline, or [pos1]. *)
Fixpoint scan_back (m : list byte) (pos1 n : nat) : M Env nat :=
  match n with
  | O => ret pos1
  | S n' =>
      let! c := of_option HUndefined (m !! (pos1 + n)%nat) in
      if Byte.eqb c newline then ret (pos1 + n)%nat else scan_back m pos1 n'
  end.

Definition Line_ReadHandler (buf : option MemBlock) : M Env Z :=
  let! b := of_option HUndefined buf in
  let! l := sys_read (to_size (len_ b - used_ b)) in
  match l with
  | [] => read_failed
  | _ =>
      let! b1 := block_write (used_ b) l b in
      let pos1 := used_ b in
      let endpos := pos1 + zlen l in
      let b2 := set_used endpos b1 in
      modify (on_sk (set_derived (LineTcpSocket (Some b2)))) ;;!
      let! pos2 := scan_back (mem_ b2) (Z.to_nat pos1) (length l) in
      if Nat.eqb pos2 (Z.to_nat pos1) then ret 0
      else
        let! x := gets sk in
        assert_ (match recv_mb_ x with None => true | Some _ => false end) ;;!
        let! mb := on_pool (get_block (Z.of_nat pos2 + 1)) in
        let! r := of_option HUndefined mb in
        let! r := block_write 0 (take (S pos2) (mem_ b2)) r in
        modify (on_sk (set_recv_mb (Some (set_used (Z.of_nat pos2 + 1) r)))) ;;!
        let rest := endpos - Z.of_nat pos2 in
        (if zlen (mem_ b2) <? endpos + 1 then stop HUndefined else ret tt) ;;!
        let! b3 := block_write 0 (take (Z.to_nat rest) (drop (S pos2) (mem_ b2))) b2 in
        modify (on_sk (set_derived (LineTcpSocket (Some (set_used rest b3))))) ;;!
        ret 1
  end.

(** [HttpTcpSocket::ReadHandler] does nothing. *)
Definition Http_ReadHandler : M Env Z := ret 1.

(** The virtual [ReadHandler]. *)
Definition ReadHandler : M Env Z :=
  let! x := gets sk in
  match derived x with
  | BinTcpSocket f n => Bin_ReadHandler f n
  | LineTcpSocket b => Line_ReadHandler b
  | HttpTcpSocket _ => Http_ReadHandler
  end.

(** ** [TcpSocket::WriteHandler] *)

Definition MAX_IOVEC_NUM : nat := 1000.

(** The loop over [vec[0]] to [vec[cnt]], one past the entries that were filled:
    [lens] holds the lengths of the entries, the last one what the array held. *)
Fixpoint drop_sent (lens : list Z) (tmp_num : Z) : M Env unit :=
  match lens with
  | [] => ret tt
  | n :: lens' =>
      let! x := gets sk in
      if n <=? tmp_num then
        match send_mb_list_ x with
        | [] => stop HUndefined
        | tmpmb :: r =>
            modify (on_sk (set_send_list r (font_mb_cur_pos_ x))) ;;!
            on_pool (give_block tmpmb) ;;!
            drop_sent lens' (tmp_num - n)
        end
      else modify (on_sk (set_send_list (send_mb_list_ x) tmp_num))
  end.

(** What [writev] answers: how many bytes it has taken, or an error. *)
Inductive WriteAnswer := Wrote (n : Z) | WriteFails (errno : Z).

(** The bytes of a block that are offered. *)
Definition offered (b : MemBlock) : list byte := take (Z.to_nat (used_ b)) (mem_ b).

(** [garbage] is what [vec[cnt].iov_len] holds, which is never set. *)
Definition WriteHandler (garbage : Z) (answer : WriteAnswer) : M Env Z :=
  let! x := gets sk in
  let vec := take (MAX_IOVEC_NUM - 1) (send_mb_list_ x) in
  let! y := gets sys in
  match answer with
  | WriteFails e =>
      modify (with_sys (mkSys (input y) e (wire y))) ;;!
      ret (if not_ready e then 0 else -2)
  | Wrote write_num =>
      if write_num <=? 0 then ret (if not_ready (errno_ y) then 0 else -2)
      else
        modify (with_sys (mkSys (input y) (errno_ y)
          (wire y ++ take (Z.to_nat write_num) (concat (map offered vec))))) ;;!
        drop_sent (map used_ vec ++ [garbage]) write_num ;;!
        let! x := gets sk in
        ret (match send_mb_list_ x with [] => 1 | _ => 0 end)
  end.

End Socket.
