(* ===== verification/LeRead.v ===== *)
(** * Assembling packets: the theorems on [ReadHandler]

    A packet of the LV format comes in pieces of any sizes; [BinTcpSocket] puts it
    together over several calls.  [LineTcpSocket] looks for the last newline. *)

From S2P Require Import Prelude Wire LeMem LeSocket.

Section Read.
  Context {Src : BlockSource}.

(** ** The stream *)

(** The descriptor has the pieces [segs] to give, none of them empty. *)
Definition pieces (segs : list (list byte)) (e : Env) : Prop :=
  input (sys e) = map Bytes segs /\ Forall (fun l => l <> []) segs.

(** After a read the pieces are [segs]. *)
Definition after_read (segs : list (list byte)) (e : Env) : Env :=
  with_sys (mkSys (map Bytes segs) (errno_ (sys e)) (wire (sys e))) e.

Lemma pieces_after_read segs e : Forall (fun l => l <> []) segs -> pieces segs (after_read segs e).
Proof. done. Qed.

(** A read takes at least a byte, and either all that was asked for or a whole
    piece. *)
Lemma sys_read_piece n segs e :
  0 < n -> segs <> [] -> pieces segs e ->
  exists l segs', sys_read n e = Ret l (after_read segs' e) /\
    concat segs = l ++ concat segs' /\ 0 < zlen l <= n /\ Forall (fun l => l <> []) segs' /\
    ((length segs' < length segs)%nat \/ (zlen l = n /\ length segs' = length segs)).
Proof.
  intros Hn Hs [Hin Hne]. destruct segs as [|l segs]; [done|]. apply list.Forall_cons in Hne as [Hl Hne].
  unfold sys_read. rewrite bind_gets. destruct (Z.eqb_spec n 0); [lia|].
  rewrite Hin. cbn [map]. unfold bindM, modify, ret. fold (map Bytes segs).
  exists (take (Z.to_nat n) l). case_bool_decide as Hd.
  - exists segs. split_and!; [done| | | |done|by left; simpl; lia].
    + simpl. by rewrite <- (take_drop (Z.to_nat n) l) at 1; rewrite Hd, app_nil_r.
    + unfold zlen. rewrite length_take. destruct l; [done|]. simpl. lia.
    + unfold zlen. rewrite length_take. lia.
  - exists (drop (Z.to_nat n) l :: segs). split_and!; [done| | | | |right].
    + simpl. by rewrite app_assoc, take_drop.
    + unfold zlen. rewrite length_take. destruct l; [done|]. simpl. lia.
    + unfold zlen. rewrite length_take. lia.
    + by apply list.Forall_cons.
    + split; [|done]. unfold zlen. rewrite length_take.
      destruct (decide (length l <= Z.to_nat n)%nat) as [Hle|]; [|lia].
      by rewrite drop_ge in Hd.
Qed.

Lemma sys_read_none n e :
  n <> 0 -> pieces [] e ->
  sys_read n e = Ret [] (with_sys (mkSys [] EAGAIN (wire (sys e))) e).
Proof.
  intros Hn [Hin _]. unfold sys_read. rewrite bind_gets.
  destruct (Z.eqb_spec n 0); [done|]. by rewrite Hin.
Qed.

(** ** A packet of the LV format *)

Section Packet.
  Context (body rest : list byte) (b0 : MemBlock) (p0 p1 : source).
Let P := lv_packet body.
  Hypotheses (Hbody : body <> []) (Hmax : zlen P <= int_max)
    (Hok : source_ok p0) (Hget : get_block (zlen P) p0 = Ret (Some b0) p1).

(** The packet has been read, and nothing of what follows it. *)
Definition received (segs : list (list byte)) (e : Env) : Prop :=
  pieces segs e /\ concat segs = rest /\
  (exists f, derived (sk e) = BinTcpSocket f 4) /\
  exists b, recv_mb_ (sk e) = Some b /\ used_ b = zlen P /\ take (Z.to_nat (zlen P)) (mem_ b) = P.

Lemma packet_length : 4 < zlen P.
Proof.
  unfold P, lv_packet. rewrite zlen_app. change (zlen (le32_enc _)) with 4.
  destruct body; [done|]. unfold zlen. simpl. lia.
Qed.

Lemma packet_head m :
  take 4 m = take 4 P -> load32 m 0 = Some (bswap32 (zlen P)) /\
  bswap32 (bswap32 (zlen P)) mod 2 ^ 32 = zlen P.
Proof.
  intros Hm. pose proof packet_length.
  assert (Hz : zlen P = 4 + zlen body) by (unfold P, lv_packet; rewrite zlen_app; reflexivity).
  assert (Ht : take 4 P = le32_enc (bswap32 (zlen P))) by (rewrite Hz; reflexivity). split.
  - rewrite <- (take_drop 4 m), Hm, Ht. apply load32_0_enc, bswap32_range.
  - rewrite bswap32_involutive by (unfold int_min in *; lia).
    apply Z.mod_small. unfold int_max in Hmax. lia.
Qed.

Lemma take_4 {A} k (m l : list A) : 4 <= k -> take (Z.to_nat k) m = take (Z.to_nat k) l -> take 4 m = take 4 l.
Proof.
  intros Hk H.
  assert (E : forall u : list A, take 4 u = take 4 (take (Z.to_nat k) u))
    by (intros u; rewrite take_take; f_equal; lia).
  by rewrite (E m), (E l), H.
Qed.

(** The bytes that come are the next ones of the packet. *)
Lemma next_bytes k l segs segs' :
  concat segs = drop (Z.to_nat k) (P ++ rest) -> concat segs = l ++ concat segs' ->
  0 <= k -> k + zlen l <= zlen P ->
  take (Z.to_nat (k + zlen l)) P = take (Z.to_nat k) P ++ l /\
  concat segs' = drop (Z.to_nat (k + zlen l)) (P ++ rest).
Proof.
  intros H1 H2 Hk Hl. rewrite H1 in H2. unfold zlen in *.
  replace (Z.to_nat (k + Z.of_nat (length l))) with (Z.to_nat k + length l)%nat by lia. split.
  - rewrite <- take_take_drop. f_equal. rewrite drop_app_le in H2 by lia.
    rewrite <- (take_app_le _ rest) by (rewrite length_drop; lia). by rewrite H2, take_app_length.
  - by rewrite <- drop_drop, H2, drop_app_length.
Qed.

Lemma block_write_eq off data b (e : Env) :
  0 <= off -> off + zlen data <= zlen (mem_ b) ->
  block_write off data b e = Ret (mkBlock (start_ b) (used_ b) (len_ b)
    (take (Z.to_nat off) (mem_ b) ++ data ++ drop (Z.to_nat off + length data) (mem_ b))) e.
Proof.
  intros H1 H2. unfold block_write. destruct (Z.ltb_spec off 0); [lia|].
  unfold overwrite. unfold zlen in H2. by rewrite decide_True by lia.
Qed.

(** What is needed of the state to read the rest of the packet. *)
Definition has_value (k : Z) (segs : list (list byte)) (e : Env) : Prop :=
  pieces segs e /\ concat segs = drop (Z.to_nat k) (P ++ rest) /\ 4 <= k < zlen P /\
  exists f b, derived (sk e) = BinTcpSocket f 4 /\ recv_mb_ (sk e) = Some b /\
      used_ b = k /\ take (Z.to_nat k) (mem_ b) = take (Z.to_nat k) P /\
      zlen P <= len_ b <= int_max /\ zlen (mem_ b) = len_ b.

Lemma Bin_read_value_none k e :
  has_value k [] e -> exists e', Bin_read_value e = Ret 0 e' /\ has_value k [] e'.
Proof.
  intros (Hp & Hc & Hk & f & b & Hd & Hr & Hu & Ht & Hl & Hm).
  destruct (packet_head (mem_ b) (take_4 k _ _ ltac:(lia) Ht)) as [Hload Hsw].
  unfold Bin_read_value. rewrite bind_gets, Hr. rewrite (bind_of_option _ _ _ _ _ eq_refl).
  rewrite (bind_of_option _ _ _ _ _ Hload). cbn zeta. rewrite Hsw.
  unfold int_max in *. rewrite bind_assert by (apply Z.leb_le; rewrite Z.mod_small by lia; lia).
  rewrite Hu, (Z.mod_small (zlen P - k)) by lia.
  rewrite (bind_Ret _ _ _ _ _ (sys_read_none (zlen P - k) e ltac:(lia) Hp)).
  eexists. split; [reflexivity|]. split_and!; [done|done|lia|lia|].
  exists f, b. split_and!; first [done|unfold int_max; lia].
Qed.

Lemma Bin_read_value_some k segs e :
  has_value k segs e -> segs <> [] ->
  exists segs' e', (Bin_read_value e = Ret 0 e' /\ (length segs' < length segs)%nat /\
                    exists k', has_value k' segs' e') \/
                   (Bin_read_value e = Ret 1 e' /\ received segs' e').
Proof.
  intros (Hp & Hc & Hk & f & b & Hd & Hr & Hu & Ht & Hl & Hm) Hs.
  destruct (packet_head (mem_ b) (take_4 k _ _ ltac:(lia) Ht)) as [Hload Hsw].
  destruct (sys_read_piece (zlen P - k) segs e ltac:(lia) Hs Hp) as (l & segs' & E & Hcat & Hll & Hne & Hlen).
  destruct (next_bytes k l segs segs' Hc Hcat ltac:(lia) ltac:(lia)) as [Htake Hdrop].
  exists segs'. unfold Bin_read_value. rewrite bind_gets, Hr. rewrite (bind_of_option _ _ _ _ _ eq_refl).
  rewrite (bind_of_option _ _ _ _ _ Hload). cbn zeta. rewrite Hsw.
  unfold int_max in *. rewrite bind_assert by (apply Z.leb_le; rewrite Z.mod_small by lia; lia).
  rewrite Hu, (Z.mod_small (zlen P - k)) by lia. rewrite (bind_Ret _ _ _ _ _ E).
  destruct l as [|c l0] eqn:El; [unfold zlen in Hll; simpl in Hll; lia|]. rewrite <- El in *. clear El.
  rewrite (bind_Ret _ _ _ _ _ (block_write_eq k l b _ ltac:(lia) ltac:(lia))).
  rewrite bind_modify, Z.mod_small by lia. set (b' := set_used _ _).
  assert (Htk : take (Z.to_nat (k + zlen l)) (mem_ b') = take (Z.to_nat (k + zlen l)) P).
  { rewrite Htake, <- Ht. unfold b', set_used. cbn [mem_]. rewrite app_assoc.
    apply take_app_length'. rewrite length_app, length_take. unfold zlen in *. lia. }
  eexists. destruct (Z.eqb_spec (k + zlen l) (zlen P)) as [He|He].
  - right. split; [reflexivity|]. split_and!; [done| |by eexists|].
    + rewrite Hdrop, He. unfold zlen. by rewrite Nat2Z.id, drop_app_length.
    + exists b'. split_and!; [done|by unfold b'|]. rewrite <- He, Htk, He. unfold zlen.
      by rewrite Nat2Z.id, firstn_all.
  - left. split; [reflexivity|]. split; [lia|]. exists (k + zlen l). split_and!; [done|done|lia|lia|].
    exists f, b'. split_and!; try first [done|unfold int_max; simpl; lia].
    unfold b', set_used, zlen in *. cbn [mem_ len_]. rewrite !length_app, length_take, length_drop. lia.
Qed.

(** The length field is not complete: its first [k] bytes are there. *)
Definition wants_length (k : Z) (segs : list (list byte)) (e : Env) : Prop :=
  pieces segs e /\ concat segs = drop (Z.to_nat k) (P ++ rest) /\ 0 <= k < 4 /\
  pool e = p0 /\ recv_mb_ (sk e) = None /\
  exists f, derived (sk e) = BinTcpSocket f k /\ length f = 4%nat /\
    take (Z.to_nat k) f = take (Z.to_nat k) P.

Lemma get_block_facts : 0 < zlen P <= len_ b0 /\ len_ b0 <= int_max /\ used_ b0 = 0 /\ zlen (mem_ b0) = len_ b0.
Proof. by apply (get_block_ok _ _ _ _ Hok Hget). Qed.

Lemma Bin_read_length_some k segs e f :
  wants_length k segs e -> derived (sk e) = BinTcpSocket f k -> segs <> [] ->
  exists segs' e', (Bin_read_length f k e = Ret (Some 0) e' /\ (length segs' < length segs)%nat /\
                    exists k', wants_length k' segs' e') \/
                   (Bin_read_length f k e = Ret None e' /\ (length segs' <= length segs)%nat /\
                    has_value 4 segs' e').
Proof.
  intros (Hp & Hc & Hk & Hpool & Hr & f' & Hd & Hf & Ht) Hd' Hs.
  assert (f' = f) as -> by congruence. clear Hd'. pose proof packet_length as HP.
  destruct (sys_read_piece (4 - k) segs e ltac:(lia) Hs Hp) as (l & segs' & E & Hcat & Hll & Hne & Hlen).
  destruct (next_bytes k l segs segs' Hc Hcat ltac:(lia) ltac:(lia)) as [Htake Hdrop].
  exists segs'. unfold Bin_read_length. rewrite (bind_Ret _ _ _ _ _ E).
  destruct l as [|c l0] eqn:El; [unfold zlen in Hll; simpl in Hll; lia|]. rewrite <- El in *. clear El.
  set (f1 := take (Z.to_nat k) f ++ l ++ drop (Z.to_nat k + length l) f).
  assert (Hov : overwrite f (Z.to_nat k) l = Some f1)
    by (unfold overwrite, zlen in *; by rewrite decide_True by lia).
  rewrite (bind_of_option _ _ _ _ _ Hov). cbn zeta. rewrite bind_modify.
  assert (Hf1 : length f1 = 4%nat) by (by rewrite (length_overwrite _ _ _ _ Hov)).
  assert (Ht1 : take (Z.to_nat (k + zlen l)) f1 = take (Z.to_nat (k + zlen l)) P).
  { rewrite Htake, <- Ht. unfold f1. rewrite app_assoc. apply take_app_length'.
    rewrite length_app, length_take. unfold zlen in *. lia. }
  destruct (Z.ltb_spec (k + zlen l) 4) as [Hlt|Hge].
  - eexists. left. split; [reflexivity|]. split; [lia|]. exists (k + zlen l).
    split_and!; try done; [lia|]. by exists f1.
  - assert (Hk4 : k + zlen l = 4) by lia. rewrite bind_assert by (apply Z.eqb_eq; lia).
    rewrite bind_gets. cbn [on_sk sk set_derived recv_mb_ after_read with_sys]. rewrite Hr.
    rewrite bind_assert by done. rewrite Hk4 in *.
    assert (Hf4 : f1 = take 4 P) by (rewrite <- (take_ge f1 4) by lia; exact Ht1).
    destruct (packet_head f1) as [Hload Hsw]; [rewrite Hf4, take_take; done|].
    rewrite (bind_of_option _ _ _ _ _ Hload).
    rewrite bswap32_involutive by (unfold int_min; lia).
    destruct get_block_facts as (H1 & H2 & H3 & H4).
    erewrite bind_Ret; cycle 1.
    { unfold on_pool. cbn [pool on_sk after_read with_sys]. rewrite Hpool, Hget. reflexivity. }
    rewrite (bind_of_option _ _ _ _ _ eq_refl).
    rewrite (bind_Ret _ _ _ _ _ (block_write_eq 0 f1 b0 _ ltac:(lia) ltac:(unfold zlen in *; lia))).
    rewrite bind_modify. eexists. right. split; [reflexivity|]. split; [lia|].
    split_and!; [done|done|lia|lia|]. exists f1. eexists. split_and!; try done; [simpl; lia| |simpl; lia|].
    + cbn [set_used mem_]. rewrite take_0. cbn [app]. rewrite take_app_length' by (rewrite Hf1; lia).
      exact Hf4.
    + cbn [set_used mem_ len_]. rewrite take_0. unfold zlen in *. cbn [app].
      rewrite length_app, length_drop. lia.
Qed.

Definition progress (segs : list (list byte)) (e : Env) : Prop :=
  (exists k, wants_length k segs e) \/ (exists k, has_value k segs e).

Lemma progress_pieces segs e : progress segs e -> segs <> [].
Proof.
  assert (H : forall k, k < zlen P -> 0 <= k -> concat segs = drop (Z.to_nat k) (P ++ rest) -> segs <> []).
  { intros k H1 H2 H3 ->. apply (f_equal length) in H3.
    rewrite length_drop, length_app in H3. change (length (concat _)) with 0%nat in H3.
    unfold zlen in *. lia. }
  pose proof packet_length.
  intros [(k & _ & H1 & H2 & _)|(k & _ & H1 & H2 & _)]; (eapply (H k); [lia|lia|done]).
Qed.

Lemma ReadHandler_bin e f n : derived (sk e) = BinTcpSocket f n -> ReadHandler e = Bin_ReadHandler f n e.
Proof. intros H. unfold ReadHandler. by rewrite bind_gets, H. Qed.

Lemma ReadHandler_value e f : derived (sk e) = BinTcpSocket f 4 -> ReadHandler e = Bin_read_value e.
Proof. intros H. by rewrite (ReadHandler_bin _ _ _ H). Qed.

Lemma ReadHandler_step segs e :
  progress segs e ->
  exists segs' e', (ReadHandler e = Ret 0 e' /\ (length segs' < length segs)%nat /\ progress segs' e') \/
                   (ReadHandler e = Ret 1 e' /\ received segs' e').
Proof.
  intros Hp. pose proof (progress_pieces _ _ Hp) as Hs. destruct Hp as [[k Hk]|[k Hk]].
  - pose proof Hk as (_ & _ & H3 & _ & _ & f & Hd & _).
    rewrite (ReadHandler_bin _ _ _ Hd). unfold Bin_ReadHandler. rewrite to_size_id by lia.
    rewrite (proj2 (Z.ltb_lt k 4)) by lia.
    destruct (Bin_read_length_some k segs e f Hk Hd Hs) as (segs' & e' & [(E & Hl & Hw)|(E & Hl & Hv)]).
    + exists segs', e'. left. rewrite (bind_Ret _ _ _ _ _ E). split_and!; [done|done|by left].
    + destruct (decide (segs' = [])) as [->|Hs'].
      * destruct (Bin_read_value_none 4 e' Hv) as (e2 & E2 & Hv2). exists [], e2. left.
        rewrite (bind_Ret _ _ _ _ _ E). split_and!; [done|destruct segs; [done|simpl; lia]|right; by eexists].
      * destruct (Bin_read_value_some 4 segs' e' Hv Hs') as (s2 & e2 & [(E2 & Hl2 & Hv2)|(E2 & Hr)]);
          exists s2, e2; [left|right]; rewrite (bind_Ret _ _ _ _ _ E).
        -- split_and!; [done|lia|by right].
        -- done.
  - pose proof Hk as (_ & _ & _ & f & b & Hd & _).
    rewrite (ReadHandler_value _ _ Hd).
    destruct (Bin_read_value_some k segs e Hk Hs) as (s2 & e2 & [(E2 & Hl2 & Hv2)|(E2 & Hr)]);
      exists s2, e2; [left|right]; [|done]. split_and!; [done|done|by right].
Qed.

(** The event loop calls the handler each time the descriptor is readable, until
    it returns something else than 0. *)
Fixpoint poll (fuel : nat) : M Env (list Z) :=
  match fuel with
  | O => ret []
  | S fuel' =>
      let! z := ReadHandler in
      if z =? 0 then let! zs := poll fuel' in ret (z :: zs) else ret [z]
  end.

Lemma poll_progress n segs e :
  (length segs <= n)%nat -> progress segs e ->
  exists k segs' e', poll n e = Ret (replicate k 0 ++ [1]) e' /\ received segs' e'.
Proof.
  revert segs e. induction n as [|n IH]; intros segs e Hn Hp.
  - pose proof (progress_pieces _ _ Hp). destruct segs; [done|simpl in Hn; lia].
  - destruct (ReadHandler_step _ _ Hp) as (s1 & e1 & [(E & Hl & Hp1)|(E & Hr)]); cbn [poll];
      rewrite (bind_Ret _ _ _ _ _ E); simpl.
    + destruct (IH s1 e1 ltac:(lia) Hp1) as (k & s2 & e2 & E2 & Hr).
      exists (S k), s2, e2. by rewrite (bind_Ret _ _ _ _ _ E2).
    + by exists 0%nat, s1, e1.
Qed.

End Packet.

(** C9: a socket whose count of length bytes is 0 and that holds no block (the
    constructors set neither) and whose pool grants a block of the size of the
    packet: a packet of the LV format with a body that is not empty, which comes
    in any number of pieces, cut anywhere (also inside the length field or across
    the end of the packet), is put together by [BinTcpSocket]: no more calls than
    pieces return 0, then one returns 1; the block then holds exactly the packet,
    and what follows the packet has not been read.  But the count of the bytes of the length field
    stays at 4: when the caller has taken the block, the next call dereferences
    the null pointer, whatever has come. *)
Theorem packet_assembled e segs f body rest b0 p1 :
  derived (sk e) = BinTcpSocket f 0 -> length f = 4%nat -> recv_mb_ (sk e) = None ->
  pieces segs e -> concat segs = lv_packet body ++ rest -> body <> [] ->
  zlen (lv_packet body) <= int_max ->
  source_ok (pool e) -> get_block (zlen (lv_packet body)) (pool e) = Ret (Some b0) p1 ->
  exists k segs' e' b,
    poll (length segs) e = Ret (replicate k 0 ++ [1]) e' /\
    recv_mb_ (sk e') = Some b /\ take (Z.to_nat (used_ b)) (mem_ b) = lv_packet body /\
    pieces segs' e' /\ concat segs' = rest /\
    forall e2, derived (sk e2) = derived (sk e') -> recv_mb_ (sk e2) = None ->
      exists e3, ReadHandler e2 = Halt HUndefined e3.
Proof.
  intros Hd Hf Hr Hp Hc Hb Hmax Hok Hget.
  destruct (poll_progress body rest b0 (pool e) p1 Hb Hmax Hok Hget (length segs) segs e)
    as (k & segs' & e' & E & Hp' & Hc' & [f' Hd'] & b & Hrb & Hub & Htb); [done| |].
  - left. exists 0. split_and!; try done. by exists f.
  - exists k, segs', e', b. split_and!; try done; [by rewrite Hub|].
    intros e2 H1 H2. rewrite Hd' in H1. rewrite (ReadHandler_value _ _ H1).
    unfold Bin_read_value. rewrite bind_gets, H2. by eexists.
Qed.

(** ** Lines *)

(** The bytes a block holds. *)
Definition contents (b : MemBlock) : list byte := take (Z.to_nat (used_ b)) (mem_ b).

Lemma scan_back_end m pos1 n c (e : Env) :
  m !! (pos1 + S n)%nat = Some c -> c <> newline -> m !! (pos1 + n)%nat = Some newline -> n <> 0%nat ->
  scan_back m pos1 (S n) e = Ret (pos1 + n)%nat e.
Proof.
  intros H1 H2 H3 H4. cbn [scan_back]. rewrite (bind_of_option _ _ _ _ _ H1).
  destruct (Byte.eqb c newline) eqn:Hc; [by apply Byte.byte_dec_bl in Hc|].
  destruct n as [|n]; [done|]. cbn [scan_back]. by rewrite (bind_of_option _ _ _ _ _ H3).
Qed.

(** The buffer after a piece was read into it. *)
Definition filled (b : MemBlock) (l : list byte) : MemBlock :=
  mkBlock (start_ b) (used_ b + zlen l) (len_ b)
    (take (Z.to_nat (used_ b)) (mem_ b) ++ l ++ drop (Z.to_nat (used_ b) + length l) (mem_ b)).

Lemma filled_facts b pre g :
  let l := pre ++ [newline] in
  let u := Z.to_nat (used_ b) in
  mem_ b !! (u + length l)%nat = Some g ->
  let m := mem_ (filled b l) in
  length m = length (mem_ b) /\ (u + S (length pre) < length m)%nat /\
  m !! (u + S (length pre))%nat = Some g /\ m !! (u + length pre)%nat = Some newline /\
  take (u + S (length pre)) m = contents b ++ l.
Proof.
  intros l u Hg m. assert (Hl : length l = S (length pre)) by (unfold l; rewrite length_app; simpl; lia).
  rewrite Hl in Hg. pose proof (lookup_lt_Some _ _ _ Hg) as Hlt.
  assert (Hm : m = (take u (mem_ b) ++ l) ++ drop (u + S (length pre)) (mem_ b))
    by (unfold m, filled; cbn [mem_]; by rewrite app_assoc, Hl).
  assert (Hlm : length (take u (mem_ b) ++ l) = (u + S (length pre))%nat)
    by (rewrite length_app, length_take, Hl; lia).
  split_and!.
  - rewrite Hm, length_app, Hlm, length_drop. lia.
  - rewrite Hm, length_app, Hlm, length_drop. lia.
  - rewrite Hm, lookup_app_r, Hlm, Nat.sub_diag, lookup_drop by lia. by rewrite Nat.add_0_r.
  - rewrite Hm, lookup_app_l by lia. rewrite lookup_app_r by (rewrite length_take; lia).
    rewrite length_take. replace (u + length pre - _)%nat with (length pre) by lia.
    unfold l. by rewrite lookup_app_r, Nat.sub_diag by lia.
  - rewrite Hm. by rewrite take_app_length' by lia.
Qed.

(** A piece [pre ++ newline] comes behind what the buffer holds; [g] is the byte
    of the buffer behind the piece. *)
Lemma line_read e b pre g r b0 p1 :
  let l := pre ++ [newline] in
  derived (sk e) = LineTcpSocket (Some b) -> recv_mb_ (sk e) = None ->
  input (sys e) = Bytes l :: r -> pre <> [] ->
  0 <= used_ b -> zlen (mem_ b) = len_ b -> len_ b <= int_max ->
  mem_ b !! (Z.to_nat (used_ b) + length l)%nat = Some g -> g <> newline ->
  source_ok (pool e) -> get_block (used_ b + zlen l) (pool e) = Ret (Some b0) p1 ->
  exists e' b' c, ReadHandler e = Ret 1 e' /\ input (sys e') = r /\
    recv_mb_ (sk e') = Some c /\ contents c = contents b ++ l /\
    derived (sk e') = LineTcpSocket (Some b') /\ contents b' = [g] /\ used_ b' = 1 /\
    zlen (mem_ b') = len_ b' /\ len_ b' = len_ b.
Proof.
  intros l Hd Hr Hin Hpre Hu Hm Hi Hg Hgn Hok Hget.
  destruct (filled_facts b pre g Hg) as (H1 & H2 & H3 & H4 & H5). fold l in H1, H2, H3, H4, H5.
  destruct (get_block_ok _ _ _ _ Hok Hget) as [_ Hb0]. destruct (Hb0 b0 eq_refl) as (G1 & G2 & G3 & G4).
  assert (Hl : length l = S (length pre)) by (unfold l; rewrite length_app; simpl; lia).
  assert (Hzl : zlen l = Z.of_nat (S (length pre))) by (unfold zlen; by rewrite Hl).
  assert (Hread : sys_read (to_size (len_ b - used_ b)) e =
                    Ret l (with_sys (mkSys r (errno_ (sys e)) (wire (sys e))) e)).
  { unfold sys_read. rewrite bind_gets. unfold zlen, int_max in *. rewrite to_size_id by lia.
    destruct (Z.eqb_spec (len_ b - used_ b) 0); [lia|]. rewrite Hin.
    rewrite drop_ge, take_ge by lia. by rewrite bool_decide_eq_true_2. }
  unfold ReadHandler. rewrite bind_gets, Hd. unfold Line_ReadHandler.
  rewrite (bind_of_option _ _ _ _ _ eq_refl), (bind_Ret _ _ _ _ _ Hread).
  assert (Hne : l <> []) by (by destruct pre). destruct l as [|c0 l0] eqn:El; [done|].
  rewrite <- El in *. clear Hne.
  rewrite (bind_Ret _ _ _ _ _ (block_write_eq (used_ b) l b _ Hu ltac:(unfold zlen in *; lia))).
  cbn zeta. rewrite bind_modify. change (set_used (used_ b + zlen l) _) with (filled b l).
  rewrite Hl. rewrite (bind_Ret _ _ _ _ _ (scan_back_end _ _ _ _ _ H3 Hgn H4 ltac:(by destruct pre))).
  destruct (Nat.eqb_spec (Z.to_nat (used_ b) + length pre) (Z.to_nat (used_ b))); [destruct pre; [done|simpl in *; lia]|].
  rewrite bind_gets. cbn [sk on_sk set_derived recv_mb_ with_sys]. rewrite Hr, bind_assert by done.
  erewrite bind_Ret; cycle 1.
  { unfold on_pool. cbn [pool on_sk with_sys].
    replace (Z.of_nat (Z.to_nat (used_ b) + length pre) + 1) with (used_ b + zlen l) by lia.
    rewrite Hget. reflexivity. }
  rewrite (bind_of_option _ _ _ _ _ eq_refl).
  replace (S (Z.to_nat (used_ b) + length pre)) with (Z.to_nat (used_ b) + S (length pre))%nat by lia.
  rewrite H5. assert (Hlc : zlen (contents b ++ l) = used_ b + zlen l).
  { rewrite <- H5. unfold zlen. rewrite length_take. unfold zlen in *. lia. }
  rewrite (bind_Ret _ _ _ _ _ (block_write_eq 0 (contents b ++ l) b0 _ ltac:(lia) ltac:(lia))), bind_modify.
  replace (used_ b + zlen l - Z.of_nat _) with 1 by lia.
  rewrite (proj2 (Z.ltb_ge _ _)) by (unfold zlen; rewrite H1; unfold zlen in *; lia).
  rewrite bind_ret.
  replace (S (Z.to_nat (used_ b) + length pre)) with (Z.to_nat (used_ b) + S (length pre))%nat by lia.
  change (Z.to_nat 1) with 1%nat.
  rewrite (take_S_r _ 0 g) by (rewrite lookup_drop, Nat.add_0_r; exact H3). rewrite take_0. cbn [app].
  rewrite (bind_Ret _ _ _ _ _ (block_write_eq 0 [g] (filled b l) _ ltac:(lia)
    ltac:(unfold zlen in *; rewrite H1; simpl; lia))), bind_modify.
  change (Z.to_nat 0) with 0%nat. rewrite !take_0. cbn [app length].
  do 3 eexists. split; [reflexivity|]. cbn [sk on_sk set_derived set_recv_mb recv_mb_ derived sys with_sys input with_pool].
  split_and!; try done.
  - unfold contents at 1. cbn [set_used used_ mem_]. rewrite take_app_length' by (unfold zlen in Hlc; lia). done.
  - change (Z.of_nat (S (length (drop 1 (mem_ (filled b l))))) = len_ b).
    rewrite length_drop, H1. unfold zlen in *. lia.
Qed.

(** A line that comes in one piece, with what the buffer held before it, is
    given out whole; but one byte too many is kept: the byte [g] of the buffer
    behind the line, which was never received.  The next line is given out with
    that byte in front. *)
Theorem line_then_garbage e b pre g r b0 p1 :
  derived (sk e) = LineTcpSocket (Some b) -> recv_mb_ (sk e) = None ->
  input (sys e) = Bytes (pre ++ [newline]) :: r -> pre <> [] ->
  0 <= used_ b -> zlen (mem_ b) = len_ b -> len_ b <= int_max ->
  mem_ b !! (Z.to_nat (used_ b) + length (pre ++ [newline]))%nat = Some g -> g <> newline ->
  source_ok (pool e) -> get_block (used_ b + zlen (pre ++ [newline])) (pool e) = Ret (Some b0) p1 ->
  exists e1 b1 line1,
    ReadHandler e = Ret 1 e1 /\ recv_mb_ (sk e1) = Some line1 /\
    contents line1 = contents b ++ pre ++ [newline] /\
    derived (sk e1) = LineTcpSocket (Some b1) /\
    forall e2 pre2 g2 r2 b2 p2,
      derived (sk e2) = derived (sk e1) -> recv_mb_ (sk e2) = None ->
      input (sys e2) = Bytes (pre2 ++ [newline]) :: r2 -> pre2 <> [] ->
      mem_ b1 !! (1 + length (pre2 ++ [newline]))%nat = Some g2 -> g2 <> newline ->
      source_ok (pool e2) -> get_block (1 + zlen (pre2 ++ [newline])) (pool e2) = Ret (Some b2) p2 ->
      exists e3 line2, ReadHandler e2 = Ret 1 e3 /\ recv_mb_ (sk e3) = Some line2 /\
        contents line2 = g :: pre2 ++ [newline].
Proof.
  intros Hd Hr Hin Hpre Hu Hm Hi Hg Hgn Hok Hget.
  destruct (line_read e b pre g r b0 p1 Hd Hr Hin Hpre Hu Hm Hi Hg Hgn Hok Hget)
    as (e1 & b1 & c1 & E1 & _ & Hc1 & Hcc & Hd1 & Hg1 & Hu1 & Hm1 & Hi1).
  exists e1, b1, c1. split_and!; try done.
  intros e2 pre2 g2 r2 b2 p2 Hd2 Hr2 Hin2 Hpre2 Hg2 Hgn2 Hok2 Hget2. rewrite Hd1 in Hd2.
  edestruct (line_read e2 b1 pre2 g2 r2 b2 p2 Hd2 Hr2 Hin2 Hpre2)
    as (e3 & b3 & c3 & E3 & _ & Hc3 & Hcc3 & _); rewrite ?Hu1; try done; [lia|].
  exists e3, c3. split_and!; [done|done|]. by rewrite Hcc3, Hg1.
Qed.

(** ** Sending *)

(** What a socket has to send: the contents of its blocks. *)
Definition to_send (x : Socket) : list byte := concat (map offered (send_mb_list_ x)).

(** The pool takes the blocks back, one after the other, and is [p'] then. *)
Fixpoint takes_back (l : list MemBlock) (p p' : source) : Prop :=
  match l with
  | [] => p' = p
  | b :: l' => exists p1, give_block b p = Ret tt p1 /\ takes_back l' p1 p'
  end.

Definition sum_used (l : list MemBlock) : Z := foldr (fun b z => used_ b + z) 0 l.

Lemma drop_sent_blocks l r n lens p (e : Env) :
  send_mb_list_ (sk e) = l ++ r -> takes_back l (pool e) p -> 0 <= n -> Forall (fun b => 0 <= used_ b) l ->
  drop_sent (map used_ l ++ lens) (sum_used l + n) e =
    drop_sent lens n (mkEnv (set_send_list r (font_mb_cur_pos_ (sk e)) (sk e)) p (sys e)).
Proof.
  revert e. induction l as [|b l IH]; intros e Hl Hg Hn Hu.
  - simpl in *. rewrite Hg, <- Hl. by destruct e as [[] ? ?].
  - apply list.Forall_cons in Hu as [Hb Hu].
    assert (Hsum : 0 <= sum_used l).
    { clear -Hu. induction Hu; simpl; lia. }
    cbn [map app drop_sent]. rewrite bind_gets, Hl. cbn [app].
    rewrite (proj2 (Z.leb_le _ _)) by (simpl; lia). rewrite bind_modify.
    destruct Hg as (p1 & Hp1 & Hg).
    assert (Hpool : on_pool (give_block b) (on_sk (set_send_list (l ++ r) (font_mb_cur_pos_ (sk e))) e) =
                    Ret tt (mkEnv (set_send_list (l ++ r) (font_mb_cur_pos_ (sk e)) (sk e)) p1 (sys e)))
      by (unfold on_pool; cbn [pool on_sk]; by rewrite Hp1).
    rewrite (bind_Ret _ _ _ _ _ Hpool).
    replace (sum_used (b :: l) + n - used_ b) with (sum_used l + n) by (simpl; lia).
    exact (IH (mkEnv (set_send_list (l ++ r) (font_mb_cur_pos_ (sk e)) (sk e)) p1 (sys e)) eq_refl Hg Hn Hu).
Qed.

(** One turn of the loop. *)
Lemma drop_sent_cons m lens n (e : Env) :
  drop_sent (m :: lens) n e =
    if m <=? n then
      match send_mb_list_ (sk e) with
      | [] => Halt HUndefined e
      | b :: r => bindM (on_pool (give_block b)) (fun _ => drop_sent lens (n - m))
                    (on_sk (set_send_list r (font_mb_cur_pos_ (sk e))) e)
      end
    else Ret tt (on_sk (set_send_list (send_mb_list_ (sk e)) n) e).
Proof.
  cbn [drop_sent]. rewrite bind_gets. destruct (m <=? n); [|done]. by destruct (send_mb_list_ (sk e)).
Qed.

Lemma drop_sent_sys lens n (e e' : Env) : drop_sent lens n e = Ret tt e' -> sys e' = sys e.
Proof.
  revert n e. induction lens as [|m lens IH]; intros n e; cbn [drop_sent]; [by intros [= <-]|].
  rewrite bind_gets. destruct (m <=? n); [|intros E; by injection E as <-].
  destruct (send_mb_list_ (sk e)); [done|]. rewrite bind_modify. intros E.
  apply bind_Ret_inv in E as ([] & e1 & E1 & E). rewrite (IH _ _ E). unfold on_pool in E1.
  destruct (give_block _ _); [by injection E1 as _ <-|done].
Qed.

Lemma vec_all (l : list MemBlock) : (length l < MAX_IOVEC_NUM)%nat -> take (MAX_IOVEC_NUM - 1) l = l.
Proof. intros. apply take_ge. unfold MAX_IOVEC_NUM in *. lia. Qed.

(** When the list is sent whole, the loop goes on to an entry of the vector that
    was never filled: by what the array holds there the handler returns 1, as it
    should, or takes a block off the empty list. *)
Lemma write_all garbage e p :
  let l := send_mb_list_ (sk e) in
  (length l < MAX_IOVEC_NUM)%nat -> takes_back l (pool e) p -> Forall (fun b => 0 <= used_ b) l -> 0 < sum_used l ->
  if 0 <? garbage
  then exists e', WriteHandler garbage (Wrote (sum_used l)) e = Ret 1 e' /\ send_mb_list_ (sk e') = [] /\ pool e' = p
  else exists e', WriteHandler garbage (Wrote (sum_used l)) e = Halt HUndefined e'.
Proof.
  intros l Hlen Hg Hu Hs. unfold WriteHandler. rewrite bind_gets, bind_gets.
  fold l. rewrite (vec_all l Hlen). destruct (Z.leb_spec (sum_used l) 0); [lia|]. rewrite bind_modify.
  set (e1 := with_sys _ e).
  pose proof (drop_sent_blocks l [] 0 [garbage] p e1 ltac:(by rewrite app_nil_r) Hg ltac:(lia) Hu) as E.
  rewrite Z.add_0_r, drop_sent_cons in E. cbn [sk set_send_list send_mb_list_] in E.
  destruct (Z.ltb_spec 0 garbage); unfold bindM at 1; rewrite E.
  - rewrite (proj2 (Z.leb_gt garbage 0)) by done. eexists. split; [reflexivity|done].
  - rewrite (proj2 (Z.leb_le garbage 0)) by done. by eexists.
Qed.

(** C27: when [writev] takes the blocks [l] whole and [k] bytes of the next one,
    the pool afterwards is the pool with the blocks [l] given back in order, the
    count is kept, and 0 is returned; but
    the count is not used: whatever the next call writes starts with the first
    byte of that block again, so [k] bytes are sent twice. *)
Theorem write_resends garbage e l b r k p :
  send_mb_list_ (sk e) = l ++ b :: r -> (length (l ++ b :: r) < MAX_IOVEC_NUM)%nat ->
  takes_back l (pool e) p -> Forall (fun b => 0 <= used_ b) l -> 0 <= k < used_ b -> 0 < sum_used l + k ->
  exists e1, WriteHandler garbage (Wrote (sum_used l + k)) e = Ret 0 e1 /\
    wire (sys e1) = wire (sys e) ++ take (Z.to_nat (sum_used l + k)) (to_send (sk e)) /\
    send_mb_list_ (sk e1) = b :: r /\ font_mb_cur_pos_ (sk e1) = k /\ pool e1 = p /\
    forall garbage2 n z e2, 0 < n -> WriteHandler garbage2 (Wrote n) e1 = Ret z e2 ->
      wire (sys e2) = wire (sys e1) ++ take (Z.to_nat n) (offered b ++ concat (map offered r)).
Proof.
  intros Hl Hlen Hg Hu Hk Hn. unfold WriteHandler at 1. rewrite bind_gets, bind_gets, Hl, (vec_all _ Hlen).
  destruct (Z.leb_spec (sum_used l + k) 0); [lia|]. rewrite bind_modify.
  set (e1 := with_sys _ e).
  pose proof (drop_sent_blocks l (b :: r) k (used_ b :: map used_ r ++ [garbage]) p e1 Hl Hg ltac:(lia) Hu) as E.
  rewrite map_app, <- app_assoc. cbn [map app].
  rewrite drop_sent_cons, (proj2 (Z.leb_gt (used_ b) k)) in E by lia. rewrite (bind_Ret _ _ _ _ _ E), bind_gets. cbn [sk on_sk set_send_list send_mb_list_].
  eexists. split; [reflexivity|]. split_and!; [|done|done|done|].
  - cbn [sys on_sk e1 with_sys wire]. unfold to_send. by rewrite Hl.
  - intros g2 n z e2 Hn2 E2. unfold WriteHandler in E2. rewrite bind_gets, bind_gets in E2.
    destruct (Z.leb_spec n 0); [lia|]. rewrite bind_modify in E2.
    apply bind_Ret_inv in E2 as ([] & e3 & E3 & E2). rewrite bind_gets in E2. injection E2 as _ <-.
    rewrite (drop_sent_sys _ _ _ _ E3). cbn [sys with_sys wire sk on_sk set_send_list send_mb_list_].
    rewrite vec_all; [done|]. rewrite length_app in Hlen. simpl in *. lia.
Qed.

End Read.
