(* ===== verification/LeFrame.v ===== *)
(** * The frame of the libevent generation: [netframe.cc], [socket_pool.cc]

    [NetFrame] watches sockets with libevent, puts the packets it reads into
    queues from which the workers take them, and sends what the workers put into
    the send queues; [SocketPool] keeps the sockets by address and type.

    The text does not compile as it stands.  It is read as follows:
    [it->second.pop()] takes the first element of the list; [map_it->erase] and
    [it++] of the loops over a list are [map_it->second.erase] and [list_it++];
    [to_ipstr] and [to_port] of [SendQueuesHandler] are those of the packet;
    [event_concern ^= (~EV_WRITE)], on a member that is not declared, stops
    watching for writing, as its comment says; [recv_mb_->Return()] gives the
    block back to the pool.  libevent is outside of the repository: the events
    that are watched are recorded, and what it answers is an argument. *)

From S2P Require Import Prelude Wire LeMem LeSocket.

#[global] Instance SocketType_countable : Countable SocketType.
Proof.
  refine (inj_countable'
    (fun t => match t with T_TCP_LISTEN => 0 | T_TCP_CLIENT => 1 | T_TCP_SERVER => 2
                         | T_UDP_CLIENT => 3 | T_UDP_SERVER => 4 end)
    (fun z => match z with 0 => T_TCP_LISTEN | 1 => T_TCP_CLIENT | 2 => T_TCP_SERVER
                         | 3 => T_UDP_CLIENT | _ => T_UDP_SERVER end) _).
  by intros [].
Defined.

(** [SocketPool::SocketKey]: address, port and type. *)
Definition SocketKey : Type := list byte * Z * SocketType.

(** [class Message]. *)
Record Message := mkMessage {
  create_time_ : Z;
  m_peer_ipstr_ : list byte;
  m_peer_port_ : Z;
  m_my_ipstr_ : list byte;
  m_my_port_ : Z;
  sk_type_ : SocketType;
  m_data_format_ : DataFormat;
  data_ : option MemBlock
}.

Section Frame.
  Context {Src : BlockSource}.

(** The frame with its pool of sockets and the pool of memory.  A [Socket*] is an
    address in [heap]; [now_] is the clock; [monitored] lists the sockets given to
    libevent, with whether reading and writing are watched. *)
Record NetFrame := mkFrame {
  heap : gmap N (Socket * Sys);
  next_ptr : N;
  socket_map_ : gmap SocketKey (list N);
  recv_queues_ : list (list Message);
  max_recv_queue_size_ : Z;
  send_queues_ : list (list Message);
  max_send_queue_size_ : Z;
  monitored : list (N * (bool * bool));
  mem : source;
  now_ : Z
}.

Definition with_heap h s := mkFrame h (next_ptr s) (socket_map_ s) (recv_queues_ s)
  (max_recv_queue_size_ s) (send_queues_ s) (max_send_queue_size_ s) (monitored s) (mem s) (now_ s).
Definition with_map m s := mkFrame (heap s) (next_ptr s) m (recv_queues_ s)
  (max_recv_queue_size_ s) (send_queues_ s) (max_send_queue_size_ s) (monitored s) (mem s) (now_ s).
Definition with_recv q s := mkFrame (heap s) (next_ptr s) (socket_map_ s) q
  (max_recv_queue_size_ s) (send_queues_ s) (max_send_queue_size_ s) (monitored s) (mem s) (now_ s).
Definition with_send q s := mkFrame (heap s) (next_ptr s) (socket_map_ s) (recv_queues_ s)
  (max_recv_queue_size_ s) q (max_send_queue_size_ s) (monitored s) (mem s) (now_ s).
Definition with_monitored l s := mkFrame (heap s) (next_ptr s) (socket_map_ s) (recv_queues_ s)
  (max_recv_queue_size_ s) (send_queues_ s) (max_send_queue_size_ s) l (mem s) (now_ s).
Definition with_mem p s := mkFrame (heap s) (next_ptr s) (socket_map_ s) (recv_queues_ s)
  (max_recv_queue_size_ s) (send_queues_ s) (max_send_queue_size_ s) (monitored s) p (now_ s).

(** [NetFrame(send_queue_num, recv_queue_num)]; the two maximal sizes are left as
    the memory was.  For a number that is not positive nothing is built. *)
Definition new_NetFrame (send_queue_num recv_queue_num garbage1 garbage2 : Z) (p : source) (now : Z) :
    option NetFrame :=
  if (recv_queue_num <=? 0) || (send_queue_num <=? 0) then None
  else Some (mkFrame ∅ 0 ∅ (replicate (Z.to_nat recv_queue_num) []) garbage1
               (replicate (Z.to_nat send_queue_num) []) garbage2 [] p now).

Definition deref (p : N) : M NetFrame (Socket * Sys) :=
  let! h := gets heap in of_option HUndefined (h !! p).

(** A handler of the socket [p]. *)
Definition on_socket {A} (p : N) (m : M Env A) : M NetFrame A := fun s =>
  match heap s !! p with
  | None => Halt HUndefined s
  | Some (x, y) =>
      match m (mkEnv x (mem s) y) with
      | Ret a e => Ret a (with_mem (pool e) (with_heap (<[p := (sk e, sys e)]> (heap s)) s))
      | Halt h e => Halt h (with_mem (pool e) (with_heap (<[p := (sk e, sys e)]> (heap s)) s))
      end
  end.

Definition update (p : N) (f : Socket -> Socket) : M NetFrame unit := on_socket p (modify (on_sk f)).

Definition on_mem {A} (m : M source A) : M NetFrame A := fun s =>
  match m (mem s) with Ret a p => Ret a (with_mem p s) | Halt h p => Halt h (with_mem p s) end.

(** The destructor of the class of the socket, which comes before that of
    [Socket]: [LineTcpSocket] and [HttpTcpSocket] give their buffer back, and
    [ReturnMemBlock] dereferences what it is given. *)
Definition destroy_derived (d : Derived) : M NetFrame unit :=
  match d with
  | BinTcpSocket _ _ => ret tt
  | LineTcpSocket buf | HttpTcpSocket buf =>
      let! b := of_option HUndefined buf in on_mem (give_block b)
  end.

(** [delete sk]: after the destructor of its class that of [Socket] gives the
    receive block and the blocks to send back to the pool; a null receive block is
    dereferenced. *)
Definition delete_socket (p : N) : M NetFrame unit :=
  let! x := deref p in
  destroy_derived (derived x.1) ;;!
  let! b := of_option HUndefined (recv_mb_ x.1) in
  on_mem (give_block b) ;;!
  forM (send_mb_list_ x.1) (fun b => on_mem (give_block b)) ;;!
  modify (fun s => with_heap (delete p (heap s)) s).

(** ** [SocketPool] *)

(** The key of a socket; that of a UDP socket is never set. *)
Definition key_of (x : Socket) : option SocketKey :=
  match type_ x with
  | T_TCP_CLIENT | T_TCP_SERVER => Some (peer_ipstr_ x, peer_port_ x, type_ x)
  | T_TCP_LISTEN => Some (my_ipstr_ x, my_port_ x, type_ x)
  | _ => None
  end.

Definition FindSocket (key : SocketKey) : M NetFrame (option N) :=
  let! m := gets socket_map_ in
  match m !! key with
  | None => ret None
  | Some [] => stop HUndefined
  | Some (p :: l) => modify (with_map (<[key := l]> m)) ;;! ret (Some p)
  end.

Definition AddSocket (p : N) : M NetFrame Z :=
  let! x := deref p in
  let! key := of_option HUndefined (key_of x.1) in
  let! m := gets socket_map_ in
  match m !! key with
  | Some l => modify (with_map (<[key := l ++ [p]]> m)) ;;! ret 1
  | None => modify (with_map (<[key := [p]]> m)) ;;! ret 0
  end.

(** [erase(++list_it)] removes the element behind [sk], or dereferences the end,
    and the loop goes on with an iterator that is no longer valid: when [sk] is in
    its list the behaviour is undefined. *)
Definition DestroySocket (p : N) : M NetFrame Z :=
  let! x := deref p in
  let! key := of_option HUndefined (key_of x.1) in
  let! m := gets socket_map_ in
  match m !! key with
  | None => ret (-2)
  | Some l =>
      if bool_decide (p ∈ l) then stop HUndefined
      else delete_socket p ;;! ret 0
  end.

(** Whether [SweepIdleSocket] takes a socket. *)
Definition is_idle (now max_idle_sec : Z) (x : Socket) : bool := max_idle_sec <? now - last_use_ x.

(** The loop over one list: the sockets that stay, and how many were deleted. *)
Fixpoint sweep_list (max_idle_sec : Z) (l : list N) : M NetFrame (list N * Z) :=
  match l with
  | [] => ret ([], 0)
  | p :: l' =>
      let! x := deref p in
      let! now := gets now_ in
      if is_idle now max_idle_sec x.1 then
        delete_socket p ;;!
        let! r := sweep_list max_idle_sec l' in
        ret (r.1, r.2 + 1)
      else
        let! r := sweep_list max_idle_sec l' in
        ret (p :: r.1, r.2)
  end.

(** The loop over the map, whose entries are given in its order.  For a list that
    is empty afterwards [erase(++map_it)] removes another entry, or the end, and
    the iterator is not valid any more. *)
Fixpoint sweep_map (max_idle_sec : Z) (entries : list (SocketKey * list N)) : M NetFrame Z :=
  match entries with
  | [] => ret 0
  | (key, l) :: r =>
      let! kept := sweep_list max_idle_sec l in
      modify (fun s => with_map (<[key := kept.1]> (socket_map_ s)) s) ;;!
      match kept.1 with
      | [] => stop HUndefined
      | _ => let! n := sweep_map max_idle_sec r in ret (kept.2 + n)
      end
  end.

Definition SweepIdleSocket (max_idle_sec : Z) : M NetFrame Z :=
  let! m := gets socket_map_ in sweep_map max_idle_sec (map_to_list m).

(** The members a new object finds in its memory: the receive block, the length
    field and its count, the buffer. *)
Record Garbage := mkGarbage {
  g_recv : option MemBlock;
  g_len_field : list byte;
  g_len_field_read : Z;
  g_buf : option MemBlock
}.

(** [new] of a class whose members hold [d]. *)
Definition new_object (g : Garbage) (d : Derived) : M NetFrame (option N) :=
  let! p := gets next_ptr in
  modify (fun s => mkFrame (<[p := (new_Socket (now_ s) (g_recv g) d, mkSys [] 0 [])]> (heap s)) (p + 1)%N
    (socket_map_ s) (recv_queues_ s) (max_recv_queue_size_ s) (send_queues_ s)
    (max_send_queue_size_ s) (monitored s) (mem s) (now_ s)) ;;!
  ret (Some p).

(** [new BinTcpSocket], [new LineTcpSocket], [new HttpTcpSocket], by the format. *)
Definition new_by_format (g : Garbage) (f : DataFormat) : M NetFrame (option N) :=
  match f with
  | DF_BIN => new_object g (BinTcpSocket (g_len_field g) (g_len_field_read g))
  | DF_LINE => let! d := on_mem (new_LineTcpSocket (g_buf g)) in new_object g d
  | DF_HTTP =>
      let! mb := on_mem (get_block NON_PACKETIZED_BUFFER_SIZE) in
      new_object g (HttpTcpSocket (match mb with Some b => Some b | None => g_buf g end))
  | _ => ret None
  end.

(** The new object is prepared and added, whatever the preparation returned. *)
Definition create (g : Garbage) (f : DataFormat) (prepare : Socket -> Z * Socket) : M NetFrame (option N) :=
  let! o := new_by_format g f in
  match o with
  | None => ret None
  | Some p => update p (fun x => (prepare x).2) ;;! AddSocket p ;;! ret (Some p)
  end.

(** The pointer is -2 when the socket exists already. *)
Definition CreateListenSocket (g : Garbage) (c : SockCalls) (ip : list byte) (pt : Z)
    (type : SocketType) (f : DataFormat) : M NetFrame (Z + option N) :=
  let! o := FindSocket (ip, pt, type) in
  match o with
  | Some _ => ret (inl (-2))
  | None =>
      match type with
      | T_TCP_LISTEN => let! r := create g f (PrepareListenSocket c ip pt type f) in ret (inr r)
      | _ => ret (inr None)
      end
  end.

Definition CreateClientSocket (g : Garbage) (c : SockCalls) (ip : list byte) (pt : Z)
    (type : SocketType) (f : DataFormat) : M NetFrame (option N) :=
  match type with
  | T_TCP_CLIENT => create g f (PrepareClientSocket c ip pt type f)
  | _ => ret None
  end.

Definition CreateServerSocket (g : Garbage) (c : SockCalls) (fd : Z)
    (type : SocketType) (f : DataFormat) : M NetFrame (option N) :=
  match type with
  | T_TCP_SERVER => create g f (PrepareServerSocket c fd type f)
  | _ => ret None
  end.

(** ** [NetFrame] *)

(** The setters: -1, or no value at all (the functions end without a return). *)
Definition set_max_recv_queue_size (max_size : Z) : M NetFrame (option Z) :=
  if max_size <=? 0 then ret (Some (-1))
  else
    modify (fun s => mkFrame (heap s) (next_ptr s) (socket_map_ s) (recv_queues_ s) max_size
      (send_queues_ s) (max_send_queue_size_ s) (monitored s) (mem s) (now_ s)) ;;!
    ret None.
Definition set_max_send_queue_size (max_size : Z) : M NetFrame (option Z) :=
  if max_size <=? 0 then ret (Some (-1))
  else
    modify (fun s => mkFrame (heap s) (next_ptr s) (socket_map_ s) (recv_queues_ s)
      (max_recv_queue_size_ s) (send_queues_ s) max_size (monitored s) (mem s) (now_ s)) ;;!
    ret None.

(** What libevent answers to [event_base_set] and [event_add]. *)
Record EventCalls := mkEventCalls { ev_base_set : Z; ev_add : Z }.

(** A null pointer is [None]. *)
Definition AddSocketToMonitor (ev : EventCalls) (o : option N) : M NetFrame Z :=
  match o with
  | None => ret (-1)
  | Some p =>
      let! x := deref p in
      if ev_base_set ev =? -1 then ret (-2)
      else if ev_add ev =? -1 then ret (-2)
      else
        modify (fun s => with_monitored
          (monitored s ++ [(p, (want_to_read_ x.1, want_to_write_ x.1))]) s) ;;!
        ret 0
  end.

(** A turn of the search for the shortest queue, which has found [size] for the
    queue [i]: [best] is [tmp_min] and [tmp_which]. *)
Definition look_at_queue (size i : Z) (best : Z * Z) : Z * Z :=
  if size <? best.1 then (size, i) else best.

(** The search over the sizes it finds.  It takes no lock: the sizes need not be
    those of the queues at one moment. *)
Fixpoint shortest (sizes : list Z) (i : Z) (best : Z * Z) : Z * Z :=
  match sizes with
  | [] => best
  | size :: r => shortest r (i + 1) (look_at_queue size i best)
  end.

(** The rest of the function, under the lock of the queue that was found.  The
    condition variable of the queue is signalled when the queue was empty: the
    second component of the result. *)
Definition push_locked (tmp_which : Z) (in_pack : Message) : M NetFrame (Z * option Z) :=
  let! s := gets (fun s => s) in
  let! q := of_option HUndefined (recv_queues_ s !! Z.to_nat tmp_which) in
  if zlen q =? max_recv_queue_size_ s then ret (-2, None)
  else
    modify (with_recv (<[Z.to_nat tmp_which := q ++ [in_pack]]> (recv_queues_ s))) ;;!
    ret (0, if zlen (q ++ [in_pack]) =? 1 then Some tmp_which else None).

(** A packet that is not null, when no worker comes between the search and the
    lock; [LeQueues] has the steps with the workers between them. *)
Definition PushMessageToRecvQueue (in_pack : Message) : M NetFrame (Z * option Z) :=
  let! s := gets (fun s => s) in
  push_locked (shortest (map zlen (recv_queues_ s)) 0 (int_max, 0)).2 in_pack.

(** [GetMessageFromRecvQueue]: the code, and the packet or none when the caller
    has to wait. *)
Definition GetMessageFromRecvQueue (which_queue : Z) : M NetFrame (Z * option Message) :=
  let! s := gets (fun s => s) in
  if (which_queue <? 0) || (zlen (recv_queues_ s) <=? which_queue) then ret (-1, None)
  else
    let! q := of_option HUndefined (recv_queues_ s !! Z.to_nat which_queue) in
    match q with
    | [] => ret (0, None)
    | pack :: r =>
        modify (with_recv (<[Z.to_nat which_queue := r]> (recv_queues_ s))) ;;! ret (0, Some pack)
    end.

Definition AsyncSend (to_ipstr : list byte) (to_port : Z) (my_ipstr : list byte) (my_port : Z)
    (data : option MemBlock) (type : SocketType) (data_format : DataFormat) (which_queue : Z) : M NetFrame Z :=
  if bool_decide (to_ipstr = []) || (to_port =? 0) ||
     (negb (bool_decide (type = T_TCP_CLIENT)) && negb (bool_decide (type = T_UDP_CLIENT)))
  then ret (-1)
  else
    let! s := gets (fun s => s) in
    if which_queue <? 0 then stop HUndefined
    else
      let! q := of_option HUndefined (send_queues_ s !! Z.to_nat which_queue) in
      let pkt := mkMessage (now_ s) to_ipstr to_port my_ipstr my_port type data_format data in
      modify (with_send (<[Z.to_nat which_queue := q ++ [pkt]]> (send_queues_ s))) ;;!
      ret 0.

(** What the system answers while one event is handled. *)
Record Answers := mkAnswers {
  a_write : WriteAnswer;
  a_vec : Z;
  a_error : option Z;
  a_calls : SockCalls;
  a_events : EventCalls;
  a_accept : Z;
  a_garbage : Garbage
}.

(** After a failed write a client connects again. *)
Definition reconnect (a : Answers) (p : N) : M NetFrame unit :=
  let! x := deref p in
  if Reconnect (a_calls a) x.1 =? 0 then AddSocketToMonitor (a_events a) (Some p) ;;! ret tt
  else DestroySocket p ;;! ret tt.

(** The parts of [SocketCallback]: whether it goes on. *)
Definition callback_read (p : N) : M NetFrame bool :=
  let! r := on_socket p ReadHandler in
  if r <? 0 then DestroySocket p ;;! ret false
  else if r =? 1 then
    let! x := deref p in
    let! now := gets now_ in
    let pkt_read := mkMessage now (peer_ipstr_ x.1) (peer_port_ x.1) (my_ipstr_ x.1) (my_port_ x.1)
                      (type_ x.1) (data_format_ x.1) (recv_mb_ x.1) in
    update p (set_recv_mb None) ;;!
    let! z := PushMessageToRecvQueue pkt_read in
    ret (negb (z.1 =? -1))
  else ret true.

Definition callback_write (a : Answers) (p : N) : M NetFrame bool :=
  let! r := on_socket p (WriteHandler (a_vec a) (a_write a)) in
  if r <? 0 then
    let! x := deref p in
    (if bool_decide (type_ x.1 = T_TCP_SERVER) then DestroySocket p ;;! ret tt else reconnect a p) ;;!
    ret false
  else if r =? 1 then
    update p (fun x => mkSocket (fd_ x) (type_ x) (status_ x) (data_format_ x) (my_ipstr_ x) (my_port_ x)
      (peer_ipstr_ x) (peer_port_ x) (want_to_read_ x) false (last_use_ x) (retry_times_ x) (recv_mb_ x)
      (send_mb_list_ x) (font_mb_cur_pos_ x) (derived x)) ;;!
    AddSocketToMonitor (a_events a) (Some p) ;;! ret true
  else ret true.

Definition callback_connect (a : Answers) (p : N) : M NetFrame bool :=
  let '(code, error) := GetSocketError (a_error a) in
  if (code <? 0) || negb (error =? 0) then DestroySocket p ;;! ret false
  else
    let! r := on_socket p (WriteHandler (a_vec a) (a_write a)) in
    if r <? 0 then reconnect a p ;;! ret false else ret true.

Definition callback_accept (a : Answers) (p : N) : M NetFrame unit :=
  let! x := deref p in
  let! newsk := CreateServerSocket (a_garbage a) (a_calls a) (a_accept a) (type_ x.1) (data_format_ x.1) in
  AddSocketToMonitor (a_events a) newsk ;;! ret tt.

(** [SocketCallback].  The tests [events_concern | EV_READ] and the like always
    hold, so the status alone decides. *)
Definition SocketCallback (a : Answers) (p : N) : M NetFrame unit :=
  let! x := deref p in
  let! go := (if bool_decide (status_ x.1 = S_ESTABLISHED) then callback_read p else ret true) in
  if negb go then ret tt
  else
    let! x := deref p in
    let! go := (if bool_decide (status_ x.1 = S_ESTABLISHED) then callback_write a p else ret true) in
    if negb go then ret tt
    else
      let! x := deref p in
      let! go := (if bool_decide (status_ x.1 = S_CONNECTING) then callback_connect a p else ret true) in
      if negb go then ret tt
      else
        let! x := deref p in
        if bool_decide (status_ x.1 = S_LISTEN) then callback_accept a p else ret tt.

(** Giving the data of a packet up. *)
Definition drop_packet (pkt : Message) : M NetFrame unit :=
  match data_ pkt with
  | None => stop HUndefined
  | Some b => on_mem (give_block b)
  end.

(** The socket could not be set up: [DestroySocket] and the block. *)
Definition abandon (p : N) (pkt : Message) : M NetFrame unit := DestroySocket p ;;! drop_packet pkt.

(** One turn of the loop of [SendQueuesHandler]; a packet without data hands a
    null block to the socket. *)
Definition send_packet (a : Answers) (pkt : Message) : M NetFrame unit :=
  let! now := gets now_ in
  let! o := FindSocket (m_peer_ipstr_ pkt, m_peer_port_ pkt, sk_type_ pkt) in
  match o with
  | Some p =>
      let! b := of_option HUndefined (data_ pkt) in
      update p (PushDataToSend b now)
  | None =>
      if negb (bool_decide (sk_type_ pkt = T_TCP_CLIENT)) then drop_packet pkt
      else
        let! o := CreateClientSocket (a_garbage a) (a_calls a) (m_peer_ipstr_ pkt) (m_peer_port_ pkt)
                    (sk_type_ pkt) (m_data_format_ pkt) in
        let! p := of_option HUndefined o in
        let! b := of_option HUndefined (data_ pkt) in
        update p (PushDataToSend b now) ;;!
        update p (set_fd (open_fd (a_calls a))) ;;!
        if negb (open_fd (a_calls a) =? 0) then abandon p pkt
        else if c_getfl (a_calls a) =? -1 then abandon p pkt
        else if c_setfl (a_calls a) =? -1 then abandon p pkt
        else if negb (c_aton (a_calls a)) then abandon p pkt
        else if (c_connect (a_calls a) =? -1) && negb (c_connect_errno (a_calls a) =? 115)
        then abandon p pkt
        else
          update p (set_status S_CONNECTING) ;;!
          let! r := AddSocketToMonitor (a_events a) (Some p) in
          if r <? 0 then abandon p pkt else ret tt
  end.

(** [while (send_queues_[i].size() > 0)]: nobody else touches the queue, whose lock
    is held, so its length is the number of turns. *)
Fixpoint send_queue (a : nat -> Answers) (i : nat) (n : nat) : M NetFrame unit :=
  match n with
  | O => ret tt
  | S n' =>
      let! qs := gets send_queues_ in
      match qs !! i with
      | Some (pkt :: r) =>
          modify (with_send (<[i := r]> qs)) ;;! send_packet (a n') pkt ;;! send_queue a i n'
      | _ => ret tt
      end
  end.

(** [SendQueuesHandler]; [a i n] are the answers for a packet of queue [i]. *)
Definition SendQueuesHandler (a : nat -> nat -> Answers) (signo : Z) : M NetFrame unit :=
  if negb (signo =? 100) then ret tt
  else
    let! qs := gets send_queues_ in
    forM (seq 0 (length qs)) (fun i =>
      let! qs := gets send_queues_ in
      send_queue (a i) i (length (default [] (qs !! i)))).

End Frame.
