(* ===== verification/LeQueues.v ===== *)
(** * The receive queues of [NetFrame] and the workers

    The main thread puts a packet at the end of the shortest queue; each worker
    takes the packets of its own queue, and waits on its condition variable while
    the queue is empty. *)

From S2P Require Import Prelude Wire LeMem LeSocket LeFrame.

Section Queues.
  Context {Src : BlockSource}.

(** ** The search *)

Lemma shortest_app l1 l2 i best :
  shortest (l1 ++ l2) i best = shortest l2 (i + zlen l1) (shortest l1 i best).
Proof.
  revert i best. induction l1 as [|n l1 IH]; intros i best; [by rewrite Z.add_0_r|].
  cbn [app shortest]. rewrite IH, zlen_cons. f_equal. lia.
Qed.

(** The search over a list of sizes that is not empty finds a least one. *)
Lemma shortest_spec sizes i m w :
  Forall (fun n => n < int_max) sizes -> 0 <= i -> 0 <= w < i \/ (w = 0 /\ m = int_max) ->
  (shortest sizes i (m, w) = (m, w) /\ Forall (fun n => m <= n) sizes) \/
  exists k n, shortest sizes i (m, w) = (n, i + Z.of_nat k) /\ sizes !! k = Some n /\ n < m /\
    Forall (fun n' => n <= n') sizes.
Proof.
  revert i m w. induction sizes as [|n sizes IH]; intros i m w Hb Hi Hw; [by left|].
  apply list.Forall_cons in Hb as [Hn Hb]. cbn [shortest]. unfold look_at_queue. cbn [fst].
  destruct (Z.ltb_spec n m) as [Hlt|Hge].
  - right. destruct (IH (i + 1) n i Hb ltac:(lia) ltac:(left; lia)) as [[-> Hall]|(k & n' & -> & Hk & Hlt' & Hall)].
    + exists 0%nat, n. split_and!; [f_equal; lia|done|done|]. by apply list.Forall_cons.
    + exists (S k), n'. split_and!; [f_equal; lia|done|lia|]. apply list.Forall_cons. split; [lia|done].
  - destruct (IH (i + 1) m w Hb ltac:(lia) ltac:(lia)) as [[-> Hall]|(k & n' & -> & Hk & Hlt' & Hall)].
    + left. split; [done|]. by apply list.Forall_cons.
    + right. exists (S k), n'. split_and!; [f_equal; lia|done|done|]. apply list.Forall_cons. split; [lia|done].
Qed.

Lemma shortest_least sizes :
  sizes <> [] -> Forall (fun n => n < int_max) sizes ->
  exists k n, shortest sizes 0 (int_max, 0) = (n, Z.of_nat k) /\ sizes !! k = Some n /\
    Forall (fun n' => n <= n') sizes.
Proof.
  intros Hne Hb. destruct (shortest_spec sizes 0 int_max 0 Hb ltac:(lia) ltac:(by right))
    as [[_ Hall]|(k & n & -> & Hk & _ & Hall)]; [|by exists k, n].
  destruct sizes as [|n sizes]; [done|]. apply list.Forall_cons in Hb as [Hn _].
  apply list.Forall_cons in Hall as [Hn' _]. lia.
Qed.

(** Under the lock: refused when the queue is full, and else put at its end, with
    a signal when it was empty. *)
Lemma push_locked_eq s m k q :
  recv_queues_ s !! k = Some q ->
  push_locked (Z.of_nat k) m s =
    if zlen q =? max_recv_queue_size_ s then Ret (-2, None) s
    else Ret (0, if decide (q = []) then Some (Z.of_nat k) else None)
           (with_recv (<[k := q ++ [m]]> (recv_queues_ s)) s).
Proof.
  intros Hk. unfold push_locked. rewrite bind_gets, Nat2Z.id, (bind_of_option _ _ _ _ _ Hk).
  destruct (zlen q =? _); [done|]. rewrite bind_modify, zlen_app. change (zlen [m]) with 1.
  destruct (decide (q = [])) as [->|Hq0]; [done|].
  rewrite (proj2 (Z.eqb_neq (zlen q + 1) 1)); [done|]. destruct q; [done|].
  rewrite zlen_cons. pose proof (zlen_nonneg q). lia.
Qed.

(** ** The workers *)

(** A worker runs, waits on its condition variable, or has been woken and not
    looked at the queue yet. *)
Inductive WorkerState := Running | Waiting | Woken.

(** The main thread: outside of [PushMessageToRecvQueue], or in its search, where
    [seen] are the sizes found so far and [best] is [tmp_min] and [tmp_which]. *)
Inductive MainState :=
| MainIdle
| Searching (in_pack : Message) (seen : list Z) (best : Z * Z).

(** The frame, the main thread, the workers, and the history of each queue: what
    was put in and what was taken out. *)
Record System := mkSystem {
  frame : NetFrame;
  main : MainState;
  workers : gmap nat WorkerState;
  given : nat -> list Message;
  taken : nat -> list Message
}.

Definition at_index {A} (f : nat -> A) (i : nat) (v : A) : nat -> A :=
  fun j => if Nat.eqb j i then v else f j.

(** A signal wakes the worker that waits; without one it is lost. *)
Definition signal (o : option Z) (w : gmap nat WorkerState) : gmap nat WorkerState :=
  match o with
  | None => w
  | Some i => match w !! Z.to_nat i with Some Waiting => <[Z.to_nat i := Woken]> w | _ => w end
  end.

(** The main thread looks at one queue after the other without their locks, then
    puts the packet under the lock of the one it found; the critical sections of
    the workers come at any moment between these steps.  Reading the size of a
    list while a worker changes it is taken as a step that finds its size.  A wait
    may end without a signal; what else happens to the frame leaves the queues
    alone. *)
Inductive sys_step : System -> System -> Prop :=
| sys_call m s w g t :
    sys_step (mkSystem s MainIdle w g t) (mkSystem s (Searching m [] (int_max, 0)) w g t)
| sys_look m seen best q s w g t :
    recv_queues_ s !! length seen = Some q ->
    sys_step (mkSystem s (Searching m seen best) w g t)
      (mkSystem s (Searching m (seen ++ [zlen q]) (look_at_queue (zlen q) (zlen seen) best)) w g t)
| sys_push m seen best f o s w g t :
    length seen = length (recv_queues_ s) -> push_locked best.2 m s = Ret (0, o) f ->
    let k := Z.to_nat best.2 in
    sys_step (mkSystem s (Searching m seen best) w g t)
      (mkSystem f MainIdle (signal o w) (at_index g k (g k ++ [m])) t)
| sys_full m seen best f o z s w g t :
    length seen = length (recv_queues_ s) -> push_locked best.2 m s = Ret (z, o) f -> z <> 0 ->
    sys_step (mkSystem s (Searching m seen best) w g t) (mkSystem f MainIdle (signal o w) g t)
| sys_get i f m s a w g t :
    w !! i = Some Running \/ w !! i = Some Woken ->
    GetMessageFromRecvQueue (Z.of_nat i) s = Ret (0, Some m) f ->
    sys_step (mkSystem s a w g t) (mkSystem f a (<[i := Running]> w) g (at_index t i (t i ++ [m])))
| sys_wait i f s a w g t :
    w !! i = Some Running \/ w !! i = Some Woken ->
    GetMessageFromRecvQueue (Z.of_nat i) s = Ret (0, None) f ->
    sys_step (mkSystem s a w g t) (mkSystem f a (<[i := Waiting]> w) g t)
| sys_wakes i s a w g t :
    w !! i = Some Waiting ->
    sys_step (mkSystem s a w g t) (mkSystem s a (<[i := Woken]> w) g t)
| sys_other s s' a w g t :
    recv_queues_ s' = recv_queues_ s -> max_recv_queue_size_ s' = max_recv_queue_size_ s ->
    sys_step (mkSystem s a w g t) (mkSystem s' a w g t).

(** A frame with [n] queues and running workers. *)
Definition sys_initial (y : System) : Prop :=
  (exists n, recv_queues_ (frame y) = replicate (S n) []) /\
  0 < max_recv_queue_size_ (frame y) < int_max /\ main y = MainIdle /\
  (forall i st, workers y !! i = Some st -> st = Running) /\
  (forall i, given y i = []) /\ (forall i, taken y i = []).

Definition queues_inv (y : System) : Prop :=
  recv_queues_ (frame y) <> [] /\ max_recv_queue_size_ (frame y) < int_max /\
  Forall (fun q => zlen q <= max_recv_queue_size_ (frame y)) (recv_queues_ (frame y)) /\
  (forall i q, recv_queues_ (frame y) !! i = Some q -> given y i = taken y i ++ q) /\
  (forall i q, recv_queues_ (frame y) !! i = Some q -> workers y !! i = Some Waiting -> q = []).

(** What the search has found: no queue has grown since it was looked at. *)
Definition search_inv (y : System) : Prop :=
  forall m seen best, main y = Searching m seen best ->
    best = shortest seen 0 (int_max, 0) /\ (length seen <= length (recv_queues_ (frame y)))%nat /\
    forall i n q, seen !! i = Some n -> recv_queues_ (frame y) !! i = Some q ->
      zlen q <= n <= max_recv_queue_size_ (frame y).

Definition sys_inv (y : System) : Prop := queues_inv y /\ search_inv y.

Lemma at_index_eq {A} (f : nat -> A) i v : at_index f i v i = v.
Proof. unfold at_index. by rewrite Nat.eqb_refl. Qed.
Lemma at_index_ne {A} (f : nat -> A) i j v : i <> j -> at_index f i v j = f j.
Proof. unfold at_index. intros H. by rewrite (proj2 (Nat.eqb_neq j i)) by done. Qed.

Lemma signal_waiting o w i : signal o w !! i = Some Waiting -> w !! i = Some Waiting.
Proof.
  unfold signal. destruct o as [j|]; [|done]. destruct (w !! Z.to_nat j) as [[]|] eqn:E; try done.
  intros [[_ H]|[_ H]]%lookup_insert_Some; done.
Qed.

(** A signal on an empty queue leaves its worker not waiting. *)
Lemma signal_wakes k w : signal (Some (Z.of_nat k)) w !! k <> Some Waiting.
Proof.
  unfold signal. rewrite Nat2Z.id. destruct (w !! k) as [[]|] eqn:E; rewrite ?E; try done.
  by rewrite lookup_insert_eq.
Qed.

Lemma Get_eq s i :
  GetMessageFromRecvQueue (Z.of_nat i) s =
    match recv_queues_ s !! i with
    | None => Ret (-1, None) s
    | Some [] => Ret (0, None) s
    | Some (m :: r) => Ret (0, Some m) (with_recv (<[i := r]> (recv_queues_ s)) s)
    end.
Proof.
  unfold GetMessageFromRecvQueue. rewrite bind_gets, (proj2 (Z.ltb_ge _ _)) by lia. cbn [orb].
  unfold zlen. rewrite Nat2Z.id. destruct (Z.leb_spec (Z.of_nat (length (recv_queues_ s))) (Z.of_nat i)).
  - by rewrite lookup_ge_None_2 by lia.
  - destruct (lookup_lt_is_Some_2 (recv_queues_ s) i ltac:(lia)) as [q Hq].
    rewrite (bind_of_option _ _ _ _ _ Hq), Hq. by destruct q.
Qed.

(** The queue that a search that is over has found. *)
Lemma found_queue y m seen best :
  sys_inv y -> main y = Searching m seen best -> length seen = length (recv_queues_ (frame y)) ->
  exists k q n, best = (n, Z.of_nat k) /\ recv_queues_ (frame y) !! k = Some q /\ seen !! k = Some n /\
    zlen q <= n /\ Forall (fun n' => n <= n' <= max_recv_queue_size_ (frame y)) seen.
Proof.
  intros [(Hne & Hmax & _) Hs] Hm Hl. destruct (Hs _ _ _ Hm) as (-> & _ & Hle).
  assert (Hbound : Forall (fun n => n <= max_recv_queue_size_ (frame y)) seen).
  { apply list.Forall_lookup. intros i n Hi.
    destruct (lookup_lt_is_Some_2 (recv_queues_ (frame y)) i) as [q Hq];
      [rewrite <- Hl; by eapply lookup_lt_Some|]. by eapply Hle. }
  destruct (shortest_least seen) as (k & n & E & Hk & Hall).
  { intros ->. destruct (recv_queues_ (frame y)); done. }
  { eapply list.Forall_impl; [exact Hbound|]. simpl. lia. }
  destruct (lookup_lt_is_Some_2 (recv_queues_ (frame y)) k) as [q Hq]; [rewrite <- Hl; by eapply lookup_lt_Some|].
  exists k, q, n. split_and!; [done|done|done|by eapply Hle|].
  apply list.Forall_and. by split.
Qed.

Lemma queues_push_inv s a b k q o m w g t :
  queues_inv (mkSystem s a w g t) -> recv_queues_ s !! k = Some q -> zlen q <> max_recv_queue_size_ s ->
  o = (if decide (q = []) then Some (Z.of_nat k) else None) ->
  queues_inv (mkSystem (with_recv (<[k := q ++ [m]]> (recv_queues_ s)) s) b (signal o w)
    (at_index g k (g k ++ [m])) t).
Proof.
  intros (Hne & Hmax & Hb & Hh & Hw) Hk Hfull ->. simpl in *.
  pose proof (proj1 (list.Forall_lookup _ _) Hb k q Hk) as Hq. unfold queues_inv. simpl. split_and!; simpl.
  - destruct (recv_queues_ s); [done|]. by destruct k.
  - done.
  - apply Forall_insert; [done|]. rewrite zlen_app. change (zlen [m]) with 1. simpl in *. lia.
  - intros i q' [(<- & <- & _)|[Hi Hq']]%list_lookup_insert_Some.
    + by rewrite at_index_eq, (Hh k q Hk), app_assoc.
    + rewrite at_index_ne by done. by apply Hh.
  - intros i q' [(<- & <- & _)|[Hi Hq']]%list_lookup_insert_Some Hwait.
    + exfalso. destruct (decide (q = [])) as [->|Hq0].
      * by apply signal_wakes in Hwait.
      * apply signal_waiting in Hwait. by apply Hq0, (Hw k q).
    + apply signal_waiting in Hwait. by apply (Hw i).
Qed.

Lemma queues_get_inv s a i m r w g t :
  queues_inv (mkSystem s a w g t) -> recv_queues_ s !! i = Some (m :: r) ->
  queues_inv (mkSystem (with_recv (<[i := r]> (recv_queues_ s)) s) a (<[i := Running]> w) g
    (at_index t i (t i ++ [m]))).
Proof.
  intros (Hne & Hmax & Hb & Hh & Hw) Hq. simpl in *. unfold queues_inv. simpl. split_and!; simpl.
  - destruct (recv_queues_ s); [done|]. by destruct i.
  - done.
  - apply Forall_insert; [done|]. pose proof (proj1 (list.Forall_lookup _ _) Hb i _ Hq) as H.
    simpl in H. rewrite zlen_cons in H. lia.
  - intros j q [(<- & <- & _)|[Hj Hq']]%list_lookup_insert_Some.
    + rewrite at_index_eq, (Hh i _ Hq). by rewrite <- app_assoc.
    + rewrite at_index_ne by done. by apply Hh.
  - intros j q Hj Hwait. apply lookup_insert_Some in Hwait as [[_ ?]|[Hne' Hwait]]; [done|].
    rewrite list_lookup_insert_ne in Hj by done. by eapply Hw.
Qed.

(** Changing the state of a worker that does not wait on a queue with packets. *)
Lemma queues_workers_inv s a b w w' g t :
  (forall i q, recv_queues_ s !! i = Some q -> w' !! i = Some Waiting -> w !! i = Some Waiting \/ q = []) ->
  queues_inv (mkSystem s a w g t) -> queues_inv (mkSystem s b w' g t).
Proof.
  intros Hww (Hne & Hmax & Hb & Hh & Hw). simpl in *. split_and!; simpl; try done.
  intros i q Hq Hwait. destruct (Hww i q Hq Hwait) as [?|?]; [by eapply Hw|done].
Qed.

(** The search does not see that a packet is taken out. *)
Lemma search_get_inv s a i m r w w' g g' t t' :
  search_inv (mkSystem s a w g t) -> recv_queues_ s !! i = Some (m :: r) ->
  search_inv (mkSystem (with_recv (<[i := r]> (recv_queues_ s)) s) a w' g' t').
Proof.
  intros Hs Hq m' seen best Hm. destruct (Hs m' seen best Hm) as (H1 & H2 & H3). simpl in *.
  rewrite length_insert. split_and!; [done|done|].
  intros j n q Hn [(<- & <- & _)|[_ Hj]]%list_lookup_insert_Some; [|by eapply H3].
  pose proof (H3 _ _ _ Hn Hq) as H. rewrite zlen_cons in H. lia.
Qed.

Lemma search_look_inv s m seen best q w g t :
  sys_inv (mkSystem s (Searching m seen best) w g t) -> recv_queues_ s !! length seen = Some q ->
  search_inv (mkSystem s (Searching m (seen ++ [zlen q]) (look_at_queue (zlen q) (zlen seen) best)) w g t).
Proof.
  intros [(_ & _ & Hb & _) Hs] Hq m' seen' best' [= <- <- <-].
  destruct (Hs m seen best eq_refl) as (-> & H2 & H3). simpl in *. split_and!.
  - by rewrite shortest_app.
  - rewrite length_app. simpl. apply lookup_lt_Some in Hq. lia.
  - intros i n q' [Hi|[Hi Hn]]%lookup_app_Some Hq'; [by eapply H3|].
    apply list_lookup_singleton_Some in Hn as [Hi0 <-].
    assert (i = length seen) as -> by lia. rewrite Hq in Hq'. injection Hq' as <-.
    pose proof (proj1 (list.Forall_lookup _ _) Hb _ _ Hq). simpl in *. lia.
Qed.

Lemma sys_step_inv y y' : sys_step y y' -> sys_inv y -> sys_inv y'.
Proof.
  intros Hst Hi. destruct Hst as [m s w g t|m seen best q s w g t Hq|m seen best f o s w g t Hl E k|
    m seen best f o z s w g t Hl E Hz|i f m s a w g t Hst E|i f s a w g t Hst E|i s a w g t Hst|s s' a w g t Hq Hm].
  - split; [apply Hi|]. intros m' seen best [= <- <- <-]. split_and!; [done|simpl; lia|done].
  - split; [apply Hi|by apply search_look_inv].
  - destruct (found_queue _ m seen best Hi eq_refl Hl) as (k' & q & n & -> & Hq & _). cbn [frame snd] in *.
    rewrite (push_locked_eq s m k' q Hq) in E. destruct (Z.eqb_spec (zlen q) (max_recv_queue_size_ s)); [done|].
    injection E as <- <-. unfold k. rewrite Nat2Z.id. split; [|done]. by eapply queues_push_inv; [apply Hi|..].
  - destruct (found_queue _ m seen best Hi eq_refl Hl) as (k' & q & n & -> & Hq & _). cbn [frame snd] in *.
    rewrite (push_locked_eq s m k' q Hq) in E. destruct (zlen q =? _); [|by injection E as ? _].
    injection E as <- <- <-. split; [|done]. eapply queues_workers_inv; [|apply Hi]. by left.
  - rewrite Get_eq in E. destruct (recv_queues_ s !! i) as [[|m' r]|] eqn:Hq; try done. injection E as -> <-.
    split; [by apply queues_get_inv, Hq; apply Hi|by eapply search_get_inv; [apply Hi|]].
  - rewrite Get_eq in E. destruct (recv_queues_ s !! i) as [[|m' r]|] eqn:Hq; try done. injection E as <-.
    split; [|apply Hi]. eapply queues_workers_inv; [|apply Hi].
    intros j q Hj [[<- _]|[_ ?]]%lookup_insert_Some; [right; congruence|by left].
  - split; [|apply Hi]. eapply queues_workers_inv; [|apply Hi].
    intros j q Hj [[_ ?]|[_ ?]]%lookup_insert_Some; [done|by left].
  - unfold sys_inv, queues_inv, search_inv in *. simpl in *. by rewrite Hq, Hm.
Qed.

Lemma sys_initial_inv y : sys_initial y -> sys_inv y.
Proof.
  intros ([n Hn] & Hmax & Hmain & Hrun & Hg & Ht).
  assert (Hnil : forall i q, recv_queues_ (frame y) !! i = Some q -> q = [])
    by (rewrite Hn; by intros i q [-> _]%lookup_replicate).
  split; [|intros m seen best E; by rewrite Hmain in E]. split_and!; [by rewrite Hn|lia| | |].
  - apply list.Forall_forall. intros q [i ->%Hnil]%list_elem_of_lookup_1. unfold zlen. simpl. lia.
  - intros i q ->%Hnil. by rewrite Hg, Ht.
  - by intros i q ->%Hnil _.
Qed.

(** C8: whatever the main thread and the workers do, in any order, also while the
    main thread searches the queues without their locks: a worker that waits has an
    empty queue (no wake-up is lost), each worker takes the packets of its queue in
    the order they were put in, none lost and none twice, and no queue grows over
    the maximal size.  When the search is over it has found one of the queues,
    which is now no longer than what the search saw of any queue, and no queue is
    longer than the search saw it.  The packet is refused only if that queue is
    full now, and then each queue was full when it was looked at; else it goes to
    the end of that queue, with a signal when the queue was empty.  If no worker
    came between, the queue found is a shortest one and a refusal means that all
    are full. *)
Theorem workers_served y0 y :
  sys_initial y0 -> rtc sys_step y0 y ->
  let qs := recv_queues_ (frame y) in
  let max := max_recv_queue_size_ (frame y) in
  (forall i q, qs !! i = Some q -> workers y !! i = Some Waiting -> q = []) /\
  (forall i q, qs !! i = Some q -> given y i = taken y i ++ q) /\
  Forall (fun q => zlen q <= max) qs /\
  forall m seen best, main y = Searching m seen best -> length seen = length qs ->
    exists k q, best.2 = Z.of_nat k /\ qs !! k = Some q /\
      Forall (fun n => zlen q <= n) seen /\ Forall2 (fun q' n => zlen q' <= n) qs seen /\
      ((zlen q = max /\ Forall (fun n => n = max) seen /\
        push_locked best.2 m (frame y) = Ret (-2, None) (frame y)) \/
       (zlen q < max /\
        push_locked best.2 m (frame y) =
          Ret (0, if decide (q = []) then Some (Z.of_nat k) else None)
              (with_recv (<[k := q ++ [m]]> qs) (frame y)))).
Proof.
  intros H0%sys_initial_inv Hrtc. assert (Hi : sys_inv y).
  { induction Hrtc; [done|]. eauto using sys_step_inv. }
  pose proof Hi as [(Hne & Hmax & H1 & H2 & H3) Hs]. split_and!; [done|done|done|].
  intros m seen best Hm Hl. destruct (found_queue y m seen best Hi Hm Hl) as (k & q & n & -> & Hq & Hk & Hqn & Hall).
  exists k, q. pose proof (proj1 (list.Forall_lookup _ _) H1 k q Hq) as Hqm. simpl in Hqm.
  split_and!; [done|done| | |].
  - eapply list.Forall_impl; [exact Hall|]. simpl. lia.
  - apply Forall2_same_length_lookup. split; [done|]. intros i q' n' Hq' Hn'.
    destruct (Hs _ _ _ Hm) as (_ & _ & Hle). by eapply Hle.
  - cbn [snd]. rewrite (push_locked_eq _ m k q Hq).
    destruct (Z.eqb_spec (zlen q) (max_recv_queue_size_ (frame y))) as [He|He]; [left|right; split; [lia|done]].
    split_and!; [done| |done]. eapply list.Forall_impl; [exact Hall|]. simpl. lia.
Qed.

(** With no worker between the search and the lock: a packet is refused when every
    queue is full, and else put at the end of a shortest one, with a signal when
    that was empty. *)
Theorem push_to_shortest s m :
  recv_queues_ s <> [] -> Forall (fun q => zlen q <= max_recv_queue_size_ s) (recv_queues_ s) ->
  max_recv_queue_size_ s < int_max ->
  (Forall (fun q => zlen q = max_recv_queue_size_ s) (recv_queues_ s) /\
   PushMessageToRecvQueue m s = Ret (-2, None) s) \/
  exists k q, recv_queues_ s !! k = Some q /\ zlen q < max_recv_queue_size_ s /\
    Forall (fun q' => zlen q <= zlen q') (recv_queues_ s) /\
    PushMessageToRecvQueue m s =
      Ret (0, if decide (q = []) then Some (Z.of_nat k) else None)
          (with_recv (<[k := q ++ [m]]> (recv_queues_ s)) s).
Proof.
  intros Hne Hb Hmax. destruct (shortest_least (map zlen (recv_queues_ s))) as (k & n & E & Hk & Hall).
  { by destruct (recv_queues_ s). }
  { change (map zlen ?l) with (zlen <$> l). apply list.Forall_fmap. eapply list.Forall_impl; [exact Hb|]. simpl. lia. }
  apply list_lookup_fmap_Some in Hk as (q & -> & Hk).
  change (map zlen (recv_queues_ s)) with (zlen <$> recv_queues_ s) in Hall. rewrite list.Forall_fmap in Hall.
  unfold PushMessageToRecvQueue. rewrite bind_gets, E. cbn [snd]. rewrite (push_locked_eq s m k q Hk).
  pose proof (proj1 (list.Forall_lookup _ _) Hb k q Hk) as Hq. simpl in Hq.
  destruct (Z.eqb_spec (zlen q) (max_recv_queue_size_ s)) as [He|He].
  - left. split; [|done]. apply list.Forall_forall. intros q' Hq'.
    pose proof (proj1 (list.Forall_forall _ _) Hall q' Hq'). pose proof (proj1 (list.Forall_forall _ _) Hb q' Hq').
    simpl in *. lia.
  - right. exists k, q. split_and!; [done|lia|done|done].
Qed.

End Queues.
