(* ===== verification/LeQuiet.v ===== *)
(** * The frame never reads: the status of its sockets

    No function of the libevent generation gives a socket the status
    [S_ESTABLISHED] or [S_LISTEN].  The consequence for the frame: whatever events
    come, no packet is read and no connection is accepted. *)

From S2P Require Import Prelude Wire LeMem LeSocket LeRead LeFrame.

Section Quiet.
  Context {Src : BlockSource}.

Definition quiet_status (st : SocketStatus) : Prop := st = S_NOTREADY \/ st = S_CONNECTING.

(** Relative to a heap [h0] and queues [qs] at an earlier time: the sockets have a
    quiet status, nothing was read from those that were there, and the queues are
    the same. *)
Record quiet (h0 : gmap N (Socket * Sys)) (qs : list (list Message)) (s : NetFrame) : Prop := mkQuiet {
  q_status : forall p x, heap s !! p = Some x -> quiet_status (status_ x.1);
  q_fresh : forall p, (next_ptr s <= p)%N -> heap s !! p = None;
  q_old : forall p, (next_ptr s <= p)%N -> h0 !! p = None;
  q_input : forall p x x', h0 !! p = Some x -> heap s !! p = Some x' -> input x'.2 = input x.2;
  q_queues : recv_queues_ s = qs
}.

Abbreviation keeps m := (forall h0 qs, triple (quiet h0 qs) m (fun _ => quiet h0 qs)).

(** Changes that touch neither the sockets nor the queues. *)
Lemma quiet_same h0 qs s s' :
  quiet h0 qs s -> heap s' = heap s -> next_ptr s' = next_ptr s -> recv_queues_ s' = recv_queues_ s ->
  quiet h0 qs s'.
Proof. intros [H1 H2 H3 H4 H5] Hh Hn Hq. split; rewrite ?Hh, ?Hn, ?Hq; done. Qed.

Lemma keeps_modify f :
  (forall s, heap (f s) = heap s /\ next_ptr (f s) = next_ptr s /\ recv_queues_ (f s) = recv_queues_ s) ->
  keeps (modify f).
Proof. intros H h0 qs s Hs. destruct (H s) as (H1 & H2 & H3). by eapply quiet_same. Qed.

Lemma keeps_bind {A B} (m : M NetFrame A) (k : A -> M NetFrame B) :
  keeps m -> (forall a, keeps (k a)) -> keeps (bindM m k).
Proof. intros Hm Hk h0 qs. eapply triple_bind; [apply Hm|intros a; apply Hk]. Qed.

Lemma keeps_ret {A} (a : A) : keeps (ret a).
Proof. intros h0 qs. by apply triple_ret. Qed.
Lemma keeps_gets {A} (f : NetFrame -> A) : keeps (gets f).
Proof. intros h0 qs. by apply triple_gets. Qed.
Lemma keeps_stop {A} h : keeps (stop h : M NetFrame A).
Proof. intros h0 qs. apply triple_stop. Qed.
Lemma keeps_of_option {A} h (o : option A) : keeps (of_option h o).
Proof. intros h0 qs. by apply triple_of_option. Qed.
Lemma keeps_deref p : keeps (deref p).
Proof. apply keeps_bind; [apply keeps_gets|intros; apply keeps_of_option]. Qed.

Lemma keeps_on_mem {A} (m : M source A) : keeps (on_mem m).
Proof.
  intros h0 qs s Hs. unfold on_mem. destruct (m (mem s)); [|done]. by eapply quiet_same.
Qed.

Lemma keeps_forM {A} (l : list A) f : (forall x, keeps (f x)) -> keeps (forM l f).
Proof. intros H h0 qs. apply triple_forM. intros x. apply H. Qed.

(** What an operation on one socket may do. *)
Definition mild {A} (m : M Env A) : Prop :=
  forall e, match m e with
            | Ret _ e' => (quiet_status (status_ (sk e)) -> quiet_status (status_ (sk e'))) /\
                          input (sys e') = input (sys e)
            | Halt _ _ => True
            end.

Lemma keeps_on_socket {A} p (m : M Env A) : mild m -> keeps (on_socket p m).
Proof.
  intros Hm h0 qs s [H1 H2 H3 H4 H5]. unfold on_socket. destruct (heap s !! p) as [[x y]|] eqn:Hp; [|done].
  specialize (Hm (mkEnv x (mem s) y)). destruct (m _) as [a e'|]; [|done]. destruct Hm as [Hst Hin]. simpl in *.
  specialize (H1 p _ Hp) as Hx. split; simpl; try done.
  - intros q z [[<- <-]|[_ Hz]]%lookup_insert_Some; [by apply Hst|by eapply H1].
  - intros q Hq. rewrite lookup_insert_ne by (intros ->; rewrite H2 in Hp; done). by apply H2.
  - intros q z z' Hz [[<- <-]|[_ Hz']]%lookup_insert_Some; [|by eapply H4].
    simpl. rewrite Hin. by eapply (H4 p z (x, y)).
Qed.

Lemma mild_on_sk f : (forall x, quiet_status (status_ x) -> quiet_status (status_ (f x))) -> mild (modify (on_sk f)).
Proof. intros H e. split; [apply H|done]. Qed.

Lemma drop_sent_mild lens n : mild (drop_sent lens n).
Proof.
  revert n. induction lens as [|m lens IH]; intros n e; [done|]. rewrite (drop_sent_cons m lens n e).
  destruct (m <=? n); [|done]. destruct (send_mb_list_ (sk e)) as [|b r]; [done|].
  unfold bindM, on_pool. destruct (give_block b _) as [[] p|]; [|done].
  exact (IH (n - m) (with_pool p (on_sk (set_send_list r (font_mb_cur_pos_ (sk e))) e))).
Qed.

Lemma WriteHandler_mild garbage answer : mild (WriteHandler garbage answer).
Proof.
  intros e. unfold WriteHandler. rewrite !bind_gets. destruct answer as [n|er].
  - destruct (n <=? 0); [done|]. rewrite bind_modify. unfold bindM at 1.
    set (e1 := with_sys _ e). pose proof (drop_sent_mild
      (map used_ (take (MAX_IOVEC_NUM - 1) (send_mb_list_ (sk e))) ++ [garbage]) n e1) as H.
    destruct (drop_sent _ n e1) as [[] e2|]; [|done]. exact H.
  - by split.
Qed.

Lemma keeps_update p f : (forall x, quiet_status (status_ x) -> quiet_status (status_ (f x))) -> keeps (update p f).
Proof. intros H. by apply keeps_on_socket, mild_on_sk. Qed.

(** One step of a proof that a computation keeps the frame quiet. *)
Ltac kstep :=
  first
    [ apply keeps_deref | apply keeps_bind; [|intros ?] | apply keeps_ret | apply keeps_gets | apply keeps_stop
    | apply keeps_of_option | apply keeps_on_mem
    | apply keeps_forM; intros ? | apply keeps_on_socket, WriteHandler_mild
    | apply keeps_update; first [done | intros ? ?; by right]
    | apply keeps_modify; done
    | match goal with |- forall h0 qs, triple _ (match ?x with _ => _ end) _ => destruct x end ].

Lemma keeps_delete_heap p : keeps (modify (fun s => with_heap (delete p (heap s)) s)).
Proof.
  intros h0 qs s [H1 H2 H3 H4 H5]. split; simpl; try done.
  - intros q x [_ Hq]%lookup_delete_Some. by eapply H1.
  - intros q Hq. apply lookup_delete_None. right. by apply H2.
  - intros q x x' Hx [_ Hq]%lookup_delete_Some. by eapply H4.
Qed.

Lemma keeps_delete_socket p : keeps (delete_socket p).
Proof. unfold delete_socket, destroy_derived. repeat kstep. apply keeps_delete_heap. Qed.

Lemma keeps_FindSocket key : keeps (FindSocket key).
Proof. unfold FindSocket. repeat kstep. Qed.
Lemma keeps_AddSocket p : keeps (AddSocket p).
Proof. unfold AddSocket. repeat kstep. Qed.
Lemma keeps_DestroySocket p : keeps (DestroySocket p).
Proof. unfold DestroySocket. repeat first [apply keeps_delete_socket | kstep]. Qed.

Lemma keeps_sweep_list max l : keeps (sweep_list max l).
Proof.
  induction l as [|p l IH]; cbn [sweep_list]; repeat first [apply IH | apply keeps_delete_socket | kstep].
Qed.
Lemma keeps_SweepIdleSocket max : keeps (SweepIdleSocket max).
Proof.
  unfold SweepIdleSocket. kstep; [kstep|]. generalize (map_to_list a). intros l.
  induction l as [|[key l'] r IH]; cbn [sweep_map];
    repeat first [apply IH | apply keeps_sweep_list | kstep].
Qed.

(** A new object is not ready. *)
Lemma keeps_new_object g d : keeps (new_object g d).
Proof.
  intros h0 qs s [H1 H2 H3 H4 H5]. unfold new_object, bindM, gets, modify, ret.
  split; cbn [heap next_ptr recv_queues_]; try done.
  - intros q x [[<- <-]|[_ Hq]]%lookup_insert_Some; [by left|by eapply H1].
  - intros q Hq. apply lookup_insert_None. split; [apply H2; lia|lia].
  - intros q Hq. apply H3. lia.
  - intros q x x' Hx [[<- _]|[_ Hq]]%lookup_insert_Some; [|by eapply H4].
    rewrite H3 in Hx by lia. done.
Qed.

Lemma keeps_new_by_format g f : keeps (new_by_format g f).
Proof. unfold new_by_format. destruct f; repeat first [apply keeps_new_object | kstep]. Qed.

Lemma PrepareListenSocket_status c ip pt t f x : status_ (PrepareListenSocket c ip pt t f x).2 = status_ x.
Proof. unfold PrepareListenSocket. by repeat case_match. Qed.
Lemma PrepareClientSocket_status c ip pt t f x : status_ (PrepareClientSocket c ip pt t f x).2 = status_ x.
Proof. unfold PrepareClientSocket. by repeat case_match. Qed.
Lemma PrepareServerSocket_status c fd t f x : status_ (PrepareServerSocket c fd t f x).2 = status_ x.
Proof. unfold PrepareServerSocket. by repeat case_match. Qed.

Lemma keeps_create g f prepare :
  (forall x, status_ (prepare x).2 = status_ x) -> keeps (create g f prepare).
Proof.
  intros Hp. unfold create. kstep; [apply keeps_new_by_format|]. destruct a; [|kstep].
  kstep; [apply keeps_update; intros x; by rewrite Hp|].
  repeat first [apply keeps_AddSocket | kstep].
Qed.

Lemma keeps_CreateListenSocket g c ip pt t f : keeps (CreateListenSocket g c ip pt t f).
Proof.
  unfold CreateListenSocket. kstep; [apply keeps_FindSocket|]. destruct a; [kstep|].
  destruct t; repeat first [apply keeps_create, PrepareListenSocket_status | kstep].
Qed.
Lemma keeps_CreateClientSocket g c ip pt t f : keeps (CreateClientSocket g c ip pt t f).
Proof.
  unfold CreateClientSocket. destruct t; repeat first [apply keeps_create, PrepareClientSocket_status | kstep].
Qed.
Lemma keeps_CreateServerSocket g c fd t f : keeps (CreateServerSocket g c fd t f).
Proof.
  unfold CreateServerSocket. destruct t; repeat first [apply keeps_create, PrepareServerSocket_status | kstep].
Qed.

Lemma keeps_AddSocketToMonitor ev o : keeps (AddSocketToMonitor ev o).
Proof. unfold AddSocketToMonitor. repeat kstep. Qed.

Lemma keeps_AsyncSend a b c d e f g h : keeps (AsyncSend a b c d e f g h).
Proof. unfold AsyncSend. repeat kstep. Qed.

Lemma keeps_reconnect a p : keeps (reconnect a p).
Proof.
  unfold reconnect. repeat first [apply keeps_AddSocketToMonitor | apply keeps_DestroySocket | kstep].
Qed.

Lemma keeps_callback_connect a p : keeps (callback_connect a p).
Proof.
  unfold callback_connect. destruct (GetSocketError _) as [code error].
  repeat first [apply keeps_reconnect | apply keeps_DestroySocket | kstep].
Qed.

Lemma keeps_abandon p pkt : keeps (abandon p pkt).
Proof. unfold abandon, drop_packet. repeat first [apply keeps_DestroySocket | kstep]. Qed.

Lemma keeps_send_packet a pkt : keeps (send_packet a pkt).
Proof.
  unfold send_packet, drop_packet.
  repeat first [apply keeps_abandon | apply keeps_FindSocket | apply keeps_CreateClientSocket
               | apply keeps_AddSocketToMonitor | kstep].
Qed.

Lemma keeps_send_queue a i n : keeps (send_queue a i n).
Proof.
  revert a. induction n as [|n IH]; intros a; cbn [send_queue]; repeat first [apply IH | apply keeps_send_packet | kstep].
Qed.

Lemma keeps_SendQueuesHandler a signo : keeps (SendQueuesHandler a signo).
Proof. unfold SendQueuesHandler. repeat first [apply keeps_send_queue | kstep]. Qed.

(** A socket that is looked at has a quiet status. *)
Lemma keeps_deref_quiet {A} p (k : Socket * Sys -> M NetFrame A) :
  (forall x, quiet_status (status_ x.1) -> keeps (k x)) -> keeps (bindM (deref p) k).
Proof.
  intros Hk h0 qs s Hs. unfold deref, bindM, gets, of_option.
  destruct (heap s !! p) as [x|] eqn:Hp; [|done]. simpl. apply Hk; [|done]. by eapply q_status.
Qed.

Lemma keeps_SocketCallback a p : keeps (SocketCallback a p).
Proof.
  assert (Hno : forall st (x : Socket * Sys), quiet_status (status_ x.1) -> ~ quiet_status st ->
            bool_decide (status_ x.1 = st) = false).
  { intros st x Hx Hst. apply bool_decide_eq_false_2. by intros <-. }
  assert (H1 : ~ quiet_status S_ESTABLISHED) by (by intros [|]).
  assert (H2 : ~ quiet_status S_LISTEN) by (by intros [|]).
  unfold SocketCallback. apply keeps_deref_quiet. intros x Hx. rewrite (Hno _ x Hx H1).
  kstep; [kstep|]. kstep; [kstep|]. apply keeps_deref_quiet. intros y Hy. rewrite (Hno _ y Hy H1).
  kstep; [kstep|]. kstep; [kstep|]. kstep; [kstep|].
  kstep; [destruct (bool_decide _); [apply keeps_callback_connect|kstep]|].
  kstep; [kstep|]. apply keeps_deref_quiet. intros z Hz. rewrite (Hno _ z Hz H2). kstep.
Qed.

(** What the program and its environment do with a frame. *)
Inductive frame_step : NetFrame -> NetFrame -> Prop :=
| fs_callback a p r s s' : SocketCallback a p s = Ret r s' -> frame_step s s'
| fs_send_queues a signo r s s' : SendQueuesHandler a signo s = Ret r s' -> frame_step s s'
| fs_async ip pt mip mpt d t f i r s s' :
    AsyncSend ip pt mip mpt d t f i s = Ret r s' -> frame_step s s'
| fs_listen g c ip pt t f r s s' : CreateListenSocket g c ip pt t f s = Ret r s' -> frame_step s s'
| fs_client g c ip pt t f r s s' : CreateClientSocket g c ip pt t f s = Ret r s' -> frame_step s s'
| fs_server g c fd t f r s s' : CreateServerSocket g c fd t f s = Ret r s' -> frame_step s s'
| fs_find key r s s' : FindSocket key s = Ret r s' -> frame_step s s'
| fs_destroy p r s s' : DestroySocket p s = Ret r s' -> frame_step s s'
| fs_sweep max r s s' : SweepIdleSocket max s = Ret r s' -> frame_step s s'
| fs_monitor ev o r s s' : AddSocketToMonitor ev o s = Ret r s' -> frame_step s s'
| fs_push which m r s s' : push_locked which m s = Ret r s' -> frame_step s s'
| fs_get i r s s' : GetMessageFromRecvQueue i s = Ret r s' -> frame_step s s'
| fs_max_recv n r s s' : set_max_recv_queue_size n s = Ret r s' -> frame_step s s'
| fs_max_send n r s s' : set_max_send_queue_size n s = Ret r s' -> frame_step s s'
| fs_data p l x y s :
    heap s !! p = Some (x, y) ->
    frame_step s (with_heap (<[p := (x, mkSys (input y ++ [Bytes l]) (errno_ y) (wire y))]> (heap s)) s)
| fs_time n s : now_ s <= n ->
    frame_step s (mkFrame (heap s) (next_ptr s) (socket_map_ s) (recv_queues_ s) (max_recv_queue_size_ s)
      (send_queues_ s) (max_send_queue_size_ s) (monitored s) (mem s) n).

Definition frame_reachable (s : NetFrame) : Prop :=
  exists ns nr g1 g2 p t s0, new_NetFrame ns nr g1 g2 p t = Some s0 /\ rtc frame_step s0 s.

(** The part of [quiet] that does not look back. *)
Definition quiet_now (s : NetFrame) : Prop :=
  (forall p x, heap s !! p = Some x -> quiet_status (status_ x.1)) /\
  (forall p, (next_ptr s <= p)%N -> heap s !! p = None).

Lemma quiet_now_quiet s : quiet_now s -> quiet (heap s) (recv_queues_ s) s.
Proof. intros [H1 H2]. split; try done. intros p x x' H H'. by simplify_eq. Qed.

Lemma keeps_quiet_now {A} (m : M NetFrame A) s r s' :
  keeps m -> quiet_now s -> m s = Ret r s' -> quiet_now s'.
Proof.
  intros Hm Hs E. pose proof (Hm _ _ s (quiet_now_quiet s Hs)) as H. rewrite E in H.
  destruct H as [H1 H2 _ _ _]. by split.
Qed.

(** The two operations on the queues. *)
Lemma queue_ops_quiet (s s' : NetFrame) :
  heap s' = heap s -> next_ptr s' = next_ptr s -> quiet_now s -> quiet_now s'.
Proof. unfold quiet_now. by intros -> ->. Qed.

Lemma push_locked_heap which m r s s' :
  push_locked which m s = Ret r s' -> heap s' = heap s /\ next_ptr s' = next_ptr s.
Proof.
  unfold push_locked. rewrite bind_gets. intros E.
  apply bind_Ret_inv in E as (q & s1 & E1 & E).
  destruct (recv_queues_ s !! _); [|done]. injection E1 as _ <-.
  destruct (_ =? _); [by injection E as _ <-|]. rewrite bind_modify in E. by injection E as _ <-.
Qed.

Lemma Get_heap i r s s' :
  GetMessageFromRecvQueue i s = Ret r s' -> heap s' = heap s /\ next_ptr s' = next_ptr s.
Proof.
  unfold GetMessageFromRecvQueue. rewrite bind_gets. intros E. destruct (_ || _); [by injection E as _ <-|].
  apply bind_Ret_inv in E as (q & s1 & E1 & E).
  destruct (recv_queues_ s !! _) as [q'|]; [|done]. injection E1 as -> <-.
  destruct q; [by injection E as _ <-|]. rewrite bind_modify in E. by injection E as _ <-.
Qed.

Lemma frame_step_quiet s s' : frame_step s s' -> quiet_now s -> quiet_now s'.
Proof.
  intros Hstep Hs. destruct Hstep.
  all: try (eapply keeps_quiet_now; [|exact Hs|eassumption];
    first [ apply keeps_SocketCallback | apply keeps_SendQueuesHandler | apply keeps_AsyncSend
          | apply keeps_CreateListenSocket | apply keeps_CreateClientSocket | apply keeps_CreateServerSocket
          | apply keeps_FindSocket | apply keeps_DestroySocket | apply keeps_SweepIdleSocket
          | apply keeps_AddSocketToMonitor ]).
  - destruct (push_locked_heap _ _ _ _ _ H). by eapply queue_ops_quiet.
  - destruct (Get_heap _ _ _ _ H). by eapply queue_ops_quiet.
  - eapply keeps_quiet_now; [|exact Hs|exact H]. unfold set_max_recv_queue_size. repeat kstep.
  - eapply keeps_quiet_now; [|exact Hs|exact H]. unfold set_max_send_queue_size. repeat kstep.
  - destruct Hs as [H1 H2]. split; simpl.
    + intros q z [[<- <-]|[_ Hq]]%lookup_insert_Some; [by apply (H1 p (x, y))|by eapply H1].
    + intros q Hq. apply lookup_insert_None. split; [by apply H2|intros ->; rewrite H2 in H; done].
  - done.
Qed.

(** C28: no packet is ever read.  In every reachable state of a frame, whatever
    was created, sent and received before, the event of a socket leaves the
    receive queues as they are and takes nothing of what has come on any socket:
    no socket is ever established or listening. *)
Theorem frame_never_reads s a p s' :
  frame_reachable s -> SocketCallback a p s = Ret tt s' ->
  recv_queues_ s' = recv_queues_ s /\
  (forall q x x', heap s !! q = Some x -> heap s' !! q = Some x' -> input x'.2 = input x.2) /\
  (forall q x, heap s !! q = Some x -> status_ x.1 = S_NOTREADY \/ status_ x.1 = S_CONNECTING).
Proof.
  intros (ns & nr & g1 & g2 & p0 & t & s0 & Hnew & Hrtc) E.
  assert (Hs : quiet_now s).
  { assert (H0 : quiet_now s0).
    { unfold new_NetFrame in Hnew. destruct (_ || _); [done|]. injection Hnew as <-. by split. }
    clear Hnew E. induction Hrtc; [done|]. eauto using frame_step_quiet. }
  pose proof (keeps_SocketCallback a p _ _ s (quiet_now_quiet s Hs)) as H. rewrite E in H.
  split_and!; [apply H|apply H|apply Hs].
Qed.

End Quiet.
