(* ===== verification/LeSync.v ===== *)
(** * Blocking exchanges of the libevent generation: [sync_sender_receiver.cc]

    [SyncSR] connects a blocking socket; [BinSyncSR] and [LineSyncSR] send a block
    and wait for the reply.

    The text does not compile as it stands.  It is read as follows:
    [timeout_usec], which no function declares, is an argument; the block that
    [GetMemBlock] returns is the one the two-argument function grants, null if it
    grants none; [ConnectToServer] has the two parameters of its definition.  What
    the system answers is an argument. *)

From S2P Require Import Prelude Wire LeMem LeSocket.

Section Sync.
  Context {Src : BlockSource}.

(** [class SyncSR]; [closed] lists the descriptors that were closed. *)
Record SyncSR := mkSyncSR {
  sr_fd_ : Z;
  server_ipstr_ : list byte;
  server_port_ : Z;
  is_tcp_ : bool;
  closed : list Z
}.

(** The constructor: [fd_ = socket(...) < 0]. *)
Definition new_SyncSR (socket_result : Z) (is_tcp : bool) : SyncSR :=
  mkSyncSR (if socket_result <? 0 then 1 else 0) [] 0 is_tcp [].

Definition CloseSR (s : SyncSR) : Z * SyncSR :=
  if 0 <=? sr_fd_ s
  then (0, mkSyncSR (-1) (server_ipstr_ s) (server_port_ s) (is_tcp_ s) (closed s ++ [sr_fd_ s]))
  else (0, s).

(** The two answers of [setsockopt]. *)
Definition SetOpterationTimeout (usec rcvtimeo sndtimeo : Z) : Z :=
  if usec <? 0 then -1
  else if usec =? 0 then 0
  else if rcvtimeo =? -1 then -2
  else if sndtimeo =? -1 then -2
  else 0.

(** The descriptor is closed and then connected: [connect_result fd] and its
    [errno] are what [connect] answers for it. *)
Definition ConnectToServer (server_ip : list byte) (server_port : Z) (aton_ok : bool)
    (connect_result : Z) (errno : Z) (s : SyncSR) : Z * SyncSR :=
  if bool_decide (server_ip = []) then (-1, s)
  else
    let s := if 0 <=? sr_fd_ s
             then mkSyncSR (sr_fd_ s) (server_ipstr_ s) (server_port_ s) (is_tcp_ s) (closed s ++ [sr_fd_ s])
             else s in
    let s := mkSyncSR (sr_fd_ s) server_ip server_port (is_tcp_ s) (closed s) in
    if negb aton_ok then (-3, s)
    else if (connect_result =? -1) && negb (errno =? EAGAIN) then (-3, s)
    else (0, s).

(** An answer of [recv]: the bytes that have come, of which it takes as many as
    were asked for, or an error. *)
Inductive RecvAnswer := Got (l : list byte) | RecvFails.

(** The bytes taken, and the number [recv] returns. *)
Definition recv (n : Z) (a : RecvAnswer) : list byte * Z :=
  match a with
  | Got l => let t := take (Z.to_nat n) l in (t, zlen t)
  | RecvFails => ([], -1)
  end.

(** [memcpy] or [recv] to the start of a block. *)
Definition store (data : list byte) (b : MemBlock) : M source MemBlock :=
  let! m := of_option HUndefined (overwrite (mem_ b) 0 data) in
  ret (mkBlock (start_ b) (used_ b) (len_ b) m).

(** [BinSyncSR::SyncSendRecv]: the code and the block of the reply; [sent] is what
    [send] returns. *)
Definition Bin_SyncSendRecv (to_send : option MemBlock) (timeout_usec sent : Z) (r1 r2 : RecvAnswer) :
    M source (Z * option MemBlock) :=
  match to_send with
  | None => ret (-1, None)
  | Some b =>
      if timeout_usec <? 0 then ret (-1, None)
      else if negb (sent =? used_ b) then ret (-2, None)
      else
        let '(len_field, n) := recv 4 r1 in
        if negb (n =? 4) then ret (-3, None)
        else
          let! v := of_option HUndefined (load32 len_field 0) in
          let real_len := bswap32 v mod 2 ^ 32 in
          let! mb := get_block (to_int real_len) in
          match mb with
          | None => ret (-4, None)
          | Some to_recv =>
              let! to_recv := store len_field to_recv in
              let to_recv := set_used (used_ to_recv + 4) to_recv in
              let '(data, n) := recv (used_ to_recv) r2 in
              let! to_recv := store data to_recv in
              if negb (n mod 2 ^ 32 =? real_len)
              then give_block to_recv ;;! ret (-5, None)
              else ret (0, Some to_recv)
          end
  end.

(** The loop that looks for the newline does not move: it is left only when it is
    not entered. *)
Definition Line_SyncSendRecv (to_send : option MemBlock) (timeout_usec sent : Z) (r : RecvAnswer) :
    M source (Z * option MemBlock) :=
  match to_send with
  | None => ret (-1, None)
  | Some b =>
      if timeout_usec <? 0 then ret (-1, None)
      else if negb (sent =? used_ b) then ret (-2, None)
      else
        let! mb := get_block 1024 in
        match mb with
        | None => ret (-3, None)
        | Some to_recv =>
            let '(data, n) := recv (used_ to_recv) r in
            let! to_recv := store data to_recv in
            if n <=? 0 then give_block to_recv ;;! ret (-4, None)
            else
              let! c := of_option HUndefined (mem_ to_recv !! 0%nat) in
              if (0 <? used_ to_recv) && negb (Byte.eqb c newline) then stop HUndefined
              else if negb (Byte.eqb c newline) then give_block to_recv ;;! ret (-5, None)
              else ret (0, Some to_recv)
        end
  end.

(** Neither exchange can succeed on a real reply.  [BinSyncSR] asks for as
    many bytes as its block says are used, which are the four of the length
    field: it returns 0 only for a reply whose length field says at most 4, that
    is, one without content.  [LineSyncSR] asks for no byte at all and never
    returns 0. *)
Theorem sync_never_succeeds to_send timeout sent r1 r2 s s' z o :
  source_ok s ->
  (Bin_SyncSendRecv to_send timeout sent r1 r2 s = Ret (z, o) s' ->
   z = 0 -> exists l v, r1 = Got l /\ load32 l 0 = Some v /\ bswap32 v mod 2 ^ 32 <= 4) /\
  (Line_SyncSendRecv to_send timeout sent r1 s = Ret (z, o) s' -> z < 0 /\ o = None).
Proof.
  intros Hs. split.
  - unfold Bin_SyncSendRecv. intros E ->. destruct to_send as [b|]; [|done].
    destruct (timeout <? 0); [done|]. destruct (negb (sent =? used_ b)); [done|].
    destruct r1 as [l|]; [|done]. cbn [recv] in E.
    destruct (Z.eqb_spec (zlen (take (Z.to_nat 4) l)) 4) as [Hl|]; [|done]. cbn [negb] in E.
    step_ret E as v s1 E1. destruct (load32 _ 0) as [v'|] eqn:Hv; [|done]. injection E1 as -> <-.
    exists l, v. split_and!; [done| |].
    + by destruct l as [|x0 [|x1 [|x2 [|x3 l']]]].
    + step_ret E as mb s2 E2. destruct mb as [b1|]; [|done].
      destruct (get_block_ok _ _ _ _ Hs E2) as [_ Hb]. destruct (Hb b1 eq_refl) as (_ & _ & Hu & _).
      step_ret E as b2 s3 E3. apply bind_Ret_inv in E3 as (m & s4 & E3 & E4). injection E4 as <- <-.
      cbn [set_used used_] in E. rewrite Hu in E. destruct r2 as [l2|]; cbn [recv] in E.
      * step_ret E as b3 s5 E5. destruct (Z.eqb_spec (zlen (take (Z.to_nat (0 + 4)) l2) mod 2 ^ 32)
          (bswap32 v mod 2 ^ 32)) as [He|]; cbn [negb] in E; [|by step_ret E as u6 s6 E6; injection E].
        rewrite <- He. unfold zlen. rewrite length_take. rewrite Z.mod_small by lia. lia.
      * step_ret E as b3 s5 E5. destruct (Z.eqb_spec (-1 mod 2 ^ 32) (bswap32 v mod 2 ^ 32)) as [He|];
          cbn [negb] in E; [|by step_ret E as u6 s6 E6; injection E].
        exfalso. (* a length of 2^32 - 1 is -1 as an int: no block *)
        destruct (Hb b1 eq_refl) as ([Hpos _] & _). rewrite <- He in Hpos. vm_compute in Hpos. done.
  - unfold Line_SyncSendRecv. intros E. destruct to_send as [b|]; [|by injection E as <- <- <-].
    destruct (timeout <? 0); [by injection E as <- <- <-|].
    destruct (negb (sent =? used_ b)); [by injection E as <- <- <-|].
    step_ret E as mb s1 E1. destruct mb as [b1|]; [|by injection E as <- <- <-].
    destruct (get_block_ok _ _ _ _ Hs E1) as [_ Hb]. destruct (Hb b1 eq_refl) as (_ & _ & Hu & _).
    rewrite Hu in E. destruct r1 as [l|]; cbn [recv] in E.
    + rewrite take_0 in E. step_ret E as b2 s2 E2. step_ret E as u s3 E3. by injection E as <- <- <-.
    + step_ret E as b2 s2 E2. step_ret E as u s3 E3. by injection E as <- <- <-.
Qed.

End Sync.
