(* ===== verification/LeAdmin.v ===== *)
(** * The command channel of the libevent generation: [libevent-based/src/skeleton.cc]

    A program registers functions under names; a packet that comes on the address
    of the command channel holds lines, each a name and its options, and the
    functions are called.  [std::string] positions are natural numbers, [npos] is
    [None].

    The text does not compile as it stands.  It is read as follows: the message
    parameter is a pointer, as it is used; [find(cmd, func)] is [find(cmd)]; an
    administration function takes the name and the options, as it is called. *)

From S2P Require Import Prelude Wire LeMem LeSocket LeFrame.

Abbreviation AdminCmdFunc := (list byte -> list byte -> Z).

Definition blank : byte := x20.
Definition tab : byte := x09.

(** [find_first_of(set, pos)] and [find_first_not_of(set, pos)]. *)
Fixpoint first_index (f : byte -> bool) (l : list byte) : option nat :=
  match l with
  | [] => None
  | c :: l' => if f c then Some 0%nat else S <$> first_index f l'
  end.
Definition in_set (set : list byte) (c : byte) : bool := existsb (Byte.eqb c) set.
Definition find_first_of (set : list byte) (pos : nat) (l : list byte) : option nat :=
  (fun k => (pos + k)%nat) <$> first_index (in_set set) (drop pos l).
Definition find_first_not_of (set : list byte) (pos : nat) (l : list byte) : option nat :=
  (fun k => (pos + k)%nat) <$> first_index (fun c => negb (in_set set c)) (drop pos l).
(** [substr(pos, n)]. *)
Definition substr (pos n : nat) (l : list byte) : list byte := take n (drop pos l).

(** [RegisterAdminCommand]; a null function is [None]. *)
Definition RegisterAdminCommand (cmd : list byte) (func : option AdminCmdFunc)
    (m : gmap (list byte) AdminCmdFunc) : Z * gmap (list byte) AdminCmdFunc :=
  match func with
  | None => (-1, m)
  | Some f => match m !! cmd with Some _ => (-2, m) | None => (0, <[cmd := f]> m) end
  end.

(** The name and the options of a line. *)
Definition parse_line (line : list byte) : list byte * list byte :=
  let pos := find_first_of [blank; tab] 0 line in
  let cmd := match pos with Some p => substr 0 p line | None => [] end in
  let pos := match pos with Some p => find_first_not_of [blank; blank; tab] p line | None => None end in
  (cmd, match pos with Some p => drop p line | None => [] end).

(** The loop over the lines from [pos1]; the calls that were made are added to
    [calls].  Each turn moves [pos1] forward. *)
Fixpoint admin_loop (fuel : nat) (m : gmap (list byte) AdminCmdFunc) (lines : list byte) (pos1 : nat)
    (calls : list (list byte * list byte)) : option (Z * list (list byte * list byte)) :=
  match fuel with
  | O => None
  | S fuel' =>
      match find_first_of [blank; newline] pos1 lines with
      | None => Some (0, calls)
      | Some pos2 =>
          let '(cmd, options) := parse_line (substr pos1 pos2 lines) in
          let next calls :=
            if Nat.eqb (pos2 + 1) (length lines) then Some (0, calls)
            else admin_loop fuel' m lines (pos2 + 1) calls in
          match m !! cmd with
          | Some func =>
              if func cmd options <? 0 then Some (-2, calls ++ [(cmd, options)])
              else next (calls ++ [(cmd, options)])
          | None => next calls
          end
      end
  end.

(** The result and the calls; a packet without data is a null pointer. *)
Definition ProcessAdminCmdMessage (m : gmap (list byte) AdminCmdFunc) (input_pkt : Message) :
    option (Z * list (list byte * list byte)) :=
  if negb (bool_decide (m_data_format_ input_pkt = DF_LINE)) then Some (-1, [])
  else match data_ input_pkt with
       | None => None
       | Some b =>
           let lines := take (Z.to_nat (used_ b)) (mem_ b) in
           admin_loop (S (length lines)) m lines 0 []
       end.

(** What a worker does with a packet it has taken: the command channel or
    [ProcessMessage] of the program. *)
Inductive Dispatch := ToAdmin (pkt : Message) | ToProgram (pkt : Message).
Definition dispatch (my_admin_ip : list byte) (my_admin_port : Z) (pkt : Message) : Dispatch :=
  if bool_decide (my_admin_ip = m_my_ipstr_ pkt) && (my_admin_port =? m_my_port_ pkt)
  then ToAdmin pkt else ToProgram pkt.

(** ** The loop ends *)

Lemma first_index_lt f l k : first_index f l = Some k -> (k < length l)%nat.
Proof.
  revert k. induction l as [|c l IH]; intros k; cbn [first_index]; [done|].
  destruct (f c); [intros [= <-]; simpl; lia|].
  destruct (first_index f l) as [j|]; [|done]. intros [= <-]. specialize (IH j eq_refl). simpl. lia.
Qed.

Lemma find_first_of_bounds set pos l k : find_first_of set pos l = Some k -> (pos <= k < length l)%nat.
Proof.
  unfold find_first_of. destruct (first_index _ _) as [j|] eqn:E; [|done]. intros [= <-].
  apply first_index_lt in E. rewrite length_drop in E. lia.
Qed.

Lemma admin_loop_ends fuel m lines pos1 calls :
  (length lines - pos1 < fuel)%nat -> is_Some (admin_loop fuel m lines pos1 calls).
Proof.
  revert pos1 calls. induction fuel as [|fuel IH]; intros pos1 calls Hf; [lia|]. cbn [admin_loop].
  destruct (find_first_of _ _ _) as [pos2|] eqn:E; [|by eexists].
  apply find_first_of_bounds in E. destruct (parse_line _) as [cmd options].
  assert (Hn : forall c, is_Some (if Nat.eqb (pos2 + 1) (length lines) then Some (0, c)
                                  else admin_loop fuel m lines (pos2 + 1) c)).
  { intros c. destruct (Nat.eqb _ _); [by eexists|]. apply IH. lia. }
  destruct (m !! cmd) as [func|]; [|apply Hn]. destruct (_ <? 0); [by eexists|apply Hn].
Qed.

(** ** Which lines are understood *)

Definition plain (set : list byte) (l : list byte) : Prop := Forall (fun c => in_set set c = false) l.

Lemma first_index_app f l c r :
  Forall (fun x => f x = false) l -> f c = true -> first_index f (l ++ c :: r) = Some (length l).
Proof.
  induction 1 as [|x l Hx Hl IH]; intros Hc; cbn [app first_index]; [by rewrite Hc|].
  rewrite Hx, IH by done. done.
Qed.

Lemma first_index_none f l : Forall (fun x => f x = false) l -> first_index f l = None.
Proof. induction 1 as [|x l Hx Hl IH]; [done|]. cbn [first_index]. by rewrite Hx, IH. Qed.

Lemma plain_sub set set' l :
  (forall c, in_set set' c = false -> in_set set c = false) -> plain set' l -> plain set l.
Proof. intros H Hl. eapply list.Forall_impl; [exact Hl|exact H]. Qed.

Lemma find_first_of_app set l c r :
  plain set l -> in_set set c = true -> find_first_of set 0 (l ++ c :: r) = Some (length l).
Proof. intros H1 H2. unfold find_first_of. by rewrite drop_0, first_index_app by done. Qed.

Lemma parse_line_word cmd : plain [blank; tab] cmd -> parse_line cmd = ([], []).
Proof. intros H. unfold parse_line, find_first_of. by rewrite drop_0, first_index_none by done. Qed.

Lemma parse_line_tab cmd c options :
  plain [blank; tab] cmd -> in_set [blank; tab] c = false ->
  parse_line (cmd ++ tab :: c :: options) = (cmd, c :: options).
Proof.
  intros H Hc. unfold parse_line. rewrite find_first_of_app by done.
  unfold find_first_not_of, substr. rewrite drop_0, take_app_length, drop_app_length.
  assert (Ht : negb (in_set [blank; blank; tab] tab) = false) by done.
  assert (Hc' : negb (in_set [blank; blank; tab] c) = true).
  { unfold in_set in *. simpl in *. apply orb_false_iff in Hc as [H1 H2]. by rewrite H1, H2. }
  cbn [first_index]. rewrite Ht, Hc'. cbn [fmap option_fmap option_map].
  f_equal. rewrite <- drop_drop, drop_app_length. done.
Qed.

(** The loop over the lines always ends.  A line that is only a name is not
    understood: no function is called, whatever is registered under it, because
    the name is only looked for before a blank or a tab and the line holds
    neither.  A line of a name, a tab and options calls the function of the name
    once, with the options, and the result is -2 if the function fails. *)
Theorem admin_lines m pkt b cmd options :
  m_data_format_ pkt = DF_LINE -> data_ pkt = Some b ->
  plain [blank; tab; newline] cmd -> plain [blank; newline] options ->
  first_index (in_set [blank; tab]) options <> Some 0%nat -> options <> [] -> m !! [] = None ->
  is_Some (ProcessAdminCmdMessage m pkt) /\
  (take (Z.to_nat (used_ b)) (mem_ b) = cmd ++ [newline] -> ProcessAdminCmdMessage m pkt = Some (0, [])) /\
  (forall func, m !! cmd = Some func ->
     take (Z.to_nat (used_ b)) (mem_ b) = cmd ++ [tab] ++ options ++ [newline] ->
     ProcessAdminCmdMessage m pkt =
       Some (if func cmd options <? 0 then -2 else 0, [(cmd, options)])).
Proof.
  intros Hf Hd Hc Ho Ho1 Hone Hnone. unfold ProcessAdminCmdMessage.
  rewrite bool_decide_eq_true_2 by done. cbn [negb]. rewrite Hd.
  assert (Hc1 : plain [blank; newline] cmd).
  { eapply plain_sub; [|exact Hc]. intros c. unfold in_set. simpl. rewrite !orb_false_iff. tauto. }
  assert (Hc2 : plain [blank; tab] cmd).
  { eapply plain_sub; [|exact Hc]. intros c. unfold in_set. simpl. rewrite !orb_false_iff. tauto. }
  split_and!.
  - apply admin_loop_ends. lia.
  - intros ->. cbn [admin_loop]. rewrite find_first_of_app by done.
    unfold substr. rewrite drop_0, take_app_length, parse_line_word by done. cbv beta iota zeta. rewrite Hnone.
    by rewrite length_app; change (length [newline]) with 1%nat; rewrite Nat.eqb_refl.
  - intros func Hfunc ->. destruct options as [|c options]; [done|].
    assert (Hct : in_set [blank; tab] c = false).
    { destruct (in_set [blank; tab] c) eqn:E; [|done]. cbn [first_index] in Ho1. by rewrite E in Ho1. }
    assert (Happ : cmd ++ [tab] ++ (c :: options) ++ [newline] = (cmd ++ tab :: c :: options) ++ [newline])
      by (by rewrite <- app_assoc).
    rewrite Happ. cbn [admin_loop]. rewrite find_first_of_app; [|apply Forall_app; split; [done|by apply list.Forall_cons]|done].
    unfold substr. rewrite drop_0, take_app_length, parse_line_tab by done. cbv beta iota zeta. rewrite Hfunc.
    rewrite (length_app (cmd ++ _)); change (length [newline]) with 1%nat; rewrite Nat.eqb_refl. by destruct (_ <? 0).
Qed.
