(* ===== verification/LeStart.v ===== *)
(** * Starting a program on the libevent generation: [libevent-based/src/skeleton.cc]

    [Init] makes the frame and the listening sockets, [Run] makes them again, with
    the connections to the log and the report server, and starts the workers,
    which take packets from the queues of the frame.

    The text does not compile as it stands.  It is read as follows: [Server::] is
    [Skeleton::]; [WorkderThreadProc] is the [WorkerThreadProc] that is started,
    and [int ret - ...] in it is an assignment; its [ProcessAdminMessage] is
    [ProcessAdminCmdMessage].  A pointer compared with 0 by [<] is negative only if
    it is the code -2 that [CreateListenSocket] returns as a pointer.
    [SLog::InitSLog] is declared nowhere: its answer is an argument.  The service
    a program is built for, [ProcessMessage], is pure virtual. *)

From S2P Require Import Prelude Wire LeMem LeSocket LeFrame LeQueues LeAdmin.

Record ListenSocketInfo := mkListen {
  l_ip_ : list byte; l_port_ : Z; l_type_ : SocketType; l_data_format_ : DataFormat
}.

(** Where the log and the reports go. *)
Record ServerInfo := mkServer {
  server_ip_ : list byte; server_port_ : Z; server_type_ : SocketType; server_data_format_ : DataFormat
}.

(** How a turn of a worker ends: the worker ends, it waits for a packet, or it
    has handled one. *)
Inductive Turn := TEnded | TWaits | THandled (d : Dispatch).

Section Start.
  Context {Src : BlockSource}.
  Variable ProcessMessage : Message -> M NetFrame Z.
  Variable AdminFunctions : gmap (list byte) (list byte -> list byte -> Z).

(** [netframe_]: null; an object whose constructor has returned early, with no
    queues and no pool; or a frame. *)
Inductive FramePtr := NoFrame | Unbuilt | Frame (f : NetFrame).

(** [class Skeleton]; the map of listening sockets in the order of its names;
    [threads] are the workers that were started. *)
Record Skeleton := mkSkeleton {
  listen_socket_map_ : list (list byte * ListenSocketInfo);
  my_admin_ip_ : list byte;
  my_admin_port_ : Z;
  listen_socket_ready_ : bool;
  worker_num_ : Z;
  send_queue_num_ : Z;
  log_server_ : ServerInfo;
  report_server_ : ServerInfo;
  cancel_ : bool;
  netframe_ : FramePtr;
  threads : list Z
}.

Definition set_frame (f : FramePtr) (s : Skeleton) : Skeleton :=
  mkSkeleton (listen_socket_map_ s) (my_admin_ip_ s) (my_admin_port_ s) (listen_socket_ready_ s) (worker_num_ s)
    (send_queue_num_ s) (log_server_ s) (report_server_ s) (cancel_ s) f (threads s).
Definition set_ready (b : bool) (s : Skeleton) : Skeleton :=
  mkSkeleton (listen_socket_map_ s) (my_admin_ip_ s) (my_admin_port_ s) b (worker_num_ s)
    (send_queue_num_ s) (log_server_ s) (report_server_ s) (cancel_ s) (netframe_ s) (threads s).
Definition set_threads (l : list Z) (s : Skeleton) : Skeleton :=
  mkSkeleton (listen_socket_map_ s) (my_admin_ip_ s) (my_admin_port_ s) (listen_socket_ready_ s) (worker_num_ s)
    (send_queue_num_ s) (log_server_ s) (report_server_ s) (cancel_ s) (netframe_ s) l.
Definition add_thread (i : Z) (s : Skeleton) : Skeleton := set_threads (threads s ++ [i]) s.

(** An operation of the frame. *)
Definition on_frame {A} (m : M NetFrame A) : M Skeleton A := fun s =>
  match netframe_ s with
  | Frame f => match m f with Ret a f' => Ret a (set_frame (Frame f') s) | Halt h f' => Halt h (set_frame (Frame f') s) end
  | _ => Halt HUndefined s
  end.

(** What the system answers, and what memory holds, when the sockets are made. *)
Variable calls : nat -> SockCalls.
Variable garbage : nat -> Garbage.

Definition create_listener (n : nat) (info : ListenSocketInfo) : M Skeleton (Z + option N) :=
  on_frame (CreateListenSocket (garbage n) (calls n) (l_ip_ info) (l_port_ info) (l_type_ info) (l_data_format_ info)).

(** The loop of [InitListenSocket]. *)
Fixpoint listen_loop (n : nat) (infos : list (list byte * ListenSocketInfo)) : M Skeleton Z :=
  match infos with
  | [] => ret 0
  | (_, info) :: infos' =>
      let! r := create_listener n info in
      match r with
      | inl z => if z <? 0 then ret (-1) else listen_loop (S n) infos'
      | inr _ => listen_loop (S n) infos'
      end
  end.

Definition InitListenSocket : M Skeleton Z :=
  let! infos := gets listen_socket_map_ in listen_loop 0 infos.

(** The maximal sizes of the queues are what [mem1] and [mem2] say the memory was;
    the clock says [now]. *)
Definition Init (slog_answer mem1 mem2 now : Z) (pool0 : source) : M Skeleton Z :=
  let! s := gets (fun s => s) in
  modify (set_frame
    match new_NetFrame (send_queue_num_ s) (worker_num_ s) mem1 mem2 pool0 now with
    | Some f => Frame f | None => Unbuilt end) ;;!
  if slog_answer <? 0 then ret (-2)
  else
    let! r := InitListenSocket in
    (if r <? 0 then ret tt else modify (set_ready true)) ;;!
    ret 0.

(** The sockets of the log and the report server. *)
Definition connect_server (n : nat) (server : ServerInfo) : M Skeleton unit :=
  if bool_decide (server_ip_ server = []) || (server_port_ server =? 0) then ret tt
  else
    on_frame (CreateClientSocket (garbage n) (calls n) (server_ip_ server) (server_port_ server)
      (server_type_ server) (server_data_format_ server)) ;;! ret tt.

(** The listening sockets in [Run], whose results are not looked at. *)
Fixpoint listen_again (n : nat) (infos : list (list byte * ListenSocketInfo)) : M Skeleton unit :=
  match infos with
  | [] => ret tt
  | (_, info) :: infos' => create_listener n info ;;! listen_again (S n) infos'
  end.

(** [Run] up to where it waits for its workers to end: [None]; an array of a
    negative number of threads is undefined. *)
Definition Run : M Skeleton (option Z) :=
  let! s := gets (fun s => s) in
  match netframe_ s with
  | NoFrame => ret (Some (-1))
  | _ =>
      let n := length (listen_socket_map_ s) in
      listen_again n (listen_socket_map_ s) ;;!
      connect_server (n + n) (log_server_ s) ;;!
      connect_server (S (n + n)) (report_server_ s) ;;!
      if worker_num_ s <? 0 then stop HUndefined
      else
        forM (seq 0 (Z.to_nat (worker_num_ s))) (fun i => modify (add_thread (Z.of_nat i))) ;;!
        ret None
  end.

(** One turn of the loop of [WorkerThreadProc]; the results of the services are not
    looked at.  A frame without queues refuses every number. *)
Definition worker_turn (id_ : Z) : M Skeleton Turn :=
  let! s := gets (fun s => s) in
  if cancel_ s then ret TEnded
  else
    match netframe_ s with
    | Unbuilt => ret TEnded
    | _ =>
        let! r := on_frame (GetMessageFromRecvQueue id_) in
        if r.1 <? 0 then ret TEnded
        else
          match r.2 with
          | None => ret TWaits
          | Some pkt =>
              let d := dispatch (my_admin_ip_ s) (my_admin_port_ s) pkt in
              match d with
              | ToAdmin pkt => of_option HUndefined (ProcessAdminCmdMessage AdminFunctions pkt) ;;! ret tt
              | ToProgram pkt => on_frame (ProcessMessage pkt) ;;! ret tt
              end ;;!
              ret (THandled d)
          end
    end.

(** [WorkerThreadProc] for as many packets as there is fuel: [None] when it was
    used up; a worker that waits stays where it is. *)
Fixpoint WorkerThreadProc (fuel : nat) (id_ : Z) : M Skeleton (option Turn) :=
  match fuel with
  | O => ret None
  | S fuel' =>
      let! t := worker_turn id_ in
      match t with THandled _ => WorkerThreadProc fuel' id_ | _ => ret (Some t) end
  end.

(** ** The sockets in the pool *)

Definition listen_key (e : list byte * ListenSocketInfo) : SocketKey := (l_ip_ e.2, l_port_ e.2, l_type_ e.2).

(** A format that [new_by_format] has a class for. *)
Definition has_class (f : DataFormat) : Prop := f = DF_BIN \/ f = DF_LINE \/ f = DF_HTTP.

Definition tcp_listener (e : list byte * ListenSocketInfo) : Prop :=
  l_type_ e.2 = T_TCP_LISTEN /\ has_class (l_data_format_ e.2) /\ l_ip_ e.2 <> [].

(** The pool answers what the constructors of line and HTTP sockets ask it for,
    with a block or without one. *)
Variable answering : source -> Prop.
Hypothesis get_answers : forall p, answering p ->
  exists o p', get_block NON_PACKETIZED_BUFFER_SIZE p = Ret o p' /\ answering p'.

(** A log or report server as the configuration sets them. *)
Definition bin_client (server : ServerInfo) : Prop :=
  server_type_ server = T_TCP_CLIENT /\ server_data_format_ server = DF_BIN.

(** What the start leaves alone: nothing is watched, no packet is queued, and the
    pool still answers. *)
Definition silent (f f' : NetFrame) : Prop :=
  monitored f' = monitored f /\ recv_queues_ f' = recv_queues_ f /\ (answering (mem f) -> answering (mem f')).

#[local] Instance silent_refl : Reflexive silent.
Proof. by split. Qed.
#[local] Instance silent_trans : Transitive silent.
Proof. intros f g h (H1 & H2 & Hp) (H3 & H4 & Hq). split_and!; [congruence|congruence|tauto]. Qed.

(** A change of a socket, and putting it into the pool. *)
Lemma socket_update_eq p h x y (f : NetFrame) :
  heap f !! p = Some (x, y) -> update p h f = Ret tt (with_heap (<[p := (h x, y)]> (heap f)) f).
Proof. intros H. unfold update, on_socket. rewrite H. by destruct f. Qed.

Lemma AddSocket_eq p x y key (f : NetFrame) :
  heap f !! p = Some (x, y) -> key_of x = Some key ->
  exists z, AddSocket p f = Ret z (with_map (<[key := default [] (socket_map_ f !! key) ++ [p]]> (socket_map_ f)) f).
Proof.
  intros Hp Hk. unfold AddSocket. rewrite (bind_Ret _ _ f (x, y) f)
    by (unfold deref; rewrite bind_gets; by rewrite Hp).
  rewrite (bind_of_option _ _ key) by done. rewrite bind_gets.
  destruct (socket_map_ f !! key) as [l|]; by eexists.
Qed.

(** A new object of a class. *)
Lemma new_by_format_eq g fmt (f : NetFrame) :
  has_class fmt -> answering (mem f) ->
  exists x0 f1, new_by_format g fmt f = Ret (Some (next_ptr f)) f1 /\ silent f f1 /\
    heap f1 !! next_ptr f = Some (x0, mkSys [] 0 []) /\ socket_map_ f1 = socket_map_ f.
Proof.
  intros Hf Ha. destruct (get_answers _ Ha) as (o & p' & Eg & Ha').
  destruct Hf as [->|[->| ->]]; cbn [new_by_format].
  - unfold new_object. rewrite bind_gets, bind_modify. do 2 eexists. split; [reflexivity|].
    split; [done|]. split; [apply lookup_insert_eq|done].
  - unfold new_LineTcpSocket, on_mem, bindM. rewrite Eg. do 2 eexists. split; [reflexivity|].
    split; [by split_and!|]. split; [apply lookup_insert_eq|done].
  - unfold on_mem, bindM. rewrite Eg. do 2 eexists. split; [reflexivity|].
    split; [by split_and!|]. split; [apply lookup_insert_eq|done].
Qed.

(** A new socket, prepared with its key. *)
Lemma create_socket_eq g fmt prepare key (f : NetFrame) :
  has_class fmt -> answering (mem f) -> (forall x, key_of (prepare x).2 = Some key) ->
  exists p f', create g fmt prepare f = Ret (Some p) f' /\ silent f f' /\
    socket_map_ f' = <[key := default [] (socket_map_ f !! key) ++ [p]]> (socket_map_ f).
Proof.
  intros Hf Ha Hkey. unfold create. exists (next_ptr f).
  destruct (new_by_format_eq g fmt f Hf Ha) as (x0 & f1 & E0 & S0 & H1 & Hmap).
  rewrite (bind_Ret _ _ _ _ _ E0). cbv beta iota.
  rewrite (bind_Ret (update _ _) _ f1 tt _ (socket_update_eq _ _ _ _ _ H1)). set (f2 := with_heap _ f1).
  destruct (AddSocket_eq (next_ptr f) (prepare x0).2 (mkSys [] 0 []) key f2 (lookup_insert_eq _ _ _) (Hkey x0)) as [z E].
  rewrite (bind_Ret _ _ _ _ _ E). eexists. split; [reflexivity|].
  split; [exact S0|]. cbn [socket_map_ f2 with_map with_heap]. by rewrite Hmap.
Qed.

Lemma listen_prepared c e x :
  tcp_listener e ->
  key_of (PrepareListenSocket c (l_ip_ e.2) (l_port_ e.2) (l_type_ e.2) (l_data_format_ e.2) x).2 = Some (listen_key e).
Proof.
  intros (Ht & _ & Hip). unfold PrepareListenSocket, listen_key. rewrite Ht.
  rewrite bool_decide_eq_false_2, bool_decide_eq_true_2 by done. cbn [negb orb].
  by repeat case_match.
Qed.

Lemma client_prepared c server x :
  bin_client server -> server_ip_ server <> [] ->
  key_of (PrepareClientSocket c (server_ip_ server) (server_port_ server) (server_type_ server)
    (server_data_format_ server) x).2 = Some (server_ip_ server, server_port_ server, T_TCP_CLIENT).
Proof.
  intros (Ht & _) Hip. unfold PrepareClientSocket. rewrite Ht.
  rewrite bool_decide_eq_false_2, bool_decide_eq_true_2 by done. cbn [negb orb].
  by repeat case_match.
Qed.

(** The first socket at an address is made, the second call takes it out of the
    pool again, and a third one goes wrong. *)
Lemma CreateListenSocket_eq g c e (f : NetFrame) :
  tcp_listener e -> answering (mem f) ->
  let call := CreateListenSocket g c (l_ip_ e.2) (l_port_ e.2) (l_type_ e.2) (l_data_format_ e.2) in
  match socket_map_ f !! listen_key e with
  | None => exists p f', call f = Ret (inr (Some p)) f' /\ silent f f' /\
      socket_map_ f' = <[listen_key e := [p]]> (socket_map_ f)
  | Some [] => call f = Halt HUndefined f
  | Some (p :: l) => call f = Ret (inl (-2)) (with_map (<[listen_key e := l]> (socket_map_ f)) f)
  end.
Proof.
  intros He Ha call. unfold call, CreateListenSocket.
  change (l_ip_ e.2, l_port_ e.2, l_type_ e.2) with (listen_key e).
  assert (Hf : FindSocket (listen_key e) f =
    match socket_map_ f !! listen_key e with
    | None => Ret None f
    | Some [] => Halt HUndefined f
    | Some (p :: l) => Ret (Some p) (with_map (<[listen_key e := l]> (socket_map_ f)) f)
    end) by (unfold FindSocket; rewrite bind_gets; by destruct (socket_map_ f !! listen_key e) as [[|]|]).
  destruct (socket_map_ f !! listen_key e) as [[|p l]|] eqn:Em.
  { unfold bindM. by rewrite Hf. }
  { by rewrite (bind_Ret _ _ _ _ _ Hf). }
  rewrite (bind_Ret _ _ _ _ _ Hf).
  pose proof He as (Ht & Hd & Hip).
  destruct (create_socket_eq g (l_data_format_ e.2) (PrepareListenSocket c (l_ip_ e.2) (l_port_ e.2) (l_type_ e.2) (l_data_format_ e.2))
    (listen_key e) f Hd Ha) as (p & f' & E & Hs & Hmap); [intros x; by apply listen_prepared|].
  exists p, f'. rewrite Em in Hmap. split; [|by split].
  rewrite Ht in *. by rewrite (bind_Ret _ _ _ _ _ E).
Qed.

(** ** The loops *)

Lemma on_frame_eq {A} (m : M NetFrame A) a f f' s :
  netframe_ s = Frame f -> m f = Ret a f' -> on_frame m s = Ret a (set_frame (Frame f') s).
Proof. intros Hs E. unfold on_frame. by rewrite Hs, E. Qed.

(** An entry at another key does not matter. *)
Lemma keys_insert (P : option (list N) -> Prop) (k : SocketKey) (v : list N) (m : gmap SocketKey (list N)) es :
  k ∉ listen_key <$> es -> Forall (fun e => P (m !! listen_key e)) es ->
  Forall (fun e => P (<[k := v]> m !! listen_key e)) es.
Proof.
  intros Hk H. induction H as [|e es He H IH]; [constructor|]. apply not_elem_of_cons in Hk as [Hne Hk].
  constructor; [by rewrite lookup_insert_ne|by apply IH].
Qed.

(** The first round makes every listening socket. *)
Lemma listen_loop_eq es n s f :
  netframe_ s = Frame f -> answering (mem f) -> Forall tcp_listener es -> base.NoDup (listen_key <$> es) ->
  Forall (fun e => socket_map_ f !! listen_key e = None) es ->
  exists f', listen_loop n es s = Ret 0 (set_frame (Frame f') s) /\ silent f f' /\
    Forall (fun e => exists p, socket_map_ f' !! listen_key e = Some [p]) es /\
    (forall k, k ∉ listen_key <$> es -> socket_map_ f' !! k = socket_map_ f !! k).
Proof.
  revert n s f. induction es as [|[name info] es IH]; intros n s f Hs Ha Hl Hnd Hnone.
  { exists f. split; [|by split_and!]. cbn [listen_loop]. rewrite <- Hs. by destruct s. }
  apply list.Forall_cons in Hl as [He Hl]. apply list.Forall_cons in Hnone as [Hn Hnone].
  cbn [fmap list_fmap] in Hnd. apply list.NoDup_cons in Hnd as [Hk Hnd].
  pose proof (CreateListenSocket_eq (garbage n) (calls n) (name, info) f He Ha) as Hc. rewrite Hn in Hc.
  destruct Hc as (p & f1 & E1 & S1 & M1).
  destruct (IH (S n) (set_frame (Frame f1) s) f1) as (f2 & E2 & S2 & A2 & O2); [done|by apply S1|done|done| |].
  { rewrite M1. by apply (keys_insert (fun o => o = None)). }
  exists f2. split; [|split; [by transitivity f1|split]].
  - cbn [listen_loop]. unfold create_listener. by rewrite (bind_Ret _ _ _ _ _ (on_frame_eq _ _ _ _ _ Hs E1)).
  - constructor; [|done]. exists p. rewrite O2 by done. by rewrite M1, lookup_insert_eq.
  - intros k [Hne Hnin]%not_elem_of_cons. rewrite O2, M1 by done. by rewrite lookup_insert_ne.
Qed.

(** The second takes them all out of the pool. *)
Lemma listen_again_eq es n s f :
  netframe_ s = Frame f -> answering (mem f) -> Forall tcp_listener es -> base.NoDup (listen_key <$> es) ->
  Forall (fun e => exists p, socket_map_ f !! listen_key e = Some [p]) es ->
  exists f', listen_again n es s = Ret tt (set_frame (Frame f') s) /\ silent f f' /\
    Forall (fun e => socket_map_ f' !! listen_key e = Some []) es /\
    (forall k, k ∉ listen_key <$> es -> socket_map_ f' !! k = socket_map_ f !! k).
Proof.
  revert n s f. induction es as [|[name info] es IH]; intros n s f Hs Ha Hl Hnd Hsome.
  { exists f. split; [|by split_and!]. cbn [listen_again]. rewrite <- Hs. by destruct s. }
  apply list.Forall_cons in Hl as [He Hl]. apply list.Forall_cons in Hsome as [[p Hp] Hsome].
  cbn [fmap list_fmap] in Hnd. apply list.NoDup_cons in Hnd as [Hk Hnd].
  pose proof (CreateListenSocket_eq (garbage n) (calls n) (name, info) f He Ha) as Hc. rewrite Hp in Hc.
  set (f1 := with_map _ f) in Hc.
  destruct (IH (S n) (set_frame (Frame f1) s) f1) as (f2 & E2 & S2 & A2 & O2); [done|done|done|done| |].
  { by apply (keys_insert (fun o => exists p, o = Some [p])). }
  exists f2. split; [|split; [by transitivity f1|split]].
  - cbn [listen_again]. unfold create_listener. by rewrite (bind_Ret _ _ _ _ _ (on_frame_eq _ _ _ _ _ Hs Hc)).
  - constructor; [|done]. rewrite O2 by done. apply lookup_insert_eq.
  - intros k [Hne Hnin]%not_elem_of_cons. rewrite O2 by done. by apply lookup_insert_ne.
Qed.

(** A connection to a server goes to another key. *)
Lemma connect_server_eq n server s f :
  netframe_ s = Frame f -> answering (mem f) -> bin_client server ->
  exists f', connect_server n server s = Ret tt (set_frame (Frame f') s) /\ silent f f' /\
    (forall k, k.2 = T_TCP_LISTEN -> socket_map_ f' !! k = socket_map_ f !! k).
Proof.
  intros Hs Ha Hb. unfold connect_server. destruct (bool_decide _ || _) eqn:E.
  { exists f. split; [rewrite <- Hs; by destruct s|by split_and!]. }
  apply orb_false_iff in E as [Hip%bool_decide_eq_false _].
  destruct (create_socket_eq (garbage n) DF_BIN (PrepareClientSocket (calls n) (server_ip_ server) (server_port_ server)
    (server_type_ server) (server_data_format_ server)) (server_ip_ server, server_port_ server, T_TCP_CLIENT) f
    (or_introl eq_refl) Ha)
    as (p & f' & E & S & Hm); [intros x; by apply client_prepared|].
  exists f'. split; [|split; [done|]].
  - assert (Ec : CreateClientSocket (garbage n) (calls n) (server_ip_ server) (server_port_ server)
      (server_type_ server) (server_data_format_ server) f = Ret (Some p) f').
    { unfold CreateClientSocket. destruct Hb as [Ht Hd]. rewrite Hd in *. by rewrite Ht in *. }
    by rewrite (bind_Ret _ _ _ _ _ (on_frame_eq _ _ _ _ _ Hs Ec)).
  - intros [[ip pt] t] Hk. cbn in Hk. subst t. rewrite Hm. by apply lookup_insert_ne.
Qed.

Lemma start_threads l s :
  forM l (fun i => modify (add_thread (Z.of_nat i))) s = Ret tt (set_threads (threads s ++ map Z.of_nat l) s).
Proof.
  revert s. induction l as [|i l IH]; intros s; cbn [forM map].
  - rewrite app_nil_r. by destruct s.
  - rewrite bind_modify, IH. unfold add_thread. cbn [threads set_threads]. by rewrite <- app_assoc.
Qed.

(** ** A program that was started *)

(** A turn of a worker that was started; the main thread waits for them. *)
Inductive worker_step : Skeleton -> Skeleton -> Prop :=
| worker_step_turn i t s s' : i ∈ threads s -> worker_turn i s = Ret t s' -> worker_step s s'.

Lemma empty_queues_turn n i s f :
  netframe_ s = Frame f -> cancel_ s = false -> recv_queues_ f = replicate n [] ->
  worker_turn i s = Ret (if (0 <=? i) && (i <? Z.of_nat n) then TWaits else TEnded) s.
Proof.
  intros Hs Hc Hq. unfold worker_turn. rewrite bind_gets, Hc, Hs.
  assert (Eg : GetMessageFromRecvQueue i f = Ret (if (0 <=? i) && (i <? Z.of_nat n) then 0 else -1, None) f).
  { destruct (Z.leb_spec 0 i) as [Hi|Hi].
    - rewrite <- (Z2Nat.id i) at 1 by lia. rewrite Get_eq, Hq. cbn [andb].
      destruct (Z.ltb_spec i (Z.of_nat n)); [by rewrite lookup_replicate_2 by lia|].
      by rewrite lookup_ge_None_2 by (rewrite length_replicate; lia).
    - unfold GetMessageFromRecvQueue. rewrite bind_gets, (proj2 (Z.ltb_lt _ _)) by lia. done. }
  rewrite (bind_Ret _ _ _ _ _ (on_frame_eq _ _ _ _ _ Hs Eg)).
  assert (set_frame (Frame f) s = s) as -> by (rewrite <- Hs; by destruct s).
  by destruct ((0 <=? i) && _).
Qed.

(** C36: a program on the frame that is not cancelled is started and then waits.
    Its listening sockets are TCP sockets of one of the three formats with
    addresses of their own, the log and the report server are as the configuration
    sets them, and the pool of memory answers: [Init] makes every listening socket
    and returns 0; [Run] makes them a second time, which is refused and takes them
    out of the pool again, so that a third time is undefined; it starts the
    workers.  No socket was given to libevent and [NetFrame::Run] is not called:
    nothing is watched, every queue is empty, every worker waits for a packet, and
    whatever turns the workers take the state stays the same. *)
Theorem started_program_waits s slog_answer mem1 mem2 now pool0 fuel :
  0 < worker_num_ s -> 0 < send_queue_num_ s -> cancel_ s = false -> 0 <= slog_answer -> answering pool0 ->
  Forall tcp_listener (listen_socket_map_ s) -> base.NoDup (listen_key <$> listen_socket_map_ s) ->
  bin_client (log_server_ s) -> bin_client (report_server_ s) ->
  exists s1 s2 f, Init slog_answer mem1 mem2 now pool0 s = Ret 0 s1 /\ listen_socket_ready_ s1 = true /\
    Run s1 = Ret None s2 /\ netframe_ s2 = Frame f /\
    threads s2 = threads s ++ map Z.of_nat (seq 0 (Z.to_nat (worker_num_ s))) /\ monitored f = [] /\
    recv_queues_ f = replicate (Z.to_nat (worker_num_ s)) [] /\
    (forall e n, e ∈ listen_socket_map_ s ->
       socket_map_ f !! listen_key e = Some [] /\ create_listener n e.2 s2 = Halt HUndefined s2) /\
    (forall i, 0 <= i < worker_num_ s -> WorkerThreadProc (S fuel) i s2 = Ret (Some TWaits) s2) /\
    forall s3, rtc worker_step s2 s3 -> s3 = s2.
Proof.
  intros Hw Hq Hc Hlog Ha Hl Hnd Hls Hrs. set (es := listen_socket_map_ s) in *.
  set (f0 := mkFrame ∅ 0 ∅ (replicate (Z.to_nat (worker_num_ s)) []) mem1
               (replicate (Z.to_nat (send_queue_num_ s)) []) mem2 [] pool0 now).
  assert (Hnew : new_NetFrame (send_queue_num_ s) (worker_num_ s) mem1 mem2 pool0 now = Some f0).
  { unfold new_NetFrame. by rewrite !(proj2 (Z.leb_gt _ _)) by lia. }
  destruct (listen_loop_eq es 0 (set_frame (Frame f0) s) f0) as (f1 & E1 & S1 & A1 & _); [done|done|done|done| |].
  { apply list.Forall_forall. intros e _. apply lookup_empty. }
  assert (Ha1 : answering (mem f1)) by by apply S1.
  set (s1 := set_ready true (set_frame (Frame f1) s)).
  destruct (listen_again_eq es (length es) s1 f1) as (f2 & E2 & S2 & A2 & _); [done..|].
  assert (Ha2 : answering (mem f2)) by by apply S2.
  destruct (connect_server_eq (length es + length es) (log_server_ s) (set_frame (Frame f2) s1) f2)
    as (f3 & E3 & S3 & M3); [done..|].
  assert (Ha3 : answering (mem f3)) by by apply S3.
  destruct (connect_server_eq (S (length es + length es)) (report_server_ s) (set_frame (Frame f3) s1) f3)
    as (f4 & E4 & S4 & M4); [done..|].
  assert (Hs : silent f0 f4) by (transitivity f1; [done|]; transitivity f2; [done|]; by transitivity f3).
  destruct Hs as (Hmon & Hrq & _).
  set (s2 := set_threads (threads s ++ map Z.of_nat (seq 0 (Z.to_nat (worker_num_ s)))) (set_frame (Frame f4) s1)).
  assert (Hmap : forall e, e ∈ es -> socket_map_ f4 !! listen_key e = Some []).
  { intros e He. rewrite list.Forall_forall in A2, Hl. destruct (Hl e He) as [Ht _].
    rewrite M4, M3 by done. by apply A2. }
  assert (Hturn : forall i, worker_turn i s2 =
    Ret (if (0 <=? i) && (i <? Z.of_nat (Z.to_nat (worker_num_ s))) then TWaits else TEnded) s2)
    by (intros i; by apply (empty_queues_turn _ i s2 f4)).
  exists s1, s2, f4. split; [|split; [done|split; [|split; [done|split; [done|split; [done|split; [done|]]]]]]].
  - unfold Init. rewrite bind_gets, bind_modify, Hnew, (proj2 (Z.ltb_ge _ _)) by done.
    assert (Ei : InitListenSocket (set_frame (Frame f0) s) = Ret 0 (set_frame (Frame f1) s)) by exact E1.
    by rewrite (bind_Ret _ _ _ _ _ Ei).
  - unfold Run. rewrite bind_gets. change (netframe_ s1) with (Frame f1). cbv iota zeta.
    change (listen_socket_map_ s1) with es.
    rewrite (bind_Ret _ _ _ _ _ E2). change (log_server_ s1) with (log_server_ s).
    rewrite (bind_Ret _ _ _ _ _ E3), (bind_Ret _ _ _ _ _ E4).
    change (worker_num_ s1) with (worker_num_ s). rewrite (proj2 (Z.ltb_ge _ _)) by lia.
    by rewrite (bind_Ret _ _ _ _ _ (start_threads _ _)).
  - split_and!.
    + intros e n He. split; [by apply Hmap|]. rewrite list.Forall_forall in Hl.
      pose proof (CreateListenSocket_eq (garbage n) (calls n) e f4 (Hl e He) ltac:(by apply S4)) as Hx.
      rewrite Hmap in Hx by done.
      unfold create_listener, on_frame. cbn [netframe_ s2 set_threads set_frame]. by rewrite Hx.
    + intros i Hi. cbn [WorkerThreadProc]. rewrite (bind_Ret _ _ _ _ _ (Hturn i)).
      rewrite (proj2 (Z.leb_le _ _)), (proj2 (Z.ltb_lt _ _)) by lia. done.
    + intros s3 Hrtc. remember s2 as sx eqn:Hx. induction Hrtc as [|x y z Hstep _ IH]; [done|].
      assert (y = x) as -> by (destruct Hstep as [i t a b _ E]; subst a; rewrite Hturn in E; congruence). by apply IH.
Qed.
End Start.
