(* ===== verification/LeDemo.v ===== *)
(** * The theorems on the libevent generation at concrete states

    A pool with room, cut into blocks of multiples of 16 bytes, and the sockets,
    queues and commands of small programs. *)

From S2P Require Import Prelude Wire LeMem LeSocket LeRead LeFrame LeQueues LeQuiet LeSync LeAdmin LeStart.

(** ** The memory pool *)

Definition demo_raw (a : Z * Z) (n : Z) : list byte := replicate (Z.to_nat n) x00.

Lemma demo_raw_length a n : 0 <= n -> zlen (demo_raw a n) = n.
Proof. apply zlen_replicate. Qed.

(** Blocks of up to 64 bytes; one chunk. *)
Definition demo_pool : MemPool :=
  mkPool (replicate 5 []) [256] 256 0 0 (replicate 5 0) 64 16.

Lemma demo_pool_unused : unused_pool demo_pool.
Proof. by split_and!. Qed.

Definition demo_pool2 : MemPool := match GetMemBlock demo_raw 20 demo_pool with Ret _ p => p | Halt _ p => p end.
Definition demo_pool3 : MemPool := match GetMemBlock demo_raw 30 demo_pool2 with Ret _ p => p | Halt _ p => p end.
Definition demo_block : MemBlock := mkBlock (0, 0) 0 32 (replicate 32 x00).

Lemma pool_blocks_apart_witness :
  (NoDup (extent (idle_blocks demo_pool2 ++ [demo_block])) /\
   Forall (inside demo_pool2) (idle_blocks demo_pool2 ++ [demo_block])) /\
  exists b p', GetMemBlock demo_raw 30 demo_pool2 = Ret (0, Some b) p' /\
    0 < 30 <= len_ b /\ len_ b <= int_max /\ used_ b = 0 /\ zlen (mem_ b) = len_ b /\
    inside p' b /\ NoDup (extent [b; demo_block]).
Proof.
  destruct (pool_blocks_apart demo_raw demo_raw_length demo_pool demo_pool2 [demo_block]) as [H1 H2].
  - exact demo_pool_unused.
  - eapply rtc_once. apply (step_get demo_raw 20 0 (Some demo_block) demo_pool demo_pool2 []).
    vm_compute; reflexivity.
  - split; [exact H1|]. exists (mkBlock (0, 32) 0 32 (replicate 32 x00)), demo_pool3.
    assert (E : GetMemBlock demo_raw 30 demo_pool2 = Ret (0, Some (mkBlock (0, 32) 0 32 (replicate 32 x00))) demo_pool3)
      by (vm_compute; reflexivity).
    split; [exact E|]. exact (H2 30 _ _ E).
Defined.

(** A second chunk of 16 bytes, and the first one used up: a request for 64 bytes
    is not refused, and cuts behind the end of the second chunk. *)
Example small_second_chunk :
  GetMemBlock demo_raw 64 (mkPool (replicate 5 []) [256; 16] 16 0 256 (replicate 5 0) 64 16) =
  Halt HUndefined (mkPool (replicate 5 []) [256; 16] 16 1 0 (<[4%nat := 1]> (replicate 5 0)) 64 16).
Proof. vm_compute. reflexivity. Qed.

Definition created : MemPool := with_chunk 0 256 (new_MemPool 64 16).

Lemma created_pool_undefined_witness :
  GetMemBlock demo_raw 100 created = Ret (-1, None) created /\
  exists p', GetMemBlock demo_raw 20 created = Halt HUndefined p'.
Proof.
  destruct (created_pool_undefined demo_raw 250 64 16 created 100) as [H1 _]; [vm_compute; reflexivity|lia|].
  destruct (created_pool_undefined demo_raw 250 64 16 created 20) as [_ H2]; [vm_compute; reflexivity|lia|].
  split; [apply H1; lia|apply H2; lia].
Defined.

(** ** Sockets *)

#[local] Instance demo_source : BlockSource := pool_source demo_raw demo_raw_length.

Lemma demo_source_ok : source_ok demo_pool.
Proof. exists []. apply (unused_pool_inv demo_pool demo_pool_unused). Qed.

Definition demo_bin (d : Derived) (input : list ReadAnswer) : Env :=
  mkEnv (new_Socket 0 None d) demo_pool (mkSys input 0 []).

Definition demo_body : list byte := [x61; x62; x63].

(** The packet comes with its length field cut, together with the first byte of
    the next one. *)
Lemma packet_assembled_witness :
  exists k segs' e' b,
    poll 3 (demo_bin (BinTcpSocket [x00; x00; x00; x00] 0) (map Bytes [[x00; x00]; [x00; x07; x61]; [x62; x63; xff]])) =
      Ret (replicate k 0 ++ [1]) e' /\
    recv_mb_ (sk e') = Some b /\ take (Z.to_nat (used_ b)) (mem_ b) = lv_packet demo_body /\
    pieces segs' e' /\ concat segs' = [xff] /\
    forall e2, derived (sk e2) = derived (sk e') -> recv_mb_ (sk e2) = None ->
      exists e3, ReadHandler e2 = Halt HUndefined e3.
Proof.
  eapply (packet_assembled _ [[x00; x00]; [x00; x07; x61]; [x62; x63; xff]] [x00; x00; x00; x00] demo_body [xff]
           (mkBlock (0, 0) 0 16 (replicate 16 x00)));
    [reflexivity|reflexivity|reflexivity|split; [reflexivity|repeat constructor; discriminate]
    |vm_compute; reflexivity|discriminate|vm_compute; discriminate|exact demo_source_ok|vm_compute; reflexivity].
Defined.

(** A line "a" into an empty buffer of zeros. *)
Definition line_buf : MemBlock := mkBlock (0, 0) 0 8 (replicate 8 x00).

Lemma line_then_garbage_witness :
  exists e1 b1 line1,
    ReadHandler (demo_bin (LineTcpSocket (Some line_buf)) [Bytes [x61; x0a]]) = Ret 1 e1 /\
    recv_mb_ (sk e1) = Some line1 /\ contents line1 = [x61; x0a] /\
    derived (sk e1) = LineTcpSocket (Some b1).
Proof.
  destruct (line_then_garbage (demo_bin (LineTcpSocket (Some line_buf)) [Bytes [x61; x0a]]) line_buf [x61]
    x00 [] (mkBlock (0, 0) 0 16 (replicate 16 x00))
    (match GetMemBlock demo_raw 2 demo_pool with Ret _ p => p | Halt _ p => p end))
    as (e1 & b1 & l1 & H1 & H2 & H3 & H4 & _);
    [reflexivity|reflexivity|reflexivity|discriminate|vm_compute; discriminate|reflexivity|vm_compute; discriminate
    |reflexivity|discriminate|exact demo_source_ok|vm_compute; reflexivity|].
  exists e1, b1, l1. split; [exact H1|]. split; [exact H2|]. split; [exact H3|exact H4].
Defined.

(** Two blocks to send; the first goes, and one byte of the second. *)
Definition sent1 : MemBlock := mkBlock (0, 0) 2 16 (x61 :: x62 :: replicate 14 x00).
Definition sent2 : MemBlock := mkBlock (0, 16) 2 16 (x63 :: x64 :: replicate 14 x00).
Definition demo_writer : Env :=
  mkEnv (set_send_list [sent1; sent2] 0 (new_Socket 0 None (HttpTcpSocket None))) demo_pool (mkSys [] 0 []).

Definition demo_writer_pool : source := with_recycled (<[1%nat := [set_used 0 sent1]]> (replicate 5 [])) demo_pool.

Lemma write_resends_witness :
  exists e1, WriteHandler 7 (Wrote 3) demo_writer = Ret 0 e1 /\ wire (sys e1) = [x61; x62; x63] /\
    concat (recycled_block_lists_ (pool e1 : MemPool)) = [set_used 0 sent1] /\
    forall n z e2, 0 < n -> WriteHandler 7 (Wrote n) e1 = Ret z e2 ->
      wire (sys e2) = [x61; x62; x63] ++ take (Z.to_nat n) [x63; x64].
Proof.
  destruct (write_resends 7 demo_writer [sent1] sent2 [] 1 demo_writer_pool)
    as (e1 & H1 & H2 & _ & _ & H4 & H3);
    [reflexivity|vm_compute; lia| |repeat constructor; vm_compute; discriminate
    |vm_compute; split; [discriminate|reflexivity]|vm_compute; reflexivity|].
  - eexists. split; vm_compute; reflexivity.
  - exists e1. split; [exact H1|]. split; [exact H2|]. split; [rewrite H4; vm_compute; reflexivity|].
    intros n z e2 Hn E. rewrite (H3 7 n z e2 Hn E), H2. reflexivity.
Defined.

(** ** The frame *)

Definition demo_frame : NetFrame := mkFrame ∅ 0 ∅ [[]; []] 2 [[]] 2 [] demo_pool 0.
Definition demo_message : Message := mkMessage 0 [] 0 [] 0 T_TCP_SERVER DF_BIN None.
Definition demo_workers : gmap nat WorkerState := {[0%nat := Running; 1%nat := Running]}.
Definition demo_system : System := mkSystem demo_frame MainIdle demo_workers (fun _ => []) (fun _ => []).
(** Worker 0 waits while the main thread has looked at both queues. *)
Definition demo_searched : System :=
  mkSystem demo_frame (Searching demo_message [0; 0] (0, 0)) (<[0%nat := Waiting]> demo_workers)
    (fun _ => []) (fun _ => []).

Lemma demo_searched_reachable : rtc sys_step demo_system demo_searched.
Proof.
  eapply rtc_l; [apply (sys_call demo_message)|].
  eapply rtc_l; [eapply (sys_look demo_message [] (int_max, 0) []); reflexivity|].
  eapply rtc_l; [eapply (sys_wait 0); [by left|reflexivity]|].
  eapply rtc_once, (sys_look demo_message [0] (0, 0) []). reflexivity.
Qed.

Lemma workers_served_witness :
  sys_initial demo_system /\
  exists k q, 0 = Z.of_nat k /\ recv_queues_ demo_frame !! k = Some q /\ zlen q <= 0 /\
    push_locked 0 demo_message demo_frame =
      Ret (0, if decide (q = []) then Some (Z.of_nat k) else None)
          (with_recv (<[k := q ++ [demo_message]]> (recv_queues_ demo_frame)) demo_frame).
Proof.
  assert (H0 : sys_initial demo_system).
  { split; [by exists 1%nat|]. split; [done|]. split; [done|]. split; [|done].
    intros i st Hi. cbn [demo_system workers] in Hi. unfold demo_workers in Hi.
    apply lookup_insert_Some in Hi as [[_ <-]|[_ Hi]]; [reflexivity|].
    by apply lookup_singleton_Some in Hi as [_ <-]. }
  split; [exact H0|].
  destruct (workers_served demo_system demo_searched H0 demo_searched_reachable) as (_ & _ & _ & H).
  destruct (H demo_message [0; 0] (0, 0) eq_refl eq_refl) as (k & q & H1 & H2 & H3 & _ & [(_ & H4 & _)|(_ & H4)]).
  - exfalso. by apply list.Forall_cons in H4 as [H4 _].
  - exists k, q. split; [exact H1|]. split; [exact H2|]. split; [by apply list.Forall_cons in H3 as [H3 _]|exact H4].
Defined.

Definition demo_calls : SockCalls := mkCalls 5 0 0 true 0 0 0 0 0 (Some ([x31], 80)) (Some ([x32], 90)).
Definition demo_answers : Answers :=
  mkAnswers (WriteFails EAGAIN) 0 (Some 0) demo_calls (mkEventCalls 0 0) 6
    (mkGarbage None [x00; x00; x00; x00] 0 None).
Definition frame0 : NetFrame := mkFrame ∅ 0 ∅ [[]; []] 0 [[]] 0 [] demo_pool 0.
Definition frame1 : NetFrame :=
  after (CreateListenSocket (a_garbage demo_answers) demo_calls [x31] 80 T_TCP_LISTEN DF_BIN) frame0.
Definition frame2 : NetFrame := after (SocketCallback demo_answers 0%N) frame1.

Lemma frame1_reachable : frame_reachable frame1.
Proof.
  exists 1, 2, 0, 0, demo_pool, 0, frame0. split; [reflexivity|]. eapply rtc_once.
  destruct (after_returned (CreateListenSocket (a_garbage demo_answers) demo_calls [x31] 80 T_TCP_LISTEN DF_BIN)
    frame0) as [r E]; [vm_compute; reflexivity|]. exact (fs_listen _ _ _ _ _ _ _ _ _ E).
Qed.

(** The listening socket of [frame1] is readable: nothing happens. *)
Lemma frame_never_reads_witness :
  SocketCallback demo_answers 0%N frame1 = Ret tt frame2 /\ recv_queues_ frame2 = recv_queues_ frame1.
Proof.
  destruct (after_returned (SocketCallback demo_answers 0%N) frame1) as [[] E]; [vm_compute; reflexivity|].
  split; [exact E|]. exact (proj1 (frame_never_reads frame1 demo_answers 0%N frame2 frame1_reachable E)).
Defined.

Definition line_exchange : outcome source (Z * option MemBlock) :=
  Line_SyncSendRecv (Some sent1) 0 2 (Got [x61; x0a]) (demo_pool : source).
Definition after_exchange : source := match line_exchange with Ret _ p => p | Halt _ p => p end.

(** A line of two bytes, from a pool whose blocks are smaller: -3. *)
Lemma sync_never_succeeds_witness :
  Line_SyncSendRecv (Some sent1) 0 2 (Got [x61; x0a]) (demo_pool : source) = Ret (-3, None) after_exchange /\
  -3 < 0.
Proof.
  assert (E : line_exchange = Ret (-3, None) after_exchange) by (vm_compute; reflexivity).
  split; [exact E|].
  exact (proj1 (proj2 (sync_never_succeeds (Some sent1) 0 2 (Got [x61; x0a]) RecvFails (demo_pool : source)
    after_exchange (-3) None demo_source_ok) E)).
Defined.

Definition demo_commands : gmap (list byte) (list byte -> list byte -> Z) := {[[x61] := fun _ _ => 0]}.
Definition command_packet (text : list byte) : Message :=
  mkMessage 0 [] 0 [] 0 T_TCP_SERVER DF_LINE (Some (mkBlock (0, 0) (zlen text) (zlen text) text)).

(** "a" is not understood, "a<tab>b" is. *)
Lemma admin_lines_witness :
  ProcessAdminCmdMessage demo_commands (command_packet [x61; x0a]) = Some (0, []) /\
  ProcessAdminCmdMessage demo_commands (command_packet [x61; x09; x62; x0a]) = Some (0, [([x61], [x62])]).
Proof.
  split.
  - eapply (admin_lines demo_commands (command_packet [x61; x0a]) _ [x61] [x62]);
      [reflexivity|reflexivity|repeat constructor|repeat constructor|discriminate|discriminate
      |vm_compute; reflexivity|vm_compute; reflexivity].
  - destruct (admin_lines demo_commands (command_packet [x61; x09; x62; x0a]) _ [x61] [x62]
      eq_refl eq_refl) as (_ & _ & H);
      [repeat constructor|repeat constructor|discriminate|discriminate|vm_compute; reflexivity|].
    apply (H (fun _ _ => 0)); vm_compute; reflexivity.
Defined.

(** ** Starting a program *)

Definition demo_listener (port : Z) (f : DataFormat) : ListenSocketInfo := mkListen [x31] port T_TCP_LISTEN f.
Definition demo_server : ServerInfo := mkServer [x32] 90 T_TCP_CLIENT DF_BIN.

(** A binary and a line listening socket, two workers, a log server and no report server. *)
Definition demo_skeleton : Skeleton :=
  mkSkeleton [([x61], demo_listener 80 DF_BIN); ([x62], demo_listener 81 DF_LINE)] [x31] 81 false 2 1
    demo_server (mkServer [] 0 T_TCP_CLIENT DF_BIN) false NoFrame [].

(** A pool with blocks of at most 64 bytes refuses the buffer of a line socket. *)
Definition refusing (p : source) : Prop := max_block_size_ p = 64.
Lemma refusing_answers p : refusing p ->
  exists o p', get_block NON_PACKETIZED_BUFFER_SIZE p = Ret o p' /\ refusing p'.
Proof.
  intros Hp. exists None, p. split; [|done]. unfold refusing in Hp. cbn. unfold bindM, GetMemBlock, gets.
  cbn. by rewrite Hp.
Qed.

Definition demo_program (pkt : Message) : M NetFrame Z := ret 0.

Lemma started_program_waits_witness :
  worker_num_ demo_skeleton = 2 /\
  exists s1 s2 f, Init (fun _ => demo_calls) (fun _ => a_garbage demo_answers) 0 5 5 0 demo_pool demo_skeleton = Ret 0 s1 /\
    Run (fun _ => demo_calls) (fun _ => a_garbage demo_answers) s1 = Ret None s2 /\
    netframe_ s2 = Frame f /\ threads s2 = [0; 1] /\ monitored f = [] /\
    WorkerThreadProc demo_program ∅ 5 1 s2 = Ret (Some TWaits) s2 /\
    forall s3, rtc (worker_step demo_program ∅) s2 s3 -> s3 = s2.
Proof.
  split; [reflexivity|].
  destruct (started_program_waits demo_program ∅ (fun _ => demo_calls) (fun _ => a_garbage demo_answers)
    refusing refusing_answers demo_skeleton 0 5 5 0 demo_pool 4)
    as (s1 & s2 & f & H1 & _ & H2 & H3 & H4 & H5 & _ & _ & H7 & H8).
  - reflexivity.
  - reflexivity.
  - reflexivity.
  - discriminate.
  - reflexivity.
  - apply list.Forall_cons. split; [|apply list.Forall_singleton].
    + split; [reflexivity|]. split; [by left|discriminate].
    + split; [reflexivity|]. split; [right; by left|discriminate].
  - repeat constructor; [|set_solver]. intros H%list_elem_of_singleton. discriminate.
  - split; reflexivity.
  - split; reflexivity.
  - exists s1, s2, f. split; [exact H1|]. split; [exact H2|]. split; [exact H3|]. split; [exact H4|].
    split; [exact H5|]. split; [|exact H8]. apply H7. split; [discriminate|reflexivity].
Defined.
