(* ===== verification/CnList.v ===== *)
(** * Doubly linked lists in memory

    The generation in C keeps its objects in lists with [next] and [prev]
    pointers: the items of a bucket of the hash table, and the idle sockets of
    an address.  [chain] says that the objects of a heap form such a list; the
    lemmas are the ones for pushing, popping and unlinking.  Address 0 is the null
    pointer. *)

From S2P Require Import Prelude.

#[local] Open Scope N_scope.

(** An object with the two links. *)
Class Linked (A : Type) := {
  next_of : A -> N;
  prev_of : A -> N;
  set_next_of : N -> A -> A;
  set_prev_of : N -> A -> A;
  next_set_next p x : next_of (set_next_of p x) = p;
  prev_set_next p x : prev_of (set_next_of p x) = prev_of x;
  next_set_prev p x : next_of (set_prev_of p x) = next_of x;
  prev_set_prev p x : prev_of (set_prev_of p x) = p;
}.

Section Dll.
  Context {A : Type} {L : Linked A}.
  Implicit Types (it : gmap N A) (l : list N).

(** From [h], whose [prev] is [p], the links go through [l] to [e]. *)
Fixpoint seg it (h p : N) l (e : N) : Prop :=
  match l with
  | [] => h = e
  | q :: l' => h = q /\ q <> 0 /\ exists x, it !! q = Some x /\ prev_of x = p /\ seg it (next_of x) q l' e
  end.

(** A list that starts at [h]. *)
Definition chain it (h : N) l : Prop := seg it h 0 l 0.

(** What follows [l] has this [prev]. *)
Definition last_or (p : N) l : N := default p (list.last l).

Lemma last_or_cons p q l : last_or p (q :: l) = last_or q l.
Proof. unfold last_or. rewrite last_cons. by destruct (list.last l). Qed.

Lemma last_or_snoc p q l : last_or p (l ++ [q]) = q.
Proof. unfold last_or. by rewrite last_snoc. Qed.

Lemma seg_app it h p l1 l2 e :
  seg it h p (l1 ++ l2) e <-> exists m, seg it h p l1 m /\ seg it m (last_or p l1) l2 e.
Proof.
  revert h p. induction l1 as [|q l1 IH]; intros h p; simpl.
  - split; [eauto|by intros (? & <- & ?)].
  - rewrite last_or_cons. split.
    + intros (-> & Hq & x & Hx & Hp & (m & Hs & Ht)%IH). eauto 8.
    + intros (m & (-> & Hq & x & Hx & Hp & Hs) & Ht). split_and!; [done..|]. exists x.
      split_and!; [done..|]. apply IH. eauto.
Qed.

(** Only the links of the objects on the way matter. *)
Lemma seg_ext it it' h p l e :
  (forall q x, q ∈ l -> it !! q = Some x ->
     exists y, it' !! q = Some y /\ next_of y = next_of x /\ prev_of y = prev_of x) ->
  seg it h p l e -> seg it' h p l e.
Proof.
  revert h p. induction l as [|q l IH]; intros h p H; [done|].
  intros (-> & Hq & x & Hx & Hp & Hs). split_and!; [done..|].
  destruct (H q x ltac:(by left) Hx) as (y & Hy & Hn & Hpr). exists y.
  split_and!; [done|congruence|]. rewrite Hn. apply IH; [|done].
  intros r z Hr. apply H. by right.
Qed.

Lemma seg_frame it it' h p l e :
  (forall q, q ∈ l -> it' !! q = it !! q) -> seg it h p l e -> seg it' h p l e.
Proof. intros H. apply seg_ext. intros q x Hq Hx. exists x. by rewrite H. Qed.

Lemma seg_objects it h p l e q : seg it h p l e -> q ∈ l -> q <> 0 /\ is_Some (it !! q).
Proof.
  revert h p. induction l as [|r l IH]; intros h p; [by intros _ ?%not_elem_of_nil|].
  intros (-> & Hr & x & Hx & _ & Hs) [->|Hq]%elem_of_cons; [eauto|by eapply IH].
Qed.

Lemma chain_head it h l : chain it h l -> h = default 0 (head l).
Proof. destruct l; [done|]. by intros [-> _]. Qed.

Lemma chain_nil it h : chain it h [] <-> h = 0.
Proof. done. Qed.

(** Redirecting a link of [r] keeps the segments [r] is not on. *)
Lemma seg_alter it f r h p l e : r ∉ l -> seg it h p l e -> seg (alter f r it) h p l e.
Proof. intros Hr. apply seg_frame. intros q Hq. apply lookup_alter_ne. congruence. Qed.

Lemma seg_insert it r y h p l e : r ∉ l -> seg it h p l e -> seg (<[r := y]> it) h p l e.
Proof. intros Hr. apply seg_frame. intros q Hq. apply lookup_insert_ne. congruence. Qed.

Lemma seg_delete it r h p l e : r ∉ l -> seg it h p l e -> seg (delete r it) h p l e.
Proof. intros Hr. apply seg_frame. intros q Hq. apply lookup_delete_ne. congruence. Qed.

(** ** Push and pop *)

(** The [prev] of the head of a list is set, if there is a head. *)
Definition point_back (h q : N) it : gmap N A :=
  if decide (h = 0) then it else alter (set_prev_of q) h it.

Lemma seg_point_back it h p l e q :
  base.NoDup l -> e = 0 -> seg it h p l e -> seg (point_back h q it) h (if decide (h = 0) then p else q) l e.
Proof.
  intros Hnd -> Hs. unfold point_back. destruct l as [|r l].
  - simpl in Hs. subst h. by rewrite !decide_True.
  - destruct Hs as (-> & Hr & x & Hx & Hp & Hs). apply list.NoDup_cons in Hnd as [Hnin Hnd].
    rewrite !decide_False by done. split_and!; [done..|]. exists (set_prev_of q x).
    rewrite lookup_alter_eq, Hx, prev_set_prev, next_set_prev. split_and!; [done..|]. by apply seg_alter.
Qed.

(** Putting the object [y] in front: the old head points back to it. *)
Lemma chain_push it h l q y :
  base.NoDup l -> chain it h l -> q <> 0 -> q ∉ l -> prev_of y = 0 -> next_of y = h ->
  chain (<[q := y]> (point_back h q it)) q (q :: l).
Proof.
  intros Hnd Hc Hq Hnin Hp Hn. split_and!; [done..|]. exists y. rewrite lookup_insert_eq, Hn.
  split_and!; [done..|]. apply seg_insert; [done|].
  pose proof (seg_point_back it h 0 l 0 q Hnd eq_refl Hc) as H. case_decide; [|done].
  subst h. by destruct l as [|r l]; [|destruct H as (<- & ? & _)].
Qed.

(** Taking the head away. *)
Lemma chain_pop it q l x :
  base.NoDup (q :: l) -> chain it q (q :: l) -> it !! q = Some x ->
  chain (point_back (next_of x) 0 it) (next_of x) l.
Proof.
  intros [Hnin Hnd]%list.NoDup_cons (_ & _ & y & Hy & _ & Hs) Hx.
  rewrite Hx in Hy. injection Hy as <-.
  pose proof (seg_point_back it (next_of x) q l 0 0 Hnd eq_refl Hs) as H. unfold chain.
  case_decide as E; [|done]. destruct l as [|r l]; [by rewrite E|].
  destruct Hs as (E' & ? & _). congruence.
Qed.

(** ** Unlinking an object *)

(** What is left of the heap when [q] is unlinked: its neighbours are linked to
    each other. *)
Definition relink (x : A) it : gmap N A :=
  point_back (next_of x) (prev_of x)
    (if decide (prev_of x = 0) then it else alter (set_next_of (next_of x)) (prev_of x) it).

(** The object before the end of a segment gets another [next]. *)
Lemma seg_last_next it h p l q e e' :
  base.NoDup (l ++ [q]) -> seg it h p (l ++ [q]) e ->
  seg (alter (set_next_of e') q it) h p (l ++ [q]) e'.
Proof.
  intros Hnd Hs. apply seg_app in Hs as (m & Hs & (-> & Hq & x & Hx & Hp & _)).
  apply list.NoDup_app in Hnd as (Hnd & Hdis & _).
  apply seg_app. exists q. split; [apply seg_alter; [|done]; intros H; apply (Hdis q H); by left|].
  split_and!; [done..|]. exists (set_next_of e' x). rewrite lookup_alter_eq, Hx.
  by rewrite prev_set_next, next_set_next.
Qed.

Lemma chain_relink it h l1 q l2 x :
  base.NoDup (l1 ++ q :: l2) -> chain it h (l1 ++ q :: l2) -> it !! q = Some x ->
  chain (relink x it) (if decide (prev_of x = 0) then next_of x else h) (l1 ++ l2).
Proof.
  intros Hnd Hc Hx. apply seg_app in Hc as (m & H1 & (-> & Hq & y & Hy & Hp & H2)).
  rewrite Hx in Hy. injection Hy as <-.
  apply list.NoDup_app in Hnd as (Hnd1 & Hdis & [Hnin Hnd2]%list.NoDup_cons).
  assert (Hd12 : forall r, r ∈ l1 -> r ∉ l2) by (intros r Hr1 Hr2; apply (Hdis r Hr1); by right).
  set (it1 := if decide (prev_of x = 0) then it else alter (set_next_of (next_of x)) (prev_of x) it).
  assert (Hs1 : seg it1 (if decide (prev_of x = 0) then next_of x else h) 0 l1 (next_of x) /\
                seg it1 (next_of x) q l2 0).
  { unfold it1. destruct l1 as [|r l1 _] using rev_ind.
    - simpl in *. unfold last_or in Hp. simpl in Hp. by rewrite Hp, !decide_True.
    - rewrite last_or_snoc in Hp. rewrite Hp.
      destruct (seg_objects _ _ _ _ _ r H1) as [Hr _]; [apply elem_of_app; right; by left|].
      rewrite !decide_False by done. split; [by eapply seg_last_next|].
      apply seg_alter; [|done]. apply Hd12, elem_of_app. right. by left. }
  destruct Hs1 as [Hs1 Hs2]. apply seg_app. exists (next_of x). unfold relink. fold it1.
  pose proof (seg_point_back it1 (next_of x) q l2 0 (prev_of x) Hnd2 eq_refl Hs2) as H3.
  split.
  - unfold point_back. case_decide as E; [done|]. apply seg_alter; [|done].
    intros Hin. apply (Hd12 _ Hin). destruct l2 as [|r l2]; [done|].
    destruct Hs2 as (-> & _). by left.
  - rewrite <- Hp. case_decide as E; [|done]. destruct l2 as [|r l2]; [done|].
    destruct Hs2 as (E' & ? & _). congruence.
Qed.

Lemma relink_other x it r :
  r <> next_of x -> r <> prev_of x -> relink x it !! r = it !! r.
Proof.
  intros H1 H2. unfold relink, point_back. repeat case_decide; rewrite ?lookup_alter_ne by done; done.
Qed.

Lemma point_back_other h q it r : r <> h -> point_back h q it !! r = it !! r.
Proof. intros H. unfold point_back. case_decide; [done|]. by rewrite lookup_alter_ne. Qed.

End Dll.
