(* ===== verification/CnHash.v ===== *)
(** * The hash table in C: [c_nf/hash.c]

    A table of chains of items, newest first.  The file is read with the member
    [prev] of [struct hash_item] that its functions use and the structure
    forgets, and [key_space] where it says [key_sapce].  The table stores the
    pointer to a key, not the key: the memory of the keys is a part of the state.
    What [malloc] returns is not initialised, and the [memset] after it, whose
    last two arguments are swapped, writes nothing: the contents are the variables
    [garbage_slot] and [garbage_links]. *)

From S2P Require Import Prelude CnList.

(** [struct hash_item]. *)
Record hash_item := mkItem {
  item_key : N;
  item_key_len : Z;
  item_value : N;
  item_next : N;
  item_prev : N
}.

Definition set_item_next (p : N) (x : hash_item) : hash_item :=
  mkItem (item_key x) (item_key_len x) (item_value x) p (item_prev x).
Definition set_item_prev (p : N) (x : hash_item) : hash_item :=
  mkItem (item_key x) (item_key_len x) (item_value x) (item_next x) p.

#[export] Instance item_links : Linked hash_item.
Proof. by refine {| next_of := item_next; prev_of := item_prev;
  set_next_of := set_item_next; set_prev_of := set_item_prev |}. Defined.

(** [hash_func]: the index of a key, from the memory at the key, its length and
    the key space; [None] when it reads outside of that memory. *)
Definition hash_func : Type := list byte -> Z -> Z -> option Z.

(** [struct hash_table]. *)
Record hash_table := mkTable {
  key_space : Z;
  key_used : Z;
  hash : hash_func;
  slots : list N
}.

(** The memory the table uses: the blocks of the keys, the items, the next free
    address, and the table [t] points to. *)
Record HashState := mkHashState {
  blocks : gmap N (list byte);
  objs : gmap N hash_item;
  next_free : N;
  table : option hash_table
}.

Definition with_objs (m : gmap N hash_item) (s : HashState) : HashState :=
  mkHashState (blocks s) m (next_free s) (table s).
Definition with_blocks (m : gmap N (list byte)) (s : HashState) : HashState :=
  mkHashState m (objs s) (next_free s) (table s).
Definition with_table (t : hash_table) (s : HashState) : HashState :=
  mkHashState (blocks s) (objs s) (next_free s) (Some t).
Definition set_slots (l : list N) (t : hash_table) : hash_table :=
  mkTable (key_space t) (key_used t) (hash t) l.
Definition set_key_used (n : Z) (t : hash_table) : hash_table :=
  mkTable (key_space t) n (hash t) (slots t).

(** Eight bytes at the key as a little-endian [uint64_t]. *)
Definition le64 (l : list byte) : option Z :=
  if decide (8 <= length l)%nat
  then Some (foldr (fun b z => Zb b + 256 * z) 0 (take 8 l)) else None.

Definition ip_port_hash : hash_func := fun key key_len key_space =>
  match le64 key with
  | None => None
  | Some ret => if key_space =? 0 then None else Some (ret mod key_space)
  end.

Section Hash.
  Variable garbage_slot : nat -> N.
  Variable garbage_links : N -> N * N.

Definition get_table : M HashState hash_table :=
  let! t := gets table in of_option HAssert t.

(** Reading and writing through a pointer to an item. *)
Definition item_at (p : N) : M HashState hash_item :=
  let! m := gets objs in of_option HUndefined (m !! p).
Definition update_item (p : N) (f : hash_item -> hash_item) : M HashState unit :=
  let! x := item_at p in modify (fun s => with_objs (<[p := f x]> (objs s)) s).

Definition hash_get_hash_table (key_space : Z) (f : option hash_func) : M HashState unit :=
  modify (with_table (mkTable key_space 0 (default ip_port_hash f)
                        (garbage_slot <$> seq 0 (Z.to_nat key_space)))).

(** [table->hash(key, key_len, table->key_space)]. *)
Definition hash_of (t : hash_table) (key : N) (key_len : Z) : M HashState nat :=
  let! m := gets blocks in
  let! k := of_option HUndefined (m !! key) in
  let! h := of_option HUndefined (hash t k key_len (key_space t)) in
  if h <? 0 then stop HUndefined else ret (Z.to_nat h).

(** [memcmp(a, b, n) == 0]. *)
Definition same_key (a b : N) (n : Z) : M HashState bool :=
  let! m := gets blocks in
  let! ka := of_option HUndefined (m !! a) in
  let! kb := of_option HUndefined (m !! b) in
  if (n <=? zlen ka) && (n <=? zlen kb)
  then ret (bool_decide (take (Z.to_nat n) ka = take (Z.to_nat n) kb))
  else stop HUndefined.

(** The loop along a chain: the first item with the key, or the null pointer at
    the end of the chain; [None] when the fuel is used up. *)
Fixpoint find_item (fuel : nat) (key : N) (key_len : Z) (cur : N) : M HashState (option N) :=
  match fuel with
  | O => ret None
  | S fuel =>
      let! x := item_at cur in
      let! same := same_key key (item_key x) key_len in
      if same then ret (Some cur)
      else if (item_next x =? 0)%N then ret (Some 0%N)
      else find_item fuel key key_len (item_next x)
  end.

Definition hash_get (fuel : nat) (key : N) (key_len : Z) : M HashState (option N) :=
  let! t := get_table in
  assert_ (negb (key =? 0)%N) ;;!
  let! h := hash_of t key key_len in
  let! cur := of_option HUndefined (slots t !! h) in
  if (cur =? 0)%N then ret (Some 0%N)
  else
    let! r := find_item fuel key key_len cur in
    match r with
    | None => ret None
    | Some cur => let! x := item_at cur in ret (Some (item_value x))
    end.

Definition hash_put (key : N) (key_len : Z) (value : N) : M HashState Z :=
  let! t := get_table in
  assert_ (negb (key =? 0)%N) ;;!
  assert_ (negb (value =? 0)%N) ;;!
  let! h := hash_of t key key_len in
  let! new_item := gets next_free in
  modify (fun s => mkHashState (blocks s)
    (<[new_item := mkItem key key_len value (garbage_links new_item).1 (garbage_links new_item).2]> (objs s))
    (N.succ new_item) (table s)) ;;!
  let! head := of_option HUndefined (slots t !! h) in
  (if negb (head =? 0)%N then
     let! x := item_at head in
     assert_ (item_prev x =? 0)%N ;;!
     update_item head (set_item_prev new_item) ;;!
     update_item new_item (set_item_next head) ;;!
     update_item new_item (set_item_prev 0)
   else ret tt) ;;!
  let used := (key_used t + 1) mod 2 ^ 64 in
  modify (with_table (set_key_used used (set_slots (<[h := new_item]> (slots t)) t))) ;;!
  ret (if used <=? key_space t then -1 else 0).

(** [free] of the memory of a key and of an item. *)
Definition free_block (p : N) : M HashState unit :=
  let! m := gets blocks in
  let! _b := of_option HUndefined (m !! p) in
  modify (fun s => with_blocks (delete p (blocks s)) s).
Definition free_item (p : N) : M HashState unit :=
  modify (fun s => with_objs (delete p (objs s)) s).

Definition hash_delete (fuel : nat) (key : N) (key_len : Z) : M HashState (option N) :=
  let! t := get_table in
  assert_ (negb (key =? 0)%N) ;;!
  let! h := hash_of t key key_len in
  let! first := of_option HUndefined (slots t !! h) in
  if (first =? 0)%N then ret (Some 0%N)
  else
    let! r := find_item fuel key key_len first in
    match r with
    | None => ret None
    | Some cur =>
        let! x := item_at cur in
        (if negb (item_prev x =? 0)%N then update_item (item_prev x) (set_item_next (item_next x))
         else modify (with_table (set_slots (<[h := item_next x]> (slots t)) t))) ;;!
        (if negb (item_next x =? 0)%N then update_item (item_next x) (set_item_prev (item_prev x))
         else ret tt) ;;!
        free_block (item_key x) ;;!
        free_item cur ;;!
        ret (Some (item_value x))
    end.

End Hash.

(** ** The table as a list of buckets

    A bucket is the list of its keys, by their contents, with their values.  The
    keys are compared on the first [n] bytes. *)

Definition Bucket : Type := list (list byte * N).

Definition key_matches (n : Z) (k k' : list byte) : bool :=
  bool_decide (take (Z.to_nat n) k = take (Z.to_nat n) k').

Fixpoint bucket_find (n : Z) (k : list byte) (a : Bucket) : option N :=
  match a with
  | [] => None
  | (k', v) :: a => if key_matches n k k' then Some v else bucket_find n k a
  end.

Fixpoint bucket_remove (n : Z) (k : list byte) (a : Bucket) : Bucket :=
  match a with
  | [] => []
  | (k', v) :: a => if key_matches n k k' then a else (k', v) :: bucket_remove n k a
  end.

(** An item at an address, with the contents of its key and its value. *)
Definition Entry : Type := N * (list byte * N).

Record entry_at (n : Z) (s : HashState) (e : Entry) (x : hash_item) : Prop := {
  entry_obj : objs s !! e.1 = Some x;
  entry_key : blocks s !! item_key x = Some e.2.1;
  entry_long : n <= zlen e.2.1;
  entry_value : item_value x = e.2.2
}.

(** The items of the state [s] represent the buckets [E], by address. *)
Record rep (n : Z) (s : HashState) (t : hash_table) (E : list (list Entry)) : Prop := {
  rep_slots : length (slots t) = length E;
  rep_space : length E = Z.to_nat (key_space t);
  rep_chain h l head : E !! h = Some l -> slots t !! h = Some head ->
    base.NoDup l.*1 /\ chain (objs s) head l.*1;
  rep_entries h l e : E !! h = Some l -> e ∈ l -> exists x, entry_at n s e x;
  rep_apart h1 h2 l1 l2 q : E !! h1 = Some l1 -> E !! h2 = Some l2 ->
    q ∈ l1.*1 -> q ∈ l2.*1 -> h1 = h2;
  rep_keys h1 h2 l1 l2 q1 q2 x1 x2 : E !! h1 = Some l1 -> E !! h2 = Some l2 ->
    q1 ∈ l1.*1 -> q2 ∈ l2.*1 -> objs s !! q1 = Some x1 -> objs s !! q2 = Some x2 ->
    item_key x1 = item_key x2 -> q1 = q2;
  rep_fresh q : is_Some (objs s !! q) -> (q < next_free s)%N;
  rep_fresh0 : (0 < next_free s)%N;
  rep_null : objs s !! 0%N = None
}.

(** The table holds the buckets [A]. *)
Definition represents (n : Z) (f : hash_func) (ks used : Z) (s : HashState) (A : list Bucket) : Prop :=
  exists t E, table s = Some t /\ hash t = f /\ key_space t = ks /\ key_used t = used /\
    rep n s t E /\ A = map (map snd) E.

(** [p] is not the memory of a key of the table. *)
Definition key_free (s : HashState) (p : N) : Prop :=
  forall q x, objs s !! q = Some x -> item_key x <> p.

Section Refinement.
  Variable n : Z.
  Implicit Types (s : HashState) (t : hash_table) (l : list Entry).

Lemma item_at_eq s p x : objs s !! p = Some x -> item_at p s = Ret x s.
Proof. intros H. unfold item_at. by rewrite bind_gets, H. Qed.

Lemma update_item_eq s p x f :
  objs s !! p = Some x -> update_item p f s = Ret tt (with_objs (<[p := f x]> (objs s)) s).
Proof. intros H. unfold update_item. by rewrite (bind_Ret _ _ _ _ _ (item_at_eq s p x H)). Qed.

Lemma same_key_eq s a b ka kb :
  blocks s !! a = Some ka -> blocks s !! b = Some kb -> n <= zlen ka -> n <= zlen kb ->
  same_key a b n s = Ret (key_matches n ka kb) s.
Proof.
  intros Ha Hb Hla Hlb. unfold same_key. rewrite bind_gets.
  rewrite (bind_of_option _ _ _ _ _ Ha), (bind_of_option _ _ _ _ _ Hb).
  by rewrite !(proj2 (Z.leb_le _ _)).
Qed.

(** The first entry of a bucket with the key, and what comes before and after. *)
Fixpoint entry_find (k : list byte) (l : list Entry) : option Entry :=
  match l with
  | [] => None
  | e :: l => if key_matches n k e.2.1 then Some e else entry_find k l
  end.

Lemma entry_find_split k l e :
  entry_find k l = Some e ->
  exists l1 l2, l = l1 ++ e :: l2 /\
    bucket_remove n k (map snd l) = map snd (l1 ++ l2) /\
    bucket_find n k (map snd l) = Some e.2.2.
Proof.
  induction l as [|[q [k' v]] l IH]; simpl; [done|].
  destruct (key_matches n k k') eqn:E.
  - intros [= <-]. by exists [], l.
  - intros (l1 & l2 & -> & Hr & Hf)%IH. exists ((q, (k', v)) :: l1), l2.
    split_and!; [done|by rewrite Hr|done].
Qed.

Lemma entry_find_None k l : entry_find k l = None -> bucket_find n k (map snd l) = None.
Proof.
  induction l as [|[q [k' v]] l IH]; simpl; [done|]. by destruct (key_matches n k k').
Qed.

Lemma find_item_eq s key k l cur p fuel :
  blocks s !! key = Some k -> n <= zlen k ->
  seg (objs s) cur p l.*1 0%N -> l <> [] -> (length l <= fuel)%nat ->
  (forall e, e ∈ l -> exists x, entry_at n s e x) ->
  find_item fuel key n cur s =
    Ret (Some (match entry_find k l with Some e => e.1 | None => 0%N end)) s.
Proof.
  intros Hk Hn. revert cur p fuel. induction l as [|e l IH]; intros cur p fuel Hs Hne Hf He; [done|].
  destruct fuel as [|fuel]; [simpl in Hf; lia|]. destruct Hs as (-> & Hq & x & Hx & Hp & Hs).
  destruct (He e ltac:(by left)) as [y [Hy Hky Hly Hvy]]. assert (y = x) as -> by congruence.
  cbn [find_item entry_find]. rewrite (bind_Ret _ _ _ _ _ (item_at_eq _ _ _ Hx)).
  rewrite (bind_Ret _ _ _ _ _ (same_key_eq s key (item_key x) k e.2.1 Hk Hky Hn Hly)).
  destruct (key_matches n k e.2.1); [done|]. change (next_of x) with (item_next x) in Hs.
  destruct (N.eqb_spec (item_next x) 0) as [E|E].
  - destruct l as [|e' l]; [done|]. destruct Hs as (E' & ? & _). congruence.
  - apply (IH _ e.1); [done| |simpl in Hf; lia|intros e' H'; apply He; by right].
    intros ->. simpl in Hs. done.
Qed.

Section Ops.
  Context (s : HashState) (t : hash_table) (E : list (list Entry)).
  Context (key : N) (k : list byte) (h : nat) (l : list Entry) (head : N).
  Hypotheses (Ht : table s = Some t) (R : rep n s t E) (Hkey : key <> 0%N)
    (Hk : blocks s !! key = Some k) (Hn : n <= zlen k)
    (Hh : hash t k n (key_space t) = Some (Z.of_nat h))
    (Hl : E !! h = Some l) (Hhead : slots t !! h = Some head).

Lemma get_table_eq : get_table s = Ret t s.
Proof. unfold get_table. by rewrite bind_gets, Ht. Qed.

Lemma hash_of_eq : hash_of t key n s = Ret h s.
Proof.
  clear - Hk Hh. unfold hash_of. rewrite bind_gets, (bind_of_option _ _ _ _ _ Hk), (bind_of_option _ _ _ _ _ Hh).
  rewrite (proj2 (Z.ltb_ge _ _)) by lia. by rewrite Nat2Z.id.
Qed.

Lemma head_null : head = 0%N <-> l = [].
Proof.
  destruct (rep_chain _ _ _ _ R h l head Hl Hhead) as [_ Hc]. destruct l as [|e l']; [done|].
  destruct Hc as (-> & ? & _). done.
Qed.

Lemma find_in_bucket fuel :
  l <> [] -> (length l <= fuel)%nat ->
  find_item fuel key n head s =
    Ret (Some (match entry_find k l with Some e => e.1 | None => 0%N end)) s.
Proof.
  intros Hne Hf. destruct (rep_chain _ _ _ _ R h l head Hl Hhead) as [_ Hc].
  eapply find_item_eq; [done..|]. intros e He. by apply (rep_entries _ _ _ _ R h l).
Qed.


Lemma hash_get_eq fuel :
  (length l <= fuel)%nat ->
  hash_get fuel key n s =
    match l with
    | [] => Ret (Some 0%N) s
    | _ => match bucket_find n k (map snd l) with
           | Some v => Ret (Some v) s
           | None => Halt HUndefined s
           end
    end.
Proof.
  intros Hf. pose proof (rep_null _ _ _ _ R) as H0. unfold hash_get. rewrite (bind_Ret _ _ _ _ _ get_table_eq), bind_assert by (by apply negb_true_iff, N.eqb_neq).
  rewrite (bind_Ret _ _ _ _ _ hash_of_eq), (bind_of_option _ _ _ _ _ Hhead).
  destruct (N.eqb_spec head 0) as [E0|E0].
  { by rewrite (proj1 head_null E0). }
  assert (Hne : l <> []) by (intros El; by apply E0, head_null).
  rewrite (bind_Ret _ _ _ _ _ (find_in_bucket fuel Hne Hf)).
  destruct (entry_find k l) as [e|] eqn:Ef.
  - destruct (entry_find_split _ _ _ Ef) as (l1 & l2 & El & _ & ->).
    destruct (rep_entries _ _ _ _ R h l e Hl) as [x [Hx _ _ Hv]].
    { rewrite El. apply elem_of_app. right. by left. }
    rewrite (bind_Ret _ _ _ _ _ (item_at_eq _ _ _ Hx)), Hv. by destruct l.
  - rewrite (entry_find_None _ _ Ef). unfold item_at. unfold bindM, gets. rewrite H0. by destruct l.
Qed.

(** ** Putting *)

Definition put_objs (value : N) : gmap N hash_item :=
  <[next_free s := mkItem key n value head 0]> (point_back head (next_free s) (objs s)).
Definition put_table : hash_table :=
  set_key_used ((key_used t + 1) mod 2 ^ 64) (set_slots (<[h := next_free s]> (slots t)) t).
Definition put_state (value : N) : HashState :=
  mkHashState (blocks s) (put_objs value) (N.succ (next_free s)) (Some put_table).

Lemma next_free_new : objs s !! next_free s = None.
Proof.
  destruct (objs s !! next_free s) as [x|] eqn:Ex; [|done].
  pose proof (rep_fresh _ _ _ _ R (next_free s) ltac:(eauto)). lia.
Qed.

Lemma head_item : head <> 0%N -> exists e l' x, l = e :: l' /\ e.1 = head /\
  objs s !! head = Some x /\ item_prev x = 0%N.
Proof.
  intros H0. destruct (rep_chain _ _ _ _ R h l head Hl Hhead) as [_ Hc].
  destruct l as [|e l']; [by destruct H0|]. destruct Hc as (-> & _ & x & Hx & Hp & _). eauto 8.
Qed.

Lemma hash_put_eq garbage_links value :
  (l = [] -> garbage_links (next_free s) = (0%N, 0%N)) -> value <> 0%N ->
  hash_put garbage_links key n value s =
    Ret (if (key_used t + 1) mod 2 ^ 64 <=? key_space t then -1 else 0) (put_state value).
Proof.
  intros Hg Hv. unfold hash_put. rewrite (bind_Ret _ _ _ _ _ get_table_eq).
  rewrite !bind_assert by (by apply negb_true_iff, N.eqb_neq).
  rewrite (bind_Ret _ _ _ _ _ hash_of_eq), bind_gets, bind_modify.
  rewrite (bind_of_option _ _ _ _ _ Hhead).
  set (s1 := mkHashState _ _ _ _).
  assert (Hnew : head <> next_free s).
  { intros E0. destruct (N.eq_dec head 0) as [Ez|Ez]; [pose proof (rep_fresh0 _ _ _ _ R); lia|].
    destruct (head_item Ez) as (_ & _ & x & _ & _ & Hx & _). rewrite E0, next_free_new in Hx. done. }
  match goal with |- bindM ?m _ _ = _ => assert (m s1 = Ret tt (with_objs (put_objs value) s1)) as E1 end.
  { unfold put_objs, point_back. destruct (N.eqb_spec head 0) as [E0|E0].
    - rewrite decide_True by done. cbn [negb]. unfold ret, s1. rewrite (Hg (proj1 head_null E0)), E0. done.
    - destruct (head_item E0) as (_ & _ & x & _ & _ & Hx & Hp). cbn [negb].
      assert (Hx1 : objs s1 !! head = Some x) by (by apply lookup_insert_Some; right).
      rewrite decide_False by done.
      rewrite (bind_Ret _ _ _ _ _ (item_at_eq _ _ _ Hx1)), bind_assert by (by rewrite Hp).
      rewrite (bind_Ret _ _ _ _ _ (update_item_eq _ _ _ _ Hx1)).
      set (m1 := <[head := _]> _).
      assert (Hm1 : m1 !! next_free s = Some (mkItem key n value (garbage_links (next_free s)).1 (garbage_links (next_free s)).2))
        by (unfold m1; rewrite lookup_insert_ne by done; apply lookup_insert_eq).
      rewrite (bind_Ret _ _ _ _ _ (update_item_eq (with_objs m1 s1) _ _ _ Hm1)).
      rewrite (update_item_eq _ _ (mkItem key n value head (garbage_links (next_free s)).2) _ (lookup_insert_eq _ _ _)).
      unfold with_objs, m1, s1. cbn [objs blocks next_free table set_item_next set_item_prev item_key item_key_len item_value item_next item_prev].
      do 2 f_equal. rewrite insert_insert_eq.
      rewrite (insert_insert_ne _ head) by done. rewrite insert_insert_eq.
      f_equal. apply map_eq. intros q. destruct (decide (q = head)) as [->|Hq].
      + by rewrite lookup_insert_eq, lookup_alter_eq, Hx.
      + by rewrite lookup_insert_ne, lookup_alter_ne. }
  rewrite (bind_Ret _ _ _ _ _ E1), bind_modify. done.
Qed.

(** Every old item keeps its key and its value. *)
Definition same_data (x y : hash_item) : Prop := item_key y = item_key x /\ item_value y = item_value x.

Lemma put_objs_old value q y :
  put_objs value !! q = Some y -> q <> next_free s ->
  exists x, objs s !! q = Some x /\ same_data x y.
Proof.
  unfold put_objs. intros Hy Hq. rewrite lookup_insert_ne in Hy by done. unfold point_back in Hy.
  case_decide; [by exists y|]. destruct (decide (q = head)) as [->|Hne].
  - rewrite lookup_alter_eq in Hy. destruct (objs s !! head) as [x|]; [|done]. injection Hy as <-.
    by exists x.
  - rewrite lookup_alter_ne in Hy by done. by exists y.
Qed.

Lemma put_objs_keep value q x :
  objs s !! q = Some x -> exists y, put_objs value !! q = Some y /\ same_data x y.
Proof.
  intros Hx. unfold put_objs. destruct (decide (q = next_free s)) as [->|Hq].
  { by rewrite next_free_new in Hx. }
  rewrite lookup_insert_ne by done. unfold point_back. case_decide; [by exists x|].
  destruct (decide (q = head)) as [->|Hne].
  - rewrite lookup_alter_eq, Hx. by eexists.
  - rewrite lookup_alter_ne by done. by exists x.
Qed.

Lemma entry_kept value e x :
  entry_at n s e x -> exists y, entry_at n (put_state value) e y.
Proof.
  intros [Ho Hke Hlo Hva]. destruct (put_objs_keep value _ _ Ho) as (y & Hy & Hk1 & Hv1).
  exists y. by split; [|cbn; rewrite Hk1| |rewrite Hv1].
Qed.

(** The buckets after the put. *)
Definition put_buckets (value : N) : list (list Entry) :=
  <[h := (next_free s, (k, value)) :: l]> E.

Lemma put_buckets_lookup value h' l' :
  put_buckets value !! h' = Some l' ->
  (h' = h /\ l' = (next_free s, (k, value)) :: l) \/ (h' <> h /\ E !! h' = Some l').
Proof.
  unfold put_buckets. intros H. apply list_lookup_insert_Some in H as [(-> & <- & _)|[Hne H]]; auto.
Qed.

Lemma old_pointer h' l' q : E !! h' = Some l' -> q ∈ l'.*1 -> q <> next_free s.
Proof.
  intros H (e & -> & He)%list_elem_of_fmap Eq.
  destruct (rep_entries _ _ _ _ R h' l' e H He) as [x [Hx _ _ _]].
  pose proof (rep_fresh _ _ _ _ R e.1 ltac:(eauto)). lia.
Qed.

Lemma put_pointer value h' l' q :
  put_buckets value !! h' = Some l' -> q ∈ l'.*1 ->
  (q = next_free s /\ h' = h) \/ exists l0, E !! h' = Some l0 /\ q ∈ l0.*1.
Proof.
  intros [[-> ->]|[_ H]]%put_buckets_lookup Hq; [|eauto].
  apply elem_of_cons in Hq as [->|Hq]; eauto.
Qed.

Lemma rep_put value : key_free s key -> rep n (put_state value) put_table (put_buckets value).
Proof.
  intros Hfree. pose proof (lookup_lt_Some _ _ _ Hl) as Hlt. split.
  - cbn. unfold put_buckets. rewrite !length_insert. by apply (rep_slots _ _ _ _ R).
  - cbn. unfold put_buckets. rewrite length_insert. by apply (rep_space _ _ _ _ R).
  - intros h' l' hd H'. cbn. intros Hhd. apply put_buckets_lookup in H' as [[-> ->]|[Hne H']].
    + rewrite list_lookup_insert_eq in Hhd by (by rewrite (rep_slots _ _ _ _ R)).
      injection Hhd as <-. destruct (rep_chain _ _ _ _ R h l head Hl Hhead) as [Hnd Hc].
      assert (Hnin : next_free s ∉ l.*1) by (intros Hin; by apply (old_pointer h l _ Hl Hin)).
      split; [by apply list.NoDup_cons|]. cbn [fmap list_fmap fst].
      apply chain_push; try done. pose proof (rep_fresh0 _ _ _ _ R). lia.
    + rewrite list_lookup_insert_ne in Hhd by done.
      destruct (rep_chain _ _ _ _ R h' l' hd H' Hhd) as [Hnd Hc]. split; [done|].
      apply seg_insert; [intros Hin; by apply (old_pointer h' l' _ H' Hin)|].
      unfold point_back. case_decide as E0; [done|]. apply seg_alter; [|done]. intros Hin.
      destruct (head_item E0) as (e & l0 & x & El & He & _).
      apply Hne, (rep_apart _ _ _ _ R h' h l' l head); try done. rewrite El, <- He. by left.
  - intros h' l' e H' He. apply put_buckets_lookup in H' as [[-> ->]|[_ H']].
    + apply elem_of_cons in He as [->|He].
      * exists (mkItem key n value head 0). split; [apply lookup_insert_eq|done..].
      * destruct (rep_entries _ _ _ _ R h l e Hl He) as [x Hx]. by eapply entry_kept.
    + destruct (rep_entries _ _ _ _ R h' l' e H' He) as [x Hx]. by eapply entry_kept.
  - intros h1 h2 l1 l2 q H1 H2 Q1 Q2.
    destruct (put_pointer _ _ _ _ H1 Q1) as [[-> ->]|(k1 & E1 & P1)],
      (put_pointer _ _ _ _ H2 Q2) as [[E2 ->]|(k2 & E2 & P2)]; try done.
    + by destruct (old_pointer _ _ _ E2 P2).
    + by destruct (old_pointer _ _ _ E1 P1).
    + by apply (rep_apart _ _ _ _ R h1 h2 k1 k2 q).
  - intros h1 h2 l1 l2 q1 q2 x1 x2 H1 H2 Q1 Q2. cbn. intros O1 O2 Hkk.
    destruct (put_pointer _ _ _ _ H1 Q1) as [[-> ->]|(k1 & E1 & P1)],
      (put_pointer _ _ _ _ H2 Q2) as [[-> ->]|(k2 & E2 & P2)]; try done.
    + unfold put_objs in O1. rewrite lookup_insert_eq in O1. injection O1 as <-.
      destruct (put_objs_old _ _ _ O2 (old_pointer _ _ _ E2 P2)) as (y & Hy & Hs & _).
      by destruct (Hfree q2 y Hy); rewrite <- Hs, <- Hkk.
    + unfold put_objs in O2. rewrite lookup_insert_eq in O2. injection O2 as <-.
      destruct (put_objs_old _ _ _ O1 (old_pointer _ _ _ E1 P1)) as (y & Hy & Hs & _).
      by destruct (Hfree q1 y Hy); rewrite <- Hs, Hkk.
    + destruct (put_objs_old _ _ _ O1 (old_pointer _ _ _ E1 P1)) as (y1 & Hy1 & Hs1 & _).
      destruct (put_objs_old _ _ _ O2 (old_pointer _ _ _ E2 P2)) as (y2 & Hy2 & Hs2 & _).
      apply (rep_keys _ _ _ _ R h1 h2 k1 k2 q1 q2 y1 y2); try done. congruence.
  - intros q [y Hy]. cbn in *. destruct (decide (q = next_free s)) as [->|Hq]; [lia|].
    destruct (put_objs_old _ _ _ Hy Hq) as (x & Hx & _).
    pose proof (rep_fresh _ _ _ _ R q ltac:(eauto)). lia.
  - cbn. lia.
  - cbn. unfold put_objs. pose proof (rep_fresh0 _ _ _ _ R). rewrite lookup_insert_ne by lia.
    unfold point_back. case_decide; [apply (rep_null _ _ _ _ R)|].
    by rewrite lookup_alter_ne by done; apply (rep_null _ _ _ _ R).
Qed.

(** ** Deleting *)

Lemma update_item_alter (s' : HashState) p f :
  is_Some (objs s' !! p) -> update_item p f s' = Ret tt (with_objs (alter f p (objs s')) s').
Proof.
  intros [y Hy]. rewrite (update_item_eq s' p y f Hy). do 2 f_equal. apply map_eq. intros q.
  destruct (decide (q = p)) as [->|Hne].
  - by rewrite lookup_insert_eq, lookup_alter_eq, Hy.
  - by rewrite lookup_insert_ne, lookup_alter_ne.
Qed.

Context (e : Entry) (l1 l2 : list Entry) (x : hash_item).
Hypotheses (He : entry_find k l = Some e) (Hsplit : l = l1 ++ e :: l2)
  (Hx : objs s !! e.1 = Some x).

Definition del_state : HashState :=
  mkHashState (delete (item_key x) (blocks s)) (delete e.1 (relink x (objs s))) (next_free s)
    (Some (if decide (item_prev x = 0%N) then set_slots (<[h := item_next x]> (slots t)) t else t)).

(** The links of the item: into the bucket, or null. *)
Lemma item_links_in :
  item_prev x = last_or 0 l1.*1 /\ seg (objs s) (item_next x) e.1 l2.*1 0 /\
  base.NoDup (l1.*1 ++ e.1 :: l2.*1) /\ chain (objs s) head (l1.*1 ++ e.1 :: l2.*1).
Proof.
  destruct (rep_chain _ _ _ _ R h l head Hl Hhead) as [Hnd Hc].
  rewrite Hsplit, fmap_app in Hnd, Hc. cbn [fmap list_fmap] in Hnd, Hc. split_and!; [| |done|done].
  all: apply seg_app in Hc as (m & H1 & (-> & _ & y & Hy & Hp & H2)); rewrite Hx in Hy; by injection Hy as <-.
Qed.

Lemma link_is_object : (item_prev x <> 0%N -> is_Some (objs s !! item_prev x)) /\
  (item_next x <> 0%N -> is_Some (objs s !! item_next x)).
Proof.
  destruct item_links_in as (Hp & Hn2 & Hnd & Hc). split; intros H0.
  - apply seg_app in Hc as (m & H1 & _). rewrite Hp in *.
    destruct l1.*1 as [|r l1' _] using rev_ind; [done|]. rewrite last_or_snoc.
    apply (seg_objects _ _ _ _ _ r H1). apply elem_of_app. right. by left.
  - destruct l2 as [|r l2']; [done|]. destruct Hn2 as (-> & _ & y & Hy & _). eauto.
Qed.

Lemma hash_delete_eq fuel :
  (length l <= fuel)%nat -> hash_delete fuel key n s = Ret (Some e.2.2) del_state.
Proof.
  intros Hf. unfold hash_delete. rewrite (bind_Ret _ _ _ _ _ get_table_eq).
  rewrite bind_assert by (by apply negb_true_iff, N.eqb_neq).
  rewrite (bind_Ret _ _ _ _ _ hash_of_eq), (bind_of_option _ _ _ _ _ Hhead).
  assert (Hne : l <> []) by (rewrite Hsplit; by destruct l1).
  destruct (N.eqb_spec head 0) as [E0|E0]; [by destruct Hne; apply head_null|].
  rewrite (bind_Ret _ _ _ _ _ (find_in_bucket fuel Hne Hf)), He.
  rewrite (bind_Ret _ _ _ _ _ (item_at_eq _ _ _ Hx)). destruct link_is_object as [Lp Ln].
  set (s1 := mkHashState (blocks s)
    (if decide (item_prev x = 0%N) then objs s else alter (set_item_next (item_next x)) (item_prev x) (objs s))
    (next_free s) (Some (if decide (item_prev x = 0%N) then set_slots (<[h := item_next x]> (slots t)) t else t))).
  match goal with |- bindM ?m _ _ = _ => assert (m s = Ret tt s1) as E1 end.
  { unfold s1. destruct (N.eqb_spec (item_prev x) 0) as [Ep|Ep].
    - rewrite !decide_True by done. done.
    - rewrite !decide_False by done. cbn [negb]. rewrite update_item_alter by auto.
      unfold with_objs. by rewrite Ht. }
  rewrite (bind_Ret _ _ _ _ _ E1). clear E1.
  match goal with |- bindM ?m _ _ = _ => assert (m s1 = Ret tt (with_objs (relink x (objs s)) s1)) as E2 end.
  { unfold relink, point_back. change (next_of x) with (item_next x). change (prev_of x) with (item_prev x).
    destruct (N.eqb_spec (item_next x) 0) as [En|En].
    - rewrite (decide_True (P := item_next x = 0%N)) by done. done.
    - rewrite (decide_False (P := item_next x = 0%N)) by done. cbn [negb].
      apply update_item_alter. unfold s1. cbn [objs]. case_decide; [by apply Ln|].
      apply lookup_alter_is_Some. by apply Ln. }
  rewrite (bind_Ret _ _ _ _ _ E2). clear E2.
  destruct (rep_entries _ _ _ _ R h l e Hl) as [y [Hy Hky _ Hvy]].
  { rewrite Hsplit. apply elem_of_app. right. by left. }
  rewrite Hx in Hy. injection Hy as <-.
  match goal with |- bindM (free_block _) _ ?s2 = _ =>
    assert (E3 : free_block (item_key x) s2 = Ret tt (with_blocks (delete (item_key x) (blocks s)) s2)) end.
  { unfold free_block. by rewrite bind_gets, (bind_of_option _ _ _ _ _ Hky). }
  rewrite (bind_Ret _ _ _ _ _ E3). unfold free_item. rewrite bind_modify. unfold ret. by rewrite Hvy.
Qed.

Definition del_buckets : list (list Entry) := <[h := l1 ++ l2]> E.

Lemma relink_data q y : objs s !! q = Some y -> exists z, relink x (objs s) !! q = Some z /\ same_data y z.
Proof.
  intros Hy. unfold relink, point_back.
  assert (Ha : forall (m : gmap N hash_item) f p z, m !! q = Some z ->
    (forall w, same_data w (f w)) -> exists w, alter f p m !! q = Some w /\ same_data z w).
  { intros m f p z Hz Hf. destruct (decide (q = p)) as [->|Hne].
    - rewrite lookup_alter_eq, Hz. by eexists.
    - rewrite lookup_alter_ne by done. by exists z. }
  assert (H1 : exists z, (if decide (prev_of x = 0%N) then objs s
    else alter (set_next_of (next_of x)) (prev_of x) (objs s)) !! q = Some z /\ same_data y z).
  { case_decide; [by exists y|]. apply Ha; [done|by split]. }
  set (m := if decide (prev_of x = 0%N) then _ else _) in *. clearbody m.
  destruct H1 as (z & Hz & Hs1 & Hs2). case_decide; [by exists z|].
  destruct (Ha _ (set_prev_of (prev_of x)) (next_of x) z Hz) as (w & Hw & Hs3 & Hs4); [by split|].
  exists w. split; [done|]. split; congruence.
Qed.

Lemma relink_old q z : relink x (objs s) !! q = Some z -> exists y, objs s !! q = Some y /\ same_data y z.
Proof.
  intros Hz. destruct (objs s !! q) as [y|] eqn:Hy.
  - destruct (relink_data q y Hy) as (w & Hw & Hs). exists y. split; [done|]. congruence.
  - exfalso. unfold relink, point_back in Hz. repeat case_decide; try congruence;
      repeat lazymatch type of Hz with
        | alter _ ?p ?m !! q = _ => destruct (decide (q = p)) as [E1|];
            [rewrite <- E1, lookup_alter_eq in Hz|rewrite lookup_alter_ne in Hz by done]
        end; rewrite ?fmap_None, ?Hy in Hz; try done.
    all: destruct (alter _ _ _ !! q) eqn:E2; [|done];
      destruct (decide (q = prev_of x)) as [E3|];
        [rewrite <- E3, lookup_alter_eq, Hy in E2|rewrite lookup_alter_ne, Hy in E2 by done]; done.
Qed.

(** A pointer of the buckets after the delete was in the same bucket before, and
    is not the one that is gone. *)
Lemma del_pointer h' l' q :
  del_buckets !! h' = Some l' -> q ∈ l'.*1 ->
  q <> e.1 /\ exists l0, E !! h' = Some l0 /\ q ∈ l0.*1.
Proof.
  intros H' Hq. destruct item_links_in as (_ & _ & Hnd & _).
  apply list_lookup_insert_Some in H' as [(-> & <- & _)|[Hne H']].
  - rewrite fmap_app in Hq. split.
    + intros ->. apply list.NoDup_app in Hnd as (_ & Hdis & [Hnin _]%list.NoDup_cons).
      apply elem_of_app in Hq as [Hq|Hq]; [|done]. apply (Hdis _ Hq). by left.
    + exists l. split; [done|]. rewrite Hsplit, fmap_app. cbn. apply elem_of_app in Hq as [?|?];
        apply elem_of_app; [by left|right; by right].
  - split; [|by exists l']. intros ->. apply Hne.
    apply (rep_apart _ _ _ _ R h h' l l' e.1); try done.
    rewrite Hsplit, fmap_app. apply elem_of_app. right. by left.
Qed.

Definition del_table : hash_table :=
  if decide (item_prev x = 0%N) then set_slots (<[h := item_next x]> (slots t)) t else t.

Lemma in_bucket q : q ∈ l1.*1 ++ e.1 :: l2.*1 <-> q ∈ l.*1.
Proof. by rewrite Hsplit, fmap_app. Qed.

(** The neighbours of the item are null or in its bucket. *)
Lemma neighbours : (item_prev x = 0%N \/ item_prev x ∈ l.*1) /\ (item_next x = 0%N \/ item_next x ∈ l.*1).
Proof.
  destruct item_links_in as (Hp & Hn2 & _ & _). rewrite <- !in_bucket. split.
  - rewrite Hp. destruct l1.*1 as [|r l1' _] using rev_ind; [by left|right]. rewrite last_or_snoc.
    apply elem_of_app. left. apply elem_of_app. right. by left.
  - destruct l2 as [|r l2']; [by left|right]. destruct Hn2 as (-> & _).
    apply elem_of_app. right. right. by left.
Qed.

Lemma other_bucket h' l' r :
  E !! h' = Some l' -> h' <> h -> r ∈ l'.*1 ->
  r <> e.1 /\ relink x (objs s) !! r = objs s !! r.
Proof.
  intros H' Hne Hr. pose proof (lookup_lt_Some _ _ _ H') as Hlt.
  rewrite <- (rep_slots _ _ _ _ R) in Hlt. apply lookup_lt_is_Some in Hlt as [hd Hhd].
  destruct (rep_chain _ _ _ _ R h' l' hd H' Hhd) as [_ Hc].
  destruct (seg_objects _ _ _ _ _ r Hc Hr) as [Hr0 _].
  assert (Hapart : forall q, q ∈ l.*1 -> r <> q).
  { intros q Hq ->. by apply Hne, (rep_apart _ _ _ _ R h' h l' l q). }
  destruct neighbours as [Np Nn]. split.
  - apply Hapart, in_bucket, elem_of_app. right. by left.
  - apply relink_other; [destruct Nn as [Nn|Nn]|destruct Np as [Np|Np]];
      first [by apply Hapart|change (next_of x) with (item_next x); change (prev_of x) with (item_prev x); congruence].
Qed.

Lemma rep_delete : rep n del_state del_table del_buckets.
Proof.
  destruct item_links_in as (_ & _ & Hnd & Hc).
  assert (Hlen : length (slots del_table) = length (slots t))
    by (unfold del_table; case_decide; cbn; by rewrite ?length_insert).
  pose proof (lookup_lt_Some _ _ _ Hhead) as Hlt. split.
  - unfold del_buckets. rewrite Hlen, length_insert. apply (rep_slots _ _ _ _ R).
  - unfold del_buckets. rewrite length_insert. unfold del_table. case_decide; apply (rep_space _ _ _ _ R).
  - intros h' l' hd H' Hhd. apply list_lookup_insert_Some in H' as [(Eh & El & _)|[Hne H']].
    + subst h' l'. assert (hd = if decide (item_prev x = 0%N) then item_next x else head) as ->.
      { unfold del_table in Hhd. destruct (decide (item_prev x = 0%N)); cbn [slots set_slots] in Hhd; [|congruence].
        rewrite list_lookup_insert_eq in Hhd by done. congruence. }
      rewrite fmap_app. apply list.NoDup_app in Hnd as Hnd'. destruct Hnd' as (N1 & N2 & [N3 N4]%list.NoDup_cons).
      split.
      * apply list.NoDup_app. split_and!; [done| |done]. intros q Hq1 Hq2. apply (N2 q Hq1). by right.
      * apply seg_delete; [|exact (chain_relink (objs s) head l1.*1 e.1 l2.*1 x Hnd Hc Hx)].
        intros [Hq|Hq]%elem_of_app; [|done]. apply (N2 _ Hq). by left.
    + assert (Hhd' : slots t !! h' = Some hd).
      { unfold del_table in Hhd. destruct (decide (item_prev x = 0%N)); cbn [slots set_slots] in Hhd; [|done]. by rewrite list_lookup_insert_ne in Hhd. }
      destruct (rep_chain _ _ _ _ R h' l' hd H' Hhd') as [Hnd' Hc']. split; [done|].
      eapply seg_frame; [|exact Hc']. intros r Hr.
      destruct (other_bucket h' l' r H' ltac:(done) Hr) as [Hre Hrr]. cbn.
      by rewrite lookup_delete_ne, Hrr.
  - intros h' l' e' H' He'.
    assert (Hin : e'.1 ∈ l'.*1) by (apply list_elem_of_fmap; eauto).
    destruct (del_pointer h' l' e'.1 H' Hin) as (Hne & l0 & Hl0 & Hin0).
    assert (He0 : e' ∈ l0).
    { apply list_lookup_insert_Some in H' as [(-> & <- & _)|[_ H']]; [|congruence].
      assert (l0 = l) as -> by congruence. rewrite Hsplit. apply elem_of_app in He' as [?|?];
        apply elem_of_app; [by left|right; by right]. }
    destruct (rep_entries _ _ _ _ R h' l0 e' Hl0 He0) as [y [Hy Hky Hlo Hvy]].
    destruct (relink_data e'.1 y Hy) as (z & Hz & Hs1 & Hs2). exists z. split; cbn.
    + by rewrite lookup_delete_ne.
    + rewrite Hs1, lookup_delete_ne; [done|]. intros Hkk. apply Hne. symmetry.
      apply (rep_keys _ _ _ _ R h h' l l0 e.1 e'.1 x y); try done.
      apply in_bucket, elem_of_app. right. by left.
    + done.
    + by rewrite Hs2.
  - intros h1 h2 k1 k2 q H1 H2 Q1 Q2.
    destruct (del_pointer _ _ _ H1 Q1) as (_ & m1 & E1 & P1), (del_pointer _ _ _ H2 Q2) as (_ & m2 & E2 & P2).
    by apply (rep_apart _ _ _ _ R h1 h2 m1 m2 q).
  - intros h1 h2 k1 k2 q1 q2 y1 y2 H1 H2 Q1 Q2. cbn. intros O1 O2 Hkk.
    apply lookup_delete_Some in O1 as [_ O1]. apply lookup_delete_Some in O2 as [_ O2].
    destruct (del_pointer _ _ _ H1 Q1) as (_ & m1 & E1 & P1), (del_pointer _ _ _ H2 Q2) as (_ & m2 & E2 & P2).
    destruct (relink_old _ _ O1) as (z1 & Hz1 & S1 & _), (relink_old _ _ O2) as (z2 & Hz2 & S2 & _).
    apply (rep_keys _ _ _ _ R h1 h2 m1 m2 q1 q2 z1 z2); try done. congruence.
  - intros q [y Hy]. cbn in Hy. apply lookup_delete_Some in Hy as [_ Hy].
    destruct (relink_old _ _ Hy) as (z & Hz & _). apply (rep_fresh _ _ _ _ R). eauto.
  - apply (rep_fresh0 _ _ _ _ R).
  - cbn. apply eq_None_not_Some. intros [y [_ Hy]%lookup_delete_Some].
    destruct (relink_old _ _ Hy) as (z & Hz & _). by rewrite (rep_null _ _ _ _ R) in Hz.
Qed.
End Ops.

(** A key that is not in its bucket. *)
Lemma hash_delete_missing s t E key k h l head fuel :
  table s = Some t -> rep n s t E -> key <> 0%N -> blocks s !! key = Some k -> n <= zlen k ->
  hash t k n (key_space t) = Some (Z.of_nat h) -> E !! h = Some l -> slots t !! h = Some head ->
  entry_find k l = None -> (length l <= fuel)%nat ->
  hash_delete fuel key n s = match l with [] => Ret (Some 0%N) s | _ => Halt HUndefined s end.
Proof.
  intros Ht R Hkey Hk Hn Hh Hl Hhead He Hf. unfold hash_delete.
  rewrite (bind_Ret _ _ _ _ _ (get_table_eq s t Ht)), bind_assert by (by apply negb_true_iff, N.eqb_neq).
  rewrite (bind_Ret _ _ _ _ _ (hash_of_eq s t key k h Hk Hh)), (bind_of_option _ _ _ _ _ Hhead).
  pose proof (head_null s t E h l head R Hl Hhead) as Hnull.
  destruct (N.eqb_spec head 0) as [E0|E0]; [by rewrite (proj1 Hnull E0)|].
  assert (Hne : l <> []) by (intros El; by apply E0, Hnull).
  rewrite (bind_Ret _ _ _ _ _ (find_in_bucket s t E key k h l head R Hk Hn Hl Hhead fuel Hne Hf)), He.
  unfold item_at, bindM, gets. rewrite (rep_null _ _ _ _ R). by destruct l.
Qed.

End Refinement.

(** A new table is empty when the memory it gets is zero. *)
Lemma new_table_represents n garbage_slot ks f s :
  (forall i, garbage_slot i = 0%N) -> 0 <= ks -> objs s = ∅ -> (0 < next_free s)%N ->
  exists s', hash_get_hash_table garbage_slot ks (Some f) s = Ret tt s' /\
    represents n f ks 0 s' (replicate (Z.to_nat ks) []).
Proof.
  intros Hg Hks Ho Hnf. eexists. split; [done|].
  eexists _, (replicate (Z.to_nat ks) []). split_and!; [done..| |by rewrite fmap_replicate].
  assert (Hl : forall h l, replicate (Z.to_nat ks) ([] : list Entry) !! h = Some l -> l = [])
    by (by intros h l [-> _]%lookup_replicate).
  split; cbn.
  - by rewrite length_fmap, length_seq, length_replicate.
  - by rewrite length_replicate.
  - intros h l head ->%Hl Hhd. split; [apply base.NoDup_nil_2|].
    apply list_lookup_fmap_Some in Hhd as (i & -> & _). apply Hg.
  - by intros h l e ->%Hl ?%not_elem_of_nil.
  - by intros h1 h2 l1 l2 q ->%Hl _ ?%not_elem_of_nil.
  - by intros h1 h2 l1 l2 q1 q2 x1 x2 ->%Hl _ ?%not_elem_of_nil.
  - rewrite Ho. by intros q [x Hx].
  - done.
  - by rewrite Ho.
Qed.

(** C14: the hash table is a table of buckets.  On a table that holds the buckets
    [A], for a key with the contents [k] that belongs in the bucket [a]:
    [hash_get] gives the value of the newest entry with the key, null for an
    empty bucket, and reads through a null pointer when the bucket has other keys
    only; [hash_put] puts the entry in front and reports -1 as long as the table is
    not over its key space: it needs the memory of a new item that is the first of
    its bucket to be zero, which nothing sees to ([first_item_links]), and memory
    of the key that no item of the table uses; [hash_delete] gives the value of the
    newest entry and takes it out, and misses as [hash_get] does. *)
Theorem hash_table_refines n f ks used s A key k h a :
  represents n f ks used s A -> key <> 0%N -> blocks s !! key = Some k -> n <= zlen k ->
  f k n ks = Some (Z.of_nat h) -> A !! h = Some a ->
  (forall fuel, (length a <= fuel)%nat ->
     hash_get fuel key n s =
       match a, bucket_find n k a with
       | [], _ => Ret (Some 0%N) s
       | _, Some v => Ret (Some v) s
       | _, None => Halt HUndefined s
       end) /\
  (forall garbage_links value,
     (a = [] -> garbage_links (next_free s) = (0%N, 0%N)) -> value <> 0%N -> key_free s key ->
     exists s', hash_put garbage_links key n value s =
         Ret (if (used + 1) mod 2 ^ 64 <=? ks then -1 else 0) s' /\
       represents n f ks ((used + 1) mod 2 ^ 64) s' (<[h := (k, value) :: a]> A)) /\
  (forall fuel, (length a <= fuel)%nat ->
     match a, bucket_find n k a with
     | [], _ => hash_delete fuel key n s = Ret (Some 0%N) s
     | _, Some v => exists s', hash_delete fuel key n s = Ret (Some v) s' /\
         represents n f ks used s' (<[h := bucket_remove n k a]> A)
     | _, None => hash_delete fuel key n s = Halt HUndefined s
     end).
Proof.
  intros (t & E & Ht & Hf & Hks & Hu & R & ->) Hkey Hk Hn Hh Ha.
  apply list_lookup_fmap_Some in Ha as (l & -> & Hl). subst f ks used.
  assert (Hlt : (h < length (slots t))%nat) by (rewrite (rep_slots _ _ _ _ R); by eapply lookup_lt_Some).
  apply lookup_lt_is_Some in Hlt as [head Hhead].
  assert (Hlen : length (map snd l) = length l) by apply length_map. split_and!.
  - intros fuel Hfuel. rewrite Hlen in Hfuel. rewrite (hash_get_eq n s t E key k h l head) by done.
    by destruct l.
  - intros g value Hg Hv Hfree. eexists. split.
    { eapply hash_put_eq; try done. intros El. apply Hg. by rewrite El. }
    eexists _, _. split_and!; [done..| |].
    + by eapply rep_put.
    + exact (eq_sym (list_fmap_insert (map snd) E h ((next_free s, (k, value)) :: l))).
  - intros fuel Hfuel. rewrite Hlen in Hfuel. destruct (entry_find n k l) as [e|] eqn:Ee.
    + destruct (entry_find_split _ _ _ _ Ee) as (l1 & l2 & El & Hrem & Hfind).
      assert (He : e ∈ l) by (rewrite El; apply elem_of_app; right; by left).
      destruct (rep_entries _ _ _ _ R h l e Hl He) as [x [Hx _ _ _]].
      assert (Hdel : hash_delete fuel key n s = Ret (Some e.2.2) (del_state s t h e x))
        by (by eapply hash_delete_eq).
      assert (Hrep : represents n (hash t) (key_space t) (key_used t) (del_state s t h e x)
                (<[h := bucket_remove n k (map snd l)]> (map (map snd) E))).
      { exists (del_table t h x), (del_buckets E h l1 l2).
        split_and!; [done|unfold del_table; by case_decide..|by eapply rep_delete|].
        rewrite Hrem. exact (eq_sym (list_fmap_insert (map snd) E h (l1 ++ l2))). }
      destruct (map snd l) as [|p a]; [done|]. rewrite Hfind. eauto.
    + pose proof (entry_find_None _ _ _ Ee) as Hnone.
      rewrite (hash_delete_missing n s t E key k h l head) by done.
      destruct l as [|e0 l0]; [done|]. cbn [map] in *. by rewrite Hnone.
Qed.

(** The links of the first item of a bucket are what its memory held before.
    When that is a pointer to an item that is no more, taking the item out again
    writes through it. *)
Theorem first_item_links n f ks used s A key k h garbage_links value fuel :
  represents n f ks used s A -> key <> 0%N -> value <> 0%N -> blocks s !! key = Some k -> n <= zlen k ->
  f k n ks = Some (Z.of_nat h) -> A !! h = Some [] ->
  (garbage_links (next_free s)).2 <> 0%N -> (garbage_links (next_free s)).2 <> next_free s ->
  objs s !! (garbage_links (next_free s)).2 = None ->
  exists r s1 s2, hash_put garbage_links key n value s = Ret r s1 /\
    hash_delete (S fuel) key n s1 = Halt HUndefined s2.
Proof.
  intros (t & E & Ht & Hf & Hks & Hu & R & ->) Hkey Hv Hk Hn Hh Ha Hg Hgn Hgo.
  apply list_lookup_fmap_Some in Ha as (l & El & Hl). destruct l; [|done]. clear El. subst f ks used.
  assert (Hlt : (h < length (slots t))%nat) by (rewrite (rep_slots _ _ _ _ R); by eapply lookup_lt_Some).
  pose proof Hlt as [head Hhead]%lookup_lt_is_Some.
  pose proof (proj2 (head_null n s t E h [] head R Hl Hhead) eq_refl) as ->.
  set (nx := (garbage_links (next_free s)).1). set (pv := (garbage_links (next_free s)).2) in *.
  set (x := mkItem key n value nx pv).
  set (s1 := mkHashState (blocks s) (<[next_free s := x]> (objs s)) (N.succ (next_free s))
    (Some (set_key_used ((key_used t + 1) mod 2 ^ 64) (set_slots (<[h := next_free s]> (slots t)) t)))).
  exists (if (key_used t + 1) mod 2 ^ 64 <=? key_space t then -1 else 0), s1. eexists. split.
  - unfold hash_put. rewrite (bind_Ret _ _ _ _ _ (get_table_eq s t Ht)).
    rewrite !bind_assert by (by apply negb_true_iff, N.eqb_neq).
    rewrite (bind_Ret _ _ _ _ _ (hash_of_eq n s t key k h Hk Hh)), bind_gets, bind_modify.
    rewrite (bind_of_option _ _ _ _ _ Hhead). reflexivity.
  - pose proof (rep_fresh0 _ _ _ _ R) as Hf0.
    assert (Hx1 : objs s1 !! next_free s = Some x) by apply lookup_insert_eq.
    assert (Hpv : objs s1 !! pv = None) by (cbn; by rewrite lookup_insert_ne).
    assert (Hs1 : slots (set_key_used ((key_used t + 1) mod 2 ^ 64)
      (set_slots (<[h := next_free s]> (slots t)) t)) !! h = Some (next_free s))
      by (cbn; by apply list_lookup_insert_eq).
    unfold hash_delete. rewrite (bind_Ret _ _ _ _ _ (get_table_eq s1 _ eq_refl)).
    rewrite bind_assert by (by apply negb_true_iff, N.eqb_neq).
    rewrite (bind_Ret _ _ _ _ _ (hash_of_eq n s1 _ key k h Hk Hh)), (bind_of_option _ _ _ _ _ Hs1).
    rewrite (proj2 (N.eqb_neq (next_free s) 0)) by lia.
    assert (Ef : find_item (S fuel) key n (next_free s) s1 = Ret (Some (next_free s)) s1).
    { cbn [find_item]. rewrite (bind_Ret _ _ _ _ _ (item_at_eq s1 _ x Hx1)).
      rewrite (bind_Ret _ _ _ _ _ (same_key_eq n s1 key key k k Hk Hk Hn Hn)).
      unfold key_matches. by rewrite bool_decide_eq_true_2. }
    rewrite (bind_Ret _ _ _ _ _ Ef), (bind_Ret _ _ _ _ _ (item_at_eq s1 _ x Hx1)).
    cbn [item_prev x]. rewrite (proj2 (N.eqb_neq pv 0)) by done. cbn [negb].
    unfold update_item, item_at, bindM, gets. rewrite Hpv. reflexivity.
Qed.

(** The default hash function cannot be used for the keys it is written for.
    [ip_port_hash] reads eight bytes of a key of six: with it every lookup,
    insertion and removal of such a key reads outside of the key. *)
Theorem ip_port_key_undefined garbage_links s t key k n value fuel :
  table s = Some t -> hash t = ip_port_hash -> key <> 0%N -> value <> 0%N ->
  blocks s !! key = Some k -> zlen k < 8 ->
  hash_get fuel key n s = Halt HUndefined s /\
  hash_put garbage_links key n value s = Halt HUndefined s /\
  hash_delete fuel key n s = Halt HUndefined s.
Proof.
  intros Ht Hh Hkey Hval Hk Hlen.
  assert (E : hash_of t key n s = Halt HUndefined s).
  { unfold hash_of. rewrite bind_gets, (bind_of_option _ _ _ _ _ Hk), Hh. unfold ip_port_hash, le64.
    rewrite decide_False by (unfold zlen in Hlen; lia). done. }
  unfold hash_get, hash_put, hash_delete. rewrite !(bind_Ret _ _ _ _ _ (get_table_eq s t Ht)).
  rewrite !bind_assert by (by apply negb_true_iff, N.eqb_neq). unfold bindM. by rewrite E.
Qed.
