(* ===== verification/CnSocket.v ===== *)
(** * The sockets of the generation in C: [c_nf/socket_info.h], [c_nf/socket_info.c]

    The memory is explicit: objects are created by [malloc], whose memory is not
    initialised, and destroyed by [free]; a pointer to an object that does not
    exist (any more) is undefined.  The file is read as C with the default
    arguments it declares, [uint23_t] as [uint32_t], the state
    [S_IN_RECVEIVE_AND_PROCESS] of the enumeration as the one the functions name,
    and [send_buf_len], which is no member, as [send_buf_num].  Address 0 is the
    null pointer. *)

From S2P Require Import Prelude CnList.

(** [enum socket_state], [enum socket_type]. *)
Inductive socket_state :=
| S_NOT_INIT | S_INIT | S_IN_CONNECT | S_CONNECTED | S_IN_ACCEPT | S_IN_SEND | S_IN_RECEIVE
| S_IN_PROCESS | S_IN_RECEIVE_AND_PROCESS.
Inductive socket_type :=
| T_TCP_LISTEN | T_TCP_SERVER_LV | T_TCP_CLIENT_LV | T_TCP_SERVER_HTTP | T_TCP_CLIENT_HTTP | T_UDP
| T_TCP_SERVER_OTHER | T_TCP_CLIENT_OTHER.

#[export] Instance socket_state_eq_dec : EqDecision socket_state.
Proof. solve_decision. Defined.
#[export] Instance socket_type_eq_dec : EqDecision socket_type.
Proof. solve_decision. Defined.

(** A [data_handler]: a default one, or one of the program. *)
Inductive data_handler :=
| default_message_handler
| default_trunk_handler
| default_error_handler
| default_after_send_handler
| default_is_trunk_callback
| default_is_message_callback
| user_handler (n : nat).

(** [struct send_buf], a queue of which a socket has. *)
Record send_buf := mkSendBuf {
  sb_buf : N;
  sb_len : Z;
  sb_sent : Z;
  sb_next : N;
  sb_prev : N
}.
Definition set_sb_sent (n : Z) (b : send_buf) : send_buf :=
  mkSendBuf (sb_buf b) (sb_len b) n (sb_next b) (sb_prev b).

(** [struct socket_info]. *)
Record socket_info := mkInfo {
  i_socket : Z;
  net_ip : Z;
  net_port : Z;
  packet_len : Z;
  recv_buf : N;
  recv_buf_len : Z;
  recv_buf_used : Z;
  recv_buf_len_min : Z;
  recv_buf_len_max : Z;
  state : socket_state;
  type : socket_type;
  trunk_handler : data_handler;
  message_handler : data_handler;
  after_send_handler : data_handler;
  is_trunk_callback : data_handler;
  is_message_callback : data_handler;
  error_handler : data_handler;
  atime : Z * Z;
  send_bufs : N;
  send_buf_num : Z;
  i_prev : N;
  i_next : N
}.

Section Setters.
  Implicit Type x : socket_info.
Definition set_packet_len v x := let 'mkInfo a b c d e f g h i j k l m n o p q r s t u w := x in mkInfo a b c v e f g h i j k l m n o p q r s t u w.
Definition set_recv_buf v x := let 'mkInfo a b c d e f g h i j k l m n o p q r s t u w := x in mkInfo a b c d v f g h i j k l m n o p q r s t u w.
Definition set_recv_buf_len v x := let 'mkInfo a b c d e f g h i j k l m n o p q r s t u w := x in mkInfo a b c d e v g h i j k l m n o p q r s t u w.
Definition set_recv_buf_used v x := let 'mkInfo a b c d e f g h i j k l m n o p q r s t u w := x in mkInfo a b c d e f v h i j k l m n o p q r s t u w.
Definition set_state v x := let 'mkInfo a b c d e f g h i j k l m n o p q r s t u w := x in mkInfo a b c d e f g h i v k l m n o p q r s t u w.
Definition set_trunk v x := let 'mkInfo a b c d e f g h i j k l m n o p q r s t u w := x in mkInfo a b c d e f g h i j k v m n o p q r s t u w.
Definition set_message v x := let 'mkInfo a b c d e f g h i j k l m n o p q r s t u w := x in mkInfo a b c d e f g h i j k l v n o p q r s t u w.
Definition set_after_send v x := let 'mkInfo a b c d e f g h i j k l m n o p q r s t u w := x in mkInfo a b c d e f g h i j k l m v o p q r s t u w.
Definition set_is_trunk v x := let 'mkInfo a b c d e f g h i j k l m n o p q r s t u w := x in mkInfo a b c d e f g h i j k l m n v p q r s t u w.
Definition set_is_message v x := let 'mkInfo a b c d e f g h i j k l m n o p q r s t u w := x in mkInfo a b c d e f g h i j k l m n o v q r s t u w.
Definition set_atime v x := let 'mkInfo a b c d e f g h i j k l m n o p q r s t u w := x in mkInfo a b c d e f g h i j k l m n o p q v s t u w.
Definition set_send_bufs v x := let 'mkInfo a b c d e f g h i j k l m n o p q r s t u w := x in mkInfo a b c d e f g h i j k l m n o p q r v t u w.
Definition set_send_buf_num v x := let 'mkInfo a b c d e f g h i j k l m n o p q r s t u w := x in mkInfo a b c d e f g h i j k l m n o p q r s v u w.
Definition set_i_prev v x := let 'mkInfo a b c d e f g h i j k l m n o p q r s t u w := x in mkInfo a b c d e f g h i j k l m n o p q r s t v w.
Definition set_i_next v x := let 'mkInfo a b c d e f g h i j k l m n o p q r s t u w := x in mkInfo a b c d e f g h i j k l m n o p q r s t u v.
Definition set_i_socket v x := let 'mkInfo a b c d e f g h i j k l m n o p q r s t u w := x in mkInfo v b c d e f g h i j k l m n o p q r s t u w.
End Setters.

#[export] Instance info_links : Linked socket_info.
Proof. refine {| next_of := i_next; prev_of := i_prev; set_next_of := set_i_next; set_prev_of := set_i_prev |};
  by intros p []. Defined.

(** What a [recv] on the socket finds next: bytes, nothing yet, an error, or the
    end of the connection; what a [writev] does. *)
Inductive Arrival := Bytes (data : list byte) | Again | Broken | Closed.
Inductive Written := Sent (n : Z) | SendAgain | SendBroken.

(** The memory of the process and its system: the sockets, the queues, the
    buffers, the next free address; what the system is going to answer, and the
    descriptors that were closed. *)
Record CState := mkCState {
  infos : gmap N socket_info;
  sbufs : gmap N send_buf;
  mem : gmap N (list byte);
  next_addr : N;
  arrivals : list Arrival;
  writes : list Written;
  accepts : list Z;
  closed : list Z
}.

Definition with_infos m (s : CState) : CState :=
  mkCState m (sbufs s) (mem s) (next_addr s) (arrivals s) (writes s) (accepts s) (closed s).
Definition with_sbufs m (s : CState) : CState :=
  mkCState (infos s) m (mem s) (next_addr s) (arrivals s) (writes s) (accepts s) (closed s).
Definition with_mem m (s : CState) : CState :=
  mkCState (infos s) (sbufs s) m (next_addr s) (arrivals s) (writes s) (accepts s) (closed s).
Definition with_next_addr a (s : CState) : CState :=
  mkCState (infos s) (sbufs s) (mem s) a (arrivals s) (writes s) (accepts s) (closed s).
Definition with_arrivals l (s : CState) : CState :=
  mkCState (infos s) (sbufs s) (mem s) (next_addr s) l (writes s) (accepts s) (closed s).
Definition with_writes l (s : CState) : CState :=
  mkCState (infos s) (sbufs s) (mem s) (next_addr s) (arrivals s) l (accepts s) (closed s).
Definition with_accepts l (s : CState) : CState :=
  mkCState (infos s) (sbufs s) (mem s) (next_addr s) (arrivals s) (writes s) l (closed s).
Definition with_closed l (s : CState) : CState :=
  mkCState (infos s) (sbufs s) (mem s) (next_addr s) (arrivals s) (writes s) (accepts s) l.

Definition u32 (z : Z) : Z := z mod 2 ^ 32.

Section Memory.
  (** What new memory at an address holds. *)
  Variable junk : N -> nat -> byte.
  Variable junk_info : N -> socket_info.

Definition info_at (p : N) : M CState socket_info :=
  let! m := gets infos in of_option HUndefined (m !! p).
Definition update_info (p : N) (f : socket_info -> socket_info) : M CState unit :=
  let! x := info_at p in modify (fun s => with_infos (<[p := f x]> (infos s)) s).
Definition sbuf_at (p : N) : M CState send_buf :=
  let! m := gets sbufs in of_option HUndefined (m !! p).

(** [malloc(n)] of a buffer, and [free]: nothing for the null pointer. *)
Definition malloc (n : Z) : M CState N :=
  let! p := gets next_addr in
  modify (fun s => with_next_addr (N.succ p)
                     (with_mem (<[p := map (junk p) (seq 0 (Z.to_nat n))]> (mem s)) s)) ;;!
  ret p.
Definition free (p : N) : M CState unit :=
  if (p =? 0)%N then ret tt
  else
    let! m := gets mem in
    let! _b := of_option HUndefined (m !! p) in
    modify (fun s => with_mem (delete p (mem s)) s).
Definition free_sbuf (p : N) : M CState unit :=
  let! _b := sbuf_at p in modify (fun s => with_sbufs (delete p (sbufs s)) s).
Definition close (fd : Z) : M CState unit := modify (fun s => with_closed (closed s ++ [fd]) s).

(** ** [socket_info.c] *)

(** The least buffer is given the size of the largest packet, and
    [recv_buf_len_max], [packet_len], [recv_buf_used] and [send_buf_num] are not
    assigned. *)
Definition create_socket_info (socket : Z) (ty : socket_type) (st : socket_state)
    (packet_min packet_max : Z)
    (message trunk is_trunk is_message error after_send : option data_handler) : M CState N :=
  assert_ (0 <? socket) ;;!
  assert_ (packet_min <? packet_max) ;;!
  let! info := gets next_addr in
  modify (with_next_addr (N.succ info)) ;;!
  let! buf := malloc packet_min in
  let j := junk_info info in
  modify (fun s => with_infos (<[info := mkInfo socket (net_ip j) (net_port j) (packet_len j)
    buf packet_min (recv_buf_used j) packet_max (recv_buf_len_max j) st ty
    (default default_trunk_handler trunk) (default default_message_handler message)
    (default default_after_send_handler after_send) (default default_is_trunk_callback is_trunk)
    (default default_is_message_callback is_message) (default default_error_handler error)
    (atime j) 0%N (send_buf_num j) (i_prev j) (i_next j)]> (infos s)) s) ;;!
  ret info.

(** Only the first send buffer is freed, as if it were a block of bytes. *)
Definition destroy_socket_info (info : N) : M CState unit :=
  assert_ (negb (info =? 0)%N) ;;!
  let! x := info_at info in
  close (i_socket x) ;;!
  free (recv_buf x) ;;!
  (if (send_bufs x =? 0)%N then ret tt else free_sbuf (send_bufs x)) ;;!
  modify (fun s => with_infos (delete info (infos s)) s).

Definition reset_socket_info (info : N) (socket : Z) : M CState unit :=
  assert_ (negb (info =? 0)%N) ;;!
  let! x := info_at info in
  if 0 <=? socket then
    close (i_socket x) ;;!
    update_info info (set_i_socket socket) ;;!
    update_info info (set_send_bufs 0%N) ;;!
    update_info info (set_send_buf_num 0) ;;!
    update_info info (set_recv_buf_len (recv_buf_len_min x)) ;;!
    update_info info (set_recv_buf_used 0)
  else
    let! buf := malloc (recv_buf_len_min x) in
    update_info info (set_recv_buf buf) ;;!
    update_info info (set_recv_buf_len (recv_buf_len_min x)).

(** Case 6, the error handler, is documented and missing. *)
Definition set_handler (info : N) (h : data_handler) (which : Z) : M CState data_handler :=
  let! x := info_at info in
  if which =? 1 then update_info info (set_trunk h) ;;! ret (trunk_handler x)
  else if which =? 2 then update_info info (set_is_trunk h) ;;! ret (is_trunk_callback x)
  else if which =? 3 then update_info info (set_message h) ;;! ret (message_handler x)
  else if which =? 4 then update_info info (set_is_message h) ;;! ret (is_message_callback x)
  else if which =? 5 then update_info info (set_after_send h) ;;! ret (after_send_handler x)
  else stop HAssert.

Definition change_socket_state (info : N) (st : socket_state) : M CState Z :=
  assert_ (negb (info =? 0)%N) ;;! update_info info (set_state st) ;;! ret 0.

(** ** Creating descriptors

    The system calls are arguments: the descriptor [socket] gives, what
    [inet_aton] makes of the text ([None] when it returns 0), and whether the
    others succeed. *)

Variable inet_aton : list byte -> option Z.

(** The address is only used after a failure: [inet_aton] returns 1 when it
    succeeds.  [connect] answers whether it succeeded or is in progress. *)
Definition create_tcp_client_socket (fd : Z) (ip_str : list byte) (connect_ok : bool) : Z :=
  if fd <? 0 then -1
  else match inet_aton ip_str with
       | Some _ => -2
       | None => if connect_ok then fd else -3
       end.

Definition create_tcp_listen_socket (fd : Z) (ip_str : list byte) (bind_ok listen_ok : bool) : Z :=
  if fd <? 0 then -1
  else match inet_aton ip_str with
       | Some _ => -2
       | None => if negb bind_ok then -3 else if negb listen_ok then -4 else fd
       end.

Definition create_udp_socket (fd : Z) (ip_str : list byte) (bind_ok : bool) : Z :=
  if fd <? 0 then -1
  else match inet_aton ip_str with
       | Some _ => -2
       | None => if negb bind_ok then -3 else fd
       end.

(** [F_GETFD] and [F_SETFD] are the flags of the descriptor, not those of the
    file; [getfd] is -1 for an error. *)
Definition O_NONBLOCK : Z := 2048.
Definition set_nonblock (getfd : Z) (setfd : Z -> Z) : Z :=
  if getfd =? -1 then -1
  else if negb (Z.land getfd O_NONBLOCK =? 0) then -2
  else if setfd (Z.lor getfd O_NONBLOCK) =? -1 then -3 else 0.

Definition set_reuse (setsockopt : Z) : Z := if setsockopt <? 0 then -1 else 0.

End Memory.

(** ** The operations on known objects *)

Section Exec.
Lemma info_at_eq s p x : infos s !! p = Some x -> info_at p s = Ret x s.
Proof. intros H. unfold info_at. by rewrite bind_gets, H. Qed.

Lemma update_info_eq s p x f :
  infos s !! p = Some x -> update_info p f s = Ret tt (with_infos (<[p := f x]> (infos s)) s).
Proof. intros H. unfold update_info. by rewrite (bind_Ret _ _ _ _ _ (info_at_eq s p x H)). Qed.

Lemma sbuf_at_eq s p b : sbufs s !! p = Some b -> sbuf_at p s = Ret b s.
Proof. intros H. unfold sbuf_at. by rewrite bind_gets, H. Qed.

Lemma sbuf_at_undefined {A} s p (k : send_buf -> M CState A) :
  sbufs s !! p = None -> bindM (sbuf_at p) k s = Halt HUndefined s.
Proof. intros H. unfold sbuf_at, bindM, gets. by rewrite H. Qed.

Lemma info_at_null s p : infos s !! p = None -> info_at p s = Halt HUndefined s.
Proof. intros H. unfold info_at. by rewrite bind_gets, H. Qed.
End Exec.
