(* ===== verification/CnProcess.v ===== *)
(** * The events of the generation in C: [c_nf/process.c]

    Receiving an LV packet, sending the queue of a socket, and the dispatch of an
    event.  [zxb_ios/process.c] is the same file.  It is read with
    [process_tcp_send] where it calls [process_send], [change_socket_state] for
    [set_socket_state], and the arguments the handlers have in their type.  The
    theorems: what becomes of a packet that comes in one piece
    ([packet_in_one_piece]), how much a peer may write ([recv_overruns]), and
    that a send never returns once a byte was accepted ([send_never_returns]). *)

From S2P Require Import Prelude Wire CnList CnSocket.

(** The outcome of [recv] and [writev]. *)
Inductive IOResult := Count (n : Z) | IOAgain | IOError.

Section Process.
  Variable junk : N -> nat -> byte.
  (** What a handler of the program does: it gets the socket, the address of the
      buffer and its length. *)
  Variable user : nat -> Z -> N -> Z -> M CState Z.

Definition call_handler (h : data_handler) (socket : Z) (buf : N) (buflen : Z) : M CState Z :=
  match h with
  | default_message_handler => free buf ;;! ret 0
  | user_handler n => user n socket buf buflen
  | _ => ret 0
  end.

(** [recv(socket, buf + off, n, 0)]: the bytes that are there, at most [n]. *)
Definition recv (buf : N) (off n : Z) : M CState IOResult :=
  if n =? 0 then ret (Count 0)
  else
    let! l := gets arrivals in
    match l with
    | [] => ret IOAgain
    | Again :: l => modify (with_arrivals l) ;;! ret IOAgain
    | Broken :: l => modify (with_arrivals l) ;;! ret IOError
    | Closed :: _ => ret (Count 0)
    | Bytes data :: l =>
        let got := take (Z.to_nat n) data in
        let! m := gets mem in
        let! old := of_option HUndefined (m !! buf) in
        let! new := of_option HUndefined (overwrite old (Z.to_nat off) got) in
        modify (fun s => with_mem (<[buf := new]> (mem s)) s) ;;!
        modify (with_arrivals (if zlen data <=? n then l else Bytes (drop (Z.to_nat n) data) :: l)) ;;!
        ret (Count (zlen got))
    end.

(** The loop of [process_recv_lv_format], with the values of [cnt] and [cur] at
    its end; [None] when the fuel is used up. *)
Fixpoint recv_loop (fuel : nat) (buf : N) (off buf_len cur bytes_read : Z)
    : M CState (option (IOResult * Z)) :=
  match fuel with
  | O => ret None
  | S fuel =>
      let! cnt := recv buf (off + cur) (u32 (buf_len - bytes_read)) in
      match cnt with
      | Count n =>
          if 0 <? n then
            let cur' := u32 (cur + n) in
            let bytes_read' := u32 (bytes_read - n) in
            if cur' =? buf_len then ret (Some (cnt, cur'))
            else recv_loop fuel buf off buf_len cur' bytes_read'
          else ret (Some (cnt, cur))
      | _ => ret (Some (cnt, cur))
      end
  end.

Definition in_state (x : socket_info) (l : list socket_state) : bool := bool_decide (state x ∈ l).
Definition is_lv (x : socket_info) : bool :=
  bool_decide (type x = T_TCP_SERVER_LV) || bool_decide (type x = T_TCP_CLIENT_LV).

(** The buffer is exchanged for one of the largest size when the packet does not
    fit. *)
Definition grow_recv_buf (info : N) : M CState unit :=
  let! x := info_at info in
  update_info info (set_recv_buf_len (recv_buf_len_max x)) ;;!
  let! new := malloc junk (recv_buf_len_max x) in
  update_info info (set_recv_buf new) ;;!
  let! m := gets mem in
  let! old := of_option HUndefined (m !! recv_buf x) in
  let! dst := of_option HUndefined (m !! new) in
  if recv_buf_used x <=? zlen old then
    let! dst' := of_option HUndefined (overwrite dst 0 (take (Z.to_nat (recv_buf_used x)) old)) in
    modify (fun s => with_mem (<[new := dst']> (mem s)) s) ;;!
    free (recv_buf x)
  else stop HUndefined.

Definition process_recv_lv_format (fuel : nat) (info : N) : M CState (option Z) :=
  assert_ (negb (info =? 0)%N) ;;!
  let! x := info_at info in
  assert_ (in_state x [S_IN_RECEIVE; S_IN_RECEIVE_AND_PROCESS]) ;;!
  assert_ (is_lv x) ;;!
  (if packet_len x =? 0 then
     let! r := call_handler (is_message_callback x) (i_socket x) (recv_buf x) (recv_buf_used x) in
     update_info info (set_packet_len (u32 r))
   else ret tt) ;;!
  let! x := info_at info in
  if recv_buf_len_max x <? packet_len x then ret (Some (-1))
  else
    (if recv_buf_len x <? packet_len x then grow_recv_buf info else ret tt) ;;!
    let! x := info_at info in
    let buf_len := u32 (packet_len x - (recv_buf_len x - recv_buf_used x + 1)) in
    let! r := recv_loop fuel (recv_buf x) (recv_buf_used x) buf_len 0 0 in
    match r with
    | None => ret None
    | Some (cnt, cur) =>
        let used := u32 (recv_buf_used x + cur) in
        update_info info (set_recv_buf_used used) ;;!
        match cnt with
        | IOAgain => ret (Some (if negb (packet_len x =? 0) && (packet_len x =? used) then 0 else 1))
        | IOError => ret (Some (-2))
        | Count n => ret (Some (if n =? 0 then -3 else 0))
        end
    end.

(** ** Sending *)

(** The lengths of the [num] vectors of the queue from [iter]. *)
Fixpoint send_vecs (num : nat) (iter : N) : M CState (list Z) :=
  match num with
  | O => ret []
  | S num =>
      let! b := sbuf_at iter in
      let! l := send_vecs num (sb_next b) in
      ret (u32 (sb_len b - sb_sent b) :: l)
  end.

(** [writev]: at most as much as the vectors hold. *)
Definition writev (vecs : list Z) : M CState IOResult :=
  let total := foldr Z.add 0 vecs in
  let! l := gets writes in
  match l with
  | [] => ret IOAgain
  | w :: l =>
      modify (with_writes l) ;;!
      match w with
      | SendAgain => ret IOAgain
      | SendBroken => ret IOError
      | Sent n => ret (Count (Z.max 0 (Z.min n total)))
      end
  end.

(** The loop that takes what was sent from the queue; [None] when the fuel is
    used up. *)
Fixpoint send_loop (fuel : nat) (info : N) (left ret_ : Z) : M CState (option Z) :=
  let! x := info_at info in
  if (send_bufs x =? 0)%N then ret (Some ret_)
  else match fuel with
  | O => ret None
  | S fuel =>
      let tmp := send_bufs x in
      let! b := sbuf_at tmp in
      if u32 (sb_len b - sb_sent b) <=? left then
        update_info info (set_send_bufs (sb_next b)) ;;!
        update_info info (fun x => set_send_buf_num (u32 (send_buf_num x - 1)) x) ;;!
        free (sb_buf b) ;;!
        free_sbuf tmp ;;!
        let! x := info_at info in
        let! b := sbuf_at (send_bufs x) in
        send_loop fuel info (u32 (left - u32 (sb_len b - sb_sent b))) 0
      else
        modify (fun s => with_sbufs (<[tmp := set_sb_sent (u32 (sb_sent b + left)) b]> (sbufs s)) s) ;;!
        send_loop fuel info 0 1
  end.

Definition process_tcp_send (fuel : nat) (info : N) : M CState (option Z) :=
  assert_ (negb (info =? 0)%N) ;;!
  let! x := info_at info in
  assert_ (in_state x [S_IN_PROCESS; S_IN_SEND; S_IN_CONNECT]) ;;!
  assert_ (is_lv x) ;;!
  (* [info->state == S_IN_RECEIVE;] is a comparison *)
  if bool_decide (state x = S_IN_CONNECT) then ret (Some 3)
  else
    let! vecs := send_vecs (Z.to_nat (send_buf_num x)) (send_bufs x) in
    let! cnt := writev vecs in
    match cnt with
    | IOAgain => ret (Some 1)
    | IOError => ret (Some (-1))
    | Count n => if n =? 0 then ret (Some (-2)) else send_loop fuel info n 1
    end.

(** ** Events *)

(** A negative answer of [accept] is -1 whatever the reason was. *)
Definition process_accept (info : N) : M CState Z :=
  let! x := info_at info in
  assert_ (in_state x [S_IN_ACCEPT]) ;;!
  let! l := gets accepts in
  match l with
  | [] => ret (-1)
  | fd :: l => modify (with_accepts l) ;;! ret fd
  end.

Definition process_socket_event (fuel : nat) (info : N) : M CState (option Z) :=
  assert_ (negb (info =? 0)%N) ;;!
  let! x := info_at info in
  match type x with
  | T_TCP_LISTEN =>
      let! code := process_accept info in
      if 0 <=? code then ret (Some code)
      else
        let! handle_code := call_handler (error_handler x) (i_socket x) 0%N 1 in
        if handle_code =? 0 then ret (Some (-1)) else stop (HExit 1)
  | T_TCP_SERVER_LV | T_TCP_CLIENT_LV =>
      if in_state x [S_IN_RECEIVE; S_IN_RECEIVE_AND_PROCESS] then
        let! r := process_recv_lv_format fuel info in
        match r with
        | None => ret None
        | Some code =>
            (if code =? 0 then
               let! x := info_at info in
               let! handle_code :=
                 call_handler (message_handler x) (i_socket x) (recv_buf x) (recv_buf_used x) in
               reset_socket_info junk info (-1) ;;!
               if handle_code =? 0 then ret tt
               else if handle_code =? -1 then destroy_socket_info info
               else if handle_code =? 1 then change_socket_state info S_IN_SEND ;;! ret tt
               else if handle_code =? 2 then change_socket_state info S_IN_PROCESS ;;! ret tt
               else stop HAssert
             else if code =? 1 then ret tt
             else if code <? 0 then destroy_socket_info info
             else stop HAssert) ;;!
            ret (Some (-1))
        end
      else match state x with
      | S_IN_SEND =>
          let! r := process_tcp_send fuel info in
          match r with
          | None => ret None
          | Some code =>
              (if code =? 0 then ret tt
               else call_handler (error_handler x) (i_socket x) 0%N 1 ;;! ret tt) ;;!
              ret (Some (-1))
          end
      | S_IN_CONNECT => stop HAssert
      | _ => ret (Some (-1))
      end
  | _ => ret (Some (-1))
  end.

Definition process_connect (info : N) : M CState Z :=
  assert_ (negb (info =? 0)%N) ;;!
  let! x := info_at info in
  assert_ (in_state x [S_IN_CONNECT]) ;;!
  change_socket_state info S_IN_SEND ;;!
  ret 0.

Definition process_error (info : N) : M CState Z :=
  assert_ (negb (info =? 0)%N) ;;! destroy_socket_info info ;;! ret 0.

(** [process_timer_event]: a timer without a handler answers 1. *)
Definition process_timer_event (handler : option (M CState Z)) : M CState Z :=
  match handler with Some h => h | None => ret 1 end.

End Process.

(** ** Receiving *)

Section Receiving.
  Variable junk : N -> nat -> byte.
  Variable user : nat -> Z -> N -> Z -> M CState Z.

(** A socket that waits for a packet of [P] bytes in an empty buffer [old] of
    [L] bytes. *)
Definition awaits (s : CState) (info : N) (x : socket_info) (P L : Z) (old : list byte) : Prop :=
  info <> 0%N /\ infos s !! info = Some x /\ state x = S_IN_RECEIVE /\
  (type x = T_TCP_SERVER_LV \/ type x = T_TCP_CLIENT_LV) /\
  packet_len x = P /\ recv_buf_used x = 0 /\ recv_buf_len x = L /\ P <= recv_buf_len_max x /\
  mem s !! recv_buf x = Some old /\ zlen old = L /\ 0 < P <= L /\ L < 2 ^ 31.

Lemma awaits_prefix s info x P L old fuel :
  awaits s info x P L old ->
  process_recv_lv_format junk user fuel info s =
    (let! r := recv_loop fuel (recv_buf x) 0 (2 ^ 32 - (L + 1 - P)) 0 0 in
     match r with
     | None => ret None
     | Some (cnt, cur) =>
         let used := u32 (0 + cur) in
         update_info info (set_recv_buf_used used) ;;!
         match cnt with
         | IOAgain => ret (Some (if P =? used then 0 else 1))
         | IOError => ret (Some (-2))
         | Count n => ret (Some (if n =? 0 then -3 else 0))
         end
     end) s.
Proof.
  intros (Hi & Hx & Hst & Hty & HP & Hu & HL & Hmax & _ & _ & HPL & HL31).
  unfold process_recv_lv_format. rewrite bind_assert by (by apply negb_true_iff, N.eqb_neq).
  rewrite (bind_Ret _ _ _ _ _ (info_at_eq s info x Hx)). unfold in_state, is_lv. rewrite Hst.
  rewrite bind_assert by done.
  rewrite bind_assert by (apply orb_true_iff; rewrite !bool_decide_eq_true; done).
  rewrite HP, (proj2 (Z.eqb_neq P 0)), bind_ret by lia.
  rewrite (bind_Ret _ _ _ _ _ (info_at_eq s info x Hx)), HP, HL.
  rewrite !(proj2 (Z.ltb_ge _ _)), bind_ret by lia.
  rewrite (bind_Ret _ _ _ _ _ (info_at_eq s info x Hx)), HP, HL, Hu.
  rewrite (proj2 (Z.eqb_neq P 0)) by lia.
  replace (u32 (P - (L - 0 + 1))) with (2 ^ 32 - (L + 1 - P)); [done|].
  unfold u32. change (2 ^ 32) with 4294967296. change (2 ^ 31) with 2147483648 in HL31.
  Z.div_mod_to_equations. lia.
Qed.

Lemma recv_bytes s buf off n data l old :
  arrivals s = Bytes data :: l -> mem s !! buf = Some old -> 0 < n -> 0 <= off ->
  zlen data <= n -> off + zlen data <= zlen old ->
  recv buf off n s = Ret (Count (zlen data))
    (with_arrivals l (with_mem (<[buf := take (Z.to_nat off) old ++ data ++
        drop (Z.to_nat off + length data) old]> (mem s)) s)).
Proof.
  intros Ha Hm Hn Hoff Hle Hfit. unfold recv. rewrite (proj2 (Z.eqb_neq n 0)) by lia.
  rewrite bind_gets, Ha, bind_gets, (bind_of_option _ _ _ _ _ Hm).
  rewrite take_ge by (unfold zlen in *; lia). unfold overwrite.
  rewrite decide_True by (unfold zlen in *; lia). cbn [of_option].
  rewrite bind_ret, bind_modify, bind_modify, (proj2 (Z.leb_le _ _)) by done. done.
Qed.

(** A packet in one piece.  A packet of exactly the awaited length that comes
    at once is put into the buffer and counted, and is complete when the next
    [recv] finds nothing; only when twice its length is one more than the size of
    the buffer, the second [recv] asks for 0 bytes, and the 0 it answers is taken
    for the end of the connection. *)
Theorem packet_in_one_piece s info x P L old data rest fuel :
  awaits s info x P L old -> arrivals s = Bytes data :: Again :: rest -> zlen data = P ->
  let s1 := with_infos (<[info := set_recv_buf_used P x]> (infos s))
              (with_mem (<[recv_buf x := data ++ drop (length data) old]> (mem s)) s) in
  process_recv_lv_format junk user (S (S fuel)) info s =
    if 2 * P =? L + 1 then Ret (Some (-3)) (with_arrivals (Again :: rest) s1)
    else Ret (Some 0) (with_arrivals rest s1).
Proof.
  intros Haw Ha Hd s1. rewrite (awaits_prefix s info x P L old) by done.
  destruct Haw as (Hi & Hx & _ & _ & _ & _ & _ & _ & Hm & Hlen & HPL & HL31).
  change (2 ^ 32) with 4294967296. change (2 ^ 31) with 2147483648 in HL31.
  cbn [recv_loop].
  assert (u32 (4294967296 - (L + 1 - P) - 0) = 4294967296 - (L + 1 - P)) as ->
    by (unfold u32; change (2 ^ 32) with 4294967296; Z.div_mod_to_equations; lia).
  rewrite (bind_bind_Ret _ _ _ _ _ _ (recv_bytes s (recv_buf x) (0 + 0) (4294967296 - (L + 1 - P))
    data (Again :: rest) old Ha Hm ltac:(lia) ltac:(lia) ltac:(lia) ltac:(lia))).
  rewrite Hd, (proj2 (Z.ltb_lt 0 P)) by lia. cbv zeta. set (s2 := with_arrivals _ _).
  assert (u32 (0 + P) = P) as EP
    by (unfold u32; change (2 ^ 32) with 4294967296; Z.div_mod_to_equations; lia). rewrite EP.
  rewrite (proj2 (Z.eqb_neq P _)) by lia.
  assert (E2 : u32 (4294967296 - (L + 1 - P) - u32 (0 - P)) = 0 <-> 2 * P = L + 1).
  { unfold u32. change (2 ^ 32) with 4294967296. Z.div_mod_to_equations. lia. }
  assert (Hx2 : infos s2 !! info = Some x) by done.
  set (n2 := u32 (_ - _)) in *.
  destruct (Z.eqb_spec (2 * P) (L + 1)) as [E|E].
  - rewrite (bind_bind_Ret _ _ _ s2 (Count 0) s2) by (unfold recv; by rewrite (proj2 (Z.eqb_eq n2 0)) by (by apply E2)).
    cbn [Z.ltb Z.compare]. rewrite bind_ret. cbv beta iota zeta. rewrite EP.
    by rewrite (bind_Ret _ _ _ _ _ (update_info_eq s2 info x _ Hx2)).
  - rewrite (bind_bind_Ret _ _ _ s2 IOAgain (with_arrivals rest s2))
      by (unfold recv; by rewrite (proj2 (Z.eqb_neq n2 0)) by (by rewrite E2)).
    rewrite bind_ret. cbv beta iota zeta. rewrite EP.
    by rewrite (bind_Ret _ _ _ _ _ (update_info_eq (with_arrivals rest s2) info x _ Hx2)), Z.eqb_refl.
Qed.

(** C16: a peer can write behind the buffer.  Whenever the awaited packet fits
    into the empty buffer, the number of bytes [recv] is asked for is not the size
    of the packet but almost 2^32: a peer that sends more than the buffer holds
    makes it write outside. *)
Theorem recv_overruns s info x P L old data rest fuel :
  awaits s info x P L old -> arrivals s = Bytes data :: rest -> L < zlen data ->
  exists s', process_recv_lv_format junk user (S fuel) info s = Halt HUndefined s'.
Proof.
  intros Haw Ha Hd. rewrite (awaits_prefix s info x P L old) by done.
  destruct Haw as (Hi & Hx & _ & _ & _ & _ & _ & _ & Hm & Hlen & HPL & HL31).
  change (2 ^ 32) with 4294967296. change (2 ^ 31) with 2147483648 in HL31.
  cbn [recv_loop]. unfold bindM at 1 2.
  assert (u32 (4294967296 - (L + 1 - P) - 0) = 4294967296 - (L + 1 - P)) as ->
    by (unfold u32; change (2 ^ 32) with 4294967296; Z.div_mod_to_equations; lia).
  unfold recv. rewrite (proj2 (Z.eqb_neq _ 0)) by lia.
  rewrite bind_gets, Ha, bind_gets, (bind_of_option _ _ _ _ _ Hm).
  unfold overwrite. rewrite decide_False; [by eexists|].
  rewrite length_take. unfold zlen in *. lia.
Qed.
End Receiving.

(** ** Sending *)

(** The loop over the queue, once it has begun. *)
Lemma send_loop_never fuel : forall info left r s x,
  infos s !! info = Some x -> send_bufs x <> 0%N -> sbufs s !! 0%N = None ->
  (exists s', send_loop fuel info left r s = Ret None s') \/
  (exists s', send_loop fuel info left r s = Halt HUndefined s').
Proof.
  induction fuel as [|fuel IH]; intros info left r s x Hx Hb H0; cbn [send_loop];
    rewrite (bind_Ret _ _ _ _ _ (info_at_eq s info x Hx)), (proj2 (N.eqb_neq _ _) Hb); [eauto|].
  destruct (sbufs s !! send_bufs x) as [b|] eqn:Eb; [|right; rewrite sbuf_at_undefined by done; by eexists].
  rewrite (bind_Ret _ _ _ _ _ (sbuf_at_eq s _ b Eb)).
  destruct (_ <=? left).
  - rewrite (bind_Ret _ _ _ _ _ (update_info_eq s info x _ Hx)).
    set (x1 := set_send_bufs _ x). set (s1 := with_infos _ s).
    rewrite (bind_Ret _ _ _ _ _ (update_info_eq s1 info x1 _ (lookup_insert_eq _ _ _))).
    set (x2 := set_send_buf_num _ x1). set (s2 := with_infos _ s1).
    assert (Hfree : (exists s3, free (sb_buf b) s2 = Ret tt s3 /\ infos s3 = infos s2 /\ sbufs s3 = sbufs s2) \/
              free (sb_buf b) s2 = Halt HUndefined s2).
    { unfold free. destruct (N.eqb _ _); [left; by eexists|]. unfold bindM, gets, modify.
      destruct (mem s2 !! sb_buf b); [left; by eexists|by right]. }
    destruct Hfree as [(s3 & E3 & Hi3 & Hs3)|E3]; [|right; unfold bindM at 1; rewrite E3; by eexists].
    rewrite (bind_Ret _ _ _ _ _ E3).
    assert (Hb3 : sbufs s3 !! send_bufs x = Some b) by (by rewrite Hs3).
    set (s4 := with_sbufs (delete (send_bufs x) (sbufs s3)) s3).
    assert (E4 : free_sbuf (send_bufs x) s3 = Ret tt s4)
      by (unfold free_sbuf; by rewrite (bind_Ret _ _ _ _ _ (sbuf_at_eq s3 _ b Hb3))).
    rewrite (bind_Ret _ _ _ _ _ E4).
    assert (Hx4 : infos s4 !! info = Some x2) by (cbn; rewrite Hi3; apply lookup_insert_eq).
    assert (H04 : sbufs s4 !! 0%N = None).
    { cbn. rewrite lookup_delete_None. right. by rewrite Hs3. }
    rewrite (bind_Ret _ _ _ _ _ (info_at_eq s4 info x2 Hx4)).
    destruct (sbufs s4 !! send_bufs x2) as [b2|] eqn:E2;
      [|right; rewrite sbuf_at_undefined by done; by eexists].
    rewrite (bind_Ret _ _ _ _ _ (sbuf_at_eq s4 _ b2 E2)).
    apply (IH info _ 0 s4 x2); [done| |done]. intros E. by rewrite E, H04 in E2.
  - rewrite bind_modify. eapply IH; [exact Hx|done|].
    cbn. rewrite lookup_insert_ne; [done|]. intros E. by rewrite E, H0 in Eb.
Qed.

(** C17: a send that sends something never returns.  When the queue of a socket
    is not empty and the kernel accepts a byte of it, the loop that takes the sent
    bytes out of the queue never ends normally: with any fuel it is still running,
    or has read through the null pointer behind the last buffer. *)
Theorem send_never_returns s info x vecs n w :
  info <> 0%N -> infos s !! info = Some x -> (state x = S_IN_SEND \/ state x = S_IN_PROCESS) ->
  (type x = T_TCP_SERVER_LV \/ type x = T_TCP_CLIENT_LV) -> sbufs s !! 0%N = None ->
  send_vecs (Z.to_nat (send_buf_num x)) (send_bufs x) s = Ret vecs s -> 0 < foldr Z.add 0 vecs ->
  writes s = Sent n :: w -> 0 < n ->
  forall fuel,
    (exists s', process_tcp_send fuel info s = Ret None s') \/
    (exists s', process_tcp_send fuel info s = Halt HUndefined s').
Proof.
  intros Hi Hx Hst Hty H0 Hv Hsum Hw Hn fuel. unfold process_tcp_send.
  rewrite bind_assert by (by apply negb_true_iff, N.eqb_neq).
  rewrite (bind_Ret _ _ _ _ _ (info_at_eq s info x Hx)). unfold in_state, is_lv.
  rewrite bind_assert by (apply bool_decide_eq_true; destruct Hst as [-> | ->]; set_solver).
  rewrite bind_assert by (apply orb_true_iff; rewrite !bool_decide_eq_true; done).
  rewrite bool_decide_eq_false_2 by (destruct Hst as [-> | ->]; done).
  rewrite (bind_Ret _ _ _ _ _ Hv).
  assert (Ew : writev vecs s = Ret (Count (Z.max 0 (Z.min n (foldr Z.add 0 vecs)))) (with_writes w s))
    by (unfold writev; by rewrite bind_gets, Hw).
  rewrite (bind_Ret _ _ _ _ _ Ew), (proj2 (Z.eqb_neq _ 0)) by lia.
  apply (send_loop_never fuel info _ 1 _ x); [done| |done].
  intros E. rewrite E in Hv. destruct (Z.to_nat (send_buf_num x)) as [|m]; cbn [send_vecs] in Hv.
  - injection Hv as <-. simpl in Hsum. lia.
  - by rewrite sbuf_at_undefined in Hv.
Qed.
