(* ===== verification/CnService.v ===== *)
(** * The service of the generation in C: [c_nf/io_service.c]

    The idle client connections, kept by a part of the address, and the list of
    server connections.  [zxb_ios/io_service.c] is the same file.  It is read with
    the array [client_map] its functions use as a member of [struct io_service];
    [tcp_send_to], whose body ends after two assertions, is left out.  What the
    pool of idle connections is worth is [idle_pool_refines]; the removal of idle
    servers is always undefined ([destroy_idle_undefined]). *)

From S2P Require Import Prelude CnList CnSocket.

(** [struct io_service] and the memory of the process. *)
Record SState := mkSState {
  cstate : CState;
  client_map : gmap Z N;
  server_list_head : N;
  server_list_tail : N;
  idle_timeout : Z
}.

Definition with_cstate c (s : SState) : SState :=
  mkSState c (client_map s) (server_list_head s) (server_list_tail s) (idle_timeout s).
Definition with_client_map m (s : SState) : SState :=
  mkSState (cstate s) m (server_list_head s) (server_list_tail s) (idle_timeout s).
Definition with_head p (s : SState) : SState :=
  mkSState (cstate s) (client_map s) p (server_list_tail s) (idle_timeout s).
Definition with_tail p (s : SState) : SState :=
  mkSState (cstate s) (client_map s) (server_list_head s) p (idle_timeout s).

(** An operation on the memory alone. *)
Definition lift {A} (m : M CState A) : M SState A := fun s =>
  match m (cstate s) with
  | Ret a c => Ret a (with_cstate c s)
  | Halt h c => Halt h (with_cstate c s)
  end.

(** The two high bytes of an address in network order, as the [uint16_t] they are
    on a little-endian host. *)
Definition hash_code (addr : Z) : Z := Z.land (Z.shiftr addr 16) 65535.

Section Service.
  (** [inet_aton], [None] when it does not return 1. *)
  Variable inet_aton : list byte -> option Z.

(** [map[h]]. *)
Definition slot (h : Z) (s : SState) : N := default 0%N (client_map s !! h).
Definition set_slot (h : Z) (p : N) : M SState unit :=
  modify (fun s => with_client_map (<[h := p]> (client_map s)) s).

Definition get_idle_client_socket_info (ipstr : list byte) (host_port : Z) : M SState N :=
  match inet_aton ipstr with
  | None => ret 0%N
  | Some ipaddr =>
      let h := hash_code ipaddr in
      let! p := gets (slot h) in
      if (p =? 0)%N then ret 0%N
      else
        let! x := lift (info_at p) in
        (if negb (i_next x =? 0)%N then
           lift (update_info (i_next x) (set_i_prev 0%N)) ;;! set_slot h (i_next x)
         else set_slot h 0%N) ;;!
        ret p
  end.

(** With a connection already in the slot, the slot is not set. *)
Definition return_client_socket_info (now : Z * Z) (info : N) : M SState unit :=
  lift (update_info info (set_atime now)) ;;!
  let! x := lift (info_at info) in
  let h := hash_code (net_ip x) in
  let! p := gets (slot h) in
  if negb (p =? 0)%N then
    lift (update_info info (set_i_next p)) ;;!
    lift (update_info info (set_i_prev 0%N)) ;;!
    lift (update_info p (set_i_prev info))
  else
    lift (update_info info (set_i_prev 0%N)) ;;!
    lift (update_info info (set_i_next 0%N)) ;;!
    set_slot h info.

Definition mark_server_socket_info (now : Z * Z) (info : N) : M SState unit :=
  assert_ (negb (info =? 0)%N) ;;!
  lift (update_info info (set_atime now)) ;;!
  let! x := lift (info_at info) in
  let! head := gets server_list_head in
  if (i_prev x =? 0)%N then assert_ (head =? info)%N
  else
    let! tail := gets server_list_tail in
    (if (tail =? info)%N then modify (with_tail (i_prev x)) else ret tt) ;;!
    lift (update_info (i_prev x) (set_i_next (i_next x))) ;;!
    lift (update_info info (set_i_prev 0%N)) ;;!
    lift (update_info info (set_i_next head)) ;;!
    modify (with_head info).

Definition u64 (z : Z) : Z := z mod 2 ^ 64.

(** Younger than the timeout, in the unsigned arithmetic of the expression. *)
Definition young (now : Z * Z) (timeout : Z) (x : socket_info) : bool :=
  u64 ((now.1 - (atime x).1) * 1000000 + now.2 - (atime x).2) <? timeout.

(** The loop from the tail; it ends with the values of [iter], [old] ([None] when
    it was never assigned) and [ret]; [None] when the fuel is used up. *)
Fixpoint destroy_loop (fuel : nat) (now : Z * Z) (iter : N) (old : option N) (ret_ : Z)
    : M SState (option (N * option N * Z)) :=
  if (iter =? 0)%N then ret (Some (iter, old, ret_))
  else match fuel with
  | O => ret None
  | S fuel =>
      let! x := lift (info_at iter) in
      let! t := gets idle_timeout in
      if young now t x then ret (Some (iter, old, ret_))
      else
        lift (destroy_socket_info iter) ;;!
        let! o := lift (info_at iter) in
        destroy_loop fuel now (i_prev o) (Some iter) (ret_ + 1)
  end.

(** The second loop, over the [next] links. *)
Fixpoint destroy_rest (fuel : nat) (iter : N) : M SState (option unit) :=
  if (iter =? 0)%N then ret (Some tt)
  else match fuel with
  | O => ret None
  | S fuel =>
      let! x := lift (info_at iter) in
      lift (destroy_socket_info iter) ;;!
      destroy_rest fuel (i_next x)
  end.

Definition destroy_idle_server_socket_info (fuel : nat) (now : Z * Z) : M SState (option Z) :=
  let! tail := gets server_list_tail in
  let! r := destroy_loop fuel now tail None 0 in
  match r with
  | None => ret None
  | Some (iter, old, ret_) =>
      (if negb (iter =? 0)%N then modify (with_tail iter)
       else modify (with_head 0%N) ;;! modify (with_tail 0%N)) ;;!
      let! iter := of_option HUndefined old in
      let! r := destroy_rest fuel iter in
      match r with
      | None => ret None
      | Some _ => ret (Some ret_)
      end
  end.

(** ** The pool of idle connections *)

(** Every pooled connection is the only one of its slot, and is filed under its
    own address. *)
Definition pool_ok (s : SState) : Prop :=
  forall h p, client_map s !! h = Some p -> p <> 0%N ->
    exists x, infos (cstate s) !! p = Some x /\ i_next x = 0%N /\ hash_code (net_ip x) = h.

Definition pooled (s : SState) (p : N) : Prop := exists h, client_map s !! h = Some p.

Lemma lift_eq {A} (m : M CState A) s a c :
  m (cstate s) = Ret a c -> lift m s = Ret a (with_cstate c s).
Proof. intros H. unfold lift. by rewrite H. Qed.

Lemma lift_update_eq s p x f :
  infos (cstate s) !! p = Some x ->
  lift (update_info p f) s =
    Ret tt (with_cstate (with_infos (<[p := f x]> (infos (cstate s))) (cstate s)) s).
Proof. intros H. apply lift_eq. by apply update_info_eq. Qed.

(** Setting a link or the time does not touch the address. *)
Lemma net_ip_set f x :
  (f = set_i_next 0%N \/ (exists p, f = set_i_next p) \/ (exists p, f = set_i_prev p) \/
   (exists t, f = set_atime t)) -> net_ip (f x) = net_ip x.
Proof. intros [-> |[[p ->]|[[p ->]|[t ->]]]]; by destruct x. Qed.

Lemma pool_ok_update s p f :
  pool_ok s ->
  (forall x, infos (cstate s) !! p = Some x -> net_ip (f x) = net_ip x /\
     (pooled s p -> p <> 0%N -> i_next (f x) = i_next x)) ->
  forall s', lift (update_info p f) s = Ret tt s' -> pool_ok s' /\ client_map s' = client_map s.
Proof.
  intros Hok Hf s'. destruct (infos (cstate s) !! p) as [x|] eqn:Hx; cycle 1.
  { unfold lift, update_info, info_at, bindM, gets. by rewrite Hx. }
  rewrite (lift_update_eq s p x f Hx). intros [= <-]. split; [|done]. destruct (Hf x eq_refl) as [Hn Hl].
  intros h q Hq H0. cbn in *. destruct (Hok h q Hq H0) as (y & Hy & Hny & Hh).
  destruct (decide (q = p)) as [->|Hne].
  - exists (f x). rewrite lookup_insert_eq. assert (y = x) as -> by congruence.
    split_and!; [done| |congruence]. rewrite Hl; [done|by exists h|done].
  - exists y. by rewrite lookup_insert_ne.
Qed.

Lemma update_runs s p f x :
  infos (cstate s) !! p = Some x ->
  exists s', lift (update_info p f) s = Ret tt s' /\ infos (cstate s') = <[p := f x]> (infos (cstate s)).
Proof. intros Hx. eexists. split; [by apply lift_update_eq|done]. Qed.

Lemma pool_ok_map s m :
  pool_ok s -> (forall h p, m !! h = Some p -> p <> 0%N -> client_map s !! h = Some p \/
     exists x, infos (cstate s) !! p = Some x /\ i_next x = 0%N /\ hash_code (net_ip x) = h) ->
  pool_ok (with_client_map m s).
Proof. intros Hok Hm h p Hp H0. destruct (Hm h p Hp H0) as [H|H]; [by apply Hok|done]. Qed.

Lemma slot_insert s h p h' :
  slot h' (with_client_map (<[h := p]> (client_map s)) s) = if decide (h' = h) then p else slot h' s.
Proof.
  unfold slot. cbn. case_decide as E; [subst; by rewrite lookup_insert_eq|by rewrite lookup_insert_ne].
Qed.

Lemma slot_pooled s h : slot h s <> 0%N -> client_map s !! h = Some (slot h s).
Proof. unfold slot. by destruct (client_map s !! h). Qed.

Lemma get_idle_eq ip port a s :
  pool_ok s -> inet_aton ip = Some a ->
  exists s', get_idle_client_socket_info ip port s = Ret (slot (hash_code a) s) s' /\ pool_ok s' /\
    forall h, slot h s' = if decide (h = hash_code a) then 0%N else slot h s.
Proof.
  intros Hok Ha. unfold get_idle_client_socket_info. rewrite Ha. set (h := hash_code a).
  rewrite bind_gets. destruct (N.eqb_spec (slot h s) 0) as [E|E].
  - exists s. rewrite E. split_and!; [done|done|]. intros h'. case_decide as Eh; [by rewrite Eh|done].
  - destruct (Hok h _ (slot_pooled s h E) E) as (x & Hx & Hn & _).
    rewrite (bind_Ret _ _ s x s) by (rewrite (lift_eq _ s x (cstate s)); [by destruct s|by apply info_at_eq]).
    rewrite Hn. eexists. split; [done|]. split.
    + apply pool_ok_map; [done|]. intros h' p Hp H0. left.
      apply lookup_insert_Some in Hp as [[_ <-]|[_ Hp]]; done.
    + intros h'. apply slot_insert.
Qed.

Lemma return_eq now q x s :
  pool_ok s -> infos (cstate s) !! q = Some x -> q <> 0%N -> ~ pooled s q ->
  exists s', return_client_socket_info now q s = Ret tt s' /\ pool_ok s' /\
    forall h, slot h s' =
      if decide (h = hash_code (net_ip x) /\ slot h s = 0%N) then q else slot h s.
Proof.
  intros Hok Hx Hq Hnp. unfold return_client_socket_info.
  destruct (update_runs s q (set_atime now) x Hx) as (s1 & E1 & I1). rewrite (bind_Ret _ _ _ _ _ E1).
  destruct (pool_ok_update s q (set_atime now) Hok ltac:(by intros [] _) s1 E1) as [Hok1 M1].
  assert (Hx1 : infos (cstate s1) !! q = Some (set_atime now x)) by (rewrite I1; apply lookup_insert_eq).
  rewrite (bind_Ret _ _ s1 (set_atime now x) s1)
    by (rewrite (lift_eq _ s1 (set_atime now x) (cstate s1)); [by destruct s1|by apply info_at_eq]).
  rewrite (net_ip_set _ x) by eauto 10. set (h := hash_code (net_ip x)).
  rewrite bind_gets. assert (Hslot : forall h', slot h' s1 = slot h' s) by (intros; unfold slot; by rewrite M1).
  rewrite Hslot. assert (Hnp1 : ~ pooled s1 q) by (unfold pooled; by rewrite M1).
  destruct (N.eqb_spec (slot h s) 0) as [E|E]; cbn [negb].
  - destruct (update_runs s1 q (set_i_prev 0%N) _ Hx1) as (s2 & E2 & I2). rewrite (bind_Ret _ _ _ _ _ E2).
    destruct (pool_ok_update s1 q (set_i_prev 0%N) Hok1 ltac:(by intros [] _) s2 E2) as [Hok2 M2].
    assert (Hx2 : infos (cstate s2) !! q = Some (set_i_prev 0%N (set_atime now x)))
      by (rewrite I2; apply lookup_insert_eq).
    destruct (update_runs s2 q (set_i_next 0%N) _ Hx2) as (s3 & E3 & I3). rewrite (bind_Ret _ _ _ _ _ E3).
    assert (Hnp2 : ~ pooled s2 q) by (unfold pooled; by rewrite M2).
    destruct (pool_ok_update s2 q (set_i_next 0%N) Hok2 ltac:(intros y _; split; [by destruct y|done]) s3 E3) as [Hok3 M3].
    assert (Hx3 : infos (cstate s3) !! q = Some (set_i_next 0%N (set_i_prev 0%N (set_atime now x))))
      by (rewrite I3; apply lookup_insert_eq).
    eexists. split; [done|]. split.
    + apply pool_ok_map; [done|]. intros h' p Hp H0. apply lookup_insert_Some in Hp as [[<- <-]|[_ Hp]]; [|by left].
      right. eexists. split_and!; [exact Hx3|by destruct x|]. by destruct x.
    + intros h'. rewrite slot_insert.
      assert (slot h' s3 = slot h' s) as -> by (unfold slot; by rewrite M3, M2, M1).
      destruct (decide (h' = h)) as [->|Hne]; [by rewrite decide_True|]. rewrite decide_False; [done|].
      by intros [? _].
  - set (p := slot h s) in *.
    assert (Hpq : p <> q).
    { intros Epq. apply Hnp. exists h. rewrite <- Epq. by apply slot_pooled. }
    destruct (update_runs s1 q (set_i_next p) _ Hx1) as (s2 & E2 & I2). rewrite (bind_Ret _ _ _ _ _ E2).
    destruct (pool_ok_update s1 q (set_i_next p) Hok1 ltac:(intros y _; split; [by destruct y|done]) s2 E2) as [Hok2 M2].
    assert (Hx2 : infos (cstate s2) !! q = Some (set_i_next p (set_atime now x)))
      by (rewrite I2; apply lookup_insert_eq).
    destruct (update_runs s2 q (set_i_prev 0%N) _ Hx2) as (s3 & E3 & I3). rewrite (bind_Ret _ _ _ _ _ E3).
    destruct (pool_ok_update s2 q (set_i_prev 0%N) Hok2 ltac:(by intros [] _) s3 E3) as [Hok3 M3].
    destruct (Hok3 h p) as (y & Hy & _).
    { rewrite M3, M2, M1. by apply slot_pooled. }
    { done. }
    destruct (update_runs s3 p (set_i_prev q) y Hy) as (s4 & E4 & I4). rewrite E4.
    destruct (pool_ok_update s3 p (set_i_prev q) Hok3 ltac:(by intros [] _) s4 E4) as [Hok4 M4].
    exists s4. split_and!; [done|done|]. intros h'.
    assert (slot h' s4 = slot h' s) as -> by (unfold slot; by rewrite M4, M3, M2, M1).
    rewrite decide_False; [done|]. by intros [-> ?].
Qed.

(** C15: the pool of idle connections holds one connection for each value of the
    hash code.  [get_idle_client_socket_info] takes the connection of the slot of
    the address out of the pool, whatever its port and its low bytes are, and
    null when there is none; [return_client_socket_info] fills the slot when it is
    empty, and otherwise leaves the pool as it is: the connection is lost. *)
Theorem idle_pool_refines now ip port a s q x :
  pool_ok s -> inet_aton ip = Some a ->
  infos (cstate s) !! q = Some x -> q <> 0%N -> ~ pooled s q ->
  (exists s', get_idle_client_socket_info ip port s = Ret (slot (hash_code a) s) s' /\ pool_ok s' /\
     forall h, slot h s' = if decide (h = hash_code a) then 0%N else slot h s) /\
  (exists s', return_client_socket_info now q s = Ret tt s' /\ pool_ok s' /\
     forall h, slot h s' =
       if decide (h = hash_code (net_ip x) /\ slot h s = 0%N) then q else slot h s).
Proof. intros Hok Ha Hx Hq Hnp. split; [by apply get_idle_eq|by apply return_eq]. Qed.

(** ** The removal of idle servers *)

Lemma destroyed_object p c a c' : destroy_socket_info p c = Ret a c' -> infos c' !! p = None.
Proof.
  unfold destroy_socket_info. intros (u1 & c1 & _ & H)%bind_Ret_inv.
  apply bind_Ret_inv in H as (x & c2 & _ & H). apply bind_Ret_inv in H as (u3 & c3 & _ & H).
  apply bind_Ret_inv in H as (u4 & c4 & _ & H). apply bind_Ret_inv in H as (u5 & c5 & _ & H).
  injection H as _ <-. cbn. apply lookup_delete_eq.
Qed.

(** Destroying and then reading the link of what was destroyed. *)
Lemma destroy_then_read {A} p s (k : socket_info -> M SState A) :
  exists h s', (lift (destroy_socket_info p) ;;! (let! o := lift (info_at p) in k o)) s = Halt h s' /\
    (h = HUndefined \/ h = HAssert /\ p = 0%N).
Proof.
  unfold lift at 1. unfold bindM at 1. destruct (destroy_socket_info p (cstate s)) as [u c|h c] eqn:E.
  - unfold lift, bindM. rewrite info_at_null by (by eapply destroyed_object). eauto.
  - exists h. eexists. split; [done|]. unfold destroy_socket_info in E.
    destruct (N.eqb_spec p 0) as [->|Hp].
    { cbn in E. injection E as <- _. auto. }
    left. rewrite bind_assert in E by done.
    destruct (infos (cstate s) !! p) as [x|] eqn:Hx; cycle 1.
    { unfold bindM in E. rewrite info_at_null in E by done. by injection E as <- _. }
    rewrite (bind_Ret _ _ _ _ _ (info_at_eq _ _ _ Hx)) in E. unfold close in E. rewrite bind_modify in E.
    set (c1 := with_closed _ _) in E. unfold bindM at 1 in E.
    assert (Hf : (exists c2, free (recv_buf x) c1 = Ret tt c2) \/ (exists c2, free (recv_buf x) c1 = Halt HUndefined c2)).
    { clear E. unfold free. destruct (recv_buf x =? 0)%N; [left; eexists; reflexivity|]. unfold bindM, gets, modify.
      destruct (mem c1 !! recv_buf x); [left|right]; eexists; reflexivity. }
    destruct Hf as [[c2 E2]|[c2 E2]]; rewrite E2 in E; [|by injection E as <- _].
    unfold bindM in E. destruct (send_bufs x =? 0)%N; [by unfold ret, modify in E|].
    unfold free_sbuf, sbuf_at, bindM, gets, modify in E.
    destruct (sbufs c2 !! send_bufs x); [done|by injection E as <- _].
Qed.

(** The removal of idle server connections is undefined, always.  When the
    list is empty or its last connection is young, the pointer the second loop
    starts from was never assigned; otherwise the last connection is destroyed and
    its link read afterwards. *)
Theorem destroy_idle_undefined fuel now s :
  exists s', destroy_idle_server_socket_info (S fuel) now s = Halt HUndefined s'.
Proof.
  unfold destroy_idle_server_socket_info. rewrite bind_gets. cbn [destroy_loop].
  destruct (N.eqb_spec (server_list_tail s) 0) as [E|E].
  { rewrite bind_ret, E. eexists. reflexivity. }
  set (tail := server_list_tail s) in *.
  destruct (infos (cstate s) !! tail) as [x|] eqn:Hx; cycle 1.
  { unfold lift at 1, bindM at 1 2. rewrite info_at_null by done. eexists. reflexivity. }
  rewrite (bind_bind_Ret _ _ _ s x s)
    by (rewrite (lift_eq _ s x (cstate s)); [by destruct s|by apply info_at_eq]).
  unfold bindM at 1 2, gets. destruct (young _ _ _).
  { cbn [ret]. rewrite (proj2 (N.eqb_neq _ _) E). cbn [negb]. eexists. reflexivity. }
  destruct (destroy_then_read tail s (fun o => destroy_loop fuel now (i_prev o) (Some tail) (0 + 1)))
    as (h & s' & -> & [-> |[_ ?]]); [by eexists|done].
Qed.
End Service.
