(* ===== verification/CnDemo.v ===== *)
(** * The generation in C on concrete states

    A hash table with one bucket list, a socket in the middle of a packet, one
    with a queue to send and a pool with one idle connection; the theorems of
    CnHash, CnProcess and CnService are applied there. *)

From S2P Require Import Prelude Wire CnList CnHash CnSocket CnProcess CnService.

(** ** The hash table *)

(** The last byte of a key, in the key space. *)
Definition last_byte : hash_func := fun k _ ks =>
  match list.last k with Some b => Some (Zb b mod ks) | None => None end.

Definition key_a : list byte := [x61; x01].
Definition key_b : list byte := [x62; x03].

(** Two keys in memory, at 100 and 101; their items would be at 1 and 2. *)
Definition hash0 : HashState :=
  mkHashState {[100%N := key_a; 101%N := key_b]} ∅ 1 None.
Definition hash1 : HashState := after (hash_get_hash_table (fun _ => 0%N) 2 (Some last_byte)) hash0.

Lemma hash1_represents : represents 2 last_byte 2 0 hash1 [[]; []].
Proof.
  destruct (new_table_represents 2 (fun _ => 0%N) 2 last_byte hash0) as (s' & E & H); [done..|].
  unfold hash1, after. by rewrite E.
Qed.

(** A first key is put into the bucket 1, and then found and taken out. *)
Definition hash2 : HashState := after (hash_put (fun _ => (0%N, 0%N)) 100%N 2 7%N) hash1.

Lemma hash_table_refines_witness :
  represents 2 last_byte 2 1 hash2 [[]; [(key_a, 7%N)]] /\
  hash_get 3 100%N 2 hash2 = Ret (Some 7%N) hash2 /\
  hash_get 3 101%N 2 hash2 = Halt HUndefined hash2 /\
  (exists s', hash_delete 3 100%N 2 hash2 = Ret (Some 7%N) s' /\ represents 2 last_byte 2 1 s' [[]; []]) /\
  exists s', hash_put (fun _ => (9%N, 9%N)) 101%N 2 8%N hash2 = Ret (-1) s' /\
    represents 2 last_byte 2 2 s' [[]; [(key_b, 8%N); (key_a, 7%N)]].
Proof.
  assert (R2 : represents 2 last_byte 2 1 hash2 [[]; [(key_a, 7%N)]]).
  { destruct (hash_table_refines 2 last_byte 2 0 hash1 _ 100%N key_a 1 [] hash1_represents) as (_ & Hput & _);
      [done..|].
    destruct (Hput (fun _ => (0%N, 0%N)) 7%N) as (s' & E & R); [done..|].
    unfold hash2, after. by rewrite E. }
  destruct (hash_table_refines 2 last_byte 2 1 hash2 _ 100%N key_a 1 _ R2 ltac:(done) eq_refl ltac:(done) eq_refl eq_refl)
    as (Hget & _ & Hdel).
  destruct (hash_table_refines 2 last_byte 2 1 hash2 _ 101%N key_b 1 _ R2 ltac:(done) eq_refl ltac:(done) eq_refl eq_refl)
    as (Hmiss & Hput & _).
  split_and!; [exact R2|apply (Hget 3%nat); simpl; lia|apply (Hmiss 3%nat); simpl; lia|..].
  - apply (Hdel 3%nat). simpl. lia.
  - apply (Hput (fun _ => (9%N, 9%N)) 8%N); [done|done|].
    intros q x Hq. assert (objs hash2 = {[1%N := mkItem 100%N 2 7%N 0%N 0%N]}) as E by (vm_compute; reflexivity).
    rewrite E in Hq. apply lookup_singleton_Some in Hq as [_ <-]. done.
Defined.

Lemma first_item_links_witness : exists r s1 s2,
  hash_put (fun _ => (9%N, 9%N)) 100%N 2 7%N hash1 = Ret r s1 /\
  hash_delete 3 100%N 2 s1 = Halt HUndefined s2.
Proof.
  by apply (first_item_links 2 last_byte 2 0 hash1 [[]; []] 100%N key_a 1 (fun _ => (9%N, 9%N)) 7%N 2
    hash1_represents).
Defined.

Definition hash_ip : HashState :=
  after (hash_get_hash_table (fun _ => 0%N) 16 None)
    (mkHashState {[100%N := [x7f; x00; x00; x01; x1f; x90]]} ∅ 1 None).

Lemma ip_port_key_undefined_witness :
  hash_get 3 100%N 6 hash_ip = Halt HUndefined hash_ip /\
  hash_put (fun _ => (0%N, 0%N)) 100%N 6 7%N hash_ip = Halt HUndefined hash_ip /\
  hash_delete 3 100%N 6 hash_ip = Halt HUndefined hash_ip.
Proof.
  apply (ip_port_key_undefined (fun _ => (0%N, 0%N)) hash_ip
           (mkTable 16 0 ip_port_hash (replicate 16 0%N)) 100%N [x7f; x00; x00; x01; x1f; x90]); done.
Defined.

(** ** Receiving *)

(** A socket that waits for a packet of six bytes in a buffer of sixteen. *)
Definition demo_info : socket_info :=
  mkInfo 5 0 0 6 200%N 16 0 16 64 S_IN_RECEIVE T_TCP_SERVER_LV
    default_trunk_handler default_message_handler default_after_send_handler
    default_is_trunk_callback default_is_message_callback default_error_handler
    (0, 0) 0%N 0 0%N 0%N.
Definition demo_c (l : list Arrival) : CState :=
  mkCState {[10%N := demo_info]} ∅ {[200%N := zeros 16]} 300 l [] [] [].

Definition six : list byte := [x61; x62; x63; x64; x65; x66].
Definition no_junk : N -> nat -> byte := fun _ _ => x00.
Definition no_user : nat -> Z -> N -> Z -> M CState Z := fun _ _ _ _ => ret 0.

Lemma demo_awaits l : awaits (demo_c l) 10%N demo_info 6 16 (zeros 16).
Proof. split_and!; first [done | by left | vm_compute; congruence]. Qed.

Lemma packet_in_one_piece_witness :
  exists s', process_recv_lv_format no_junk no_user 2 10%N (demo_c [Bytes six; Again]) = Ret (Some 0) s' /\
    mem s' !! 200%N = Some (six ++ zeros 10).
Proof.
  pose proof (packet_in_one_piece no_junk no_user (demo_c [Bytes six; Again]) 10%N demo_info 6 16 (zeros 16)
    six [] 0 (demo_awaits _) eq_refl eq_refl) as H. cbn zeta in H.
  eexists. split; [exact H|reflexivity].
Defined.

Lemma recv_overruns_witness :
  exists s', process_recv_lv_format no_junk no_user 1 10%N (demo_c [Bytes (replicate 17 x61)]) = Halt HUndefined s'.
Proof.
  apply (recv_overruns no_junk no_user (demo_c [Bytes (replicate 17 x61)]) 10%N demo_info 6 16 (zeros 16)
    (replicate 17 x61) [] 0 (demo_awaits _)); reflexivity.
Defined.

(** ** Sending *)

(** The queue of the socket has one buffer of six bytes; the kernel takes two. *)
Definition demo_sender : socket_info := set_send_buf_num 1 (set_send_bufs 20%N (set_state S_IN_SEND demo_info)).
Definition demo_s : CState :=
  mkCState {[10%N := demo_sender]} {[20%N := mkSendBuf 201%N 6 0 0%N 0%N]}
    {[200%N := zeros 16; 201%N := six]} 300 [] [Sent 2] [] [].

Lemma send_never_returns_witness :
  writes demo_s = [Sent 2] /\
  forall fuel,
    (exists s', process_tcp_send fuel 10%N demo_s = Ret None s') \/
    (exists s', process_tcp_send fuel 10%N demo_s = Halt HUndefined s').
Proof.
  split; [reflexivity|].
  apply (send_never_returns demo_s 10%N demo_sender [6] 2 []);
    first [done | by left | vm_compute; reflexivity].
Defined.

(** ** The pool *)

(** One idle connection to an address of the slot 513, and one in use of the
    same slot. *)
Definition idle_info : socket_info :=
  let 'mkInfo a _ c d e f g h i j k l m n o p q r s t u w := demo_info in
  mkInfo a (513 * 65536 + 7) c d e f g h i j k l m n o p q r s t u w.
Definition demo_pool : SState :=
  mkSState (mkCState {[10%N := idle_info; 11%N := idle_info]} ∅ ∅ 300 [] [] [] [])
    {[513 := 10%N]} 0%N 0%N 0.
Definition demo_aton (t : list byte) : option Z := Some (513 * 65536 + 99).

Lemma demo_pool_ok : pool_ok demo_pool.
Proof.
  intros h p Hp _. cbn [client_map demo_pool] in Hp. apply lookup_singleton_Some in Hp as [<- <-]. exists idle_info. by split_and!.
Qed.

(** The connection of another host is handed out, and the second connection is
    lost. *)
Lemma idle_pool_refines_witness :
  (exists s', get_idle_client_socket_info demo_aton [] 80 demo_pool = Ret 10%N s' /\ slot 513 s' = 0%N) /\
  (exists s', return_client_socket_info (1, 1) 11%N demo_pool = Ret tt s' /\ slot 513 s' = 10%N).
Proof.
  destruct (idle_pool_refines demo_aton (1, 1) [] 80 (513 * 65536 + 99) demo_pool 11%N idle_info demo_pool_ok)
    as [(s1 & E1 & _ & H1) (s2 & E2 & _ & H2)]; [done..| |].
  { intros [h Hh]. cbn [client_map demo_pool] in Hh. by apply lookup_singleton_Some in Hh as [_ [=]]. }
  split; [exists s1|exists s2]; (split; [done|]).
  - exact (H1 513).
  - exact (H2 513).
Defined.
