(* ===== verification/IosContext.v ===== *)
(** * Contexts of descriptors: [zxb_ios/zxb_context.c], [zxb_ios/zxb_context.h]

    The part of [zxb_ios] that is not in [c_nf]: a context has a descriptor, a
    buffer to read into and a doubly linked list of buffers to write.  Memory
    from [malloc] holds what it held, and [malloc] does not fail; [memset] is
    called everywhere with its last two arguments swapped, so it sets no byte.
    Address 0 is the null pointer. *)

From S2P Require Import Prelude CnList.

Inductive zxb_context_type := T_FILE | T_TCP | T_UDP | T_TIMER.

(** [struct zxb_buf]. *)
Record zxb_buf := mkBuf {
  b_net_ip : Z; b_net_port : Z; b_buf : N; b_len : Z; b_prev : N; b_next : N
}.

#[export] Instance buf_links : Linked zxb_buf.
Proof.
  refine {| next_of := b_next; prev_of := b_prev;
    set_next_of v x := mkBuf (b_net_ip x) (b_net_port x) (b_buf x) (b_len x) (b_prev x) v;
    set_prev_of v x := mkBuf (b_net_ip x) (b_net_port x) (b_buf x) (b_len x) v (b_next x) |}; by intros p [].
Defined.

(** [struct zxb_context]; a callback is a pointer. *)
Record zxb_context := mkContext {
  c_type : zxb_context_type;
  c_fd : Z;
  c_id : Z;
  event_callback : N;
  error_callback : N;
  write_buf : N;
  write_buf_tail : N;
  write_buf_num : Z;
  begin_of_left_bytes : Z;
  read_buf : N;
  read_buf_len : Z;
  read_buf_use : Z;
  read_buf_len_min : Z;
  read_buf_len_max : Z;
  fire_time : Z * Z;
  c_arg : N;
  c_prev : N;
  c_next : N
}.

Definition set_write (h t : N) (n : Z) (x : zxb_context) : zxb_context :=
  mkContext (c_type x) (c_fd x) (c_id x) (event_callback x) (error_callback x) h t n (begin_of_left_bytes x)
    (read_buf x) (read_buf_len x) (read_buf_use x) (read_buf_len_min x) (read_buf_len_max x) (fire_time x) (c_arg x) (c_prev x) (c_next x).
Definition set_event_callback_ (cb : N) (x : zxb_context) : zxb_context :=
  mkContext (c_type x) (c_fd x) (c_id x) cb (error_callback x) (write_buf x) (write_buf_tail x) (write_buf_num x)
    (begin_of_left_bytes x) (read_buf x) (read_buf_len x) (read_buf_use x) (read_buf_len_min x)
    (read_buf_len_max x) (fire_time x) (c_arg x) (c_prev x) (c_next x).
Definition set_error_callback_ (cb : N) (x : zxb_context) : zxb_context :=
  mkContext (c_type x) (c_fd x) (c_id x) (event_callback x) cb (write_buf x) (write_buf_tail x) (write_buf_num x)
    (begin_of_left_bytes x) (read_buf x) (read_buf_len x) (read_buf_use x) (read_buf_len_min x)
    (read_buf_len_max x) (fire_time x) (c_arg x) (c_prev x) (c_next x).

(** The memory: the contexts, the list items, the other blocks, the next free
    address. *)
Record Mem := mkMem { ctxs : gmap N zxb_context; bufs : gmap N zxb_buf; blocks : gset N; fresh_addr : N }.

Definition with_ctxs c s := mkMem c (bufs s) (blocks s) (fresh_addr s).
Definition with_bufs b s := mkMem (ctxs s) b (blocks s) (fresh_addr s).
Definition with_blocks b s := mkMem (ctxs s) (bufs s) b (fresh_addr s).

Definition malloc_addr : M Mem N :=
  let! p := gets fresh_addr in
  modify (fun s => mkMem (ctxs s) (bufs s) (blocks s) (N.succ p)) ;;! ret p.

Definition ctx_at (p : N) : M Mem zxb_context := let! m := gets ctxs in of_option HUndefined (m !! p).
Definition buf_at (p : N) : M Mem zxb_buf := let! m := gets bufs in of_option HUndefined (m !! p).
Definition put_ctx (p : N) (x : zxb_context) : M Mem unit := modify (fun s => with_ctxs (<[p := x]> (ctxs s)) s).
Definition put_buf (p : N) (x : zxb_buf) : M Mem unit := modify (fun s => with_bufs (<[p := x]> (bufs s)) s).

(** [free] of a block that is not there (any more) is undefined. *)
Definition free_block (p : N) : M Mem unit :=
  let! l := gets blocks in
  if bool_decide (p ∈ l) then modify (with_blocks (l ∖ {[p]})) else stop HUndefined.

Section Context.
  (** What the memory for a context holds when [malloc] returns it. *)
  Variable ctx_garbage : zxb_context.
  Variable buf_garbage : zxb_buf.

Definition zxb_context_create (fd id : Z) (type : zxb_context_type) : M Mem N :=
  assert_ (0 <? fd) ;;!
  let! p := malloc_addr in
  let! r := malloc_addr in
  modify (fun s => with_blocks ({[r]} ∪ blocks s) s) ;;!
  put_ctx p (mkContext type fd id (event_callback ctx_garbage) (error_callback ctx_garbage)
    (write_buf ctx_garbage) (write_buf_tail ctx_garbage) (write_buf_num ctx_garbage)
    (begin_of_left_bytes ctx_garbage) r (1024 * 100) (read_buf_use ctx_garbage) (1024 * 100)
    (1024 * 1024 * 2) (fire_time ctx_garbage) (c_arg ctx_garbage) (c_prev ctx_garbage) (c_next ctx_garbage)) ;;!
  ret p.

Definition zxb_context_add_write_buf (ctx data : N) (len : Z) : M Mem Z :=
  assert_ (negb (N.eqb ctx 0)) ;;!
  assert_ (negb (N.eqb data 0)) ;;!
  assert_ (0 <? len) ;;!
  let! q := malloc_addr in
  let new_buf prev := mkBuf (b_net_ip buf_garbage) (b_net_port buf_garbage) data len prev 0 in
  let! x := ctx_at ctx in
  if 0 <? write_buf_num x then
    let! tail := buf_at (write_buf_tail x) in
    put_buf (write_buf_tail x) (set_next_of q tail) ;;!
    put_buf q (new_buf (write_buf_tail x)) ;;!
    put_ctx ctx (set_write (write_buf x) q ((write_buf_num x + 1) mod 2 ^ 32) x) ;;!
    ret 0
  else
    assert_ (N.eqb (write_buf x) 0) ;;!
    put_buf q (new_buf 0%N) ;;!
    put_ctx ctx (set_write q q 1 x) ;;!
    ret 0.

Definition zxb_context_set_event_callback (ctx cb : N) : M Mem Z :=
  assert_ (negb (N.eqb ctx 0)) ;;!
  let! x := ctx_at ctx in put_ctx ctx (set_event_callback_ cb x) ;;! ret 0.

Definition zxb_context_set_error_callback (ctx cb : N) : M Mem Z :=
  assert_ (negb (N.eqb ctx 0)) ;;!
  let! x := ctx_at ctx in put_ctx ctx (set_error_callback_ cb x) ;;! ret 0.

(** [while (ctx->write_buf)]; [false]: the fuel was not enough. *)
Fixpoint destroy_loop (fuel : nat) (ctx : N) : M Mem bool :=
  match fuel with
  | O => ret false
  | S fuel' =>
      let! x := ctx_at ctx in
      if N.eqb (write_buf x) 0 then ret true
      else
        let iter := write_buf x in
        let! b := buf_at iter in
        put_ctx ctx (set_write (b_next b) (write_buf_tail x) (write_buf_num x) x) ;;!
        free_block (b_buf b) ;;!
        modify (fun s => with_bufs (delete iter (bufs s)) s) ;;!
        destroy_loop fuel' ctx
  end.

Definition zxb_context_destroy (fuel : nat) (ctx : N) : M Mem (option Z) :=
  assert_ (negb (N.eqb ctx 0)) ;;!
  let! x := ctx_at ctx in
  (if N.eqb (read_buf x) 0 then ret tt else free_block (read_buf x)) ;;!
  (if N.eqb (c_arg x) 0 then ret tt else free_block (c_arg x)) ;;!
  let! ended := destroy_loop fuel ctx in
  if ended then
    modify (fun s => with_ctxs (delete ctx (ctxs s)) s) ;;! ret (Some 0)
  else ret None.
End Context.

(** ** Descriptors *)

(** The flags of a descriptor: those of [F_GETFD], of which the system keeps
    [FD_CLOEXEC] only, and those of [F_GETFL]. *)
Record Fd := mkFd { fd_flags : Z; status_flags : Z }.
Definition FD_CLOEXEC : Z := 1.
Definition O_NONBLOCK : Z := 2048.

(** What the system answers to [socket], [bind] (0 or not), the two [fcntl] and
    the last call. *)
Record SysAnswers := mkSys { new_fd : Z; bind_answer : Z; getfd_fails : bool; setfd_fails : bool; last_answer : Z }.

Definition set_nonblock_fd (a : SysAnswers) (sk : Z) : M (gmap Z Fd) (option Z) :=
  let! m := gets (fun s : gmap Z Fd => s) in
  let! f := of_option HUndefined (m !! sk) in
  let optval := if getfd_fails a then -1 else fd_flags f in
  if optval =? -1 then ret (Some (-3))
  else if negb (Z.land optval O_NONBLOCK =? 0) then ret (Some (-4))
  else
    let optval := Z.lor optval O_NONBLOCK in
    if setfd_fails a then ret (Some (-5))
    else modify (<[sk := mkFd (Z.land optval FD_CLOEXEC) (status_flags f)]>) ;;! ret None.

(** A new socket is blocking and has no flags. *)
Definition socket_ (a : SysAnswers) : M (gmap Z Fd) Z :=
  if new_fd a <? 0 then ret (-1) else modify (<[new_fd a := mkFd 0 0]>) ;;! ret (new_fd a).

Definition zxb_context_create_tcp_listener (a : SysAnswers) : M (gmap Z Fd) Z :=
  let! sk := socket_ a in
  if sk <? 0 then ret (-1)
  else if negb (bind_answer a =? 0) then ret (-2)
  else
    let! e := set_nonblock_fd a sk in
    match e with
    | Some e => ret e
    | None => if negb (last_answer a =? 0) then ret (-6) else ret sk
    end.

(** The address that is connected to and, when one of my own is asked for, the
    address bound: it is the other's. *)
Definition zxb_context_connect (a : SysAnswers) (net_to_ip net_to_port net_my_ip net_my_port : Z) :
    M (gmap Z Fd) (Z * option (Z * Z)) :=
  let bound := if net_my_ip =? 0 then None else Some (net_to_ip, net_to_port) in
  let! sk := socket_ a in
  if sk <? 0 then ret (-1, None)
  else if negb (net_my_ip =? 0) && negb (bind_answer a =? 0) then ret (-2, bound)
  else
    let! e := set_nonblock_fd a sk in
    match e with
    | Some e => ret (e, bound)
    | None => if negb (last_answer a =? 0) then ret (-6, bound) else ret (sk, bound)
    end.

Definition zxb_context_create_file (path : N) : M (gmap Z Fd) Z := ret 0.

(** ** The write list *)

(** Every address in use is below the next free one. *)
Definition mem_ok (s : Mem) : Prop :=
  (0 < fresh_addr s)%N /\ forall p, is_Some (ctxs s !! p) \/ is_Some (bufs s !! p) \/ p ∈ blocks s ->
    (p < fresh_addr s)%N.

(** The items of [l] are a list with the contents [ds] (block and length). *)
Definition items (it : gmap N zxb_buf) (l : list N) (ds : list (N * Z)) : Prop :=
  Forall2 (fun q d => exists b, it !! q = Some b /\ b_buf b = d.1 /\ b_len b = d.2) l ds.

(** The context at [ctx] has the contents [ds] to write, in order. *)
Definition to_write (s : Mem) (ctx : N) (l : list N) (ds : list (N * Z)) : Prop :=
  exists x, ctxs s !! ctx = Some x /\ chain (bufs s) (write_buf x) l /\ (l <> [] -> write_buf_tail x = last_or 0 l) /\
    write_buf_num x = zlen l /\ base.NoDup l /\ items (bufs s) l ds.

Lemma items_mono it it' l ds :
  (forall q b, q ∈ l -> it !! q = Some b -> exists b', it' !! q = Some b' /\ b_buf b' = b_buf b /\ b_len b' = b_len b) ->
  items it l ds -> items it' l ds.
Proof.
  intros H Hi. induction Hi as [|q d l ds (b & Hb & E1 & E2) _ IH]; constructor.
  - destruct (H q b ltac:(by left) Hb) as (b' & ? & ? & ?). exists b'. split_and!; congruence.
  - apply IH. intros r c Hr. apply H. by right.
Qed.

Lemma items_snoc it l ds q b d :
  items it l ds -> it !! q = Some b -> b_buf b = d.1 -> b_len b = d.2 -> items it (l ++ [q]) (ds ++ [d]).
Proof. intros Hi Hq H1 H2. apply Forall2_app; [done|]. constructor; [by exists b|constructor]. Qed.

(** Putting a new object at the end of a list. *)
Lemma chain_snoc (it : gmap N zxb_buf) h l q y :
  base.NoDup l -> chain it h l -> q <> 0%N -> q ∉ l -> prev_of y = last_or 0 l -> next_of y = 0%N ->
  l <> [] -> chain (<[q := y]> (alter (set_next_of q) (last_or 0 l) it)) h (l ++ [q]).
Proof.
  intros Hnd Hc Hq Hnin Hp Hn Hl. destruct l as [|r l _] using rev_ind; [done|]. rewrite last_or_snoc in *.
  apply seg_app. exists q. split.
  - apply seg_insert; [done|]. by apply (seg_last_next it h 0 l r 0 q).
  - rewrite last_or_snoc. split_and!; [done..|]. exists y. rewrite lookup_insert_eq. by split_and!.
Qed.

(** Taking out what was put in. *)
Lemma union_difference_2 (a : N) (B D : gset N) : a ∉ B -> (({[a]} ∪ B) ∖ {[a]}) ∖ D = B ∖ D.
Proof. intros H. set_solver. Qed.

Section ContextProps.
  Variable ctx_garbage : zxb_context.
  Variable buf_garbage : zxb_buf.
  #[local] Abbreviation add := (zxb_context_add_write_buf buf_garbage).

(** Conjunctions as they are written: the definitions in them stay folded. *)
Ltac conjs := repeat lazymatch goal with |- _ /\ _ => split end.

(** What an operation on the list of [ctx] leaves alone. *)
Definition list_step (s s' : Mem) (ctx : N) (l l' : list N) : Prop :=
  blocks s' = blocks s /\ (forall p, p <> ctx -> ctxs s' !! p = ctxs s !! p) /\
  (forall x, ctxs s !! ctx = Some x -> exists h t n, ctxs s' !! ctx = Some (set_write h t n x)) /\
  (forall r, r ∉ l -> r ∉ l' -> bufs s' !! r = bufs s !! r).

Lemma to_write_fresh s ctx l ds q : mem_ok s -> to_write s ctx l ds -> q ∈ l -> (q < fresh_addr s)%N.
Proof.
  intros [_ Hm] (x & _ & Hc & _) Hq. apply Hm. right; left. by eapply seg_objects.
Qed.

Lemma mem_ok_add s ctx q x y it :
  mem_ok s -> q = fresh_addr s -> is_Some (ctxs s !! ctx) -> (forall r, is_Some (it !! r) -> is_Some (bufs s !! r)) ->
  mem_ok (mkMem (<[ctx := x]> (ctxs s)) (<[q := y]> it) (blocks s) (N.succ q)).
Proof.
  intros [H0 Hm] -> Hctx Hit. split; cbn; [lia|]. intros p [Hp|[Hp|Hp]].
  - apply N.lt_lt_succ_r, Hm. left. apply lookup_insert_is_Some in Hp as [<-|[_ Hp]]; done.
  - apply lookup_insert_is_Some in Hp as [<-|[_ Hp]]; [lia|]. apply N.lt_lt_succ_r, Hm. right; left. by apply Hit.
  - apply N.lt_lt_succ_r, Hm. by right; right.
Qed.

Lemma list_step_add s ctx q x y it l h t n :
  ctxs s !! ctx = Some x -> (forall r, r ∉ l -> it !! r = bufs s !! r) ->
  list_step s (mkMem (<[ctx := set_write h t n x]> (ctxs s)) (<[q := y]> it) (blocks s) (N.succ q)) ctx l (l ++ [q]).
Proof.
  intros Hx Hit. split_and!; cbn.
  - done.
  - intros p Hp. by rewrite lookup_insert_ne.
  - intros x' Hx'. rewrite Hx in Hx'. injection Hx' as <-. exists h, t, n. by rewrite lookup_insert_eq.
  - intros r Hr Hr'. rewrite lookup_insert_ne; [by apply Hit|]. intros <-. apply Hr', elem_of_app. right. by left.
Qed.

Lemma alter_items (it : gmap N zxb_buf) f q (l : list N) :
  (forall b : zxb_buf, b_buf (f b) = b_buf b /\ b_len (f b) = b_len b) ->
  forall r b, r ∈ l -> it !! r = Some b ->
    exists b', alter f q it !! r = Some b' /\ b_buf b' = b_buf b /\ b_len b' = b_len b.
Proof.
  intros Hf r b _ Hb. destruct (decide (q = r)) as [->|Hne].
  - rewrite lookup_alter_eq, Hb. destruct (Hf b). by exists (f b).
  - rewrite lookup_alter_ne by done. by exists b.
Qed.

(** Adding to the list of a context. *)
Lemma add_write_buf_eq s ctx l ds data len :
  mem_ok s -> to_write s ctx l ds -> ctx <> 0%N -> data <> 0%N -> 0 < len -> zlen l + 1 < 2 ^ 32 ->
  exists s' q, add ctx data len s = Ret 0 s' /\ to_write s' ctx (l ++ [q]) (ds ++ [(data, len)]) /\ mem_ok s' /\
    list_step s s' ctx l (l ++ [q]) /\ bufs s !! q = None.
Proof.
  intros Hm Hw Hctx Hdata Hlen Hl. pose proof Hw as (x & Hx & Hc & Ht & Hn & Hnd & Hi).
  set (q := fresh_addr s).
  assert (Hq : forall r, is_Some (bufs s !! r) -> r <> q) by (intros r Hr ->; destruct Hm as [_ Hm]; specialize (Hm q ltac:(eauto)); unfold q in *; lia).
  assert (Hfree : bufs s !! q = None) by (destruct (bufs s !! q) eqn:E; [by destruct (Hq q ltac:(eauto))|done]).
  assert (Hnin : q ∉ l) by (intros Hin; destruct (seg_objects _ _ _ _ _ _ Hc Hin) as [_ H]; by apply (Hq q)).
  assert (Hq0 : q <> 0%N) by (destruct Hm as [H _]; unfold q; lia).
  assert (Hndq : base.NoDup (l ++ [q])).
  { apply list.NoDup_app. split_and!; [done|by intros r Hr ->%list_elem_of_singleton|apply list.NoDup_singleton]. }
  unfold zxb_context_add_write_buf, put_ctx, put_buf.
  rewrite bind_assert by (by apply negb_true_iff, N.eqb_neq). rewrite bind_assert by (by apply negb_true_iff, N.eqb_neq).
  rewrite bind_assert by (by apply Z.ltb_lt).
  set (s1 := mkMem (ctxs s) (bufs s) (blocks s) (N.succ q)).
  rewrite (bind_Ret _ _ s q s1) by done. cbv zeta.
  rewrite (bind_Ret _ _ s1 x s1) by (unfold ctx_at; rewrite bind_gets; cbn [ctxs s1]; by rewrite Hx).
  pose proof (zlen_nonneg l). destruct l as [|r l _] using rev_ind.
  - rewrite (proj2 (Z.ltb_ge _ _)) by (rewrite Hn; done). simpl in Hc.
    rewrite bind_assert by (by rewrite Hc). rewrite !bind_modify. eexists _, q. split; [reflexivity|]. cbn [app].
    refine (conj _ (conj _ (conj _ Hfree))); [|apply (mem_ok_add s ctx q _ _ (bufs s)); [done|done|by exists x|done]|by apply (list_step_add s ctx q x _ (bufs s) [])].
    exists (set_write q q 1 x). cbn [ctxs bufs with_bufs with_ctxs s1 write_buf write_buf_tail write_buf_num set_write].
    rewrite lookup_insert_eq. conjs; [done| |done|done|done|].
    + split_and!; [done|done|]. eexists. rewrite lookup_insert_eq. by split_and!.
    + destruct ds as [|d ds]; [|by apply Forall2_nil_inv_l in Hi]. constructor; [|constructor].
      eexists. rewrite lookup_insert_eq. by split_and!.
  - rewrite zlen_app in *. change (zlen [r]) with 1 in *. pose proof (zlen_nonneg l).
    rewrite (proj2 (Z.ltb_lt _ _)) by lia. specialize (Ht ltac:(by destruct l)). rewrite last_or_snoc in Ht.
    destruct (seg_objects _ _ _ _ _ r Hc ltac:(apply elem_of_app; right; by left)) as [Hr [b Hb]].
    rewrite Ht, (bind_Ret _ _ s1 b s1) by (unfold buf_at; rewrite bind_gets; cbn [bufs s1]; by rewrite Hb).
    rewrite !bind_modify. eexists _, q. split; [reflexivity|]. cbn [ctxs bufs with_bufs with_ctxs s1 blocks fresh_addr].
    change (set_next_of q b) with (mkBuf (b_net_ip b) (b_net_port b) (b_buf b) (b_len b) (b_prev b) q).
    replace (<[r := mkBuf (b_net_ip b) (b_net_port b) (b_buf b) (b_len b) (b_prev b) q]> (bufs s))
      with (alter (set_next_of q) r (bufs s))
      by (apply map_eq; intros k; destruct (decide (r = k)) as [<-|]; [by rewrite lookup_alter_eq, lookup_insert_eq, Hb|by rewrite lookup_alter_ne, lookup_insert_ne]).
    refine (conj _ (conj _ (conj _ Hfree))); [| |apply (list_step_add s ctx q x); [done|]].
    + exists (set_write (write_buf x) q ((write_buf_num x + 1) mod 2 ^ 32) x).
      cbn [ctxs write_buf write_buf_tail write_buf_num set_write bufs with_bufs with_ctxs s1]. rewrite lookup_insert_eq.
      conjs; [done| |by intros _; rewrite last_or_snoc| |done|].
      * epose proof (chain_snoc (bufs s) (write_buf x) (l ++ [r]) q _ Hnd Hc Hq0 Hnin) as HS.
        rewrite last_or_snoc in HS. apply HS; [done|done|by destruct l].
      * rewrite Hn, Z.mod_small by lia. rewrite !zlen_app. change (zlen [?a]) with 1. lia.
      * eapply items_snoc; [|apply lookup_insert_eq|done|done].
        eapply items_mono; [|exact Hi]. intros k b' Hk Hb'. rewrite lookup_insert_ne by (intros <-; done).
        by eapply (alter_items _ _ r (l ++ [r])).
    + apply (mem_ok_add s ctx q); [done|done|by exists x|]. intros k Hk. by apply lookup_alter_is_Some in Hk.
    + intros k Hk. apply lookup_alter_ne. intros <-. apply Hk, elem_of_app. right. by left.
Qed.

(** Freeing a list: the items and their blocks go, nothing else. *)
Lemma destroy_loop_eq fuel ctx s x l ds prev :
  ctxs s !! ctx = Some x -> seg (bufs s) (write_buf x) prev l 0 -> base.NoDup l -> items (bufs s) l ds ->
  base.NoDup ds.*1 -> Forall (fun d => d.1 ∈ blocks s) ds -> (length l < fuel)%nat ->
  exists s' y, destroy_loop fuel ctx s = Ret true s' /\ ctxs s' = <[ctx := y]> (ctxs s) /\
    blocks s' = blocks s ∖ list_to_set ds.*1 /\ (forall r, bufs s' !! r = if decide (r ∈ l) then None else bufs s !! r).
Proof.
  revert s x l ds prev. induction fuel as [|fuel IH]; intros s x l ds prev Hx Hs Hnd Hi Hndd Hb Hf; [lia|].
  cbn [destroy_loop]. rewrite (bind_Ret _ _ s x s) by (unfold ctx_at; rewrite bind_gets; by rewrite Hx).
  destruct l as [|q l].
  - simpl in Hs. rewrite Hs. destruct ds as [|d ds]; [|by apply Forall2_nil_inv_l in Hi].
    exists s, x. split_and!; [done|by rewrite insert_id|simpl; by rewrite difference_empty_L|done].
  - destruct Hs as (-> & Hq & b & Hqb & Hp & Hs). rewrite (proj2 (N.eqb_neq _ _)) by done. cbv zeta.
    apply Forall2_cons_inv_l in Hi as (d & ds' & (b' & Hb' & E1 & E2) & Hi & ->). rewrite Hqb in Hb'. injection Hb' as <-.
    apply list.NoDup_cons in Hnd as [Hnin Hnd]. cbn [fmap list_fmap] in Hndd. apply list.NoDup_cons in Hndd as [Hdn Hndd].
    apply list.Forall_cons in Hb as [Hd Hb].
    rewrite (bind_Ret _ _ s b s) by (unfold buf_at; rewrite bind_gets; by rewrite Hqb).
    unfold put_ctx. rewrite bind_modify. set (x1 := set_write _ _ _ x). set (s1 := with_ctxs _ s).
    rewrite (bind_Ret _ _ s1 tt (with_blocks (blocks s ∖ {[d.1]}) s1))
      by (unfold free_block; rewrite bind_gets; cbn [blocks s1 with_ctxs]; by rewrite E1, bool_decide_eq_true_2).
    rewrite bind_modify. set (s2 := with_bufs _ _).
    destruct (IH s2 x1 l ds' q) as (s' & y & E & Hc & Hbl & Hbu).
    + cbn. by rewrite lookup_insert_eq.
    + cbn. by apply seg_delete.
    + done.
    + eapply items_mono; [|exact Hi]. intros r c Hr Hc. exists c. cbn. by rewrite lookup_delete_ne by (intros ->; done).
    + done.
    + eapply list.Forall_impl; [apply list.Forall_forall; intros e He; exact (conj He (proj1 (list.Forall_forall _ _) Hb e He))|].
      intros e [He Hin]. cbn. apply elem_of_difference. split; [done|]. intros Heq%elem_of_singleton.
      apply Hdn. rewrite <- Heq. by apply list_elem_of_fmap_2.
    + simpl in Hf. lia.
    + exists s', y. split_and!; [done| | |].
      * rewrite Hc. cbn. by rewrite insert_insert_eq.
      * rewrite Hbl. apply difference_difference_l_L.
      * intros r. rewrite Hbu. cbn. destruct (decide (r = q)) as [->|Hne].
        { rewrite lookup_delete_eq. rewrite (decide_True (P := q ∈ q :: l)) by (by left). by destruct (decide _). }
        rewrite lookup_delete_ne by done. destruct (decide (r ∈ l)).
        { by rewrite decide_True by (by right). }
        { rewrite decide_False; [done|]. by intros [?|?]%elem_of_cons. }
Qed.

(** Adding several buffers. *)
Fixpoint add_all (ctx : N) (ds : list (N * Z)) : M Mem unit :=
  match ds with [] => ret tt | d :: ds' => add ctx d.1 d.2 ;;! add_all ctx ds' end.

Lemma add_all_eq ds s ctx l ds0 :
  mem_ok s -> to_write s ctx l ds0 -> ctx <> 0%N -> Forall (fun d => d.1 <> 0%N /\ 0 < d.2) ds ->
  zlen l + zlen ds < 2 ^ 32 ->
  exists s' l', add_all ctx ds s = Ret tt s' /\ to_write s' ctx (l ++ l') (ds0 ++ ds) /\ mem_ok s' /\
    list_step s s' ctx l (l ++ l') /\ Forall (fun q => bufs s !! q = None) l'.
Proof.
  revert s l ds0. induction ds as [|d ds IH]; intros s l ds0 Hm Hw Hctx Hd Hl.
  - exists s, []. rewrite !app_nil_r. conjs; [done|done|done| |by constructor]. unfold list_step.
    conjs; [done|done| |done]. intros x Hx.
    exists (write_buf x), (write_buf_tail x), (write_buf_num x). rewrite Hx. by destruct x.
  - apply list.Forall_cons in Hd as [[Hd1 Hd2] Hd].
    replace (zlen (d :: ds)) with (1 + zlen ds) in Hl by (unfold zlen; simpl; lia). pose proof (zlen_nonneg ds).
    destruct (add_write_buf_eq s ctx l ds0 d.1 d.2 Hm Hw Hctx Hd1 Hd2 ltac:(lia)) as (s1 & q & E1 & Hw1 & Hm1 & (B1 & C1 & X1 & R1) & Hq).
    destruct (IH s1 (l ++ [q]) (ds0 ++ [d])) as (s2 & l' & E2 & Hw2 & Hm2 & (B2 & C2 & X2 & R2) & Hl').
    + done.
    + by destruct d.
    + done.
    + done.
    + rewrite zlen_app. change (zlen [q]) with 1. lia.
    + exists s2, (q :: l'). rewrite <- !app_assoc in *. cbn [app] in *. conjs; try done.
      * cbn [add_all]. by rewrite (bind_Ret _ _ _ _ _ E1).
      * split_and!; [congruence|intros p Hp; by rewrite C2, C1| |].
        { intros x Hx. destruct (X1 x Hx) as (h & t & n & Hx1). destruct (X2 _ Hx1) as (h2 & t2 & n2 & Hx2).
          by exists h2, t2, n2. }
        { intros r Hr Hr'. rewrite R2; [apply R1; [done|]|..|done].
          - intros [?| ->%list_elem_of_singleton]%elem_of_app; [done|]. apply Hr', elem_of_app. right. by left.
          - intros [?| ->%list_elem_of_singleton]%elem_of_app; [done|]. apply Hr', elem_of_app. right. by left. }
      * constructor; [done|]. eapply list.Forall_impl; [apply list.Forall_forall; intros r Hr; exact (conj Hr (proj1 (list.Forall_forall _ _) Hl' r Hr))|].
        intros r [Hr Hnone]. destruct (decide (r ∈ l)) as [Hin|Hnin].
        { destruct Hw1 as (x1 & _ & Hc1 & _). destruct (seg_objects _ _ _ _ _ r Hc1 ltac:(apply elem_of_app; by left)) as [_ [? Hs]].
          congruence. }
        destruct (decide (r = q)) as [->|Hne]; [done|].
        rewrite <- R1; [done|done|]. by intros [?|?%list_elem_of_singleton]%elem_of_app.
Qed.

(** Memory that happens to be zero. *)
Definition zeroed : Prop :=
  write_buf ctx_garbage = 0%N /\ write_buf_num ctx_garbage = 0 /\ c_arg ctx_garbage = 0%N.

Lemma create_eq s fd id type :
  mem_ok s -> 0 < fd -> zeroed ->
  let p := fresh_addr s in
  exists s' x, zxb_context_create ctx_garbage fd id type s = Ret p s' /\ mem_ok s' /\ to_write s' p [] [] /\
    ctxs s' = <[p := x]> (ctxs s) /\ bufs s' = bufs s /\ blocks s' = {[N.succ p]} ∪ blocks s /\
    read_buf x = N.succ p /\ c_arg x = 0%N.
Proof.
  intros [H0 Hm] Hfd (Z1 & Z2 & Z3) p. unfold zxb_context_create.
  rewrite bind_assert by (by apply Z.ltb_lt). unfold malloc_addr, put_ctx.
  unfold bindM, gets, modify, ret, with_blocks, with_ctxs. cbn [ctxs bufs blocks fresh_addr]. fold p.
  eexists _, _. split; [reflexivity|]. cbn [ctxs bufs blocks fresh_addr]. conjs; try reflexivity.
  - split; cbn; [lia|]. intros r [Hr|[Hr|Hr]].
    + apply lookup_insert_is_Some in Hr as [<-|[_ Hr]]; [unfold p; lia|]. assert (r < p)%N by (apply Hm; by left). lia.
    + assert (r < p)%N by (apply Hm; by right; left). lia.
    + apply elem_of_union in Hr as [->%elem_of_singleton|Hr]; [lia|]. assert (r < p)%N by (apply Hm; by right; right). lia.
  - eexists. cbn [ctxs]. rewrite lookup_insert_eq. cbn [write_buf write_buf_num write_buf_tail bufs].
    rewrite Z1, Z2. conjs; [done|done|done|done|constructor|constructor].
  - done.
Qed.

(** C38: the life of a context, in memory that was zero.  A context is created,
    any number of buffers are added, and it is destroyed: what is to be written is
    exactly what was added, in order, and at the end the read buffer, the items,
    every buffer that was added and the context are freed, each once, and
    nothing else. *)
Theorem context_life s fd id type ds fuel :
  mem_ok s -> zeroed -> 0 < fd -> Forall (fun d => d.1 <> 0%N /\ d.1 ∈ blocks s /\ 0 < d.2) ds ->
  base.NoDup ds.*1 -> zlen ds < 2 ^ 32 -> (length ds < fuel)%nat ->
  exists p s1 s2 s3 l, zxb_context_create ctx_garbage fd id type s = Ret p s1 /\ add_all p ds s1 = Ret tt s2 /\
    to_write s2 p l ds /\ zxb_context_destroy fuel p s2 = Ret (Some 0) s3 /\
    ctxs s3 = ctxs s /\ bufs s3 = bufs s /\ blocks s3 = blocks s ∖ list_to_set ds.*1.
Proof.
  intros Hm Hz Hfd Hds Hnd Hlen Hf.
  destruct (create_eq s fd id type Hm Hfd Hz) as (s1 & x & E1 & Hm1 & Hw1 & C1 & B1 & K1 & Rx & Ax).
  set (p := fresh_addr s) in *. destruct Hm as [H0 Hm].
  destruct (add_all_eq ds s1 p [] [] Hm1 Hw1) as (s2 & l & E2 & Hw2 & Hm2 & (B2 & C2 & X2 & R2) & Hl).
  { lia. } { eapply list.Forall_impl; [exact Hds|]. by intros d (? & ? & ?). } { done. }
  cbn [app] in *. destruct (X2 x ltac:(by rewrite C1, lookup_insert_eq)) as (h & t & n & Hx2).
  pose proof Hw2 as (y & Hy & Hc & _ & _ & Hndl & Hi). rewrite Hx2 in Hy. injection Hy as <-.
  set (s2' := with_blocks (blocks s2 ∖ {[N.succ p]}) s2).
  assert (Hr : N.succ p ∉ blocks s) by (intros Hin; specialize (Hm (N.succ p) ltac:(by right; right)); unfold p in *; lia).
  destruct (destroy_loop_eq fuel p s2' (set_write h t n x) l ds 0) as (s3 & z & E3 & C3 & K3 & B3); try done.
  { apply list.Forall_forall. intros d Hd. rewrite list.Forall_forall in Hds. destruct (Hds d Hd) as (_ & Hb & _).
    apply elem_of_difference. split; [rewrite B2, K1; apply elem_of_union; by right|].
    intros Heq%elem_of_singleton. apply Hr. by rewrite <- Heq. }
  { pose proof (list.Forall2_length _ _ _ Hi). lia. }
  exists p, s1, s2, (with_ctxs (delete p (ctxs s3)) s3), l. conjs; [done|done|done| | | |].
  - unfold zxb_context_destroy. rewrite bind_assert by (apply negb_true_iff, N.eqb_neq; lia).
    rewrite (bind_Ret _ _ s2 (set_write h t n x) s2) by (unfold ctx_at; rewrite bind_gets; by rewrite Hx2).
    cbn [read_buf c_arg set_write]. rewrite Rx, Ax. rewrite (proj2 (N.eqb_neq _ _)) by lia. cbn [N.eqb].
    rewrite (bind_Ret _ _ s2 tt s2')
      by (unfold free_block; rewrite bind_gets, bool_decide_eq_true_2; [done|rewrite B2, K1; apply elem_of_union; left; by apply elem_of_singleton]).
    rewrite bind_ret, (bind_Ret _ _ _ _ _ E3). cbn iota. by rewrite bind_modify.
  - cbn. rewrite C3. cbn. rewrite delete_insert_eq. apply map_eq. intros r.
    destruct (decide (r = p)) as [->|Hne].
    + rewrite lookup_delete_eq. destruct (ctxs s !! p) eqn:Ep; [|done]. specialize (Hm p ltac:(left; eauto)). unfold p in *. lia.
    + by rewrite lookup_delete_ne, C2, C1, lookup_insert_ne by done.
  - cbn. apply map_eq. intros r. rewrite B3. cbn. rewrite <- B1. destruct (decide (r ∈ l)) as [Hin|Hnin].
    + rewrite list.Forall_forall in Hl. symmetry. by apply Hl.
    + apply R2; [|done]. apply list.not_elem_of_nil.
  - cbn [blocks with_ctxs]. rewrite K3. cbn [blocks s2' with_blocks]. rewrite B2, K1. by apply union_difference_2.
Qed.

(** The memory of a context is not cleared.  In whatever memory it is
    created, the first buffer added to a context goes wrong when that memory was
    not zero: where the count of buffers is not 0 the last one is looked for at
    the address that happens to be there, and when nothing is there that is
    undefined; where it is 0 and the pointer to the first is not, the assertion
    fails. *)
Theorem context_not_cleared s fd id type data len :
  mem_ok s -> 0 < fd -> data <> 0%N -> 0 < len -> 0 <= write_buf_num ctx_garbage ->
  exists p s1, zxb_context_create ctx_garbage fd id type s = Ret p s1 /\
    (0 < write_buf_num ctx_garbage -> bufs s !! write_buf_tail ctx_garbage = None ->
       exists s', add p data len s1 = Halt HUndefined s') /\
    (write_buf_num ctx_garbage = 0 -> write_buf ctx_garbage <> 0%N -> exists s', add p data len s1 = Halt HAssert s').
Proof.
  intros [H0 Hm] Hfd Hdata Hlen Hn. set (p := fresh_addr s) in *. unfold zxb_context_create.
  rewrite bind_assert by (by apply Z.ltb_lt). unfold malloc_addr at 1, malloc_addr at 1, put_ctx.
  unfold bindM, gets, modify, ret, with_blocks, with_ctxs. cbn [ctxs bufs blocks fresh_addr]. fold p.
  eexists p, _. split; [reflexivity|]. set (s1 := mkMem _ _ _ _).
  assert (Hadd : add p data len s1 =
    (let! x := ctx_at p in
     if 0 <? write_buf_num x then
       let! tail := buf_at (write_buf_tail x) in
       put_buf (write_buf_tail x) (set_next_of (fresh_addr s1) tail) ;;!
       put_buf (fresh_addr s1) (mkBuf (b_net_ip buf_garbage) (b_net_port buf_garbage) data len (write_buf_tail x) 0) ;;!
       put_ctx p (set_write (write_buf x) (fresh_addr s1) ((write_buf_num x + 1) mod 2 ^ 32) x) ;;! ret 0
     else
       assert_ (N.eqb (write_buf x) 0) ;;!
       put_buf (fresh_addr s1) (mkBuf (b_net_ip buf_garbage) (b_net_port buf_garbage) data len 0 0) ;;!
       put_ctx p (set_write (fresh_addr s1) (fresh_addr s1) 1 x) ;;! ret 0)
      (mkMem (ctxs s1) (bufs s1) (blocks s1) (N.succ (fresh_addr s1)))).
  { unfold zxb_context_add_write_buf. rewrite bind_assert by (apply negb_true_iff, N.eqb_neq; lia).
    rewrite bind_assert by (by apply negb_true_iff, N.eqb_neq). by rewrite bind_assert by (by apply Z.ltb_lt). }
  rewrite Hadd. set (s2 := mkMem _ _ _ _). unfold ctx_at.
  assert (E : forall k : zxb_context -> M Mem Z, (let! x := (let! m := gets ctxs in of_option HUndefined (m !! p)) in k x) s2 =
    k (mkContext type fd id (event_callback ctx_garbage) (error_callback ctx_garbage)
    (write_buf ctx_garbage) (write_buf_tail ctx_garbage) (write_buf_num ctx_garbage)
    (begin_of_left_bytes ctx_garbage) (N.succ p) (1024 * 100) (read_buf_use ctx_garbage) (1024 * 100)
    (1024 * 1024 * 2) (fire_time ctx_garbage) (c_arg ctx_garbage) (c_prev ctx_garbage) (c_next ctx_garbage)) s2).
  { intros k. unfold bindM, gets. cbn [ctxs s2 s1]. by rewrite lookup_insert_eq. }
  rewrite E. cbn [write_buf write_buf_tail write_buf_num]. split.
  - intros Hpos Hnone. rewrite (proj2 (Z.ltb_lt _ _)) by done. exists s2.
    unfold buf_at, bindM, gets. cbn [bufs s2 s1]. by rewrite Hnone.
  - intros Hz Hw. rewrite Hz. cbn [Z.ltb Z.compare]. exists s2. by rewrite (proj2 (N.eqb_neq _ _)).
Qed.
End ContextProps.

(** ** The descriptors *)

(** A socket made to wait for events still blocks.  The flag that says not to
    block is set with [F_SETFD], which keeps no such flag: whatever the system
    answers, a listening or connecting socket that is returned has the status
    flags of a new one, without [O_NONBLOCK]; and on every error after [socket]
    the descriptor stays open. *)
Theorem socket_stays_blocking a net_to_ip net_to_port net_my_ip net_my_port (fds : gmap Z Fd) :
  0 <= new_fd a ->
  (exists z fds', zxb_context_create_tcp_listener a fds = Ret z fds' /\
     status_flags <$> fds' !! new_fd a = Some 0 /\ (0 <= z -> z = new_fd a)) /\
  (exists z b fds', zxb_context_connect a net_to_ip net_to_port net_my_ip net_my_port fds = Ret (z, b) fds' /\
     status_flags <$> fds' !! new_fd a = Some 0 /\ (0 <= z -> z = new_fd a) /\
     (net_my_ip <> 0 -> b = Some (net_to_ip, net_to_port))).
Proof.
  intros H. unfold zxb_context_create_tcp_listener, zxb_context_connect, socket_.
  rewrite (proj2 (Z.ltb_ge _ _)) by done. set (fds1 := <[new_fd a := mkFd 0 0]> fds).
  assert (Hl : fds1 !! new_fd a = Some (mkFd 0 0)) by apply lookup_insert_eq.
  assert (Hnb : exists e fds', set_nonblock_fd a (new_fd a) fds1 = Ret e fds' /\
      status_flags <$> fds' !! new_fd a = Some 0 /\ (forall z, e = Some z -> z < 0)).
  { unfold set_nonblock_fd. rewrite bind_gets, Hl. unfold of_option at 1. rewrite bind_ret. cbn [fd_flags].
    destruct (getfd_fails a); [exists (Some (-3)), fds1; split_and!; [done|by rewrite Hl|by intros z [= <-]]|].
    cbn. destruct (setfd_fails a); [exists (Some (-5)), fds1; split_and!; [done|by rewrite Hl|by intros z [= <-]]|].
    eexists None, _. split; [reflexivity|]. by rewrite lookup_insert_eq. }
  destruct Hnb as (e & fds' & En & Hs & He).
  assert (F : forall (B : Type) (k : Z -> M (gmap Z Fd) B), bindM (bindM (modify <[new_fd a:=mkFd 0 0]>) (fun _ => ret (new_fd a))) k fds = k (new_fd a) fds1)
    by done.
  rewrite !F, (proj2 (Z.ltb_ge _ _)) by done. split.
  - destruct (bind_answer a =? 0); cbn [negb]; [|by exists (-2), fds1; split_and!; [done|rewrite Hl|lia]].
    rewrite (bind_Ret _ _ _ _ _ En). destruct e as [e|].
    + exists e, fds'. specialize (He e eq_refl). split_and!; [done|done|lia].
    + destruct (last_answer a =? 0); cbn [negb]; eexists _, fds'; split_and!; [done|done|done|done|done|lia].
  - destruct (net_my_ip =? 0) eqn:E0; [|destruct (bind_answer a =? 0)]; cbn [negb andb];
      try (eexists (-2), _, fds1; split_and!; [done|by rewrite Hl|lia|done]);
      (rewrite (bind_Ret _ _ _ _ _ En); destruct e as [e|];
       [exists e; eexists _, fds'; specialize (He e eq_refl); split_and!; [done|done|lia|]
       |destruct (last_answer a =? 0); cbn [negb]; eexists _, _, fds'; (split_and!; [done|done|lia|])]; intros Hmy;
       try done; apply Z.eqb_eq in E0; congruence).
Qed.
