(* ===== verification/IosDemo.v ===== *)
(** * Contexts on concrete states

    A memory with two blocks to write, a context in memory that was zero and one
    in memory that was not; the theorems of IosContext are applied there. *)

From S2P Require Import Prelude CnList IosContext.

(** Memory of zeros, and memory with a one where the count of buffers is. *)
Definition zeros : zxb_context := mkContext T_FILE 0 0 0 0 0 0 0 0 0 0 0 0 0 (0, 0) 0 0 0.
Definition ones : zxb_context := mkContext T_FILE 0 0 0 0 0 0 1 0 0 0 0 0 0 (0, 0) 0 0 0.
Definition zero_buf : zxb_buf := mkBuf 0 0 0 0 0 0.

Definition mem0 : Mem := mkMem ∅ ∅ {[1%N; 2%N]} 10.
Definition two_blocks : list (N * Z) := [(1%N, 5); (2%N, 7)].

Lemma mem0_ok : mem_ok mem0.
Proof.
  split; [by vm_compute|]. intros p [[? H]|[[? H]|H]]; [done|done|].
  cbn in H. assert (p = 1%N \/ p = 2%N) as [->| ->] by set_solver; by vm_compute.
Qed.

(** Created, given two buffers, destroyed: nothing is left. *)
Example life_run :
  (let! p := zxb_context_create zeros 3 0 T_TCP in
   zxb_context_add_write_buf zero_buf p 1 5 ;;! zxb_context_add_write_buf zero_buf p 2 7 ;;!
   zxb_context_destroy 3 p) mem0 = Ret (Some 0) (mkMem ∅ ∅ ∅ 14).
Proof. vm_compute. reflexivity. Qed.

Lemma context_life_witness :
  zlen two_blocks = 2 /\
  exists p s1 s2 s3 l, zxb_context_create zeros 3 0 T_TCP mem0 = Ret p s1 /\
    add_all zero_buf p two_blocks s1 = Ret tt s2 /\
    to_write s2 p l two_blocks /\ zxb_context_destroy 3 p s2 = Ret (Some 0) s3 /\
    ctxs s3 = ctxs mem0 /\ bufs s3 = bufs mem0 /\ blocks s3 = blocks mem0 ∖ list_to_set two_blocks.*1.
Proof.
  split; [reflexivity|].
  apply (context_life zeros zero_buf mem0 3 0 T_TCP two_blocks 3).
  - exact mem0_ok.
  - done.
  - done.
  - repeat constructor; cbn; set_solver.
  - cbn. repeat constructor; set_solver.
  - by vm_compute.
  - cbn. lia.
Defined.

Lemma context_not_cleared_witness :
  write_buf_num ones = 1 /\
  exists p s1, zxb_context_create ones 3 0 T_TCP mem0 = Ret p s1 /\
    exists s', zxb_context_add_write_buf zero_buf p 1 5 s1 = Halt HUndefined s'.
Proof.
  split; [reflexivity|].
  destruct (context_not_cleared ones zero_buf mem0 3 0 T_TCP 1 5) as (p & s1 & E & H & _).
  - exact mem0_ok.
  - done.
  - done.
  - done.
  - done.
  - exists p, s1. split; [exact E|]. apply H; done.
Defined.

(** The system gives descriptor 4 and refuses nothing. *)
Definition willing : SysAnswers := mkSys 4 0 false false 0.

Example listener_run : zxb_context_create_tcp_listener willing ∅ = Ret 4 {[4 := mkFd 0 0]}.
Proof. vm_compute. reflexivity. Qed.

Lemma socket_stays_blocking_witness :
  new_fd willing = 4 /\
  (exists z fds', zxb_context_create_tcp_listener willing ∅ = Ret z fds' /\
     status_flags <$> fds' !! 4 = Some 0 /\ (0 <= z -> z = 4)).
Proof.
  split; [reflexivity|]. refine (proj1 (socket_stays_blocking willing 1 2 3 4 ∅ _)). done.
Defined.
