(* ===== verification/ZxPool.v ===== *)
(** * The memory pool of the C++ generation: [cppnf/buffer.hpp]

    A pool hands out blocks of two sizes.  The header is read as it would have to
    be for a compiler: [start] and [length] are data members (some uses call
    them), and the result of [malloc] is a [char*].  A pointer is an integer, the
    null pointer 0; [Buffer] objects are at addresses of their own, so that two
    buffers over one block can be told apart.  What is wrong with the pool is the
    theorem [pool_hands_out_twice]: its constructor lists every large block twice
    and no small block.  [nf/buffer.hpp] is the same class. *)

From S2P Require Import Prelude.

(** [struct Buffer]. *)
Record Buffer := mkBuffer {
  start : Z;
  head : Z;
  tail : Z;
  buf_length : Z
}.
Definition new_Buffer (s l : Z) : Buffer := mkBuffer s 0 0 l.
Definition set_head (n : Z) (b : Buffer) : Buffer := mkBuffer (start b) n (tail b) (buf_length b).
Definition set_tail (n : Z) (b : Buffer) : Buffer := mkBuffer (start b) (head b) n (buf_length b).

(** [class MemPool]. *)
Record MemPool := mkMemPool {
  large_pool_ : Z;
  idle_large_blocks_ : list Z;
  large_block_size_ : Z;
  large_block_num_ : Z;
  small_pool_ : Z;
  idle_small_blocks_ : list Z;
  small_block_size_ : Z;
  small_block_num_ : Z
}.
Definition set_idle_large (l : list Z) (p : MemPool) : MemPool :=
  mkMemPool (large_pool_ p) l (large_block_size_ p) (large_block_num_ p)
    (small_pool_ p) (idle_small_blocks_ p) (small_block_size_ p) (small_block_num_ p).
Definition set_idle_small (l : list Z) (p : MemPool) : MemPool :=
  mkMemPool (large_pool_ p) (idle_large_blocks_ p) (large_block_size_ p) (large_block_num_ p)
    (small_pool_ p) l (small_block_size_ p) (small_block_num_ p).

(** The memory: the pool, the [Buffer] objects, the bytes of each block by the
    address of the block. *)
Record Mem := mkMem {
  pool : MemPool;
  buffers : gmap N Buffer;
  next_buffer : N;
  bytes_at : gmap Z (list byte)
}.
Definition with_pool (p : MemPool) (m : Mem) : Mem := mkMem p (buffers m) (next_buffer m) (bytes_at m).
Definition with_buffers (b : gmap N Buffer) (m : Mem) : Mem :=
  mkMem (pool m) b (next_buffer m) (bytes_at m).
Definition with_bytes (b : gmap Z (list byte)) (m : Mem) : Mem :=
  mkMem (pool m) (buffers m) (next_buffer m) b.

(** The addresses the two loops of the constructor push. *)
Definition block_addresses (base size num : Z) : list Z :=
  map (fun i => base + Z.of_nat i * size) (seq 0 (Z.to_nat num)).

(** The constructor; [large] and [small] are what [malloc] returns. *)
Definition new_MemPool {S} (large_block_size large_block_num small_block_size small_block_num : Z)
    (large small : Z) : M S MemPool :=
  let! _n := int_op (large_block_size * large_block_num) in
  let! _m := int_op (small_block_size * small_block_num) in
  let blocks := block_addresses large large_block_size large_block_num in
  ret (mkMemPool large (blocks ++ blocks) large_block_size large_block_num
         small [] small_block_size small_block_num).

(** [new Buffer(s, l)], and reading through a pointer to a buffer. *)
Definition alloc_buffer (b : Buffer) : M Mem N :=
  let! q := gets next_buffer in
  modify (fun m => mkMem (pool m) (<[q := b]> (buffers m)) (N.succ q) (bytes_at m)) ;;!
  ret q.
Definition buffer_at (q : N) : M Mem Buffer :=
  let! m := gets buffers in of_option HUndefined (m !! q).
Definition update_buffer (q : N) (f : Buffer -> Buffer) : M Mem unit :=
  let! b := buffer_at q in modify (fun m => with_buffers (<[q := f b]> (buffers m)) m).

Definition GetSmallBlock : M Mem N :=
  let! p := gets pool in
  match idle_small_blocks_ p with
  | [] => ret 0%N
  | front :: rest =>
      let! buf := alloc_buffer (new_Buffer front (small_block_size_ p)) in
      modify (with_pool (set_idle_small rest p)) ;;!
      ret buf
  end.

Definition GetLargeBlock : M Mem N :=
  let! p := gets pool in
  match idle_large_blocks_ p with
  | [] => ret 0%N
  | front :: rest =>
      let! buf := alloc_buffer (new_Buffer front (large_block_size_ p)) in
      modify (with_pool (set_idle_large rest p)) ;;!
      ret buf
  end.

(** [a % b == 0]; a division by 0 is undefined. *)
Definition multiple {S} (a b : Z) : M S bool :=
  if b =? 0 then stop HUndefined else ret (Z.rem a b =? 0).

Definition PutBlock (buf : N) : M Mem unit :=
  assert_ (negb (buf =? 0)%N) ;;!
  let! b := buffer_at buf in
  let! p := gets pool in
  (if buf_length b =? large_block_size_ p then
     let! ok := multiple (start b - large_pool_ p) (large_block_size_ p) in
     assert_ ok ;;!
     modify (with_pool (set_idle_large (start b :: idle_large_blocks_ p) p))
   else if buf_length b =? small_block_size_ p then
     let! ok := multiple (start b - small_pool_ p) (small_block_size_ p) in
     assert_ ok ;;!
     modify (with_pool (set_idle_small (start b :: idle_small_blocks_ p) p))
   else stop HAssert) ;;!
  modify (fun m => with_buffers (delete buf (buffers m)) m).

(** [small_block_size()] returns the number of blocks. *)
Definition small_block_size (p : MemPool) : Z := small_block_num_ p.
Definition large_block_size (p : MemPool) : Z := large_block_size_ p.

(** ** The clients of a pool *)

(** The blocks in the hands of the clients. *)
Definition held (m : Mem) : list Z := map (fun qb => start qb.2) (map_to_list (buffers m)).

(** A client takes a block, gives back a buffer that exists, moves the ends of
    the data in one, or writes into the memory of the blocks. *)
Inductive pool_step : Mem -> Mem -> Prop :=
| ps_small m q m' : GetSmallBlock m = Ret q m' -> pool_step m m'
| ps_large m q m' : GetLargeBlock m = Ret q m' -> pool_step m m'
| ps_put m q m' : PutBlock q m = Ret tt m' -> pool_step m m'
| ps_head m q n m' : update_buffer q (set_head n) m = Ret tt m' -> pool_step m m'
| ps_tail m q n m' : update_buffer q (set_tail n) m = Ret tt m' -> pool_step m m'
| ps_write m b : pool_step m (with_bytes b m).

Inductive pool_reachable (ls ln ss sn large small : Z) : Mem -> Prop :=
| pr_new p (m : Mem) (b : gmap Z (list byte)) n :
    new_MemPool ls ln ss sn large small m = Ret p m -> (0 < n)%N ->
    pool_reachable ls ln ss sn large small (mkMem p ∅ n b)
| pr_step m m' : pool_reachable ls ln ss sn large small m -> pool_step m m' ->
    pool_reachable ls ln ss sn large small m'.

(** ** The invariant *)

Record pool_inv (ls ln large : Z) (m : Mem) : Prop := {
  pi_size : large_block_size_ (pool m) = ls;
  pi_base : large_pool_ (pool m) = large;
  pi_small : idle_small_blocks_ (pool m) = [];
  pi_twice : idle_large_blocks_ (pool m) ++ held m ≡ₚ
               block_addresses large ls ln ++ block_addresses large ls ln;
  pi_length q b : buffers m !! q = Some b -> buf_length b = ls;
  pi_fresh q : is_Some (buffers m !! q) -> (q < next_buffer m)%N;
  pi_next : (0 < next_buffer m)%N;
  pi_null : buffers m !! 0%N = None
}.

Lemma held_insert m q b : buffers m !! q = None ->
  held (with_buffers (<[q := b]> (buffers m)) m) ≡ₚ start b :: held m.
Proof.
  intros H. unfold held. cbn [buffers with_buffers].
  etrans; [apply Permutation_map, map_to_list_insert, H|reflexivity].
Qed.

Lemma held_delete m q b : buffers m !! q = Some b ->
  held m ≡ₚ start b :: held (with_buffers (delete q (buffers m)) m).
Proof.
  intros H. unfold held. cbn [buffers with_buffers].
  etrans; [apply Permutation_map; symmetry; apply map_to_list_delete, H|reflexivity].
Qed.

Lemma held_keep m q b b' : buffers m !! q = Some b -> start b' = start b ->
  held (with_buffers (<[q := b']> (buffers m)) m) ≡ₚ held m.
Proof.
  intros H E. rewrite (held_delete m q b H), <- E.
  etrans; [|apply (held_insert (with_buffers (delete q (buffers m)) m)), lookup_delete_eq].
  cbn [buffers with_buffers]. by rewrite insert_delete_eq.
Qed.

Section Invariant.
  Variables ls ln large : Z.

Lemma buffer_at_eq m q b : buffers m !! q = Some b -> buffer_at q m = Ret b m.
Proof. intros H. unfold buffer_at. by rewrite bind_gets, H. Qed.

Lemma buffer_missing {A} m q (k : Buffer -> M Mem A) :
  buffers m !! q = None -> bindM (buffer_at q) k m = Halt HUndefined m.
Proof. intros H. unfold bindM at 1, buffer_at. by rewrite bind_gets, H. Qed.

Lemma update_buffer_eq m q b f : buffers m !! q = Some b ->
  update_buffer q f m = Ret tt (with_buffers (<[q := f b]> (buffers m)) m).
Proof. intros H. unfold update_buffer. by rewrite (bind_Ret _ _ _ _ _ (buffer_at_eq m q b H)). Qed.

Lemma no_small_block m : pool_inv ls ln large m -> GetSmallBlock m = Ret 0%N m.
Proof. intros I. unfold GetSmallBlock. by rewrite bind_gets, (pi_small _ _ _ _ I). Qed.

(** Every block that is idle or held is one of the pool. *)
Lemma block_of_pool m a : pool_inv ls ln large m -> a ∈ idle_large_blocks_ (pool m) ++ held m ->
  exists i : nat, (i < Z.to_nat ln)%nat /\ a = large + Z.of_nat i * ls.
Proof.
  intros I. rewrite (pi_twice _ _ _ _ I). intros [H|H]%elem_of_app;
    apply list_elem_of_In, in_map_iff in H as (i & <- & Hi%in_seq); exists i; lia.
Qed.

Lemma held_elem m q b : buffers m !! q = Some b -> start b ∈ held m.
Proof. intros H. rewrite (held_delete m q b H). by left. Qed.

Lemma put_inv m q b : 0 < ls -> pool_inv ls ln large m -> buffers m !! q = Some b ->
  exists m', PutBlock q m = Ret tt m' /\ pool_inv ls ln large m' /\
    buffers m' = delete q (buffers m) /\ bytes_at m' = bytes_at m.
Proof.
  intros Hls I Hb. unfold PutBlock.
  rewrite bind_assert by (apply negb_true_iff, N.eqb_neq; intros ->; by rewrite (pi_null _ _ _ _ I) in Hb).
  rewrite (bind_Ret _ _ _ _ _ (buffer_at_eq m q b Hb)), bind_gets.
  rewrite (pi_length _ _ _ _ I q b Hb), (pi_size _ _ _ _ I), (pi_base _ _ _ _ I), Z.eqb_refl.
  destruct (block_of_pool m (start b) I) as (i & _ & Hs); [apply elem_of_app; right; by eapply held_elem|].
  unfold multiple. rewrite (proj2 (Z.eqb_neq ls 0)) by lia.
  assert ((Z.rem (start b - large) ls =? 0) = true) as Hm.
  { rewrite Hs. replace (large + Z.of_nat i * ls - large) with (Z.of_nat i * ls) by lia.
    by rewrite Z.rem_mul by lia. }
  rewrite Hm. eexists. split; [reflexivity|]. split; [|done]. destruct I as [H1 H2 H3 H4 H5 H6 H7 H8].
  split; cbn; try done.
  - rewrite <- H4. rewrite (held_delete m q b Hb). cbn. by rewrite Permutation_middle.
  - intros q' b' [_ H]%lookup_delete_Some. eauto.
  - intros q' [b' [_ H]%lookup_delete_Some]. apply H6. eauto.
  - by apply lookup_delete_None; right.
Qed.

Lemma large_inv m : pool_inv ls ln large m ->
  (idle_large_blocks_ (pool m) = [] /\ GetLargeBlock m = Ret 0%N m) \/
  exists a m', idle_large_blocks_ (pool m) = a :: idle_large_blocks_ (pool m') /\
    GetLargeBlock m = Ret (next_buffer m) m' /\ pool_inv ls ln large m' /\
    buffers m' = <[next_buffer m := new_Buffer a ls]> (buffers m) /\ bytes_at m' = bytes_at m.
Proof.
  intros I. unfold GetLargeBlock. rewrite bind_gets.
  destruct (idle_large_blocks_ (pool m)) as [|a rest] eqn:E; [left; done|right].
  assert (Hn : buffers m !! next_buffer m = None).
  { destruct (buffers m !! next_buffer m) eqn:F; [|done].
    assert (next_buffer m < next_buffer m)%N by (apply (pi_fresh _ _ _ _ I); eauto). lia. }
  rewrite (pi_size _ _ _ _ I). eexists a, _. split; [|split; [reflexivity|]]; [done|].
  split; [|done]. destruct I as [H1 H2 H3 H4 H5 H6 H7 H8]. split; cbn; try done.
  - rewrite <- H4, E.
    rewrite (held_insert m (next_buffer m) (new_Buffer a ls) Hn). cbn. by rewrite Permutation_middle.
  - intros q b [[_ <-]|[_ H]]%lookup_insert_Some; [done|eauto].
  - intros q [b [[<- _]|[_ H]]%lookup_insert_Some]; [lia|].
    assert (q < next_buffer m)%N by (apply H6; eauto). lia.
  - lia.
  - rewrite lookup_insert_ne by lia. done.
Qed.

Lemma update_inv m q b b' : pool_inv ls ln large m -> buffers m !! q = Some b ->
  start b' = start b -> buf_length b' = buf_length b ->
  pool_inv ls ln large (with_buffers (<[q := b']> (buffers m)) m).
Proof.
  intros [H1 H2 H3 H4 H5 H6 H7 H8] Hb Hs Hl. split; cbn; try done.
  - rewrite <- H4. by rewrite (held_keep m q b b' Hb Hs).
  - intros q' c [[<- <-]|[_ H]]%lookup_insert_Some; [|eauto]. rewrite Hl. eauto.
  - intros q' [c [[<- _]|[_ H]]%lookup_insert_Some]; apply H6; eauto.
  - rewrite lookup_insert_ne; [done|]. intros ->. by rewrite H8 in Hb.
Qed.

Lemma step_inv m m' : 0 < ls -> pool_inv ls ln large m -> pool_step m m' -> pool_inv ls ln large m'.
Proof.
  intros Hls I Hs. destruct Hs as [m q m' E|m q m' E|m q m' E|m q n m' E|m q n m' E|m b].
  - rewrite (no_small_block m I) in E. by injection E as _ <-.
  - destruct (large_inv m I) as [[_ E']|(a & m1 & _ & E' & I' & _)]; rewrite E' in E; by injection E as _ <-.
  - destruct (buffers m !! q) as [b|] eqn:Hb.
    + destruct (put_inv m q b Hls I Hb) as (m1 & E' & I' & _). rewrite E' in E. by injection E as <-.
    + unfold PutBlock in E. apply bind_Ret_inv in E as (u & m1 & Ea & E).
      assert (m1 = m) as -> by (destruct (negb _); [by injection Ea|done]).
      by rewrite buffer_missing in E.
  - destruct (buffers m !! q) as [b|] eqn:Hb; [|unfold update_buffer in E; by rewrite buffer_missing in E].
    rewrite (update_buffer_eq m q b _ Hb) in E. injection E as <-. by eapply update_inv.
  - destruct (buffers m !! q) as [b|] eqn:Hb; [|unfold update_buffer in E; by rewrite buffer_missing in E].
    rewrite (update_buffer_eq m q b _ Hb) in E. injection E as <-. by eapply update_inv.
  - by destruct I.
Qed.
End Invariant.

Lemma reachable_pool_inv ls ln ss sn large small m :
  0 < ls -> pool_reachable ls ln ss sn large small m -> pool_inv ls ln large m.
Proof.
  intros Hls. induction 1 as [p m b n E Hn|m m' _ IH Hs]; [|by eapply step_inv].
  unfold new_MemPool in E. apply bind_Ret_inv in E as (u & m1 & _ & E).
  apply bind_Ret_inv in E as (u' & m2 & _ & E). injection E as <- <-.
  split; cbn; try done.
  - unfold held. cbn [buffers]. rewrite map_to_list_empty. by rewrite app_nil_r.
  - intros q. by rewrite lookup_empty; intros [? [=]].
Qed.

(** C30: what becomes of the blocks.  Whatever the clients of a pool do, each large
    block is twice in the list of idle blocks and in their hands: more buffers
    than there are blocks can be taken, and then two of them are over one block.
    No small block is ever given out.  Every buffer has the size of a large block
    and can be given back. *)
Theorem pool_hands_out_twice ls ln ss sn large small m :
  0 < ls -> 0 <= ln -> pool_reachable ls ln ss sn large small m ->
  idle_large_blocks_ (pool m) ++ held m ≡ₚ
    block_addresses large ls ln ++ block_addresses large ls ln /\
  GetSmallBlock m = Ret 0%N m /\
  (ln < zlen (held m) -> ~ base.NoDup (held m)) /\
  (zlen (held m) < 2 * ln -> exists m', GetLargeBlock m = Ret (next_buffer m) m' /\
     zlen (held m') = zlen (held m) + 1) /\
  forall q b, buffers m !! q = Some b -> buf_length b = ls /\ exists m', PutBlock q m = Ret tt m'.
Proof.
  intros Hls Hln Hr. pose proof (reachable_pool_inv _ _ _ _ _ _ _ Hls Hr) as I.
  assert (Hlen : length (block_addresses large ls ln) = Z.to_nat ln)
    by (unfold block_addresses; by rewrite length_map, length_seq).
  split_and!.
  - apply (pi_twice _ _ _ _ I).
  - by eapply no_small_block.
  - intros Hmany Hnd.
    assert (Hsub : held m ⊆+ block_addresses large ls ln).
    { apply NoDup_submseteq; [done|]. intros a Ha.
      assert (a ∈ block_addresses large ls ln ++ block_addresses large ls ln) as [H|H]%elem_of_app; try done.
      rewrite <- (pi_twice _ _ _ _ I). apply elem_of_app. by right. }
    apply submseteq_length in Hsub. unfold zlen in Hmany. lia.
  - intros Hfew. destruct (large_inv _ _ _ m I) as [[E _]|(a & m' & E & EG & I' & Hb & _)].
    + pose proof (Permutation_length (pi_twice _ _ _ _ I)) as H.
      rewrite E, !length_app, Hlen in H. unfold zlen in Hfew. simpl in H. lia.
    + exists m'. split; [done|].
      pose proof (Permutation_length (pi_twice _ _ _ _ I)) as H.
      pose proof (Permutation_length (pi_twice _ _ _ _ I')) as H'.
      rewrite E, !length_app in H. rewrite !length_app in H'. unfold zlen. simpl in H. lia.
  - intros q b Hb. split; [by eapply (pi_length _ _ _ _ I)|].
    destruct (put_inv _ _ _ m q b Hls I Hb) as (m' & E & _). eauto.
Qed.
