(* ===== verification/ZxEvent.v ===== *)
(** * Events, timers and the engine of the C++ generation: [cppnf/event.hpp], [cppnf/timer.hpp], [cppnf/event_engine.hpp]

    The headers are read with the names their functions have where they are
    called ([is_readable] as [IsReadable], [Handler] of an event as [DoHandle]),
    with [fire_time_] where [Timer::Handler] says [next_time_], with [top] for
    [front] of the priority queue, without the call of [ModEvent], which nothing
    declares, and with the [continue] of [RunOnce], which is in no loop, as a
    return to the loop of [RunForever].  The clock and what [epoll_wait] answers
    are arguments of each turn. *)

From S2P Require Import Prelude.

(** ** [event.hpp] *)

Definition EVENT_READ : Z := 1.
Definition EVENT_WRITE : Z := 2.
Definition EVENT_ERROR : Z := 4.
Definition EVENT_CLOSE : Z := 8.
Definition EPOLLIN : Z := 1.
Definition EPOLLOUT : Z := 4.
Definition EPOLLERR : Z := 8.
Definition EPOLLHUP : Z := 16.

(** [class Event]; [cb_] names the callback, [None] a null pointer. *)
Record Event := mkEvent {
  fd_ : Z;
  events_ : Z;
  events_backup_ : Z;
  cb_ : option nat;
  cb_arg_ : N
}.
Definition new_Event (fd : Z) (cb : option nat) (arg : N) : Event := mkEvent fd 0 0 cb arg.
Definition set_events (v : Z) (e : Event) : Event := mkEvent (fd_ e) v (events_backup_ e) (cb_ e) (cb_arg_ e).

(** The four setters return the old events. *)
Definition SetReadEvent (e : Event) : Z * Event := (events_ e, set_events (Z.lor (events_ e) EVENT_READ) e).
Definition SetWriteEvent (e : Event) : Z * Event := (events_ e, set_events (Z.lor (events_ e) EVENT_WRITE) e).
Definition SetErrorEvent (e : Event) : Z * Event := (events_ e, set_events (Z.lor (events_ e) EVENT_ERROR) e).
Definition SetCloseEvent (e : Event) : Z * Event := (events_ e, set_events (Z.lor (events_ e) EVENT_CLOSE) e).

(** [events & flag] as a condition. *)
Definition has (events flag : Z) : bool := negb (Z.land events flag =? 0).
Definition IsReadable (e : Event) : bool := has (events_ e) EVENT_READ.
Definition IsWritable (e : Event) : bool := has (events_ e) EVENT_WRITE.
Definition IsClosed (e : Event) : bool := has (events_ e) EVENT_CLOSE.
Definition IsError (e : Event) : bool := has (events_ e) EVENT_ERROR.

Definition GetEpollEvents (e : Event) : Z :=
  let events := 0 in
  let events := if IsReadable e then Z.lor events EPOLLIN else events in
  let events := if IsWritable e then Z.lor events EPOLLOUT else events in
  let events := if IsClosed e then Z.lor events EPOLLHUP else events in
  if IsError e then Z.lor events EPOLLERR else events.

Definition SetEpollEvents (events : Z) (e : Event) : Event :=
  let e := set_events 0 e in
  let e := if has events EPOLLIN then (SetReadEvent e).2 else e in
  let e := if has events EPOLLOUT then (SetWriteEvent e).2 else e in
  let e := if has events EPOLLERR then (SetErrorEvent e).2 else e in
  if has events EPOLLHUP then (SetCloseEvent e).2 else e.

Definition BackupEvents (e : Event) : Event := mkEvent (fd_ e) (events_ e) (events_ e) (cb_ e) (cb_arg_ e).
Definition RestoreEvents (e : Event) : Event := set_events (events_backup_ e) e.
Definition ClearEvents (e : Event) : Event := mkEvent (fd_ e) 0 0 (cb_ e) (cb_arg_ e).

(** ** [timer.hpp] *)

(** [struct timeval]: seconds and microseconds. *)
Definition timeval : Type := Z * Z.
Definition micros (t : timeval) : Z := t.1 * 1000000 + t.2.
Definition normal (t : timeval) : Prop := 0 <= t.2 < 1000000.

(** [class Timer]. *)
Record Timer := mkTimer {
  id_ : Z;
  fire_time_ : timeval;
  timer_cb_ : nat
}.

(** [t1] fires later than [t2]. *)
Definition TimerCompare (t1 t2 : Timer) : bool :=
  let '(s1, u1) := fire_time_ t1 in
  let '(s2, u2) := fire_time_ t2 in
  if s2 <? s1 then true
  else if s1 =? s2 then u2 <? u1 else false.

(** [now] is what [gettimeofday] gives. *)
Definition SetTimer {S} (msec : Z) (now : timeval) (t : Timer) : M S Timer :=
  assert_ (0 <? msec) ;;!
  let s := (now.2 + msec) / 1000000 in
  let u := (now.2 + msec) mod 1000000 in
  ret (mkTimer (id_ t) (now.1 + s, u) (timer_cb_ t)).

(** The time is not up, as [Handler] tests it. *)
Definition not_up (now : timeval) (t : Timer) : bool :=
  if now.1 <? (fire_time_ t).1 then true
  else if (fire_time_ t).1 =? now.1 then 10000 <? (fire_time_ t).2 - now.2 else false.

(** ** [event_engine.hpp] *)

(** An engine and the objects it points to: the priority queue in the order of
    insertion, the timers, the events, the epoll set by descriptor. *)
Record Engine := mkEngine {
  timer_queue_ : list N;
  timers : gmap N Timer;
  event_objs : gmap N Event;
  epoll_set : gmap Z (N * Z)
}.
Definition with_queue q (s : Engine) : Engine := mkEngine q (timers s) (event_objs s) (epoll_set s).
Definition with_timers m (s : Engine) : Engine := mkEngine (timer_queue_ s) m (event_objs s) (epoll_set s).
Definition with_events m (s : Engine) : Engine := mkEngine (timer_queue_ s) (timers s) m (epoll_set s).
Definition with_epoll m (s : Engine) : Engine := mkEngine (timer_queue_ s) (timers s) (event_objs s) m.

Definition kMaxEpoll : Z := 1024 * 1024.

(** What [epoll_wait] does: nothing until the timeout, an error ([again] for
    [EAGAIN] and [EINTR]), or some events with the pointers they were added
    with. *)
Inductive WaitAnswer := WaitTimeout | WaitError (again : bool) | WaitEvents (evs : list (N * Z)).

(** What the system may answer: nothing comes of a negative timeout, and at
    least one and at most [kMaxEpoll] events are reported. *)
Definition wait_permitted (timeout : Z) (w : WaitAnswer) : Prop :=
  match w with
  | WaitTimeout => 0 <= timeout
  | WaitError _ => True
  | WaitEvents evs => 0 < zlen evs <= kMaxEpoll
  end.

(** The answers of one turn: the clock when it starts, in [Handler] and in
    [SetTimer], and that of [epoll_wait]. *)
Record Answers := mkAnswers {
  at_entry : timeval;
  at_handler : timeval;
  at_set : timeval;
  wait : WaitAnswer
}.

Section Engine.
  (** The callbacks of the program. *)
  Variable timer_callback : nat -> M Engine Z.
  Variable event_callback : nat -> N -> M Engine Z.

Definition timer_at (p : N) : M Engine Timer :=
  let! m := gets timers in of_option HUndefined (m !! p).
Definition event_at (p : N) : M Engine Event :=
  let! m := gets event_objs in of_option HUndefined (m !! p).

(** The element no other one is before; among equals the first inserted. *)
Fixpoint earliest (m : gmap N Timer) (best : N) (l : list N) : option N :=
  match l with
  | [] => Some best
  | p :: l =>
      match m !! best, m !! p with
      | Some tb, Some tp => earliest m (if TimerCompare tb tp then p else best) l
      | _, _ => None
      end
  end.

(** [top()] of the queue: of an empty one it is undefined. *)
Definition queue_top : M Engine N :=
  let! q := gets timer_queue_ in
  let! m := gets timers in
  match q with
  | [] => stop HUndefined
  | p :: l => of_option HUndefined (earliest m p l)
  end.
Fixpoint remove_first (p : N) (l : list N) : list N :=
  match l with
  | [] => []
  | q :: l => if (q =? p)%N then l else q :: remove_first p l
  end.
Definition queue_pop (p : N) : M Engine unit :=
  modify (fun s => with_queue (remove_first p (timer_queue_ s)) s).

Definition AddTimer (p : N) : M Engine unit :=
  modify (fun s => with_queue (timer_queue_ s ++ [p]) s).
(** The first timer is removed, whatever [id] is. *)
Definition DeleteTimer (id : Z) : M Engine N :=
  let! p := queue_top in queue_pop p ;;! ret p.

Definition Handler (p : N) (at_handler at_set : timeval) : M Engine Z :=
  let! t := timer_at p in
  if not_up at_handler t then ret (-1)
  else
    let! msec := timer_callback (timer_cb_ t) in
    if msec <? 0 then ret (-2)
    else if msec =? 0 then ret 1
    else
      let! t := timer_at p in
      let! t' := SetTimer msec at_set t in
      modify (fun s => with_timers (<[p := t']> (timers s)) s) ;;!
      ret 0.

(** [epoll_ctl] with [EPOLL_CTL_ADD] and [EPOLL_CTL_DEL]. *)
Definition AddEvent (p : N) : M Engine Z :=
  let! e := event_at p in
  let! m := gets epoll_set in
  match m !! fd_ e with
  | Some _ => ret (-1)
  | None =>
      if fd_ e <? 0 then ret (-2)
      else modify (with_epoll (<[fd_ e := (p, GetEpollEvents e)]> m)) ;;! ret 0
  end.
Definition DeleteEvent (fd : Z) : M Engine Z :=
  if fd <? 0 then ret (-2)
  else
    let! m := gets epoll_set in
    match m !! fd with
    | None => ret (-1)
    | Some _ => modify (with_epoll (delete fd m)) ;;! ret 0
    end.

Definition DoHandle (p : N) : M Engine Z :=
  let! e := event_at p in
  let! cb := of_option HAssert (cb_ e) in
  assert_ (negb (cb_arg_ e =? 0)%N) ;;!
  event_callback cb p.

(** The loop over the array, from the events that were reported on: the elements
    behind them were never written. *)
Fixpoint process_events (evs : list (N * Z)) (left : Z) : M Engine unit :=
  match evs with
  | [] => if 0 <? left then stop HUndefined else ret tt
  | (p, mask) :: evs =>
      assert_ (negb (p =? 0)%N) ;;!
      let! e := event_at p in
      modify (fun s => with_events (<[p := SetEpollEvents mask e]> (event_objs s)) s) ;;!
      let! r := DoHandle p in
      (if r <=? 0 then
         let! e := event_at p in
         DeleteEvent (fd_ e) ;;!
         modify (fun s => with_events (delete p (event_objs s)) s)
       else ret tt) ;;!
      let! e := event_at p in
      process_events evs (left - 1)
  end.

(** The timeout in milliseconds; the arithmetic is that of [long], the result is
    stored in an [int] twice. *)
Definition next_wake {S} (now : timeval) (t : Timer) : M S Z :=
  let wake := to_int (((fire_time_ t).1 - now.1) * 1000) in
  ret (to_int (wake + Z.quot ((fire_time_ t).2 - now.2) 1000)).

Definition RunOnce (a : Answers) : M Engine Z :=
  let! first_timer := queue_top in
  let! t := timer_at first_timer in
  let! timeout := next_wake (at_entry a) t in
  match wait a with
  | WaitTimeout =>
      let! p := queue_top in
      queue_pop p ;;!
      let! r := Handler p (at_handler a) (at_set a) in
      (if r =? 0 then AddTimer p
       else modify (fun s => with_timers (delete p (timers s)) s)) ;;!
      ret 1
  | WaitError again => if again then ret 0 else ret (-1)
  | WaitEvents evs => process_events evs kMaxEpoll ;;! ret 0
  end.

(** [RunForever] on the answers of its turns: [Some] when it returns, [None] when
    the answers are used up. *)
Fixpoint RunForever (l : list Answers) : M Engine (option Z) :=
  match l with
  | [] => ret None
  | a :: l =>
      let! r := RunOnce a in
      if r <? 0 then ret (Some (-1)) else RunForever l
  end.

End Engine.

(** ** The events of an event *)

Lemma has_pow m k : 0 <= k -> Z.land m (2 ^ k) = if Z.testbit m k then 2 ^ k else 0.
Proof.
  intros Hk. apply Z.bits_inj'. intros i Hi. rewrite Z.land_spec, Z.pow2_bits_eqb by done.
  destruct (Z.eqb_spec k i) as [->|Hne].
  - destruct (Z.testbit m i); [by rewrite Z.pow2_bits_true|by rewrite Z.bits_0].
  - rewrite andb_false_r. destruct (Z.testbit m k); [by rewrite Z.pow2_bits_false|by rewrite Z.bits_0].
Qed.

Lemma has_bit m k : 0 <= k -> has m (2 ^ k) = Z.testbit m k.
Proof.
  intros Hk. unfold has. rewrite has_pow by done. destruct (Z.testbit m k); [|done].
  by rewrite (proj2 (Z.eqb_neq (2 ^ k) 0)) by (apply Z.pow_nonzero; lia).
Qed.

Definition flag (b : bool) (v : Z) : Z := if b then v else 0.

(** The flags of an event and those of [epoll] correspond: what is set from the
    flags [epoll] reports and read back is exactly the four flags the class
    knows, and nothing of the events before. *)
Theorem epoll_events_round_trip mask e :
  let e' := SetEpollEvents mask e in
  GetEpollEvents e' = Z.land mask (EPOLLIN + EPOLLOUT + EPOLLERR + EPOLLHUP) /\
  SetEpollEvents (GetEpollEvents e') e = e' /\
  IsReadable e' = has mask EPOLLIN /\ IsWritable e' = has mask EPOLLOUT /\
  IsError e' = has mask EPOLLERR /\ IsClosed e' = has mask EPOLLHUP /\
  fd_ e' = fd_ e /\ events_backup_ e' = events_backup_ e.
Proof.
  cbv zeta.
  assert (Hmask : Z.land mask (EPOLLIN + EPOLLOUT + EPOLLERR + EPOLLHUP) =
    Z.lor (Z.lor (flag (has mask EPOLLIN) EPOLLIN) (flag (has mask EPOLLOUT) EPOLLOUT))
          (Z.lor (flag (has mask EPOLLERR) EPOLLERR) (flag (has mask EPOLLHUP) EPOLLHUP))).
  { change (EPOLLIN + EPOLLOUT + EPOLLERR + EPOLLHUP) with
      (Z.lor (Z.lor (2 ^ 0) (2 ^ 2)) (Z.lor (2 ^ 3) (2 ^ 4))).
    rewrite !Z.land_lor_distr_r, !has_pow by done.
    change EPOLLIN with (2 ^ 0). change EPOLLOUT with (2 ^ 2).
    change EPOLLERR with (2 ^ 3). change EPOLLHUP with (2 ^ 4).
    rewrite !has_bit by done. unfold flag. done. }
  rewrite Hmask. unfold SetEpollEvents.
  destruct (has mask EPOLLIN), (has mask EPOLLOUT), (has mask EPOLLERR), (has mask EPOLLHUP);
    destruct e; split_and!; reflexivity.
Qed.

(** ** Timers *)

(** A timer is set to fire [msec] microseconds, not milliseconds, from now. *)
Theorem timer_units {S} msec now t (s : S) :
  0 < msec -> normal now ->
  exists t', SetTimer msec now t s = Ret t' s /\ normal (fire_time_ t') /\
    micros (fire_time_ t') = micros now + msec /\ id_ t' = id_ t /\ timer_cb_ t' = timer_cb_ t.
Proof.
  intros Hm Hn. unfold SetTimer. rewrite bind_assert by lia. eexists. split; [reflexivity|].
  unfold normal, micros in *. cbn. Z.to_euclidean_division_equations. lia.
Qed.

(** The time between two clocks, in seconds, fits in an [int] of milliseconds. *)
Definition near (a b : timeval) : Prop := - 2000000 <= a.1 - b.1 <= 2000000.

Lemma next_wake_eq {S} now t (s : S) :
  normal now -> normal (fire_time_ t) -> near (fire_time_ t) now ->
  next_wake now t s =
    Ret (((fire_time_ t).1 - now.1) * 1000 + Z.quot ((fire_time_ t).2 - now.2) 1000) s.
Proof.
  intros Hn Ht Hnear. unfold next_wake, normal, near in *.
  rewrite (to_int_id (_ * 1000)) by (unfold int_min, int_max; lia).
  rewrite to_int_id; [done|]. unfold int_min, int_max. Z.to_euclidean_division_equations. lia.
Qed.

(** How long the engine waits for its first timer.  A timer that is still to
    come is waited for to the millisecond, and when the wait is over its callback
    is called; a timer that is overdue by a millisecond makes the timeout
    negative. *)
Theorem wake_up_on_time {S} now t (s : S) :
  normal now -> normal (fire_time_ t) -> near (fire_time_ t) now ->
  exists w, next_wake now t s = Ret w s /\
    (micros now <= micros (fire_time_ t) ->
       0 <= w /\ - 1000 < micros (fire_time_ t) - micros now - w * 1000 < 1000 /\
       forall now', normal now' -> micros now + w * 1000 <= micros now' -> not_up now' t = false) /\
    (micros (fire_time_ t) + 1000 <= micros now -> w < 0).
Proof.
  intros Hn Ht Hnear. eexists. split; [by apply next_wake_eq|].
  unfold normal, micros, near, not_up in *. split; [intros Hle; split_and!|].
  - Z.to_euclidean_division_equations. lia.
  - Z.to_euclidean_division_equations. lia.
  - Z.to_euclidean_division_equations. lia.
  - intros now' Hn' Hw.
    assert ((fire_time_ t).1 <= now'.1) by (Z.to_euclidean_division_equations; lia).
    rewrite (proj2 (Z.ltb_ge now'.1 _)) by done.
    destruct (Z.eqb_spec (fire_time_ t).1 now'.1); [|done].
    apply Z.ltb_ge. Z.to_euclidean_division_equations. lia.
  - Z.to_euclidean_division_equations. lia.
Qed.

Section Overdue.
  Variable timer_callback : nat -> M Engine Z.
  Variable event_callback : nat -> N -> M Engine Z.

(** Fewer events than the array has elements: the loop goes on behind them. *)
Lemma process_events_halts evs : forall left s,
  zlen evs < left -> exists h s', process_events event_callback evs left s = Halt h s'.
Proof.
  induction evs as [|[p mask] evs IH]; intros left s Hl.
  - cbn. rewrite (proj2 (Z.ltb_lt 0 left)) by (unfold zlen in Hl; simpl in Hl; lia).
    eexists _, _. reflexivity.
  - cbn [process_events].
    assert (Hl' : zlen evs < left - 1) by (unfold zlen in *; simpl in Hl; lia).
    assert (Hb : forall {A B} (m : M Engine A) (k : A -> M Engine B) s0,
      (forall a s1, exists h s', k a s1 = Halt h s') -> exists h s', bindM m k s0 = Halt h s').
    { intros A B m k s0 Hk. unfold bindM. destruct (m s0) as [a s1|h s1]; [apply Hk|eauto]. }
    apply Hb. intros _ s1. apply Hb. intros e s2. apply Hb. intros _ s3. apply Hb. intros r s4.
    apply Hb. intros _ s5. apply Hb. intros e' s6. by apply IH.
Qed.

(** The first timer [t] was due a millisecond before the turn began. *)
Definition overdue_turn (t : Timer) (a : Answers) : Prop :=
  normal (at_entry a) /\ near (fire_time_ t) (at_entry a) /\
  micros (fire_time_ t) + 1000 <= micros (at_entry a) /\
  (forall w, next_wake (at_entry a) t () = Ret w () -> wait_permitted w (wait a)) /\
  (forall evs, wait a = WaitEvents evs -> zlen evs < kMaxEpoll).

Lemma RunOnce_overdue p t a s :
  queue_top s = Ret p s -> timers s !! p = Some t -> normal (fire_time_ t) -> overdue_turn t a ->
  match wait a with
  | WaitTimeout => False
  | WaitError again => RunOnce timer_callback event_callback a s = Ret (if again then 0 else -1) s
  | WaitEvents _ => exists h s', RunOnce timer_callback event_callback a s = Halt h s'
  end.
Proof.
  intros Hq Ht Hn (Ha & Hnear & Hlate & Hp & Hfew). unfold RunOnce.
  rewrite (bind_Ret _ _ _ _ _ Hq).
  assert (Et : timer_at p s = Ret t s) by (unfold timer_at; by rewrite bind_gets, Ht).
  rewrite (bind_Ret _ _ _ _ _ Et), (bind_Ret _ _ _ _ _ (next_wake_eq (at_entry a) t s Ha Hn Hnear)).
  specialize (Hp _ (next_wake_eq (at_entry a) t () Ha Hn Hnear)).
  destruct (wait a) as [|again|evs] eqn:Ew.
  - exfalso. destruct (wake_up_on_time (at_entry a) t () Ha Hn Hnear) as (w & E & _ & Hneg).
    rewrite (next_wake_eq (at_entry a) t () Ha Hn Hnear) in E. injection E as E.
    specialize (Hneg Hlate). simpl in Hp. lia.
  - by destruct again.
  - destruct (process_events_halts evs kMaxEpoll s) as (h & s' & E); [by apply Hfew|].
    exists h, s'. unfold bindM. by rewrite E.
Qed.

(** C33: an overdue timer is never called.  When the first timer of the queue is a
    millisecond late at every turn, the turns are run up to the first that is not
    interrupted: while the waits are interrupted nothing changes, a failed wait
    makes [RunForever] return -1 with nothing changed, and the report of events
    ends the process. *)
Theorem overdue_timer_never_called p t l s :
  queue_top s = Ret p s -> timers s !! p = Some t -> normal (fire_time_ t) ->
  Forall (overdue_turn t) l ->
  match RunForever timer_callback event_callback l s with
  | Ret r s' => s' = s /\
      (r = None /\ Forall (fun a => wait a = WaitError true) l \/
       r = Some (-1) /\ exists l1 a l2, l = l1 ++ a :: l2 /\
         Forall (fun b => wait b = WaitError true) l1 /\ wait a = WaitError false)
  | Halt _ _ => exists l1 a l2 evs, l = l1 ++ a :: l2 /\
      Forall (fun b => wait b = WaitError true) l1 /\ wait a = WaitEvents evs
  end.
Proof.
  intros Hq Ht Hn. induction l as [|a l IH]; intros Hl.
  { cbn. split; [done|by left]. }
  inversion_clear Hl as [|? ? Ha Hl'].
  cbn [RunForever]. pose proof (RunOnce_overdue p t a s Hq Ht Hn Ha) as H. unfold bindM.
  destruct (wait a) as [|[|]|evs] eqn:Ew; [done|..].
  - rewrite H. cbn. specialize (IH Hl'). destruct (RunForever _ _ l s) as [r s1|h s1].
    + destruct IH as [-> [[-> F]|[-> (l1 & b & l2 & -> & F & Eb)]]]; split; try done; [left|right].
      * split; [done|by constructor].
      * split; [done|]. exists (a :: l1), b, l2. split_and!; [done|by constructor|done].
    + destruct IH as (l1 & b & l2 & evs & -> & F & Eb).
      exists (a :: l1), b, l2, evs. split_and!; [done|by constructor|done].
  - rewrite H. split; [done|]. right. split; [done|]. by exists [], a, l.
  - destruct H as (h & s' & ->). by exists [], a, l, evs.
Qed.
End Overdue.
