(* ===== verification/ZxSocket.v ===== *)
(** * Sockets of the C++ generation: [cppnf/async_socket.hpp], [async_tcp_socket.hpp], [async_lv_socket.hpp], [async_udp_socket.hpp]

    The headers are read with [PutBlock] where they call [ReturnBlock], with the
    function of [LVSocket] that the base class calls [ExtractMessageSize], with
    [pop_front] for [pop] of a list, and with [msg_in_recv_] for the member of
    [UDPSocket].  A socket has the pool of [ZxPool]; what was handed to the kernel
    is kept as [wire].  Sending is right ([writable_sends_front]) but for the
    moment it closes; nothing is ever received ([receive_never_starts]). *)

From S2P Require Import Prelude Wire ZxPool.

(** [AsyncSocket::State]. *)
Inductive SocketState := S_OK | S_TO_CLOSE | S_TO_CLOSE_AFTER_SEND_ALL_DATA.
#[export] Instance SocketState_eq_dec : EqDecision SocketState.
Proof. solve_decision. Defined.

Record TCPMessage := mkTCPMessage { msg_id : Z; msg_data : N }.

(** [AsyncSocket] and [AsyncTCPDataSocket]. *)
Record DataSocket := mkDataSocket {
  state_ : SocketState;
  msg_in_recv_ : option TCPMessage;
  msg_in_recv_size_ : Z;
  send_msg_list_ : list TCPMessage;
  cur_id_ : Z
}.
Definition set_state v (x : DataSocket) : DataSocket :=
  mkDataSocket v (msg_in_recv_ x) (msg_in_recv_size_ x) (send_msg_list_ x) (cur_id_ x).
Definition set_msg v (x : DataSocket) : DataSocket :=
  mkDataSocket (state_ x) v (msg_in_recv_size_ x) (send_msg_list_ x) (cur_id_ x).
Definition set_msg_size v (x : DataSocket) : DataSocket :=
  mkDataSocket (state_ x) (msg_in_recv_ x) v (send_msg_list_ x) (cur_id_ x).
Definition set_send_list v (x : DataSocket) : DataSocket :=
  mkDataSocket (state_ x) (msg_in_recv_ x) (msg_in_recv_size_ x) v (cur_id_ x).
Definition set_cur_id v (x : DataSocket) : DataSocket :=
  mkDataSocket (state_ x) (msg_in_recv_ x) (msg_in_recv_size_ x) (send_msg_list_ x) v.

(** A socket, the memory it shares, and the bytes the kernel has taken. *)
Record ZState := mkZState { zmem : Mem; sock : DataSocket; wire : list byte }.
Definition with_zmem m (s : ZState) : ZState := mkZState m (sock s) (wire s).
Definition with_sock x (s : ZState) : ZState := mkZState (zmem s) x (wire s).
Definition with_wire w (s : ZState) : ZState := mkZState (zmem s) (sock s) w.
Definition on_sock (f : DataSocket -> DataSocket) : M ZState unit :=
  modify (fun s => with_sock (f (sock s)) s).

(** An operation on the memory. *)
Definition on_mem {A} (m : M Mem A) : M ZState A := fun s =>
  match m (zmem s) with
  | Ret a m' => Ret a (with_zmem m' s)
  | Halt h m' => Halt h (with_zmem m' s)
  end.

Definition kMaxSendBufferNum : Z := 1000.

(** The bytes between [head] and [tail] of a buffer. *)
Definition slice (m : Mem) (q : N) : option (list byte) :=
  match buffers m !! q with
  | None => None
  | Some b =>
      match bytes_at m !! start b with
      | None => None
      | Some block =>
          if decide (0 <= head b <= tail b /\ tail b <= zlen block)
          then Some (take (Z.to_nat (tail b - head b)) (drop (Z.to_nat (head b)) block))
          else None
      end
  end.

Section Tcp.

Definition GetID : M ZState Z :=
  let! x := gets sock in
  on_sock (set_cur_id ((cur_id_ x + 1) mod 2 ^ 64)) ;;!
  ret (cur_id_ x).

(** 0 when the list is full. *)
Definition SendMessage (buf : N) : M ZState Z :=
  let! x := gets sock in
  if zlen (send_msg_list_ x) =? kMaxSendBufferNum then ret 0
  else
    let! id := GetID in
    on_sock (fun x => set_send_list (send_msg_list_ x ++ [mkTCPMessage id buf]) x) ;;!
    ret id.

Definition CloseAfterSendAllData : M ZState Z := on_sock (set_state S_TO_CLOSE_AFTER_SEND_ALL_DATA) ;;! ret 0.
Definition CloseNow : M ZState Z := on_sock (set_state S_TO_CLOSE) ;;! ret 0.

(** The vectors [OnWritable] fills. *)
Fixpoint vectors (l : list TCPMessage) : M ZState (list (list byte)) :=
  match l with
  | [] => ret []
  | msg :: l =>
      let! m := gets zmem in
      let! v := of_option HUndefined (slice m (msg_data msg)) in
      let! vs := vectors l in
      ret (v :: vs)
  end.

(** The loop that takes what was sent from the list; its condition is only
    [left > 0], so it may run behind the end. *)
Fixpoint trim (l : list TCPMessage) (left : Z) : M ZState (list TCPMessage * Z) :=
  if left <=? 0 then ret (l, left)
  else match l with
  | [] => stop HUndefined
  | msg :: l' =>
      let! buf := on_mem (buffer_at (msg_data msg)) in
      let len := tail buf - head buf in
      if len <=? left then
        on_mem (PutBlock (msg_data msg)) ;;! trim l' (left - len)
      else
        on_mem (update_buffer (msg_data msg) (set_head (head buf + left))) ;;! ret (l, 0)
  end.

(** [writev_ret] is what [writev] returns. *)
Definition OnWritable (writev_ret : Z) : M ZState Z :=
  let! x := gets sock in
  match send_msg_list_ x with
  | [] => ret (-1)
  | _ =>
      let! vs := vectors (send_msg_list_ x) in
      if writev_ret <? 0 then ret (-1)
      else if writev_ret =? 0 then ret (-2)
      else
        modify (fun s => with_wire (wire s ++ take (Z.to_nat writev_ret) (concat vs)) s) ;;!
        let! r := trim (send_msg_list_ x) writev_ret in
        on_sock (set_send_list r.1) ;;!
        assert_ (r.2 =? 0) ;;!
        ret (match state_ x with S_OK => 0 | _ => 2 end)
  end.

(** [ExtractMessageSize] of [LVSocket]. *)
Definition MessageSize : M ZState Z :=
  let! x := gets sock in
  match msg_in_recv_ x with
  | None => ret 0
  | Some msg =>
      let! b := on_mem (buffer_at (msg_data msg)) in
      if 4 <=? tail b - head b then
        let! m := gets zmem in
        let! block := of_option HUndefined (bytes_at m !! start b) in
        let! v := of_option HUndefined (if 0 <=? head b then load32 block (Z.to_nat (head b)) else None) in
        on_sock (set_msg_size (bswap32 v)) ;;! ret (bswap32 v)
      else ret 0
  end.

(** What [read] does: an error, the end of the connection, or bytes. *)
Inductive ReadAnswer := ReadFails | ReadEnd | ReadBytes (data : list byte).

(** [memcpy] between two blocks, and what [read] stores. *)
Definition write_block (a : Z) (off : Z) (data : list byte) : M Mem unit :=
  let! m := gets bytes_at in
  let! block := of_option HUndefined (m !! a) in
  let! block' := of_option HUndefined (if 0 <=? off then overwrite block (Z.to_nat off) data else None) in
  modify (with_bytes (<[a := block']> m)).

(** The message is moved into a large block. *)
Definition enlarge (msg : TCPMessage) (b : Buffer) : M ZState unit :=
  let! newbuf := on_mem GetLargeBlock in
  let! nb := on_mem (buffer_at newbuf) in
  let! m := gets zmem in
  let! data := of_option HUndefined (slice m (msg_data msg)) in
  (if (start nb =? start b) && (0 <? zlen data) then stop HUndefined
   else on_mem (write_block (start nb) 0 data)) ;;!
  on_mem (update_buffer newbuf (set_tail (tail b - head b))) ;;!
  on_mem (PutBlock (msg_data msg)) ;;!
  on_sock (set_msg (Some (mkTCPMessage (msg_id msg) newbuf))).

(** The body of the loop of [OnReadable] runs once: [errno] differs from
    [EAGAIN] or from [EINTR], always, and every other way out is a [break].  [id]
    is what the new message holds. *)
Definition OnReadable (id : Z) (answer : ReadAnswer) : M ZState Z :=
  let! x := gets sock in
  (match msg_in_recv_ x with
   | Some _ => ret tt
   | None =>
       assert_ (msg_in_recv_size_ x =? 0) ;;!
       let! q := on_mem GetSmallBlock in
       on_sock (set_msg (Some (mkTCPMessage id q)))
   end) ;;!
  MessageSize ;;!
  let! x := gets sock in
  let! msg := of_option HUndefined (msg_in_recv_ x) in
  let! b := on_mem (buffer_at (msg_data msg)) in
  let! m := gets zmem in
  if (0 <? msg_in_recv_size_ x) && (buf_length b <? msg_in_recv_size_ x)
     && (large_block_size (pool m) <? msg_in_recv_size_ x)
  then ret (-1)
  else
    (if (0 <? msg_in_recv_size_ x) && (buf_length b <? msg_in_recv_size_ x)
     then enlarge msg b else ret tt) ;;!
    let! x := gets sock in
    let! msg := of_option HUndefined (msg_in_recv_ x) in
    let! b := on_mem (buffer_at (msg_data msg)) in
    match answer with
    | ReadFails => ret (-2)
    | ReadEnd => ret (-3)
    | ReadBytes data =>
        on_mem (write_block (start b) (tail b) (take (Z.to_nat (buf_length b - tail b)) data)) ;;!
        if msg_in_recv_size_ x =? tail b - head b then
          ret (match state_ x with S_OK => 0 | _ => 2 end)
        else ret 1
    end.

Definition GetMessage : M ZState (option TCPMessage) :=
  let! x := gets sock in
  let! msg := of_option HUndefined (msg_in_recv_ x) in
  let! b := on_mem (buffer_at (msg_data msg)) in
  if tail b - head b =? msg_in_recv_size_ x then
    on_sock (fun x => set_msg_size 0 (set_msg None x)) ;;! ret (Some msg)
  else ret None.

(** The destructor: the iterator of its loop is not moved on.  [None] when the
    fuel is used up. *)
Fixpoint destroy_loop (fuel : nat) (l : list TCPMessage) : M ZState (option unit) :=
  match l with
  | [] => ret (Some tt)
  | msg :: _ =>
      match fuel with
      | O => ret None
      | S fuel => on_mem (PutBlock (msg_data msg)) ;;! destroy_loop fuel l
      end
  end.
Definition destroy_DataSocket (fuel : nat) : M ZState (option unit) :=
  let! x := gets sock in
  (match msg_in_recv_ x with
   | Some msg => on_mem (PutBlock (msg_data msg))
   | None => ret tt
   end) ;;!
  destroy_loop fuel (send_msg_list_ x).

End Tcp.

(** ** Descriptors

    [sk], [bind], [listen], [accept], [connect] are what the system calls
    return. *)

Definition Nonblock (getfl setfl : Z) : Z :=
  if getfl <? 0 then -1 else if setfl <? 0 then -2 else 0.
Definition BindOn (sk bind : Z) : Z := if sk <? 0 then -1 else if bind <? 0 then -2 else 0.
Definition Listen (listen : Z) : Z := if listen <? 0 then -1 else 0.
Definition OnAcceptable (accept : Z) : Z * option Z := if accept <? 0 then (-1, None) else (0, Some accept).
Definition ConnectTo (connect : Z) (eagain : bool) : Z :=
  if connect <? 0 then (if eagain then 1 else -1) else 0.
Definition ConnectTo_from (sk bind connect : Z) (eagain : bool) : Z :=
  if BindOn sk bind <? 0 then -1 else ConnectTo connect eagain.

(** ** [async_udp_socket.hpp] *)

Record UDPMessage := mkUDPMessage { udp_data : N; udp_addr : Z }.

(** A datagram socket; the messages are objects of their own, at addresses. *)
Record UState := mkUState {
  umem : Mem;
  udp_msg_in_recv_ : option UDPMessage;
  udp_send_list_ : list UDPMessage;
  datagrams : list (Z * list byte)
}.
Definition with_umem m (s : UState) : UState := mkUState m (udp_msg_in_recv_ s) (udp_send_list_ s) (datagrams s).
Definition with_recv v (s : UState) : UState := mkUState (umem s) v (udp_send_list_ s) (datagrams s).
Definition with_send_list v (s : UState) : UState := mkUState (umem s) (udp_msg_in_recv_ s) v (datagrams s).
Definition with_datagrams v (s : UState) : UState := mkUState (umem s) (udp_msg_in_recv_ s) (udp_send_list_ s) v.
Definition on_umem {A} (m : M Mem A) : M UState A := fun s =>
  match m (umem s) with
  | Ret a m' => Ret a (with_umem m' s)
  | Halt h m' => Halt h (with_umem m' s)
  end.

Definition kMaxUDPSendMessageNum : Z := 1000.

Section Udp.

(** Any error is -2; the block of a failed receive is not given back. *)
Definition udp_OnReadable (from : Z) (answer : ReadAnswer) : M UState Z :=
  let! r := gets udp_msg_in_recv_ in
  assert_ (match r with None => true | Some _ => false end) ;;!
  let! buf := on_umem GetSmallBlock in
  if (buf =? 0)%N then ret (-1)
  else
    let! b := on_umem (buffer_at buf) in
    match answer with
    | ReadFails => ret (-2)
    | ReadEnd => ret 0
    | ReadBytes data =>
        let data := take (Z.to_nat (buf_length b)) data in
        if zlen data =? 0 then ret 0
        else
          on_umem (write_block (start b) 0 data) ;;!
          on_umem (update_buffer buf (set_tail (tail b + zlen data))) ;;!
          modify (with_recv (Some (mkUDPMessage buf from))) ;;!
          ret 1
    end.

(** [sendto_ret] is what [sendto] returns; the message is taken from the list
    first, and its buffer never given back. *)
Definition udp_OnWritable (sendto_ret : Z) : M UState Z :=
  let! l := gets udp_send_list_ in
  match l with
  | [] => stop HUndefined
  | msg :: l =>
      modify (with_send_list l) ;;!
      let! b := on_umem (buffer_at (udp_data msg)) in
      assert_ (head b =? 0) ;;!
      let! m := gets umem in
      let! data := of_option HUndefined (slice m (udp_data msg)) in
      if 0 <? sendto_ret then
        modify (fun s => with_datagrams (datagrams s ++ [(udp_addr msg, data)]) s) ;;!
        ret (if zlen l =? 0 then 1 else 0)
      else if sendto_ret <? 0 then ret (-2) else ret 0
  end.

Definition udp_SendMessage (msg : UDPMessage) : M UState Z :=
  let! l := gets udp_send_list_ in
  if zlen l <? kMaxUDPSendMessageNum then modify (with_send_list (l ++ [msg])) ;;! ret 0
  else ret (-1).

Definition udp_Messagize : M UState UDPMessage :=
  let! r := gets udp_msg_in_recv_ in
  let! msg := of_option HAssert r in
  modify (with_recv None) ;;! ret msg.

End Udp.

(** ** Sending *)

Section Sending.
  Variables ls ln large : Z.
  Hypothesis size_pos : 0 < ls.

(** The bytes of the queue [l], message by message. *)
Definition slices (m : Mem) (l : list TCPMessage) : option (list (list byte)) :=
  mapM (fun msg => slice m (msg_data msg)) l.

Lemma slices_cons m msg l vs : slices m (msg :: l) = Some vs <->
  exists v vs', slice m (msg_data msg) = Some v /\ slices m l = Some vs' /\ vs = v :: vs'.
Proof.
  unfold slices. cbn. split.
  - intros H. apply bind_Some in H as (v & Hv & H). apply bind_Some in H as (vs' & Hvs & H).
    injection H as <-. eauto.
  - intros (v & vs' & Hv & Hvs & ->). by rewrite Hv; cbn; rewrite Hvs.
Qed.

(** The queue can be sent: its buffers exist, none is there twice, and their
    bytes are in their blocks. *)
Definition sendable (m : Mem) (l : list TCPMessage) (vs : list (list byte)) : Prop :=
  base.NoDup (msg_data <$> l) /\ slices m l = Some vs.

Lemma slice_inv m q v : slice m q = Some v ->
  exists b block, buffers m !! q = Some b /\ bytes_at m !! start b = Some block /\
    0 <= head b <= tail b /\ tail b <= zlen block /\
    v = take (Z.to_nat (tail b - head b)) (drop (Z.to_nat (head b)) block) /\
    zlen v = tail b - head b.
Proof.
  unfold slice. destruct (buffers m !! q) as [b|]; [|done].
  destruct (bytes_at m !! start b) as [block|] eqn:E; [|done]. case_decide as H; [|done].
  intros [= <-]. exists b, block. split_and!; try done; try lia.
  unfold zlen in *. rewrite length_take, length_drop. lia.
Qed.

Lemma slice_same m m' q : buffers m' !! q = buffers m !! q -> bytes_at m' = bytes_at m ->
  slice m' q = slice m q.
Proof. intros Hb Hm. unfold slice. by rewrite Hb, Hm. Qed.

Lemma slices_same m m' l :
  (forall q, q ∈ msg_data <$> l -> buffers m' !! q = buffers m !! q) -> bytes_at m' = bytes_at m ->
  slices m' l = slices m l.
Proof.
  intros Hb Hm. unfold slices. induction l as [|msg l IH]; [done|]. cbn.
  rewrite (slice_same m m') by (try apply Hb; try done; by left).
  rewrite IH; [done|]. intros q Hq. apply Hb. by right.
Qed.

Lemma on_mem_eq {A B} (m : M Mem A) (k : A -> M ZState B) s a m' :
  m (zmem s) = Ret a m' -> bindM (on_mem m) k s = k a (with_zmem m' s).
Proof. intros H. unfold bindM, on_mem. by rewrite H. Qed.

Lemma vectors_eq l vs s : slices (zmem s) l = Some vs -> vectors l s = Ret vs s.
Proof.
  revert vs. induction l as [|msg l IH]; intros vs H; [by injection H as <-|].
  apply slices_cons in H as (v & vs' & Hv & Hvs & ->). cbn [vectors].
  rewrite bind_gets, (bind_of_option _ _ _ _ _ Hv). by rewrite (bind_Ret _ _ _ _ _ (IH vs' Hvs)).
Qed.

(** [k] messages of the queue whose bytes are [vs] were sent whole when [n] bytes
    were sent: a message that has bytes is among them exactly when all its bytes
    are among the first [n]. *)
Definition sent_whole (vs : list (list byte)) (n : Z) (k : nat) : Prop :=
  forall j v, vs !! j = Some v -> 0 < zlen v -> ((j < k)%nat <-> zlen (concat (take (S j) vs)) <= n).

Lemma sent_whole_none v vs n : n < zlen v \/ n = 0 -> 0 <= n -> sent_whole (v :: vs) n 0.
Proof.
  intros Hn H0 [|j] w E Hw; cbn in E |- *; rewrite zlen_app.
  - injection E as ->. unfold zlen in *. simpl. lia.
  - assert (H : zlen w <= zlen (concat (take (S j) vs)));
      [|unfold zlen in H, Hw, Hn, H0 |- *; simpl; unfold zlen in *; lia].
    rewrite (take_S_r _ _ w E), concat_app, zlen_app. cbn [concat]. rewrite app_nil_r.
    unfold zlen. lia.
Qed.

Lemma sent_whole_cons v vs n k : zlen v <= n -> sent_whole vs (n - zlen v) k -> sent_whole (v :: vs) n (S k).
Proof.
  intros Hn H [|j] w E Hw; cbn in E.
  - injection E as ->. rewrite firstn_cons, firstn_O. cbn [concat]. rewrite app_nil_r. lia.
  - rewrite firstn_cons. cbn [concat]. rewrite zlen_app. specialize (H j w E Hw). lia.
Qed.

(** What the loop leaves of the queue when [n] bytes of it were sent. *)
Record trimmed (m : Mem) (l : list TCPMessage) (vs : list (list byte)) (n : Z)
    (m' : Mem) (l' : list TCPMessage) : Prop := {
  tr_suffix : exists k, l' = drop k l /\ sent_whole vs n k /\
    forall q, q ∈ take k (msg_data <$> l) -> buffers m' !! q = None;
  tr_bytes : exists vs', sendable m' l' vs' /\ concat vs' = drop (Z.to_nat n) (concat vs);
  tr_inv : pool_inv ls ln large m';
  tr_mem : bytes_at m' = bytes_at m;
  tr_other q : q ∉ msg_data <$> l -> buffers m' !! q = buffers m !! q
}.

Lemma trim_stop l left s : left <= 0 -> trim l left s = Ret (l, left) s.
Proof. intros H. destruct l; cbn [trim]; by rewrite (proj2 (Z.leb_le _ _)). Qed.

Lemma trim_eq l : forall vs n s,
  pool_inv ls ln large (zmem s) -> sendable (zmem s) l vs -> 0 <= n <= zlen (concat vs) ->
  exists l' m', trim l n s = Ret (l', 0) (with_zmem m' s) /\ trimmed (zmem s) l vs n m' l'.
Proof.
  induction l as [|msg l IH]; intros vs n s I [Hnd Hs] Hn.
  { injection Hs as <-. unfold zlen in Hn. simpl in Hn. assert (n = 0) as -> by lia. exists [], (zmem s).
    split; [by destruct s|]. split; try done.
    - exists 0%nat. split_and!; [done|done|]. by intros q ?%not_elem_of_nil.
    - exists []. by split. }
  pose proof Hs as Hs0. apply slices_cons in Hs as (v & vs' & Hv & Hvs & ->).
  destruct (decide (n = 0)) as [->|Hn0].
  { exists (msg :: l), (zmem s). split; [rewrite trim_stop by lia; by destruct s|]. split; try done.
    - exists 0%nat. split_and!; [done|apply sent_whole_none; lia|]. by intros q ?%not_elem_of_nil.
    - by exists (v :: vs'). }
  destruct (slice_inv _ _ _ Hv) as (b & block & Hb & Hblock & Hht & Htl & Ev & Hlen).
  apply list.NoDup_cons in Hnd as [Hni Hnd]. cbn [trim].
  rewrite (proj2 (Z.leb_gt n 0)) by lia.
  rewrite (on_mem_eq _ _ s b (zmem s)) by (by apply buffer_at_eq).
  replace (with_zmem (zmem s) s) with s by (by destruct s). rewrite <- Hlen.
  cbn [concat] in Hn. rewrite zlen_app in Hn.
  destruct (Z.leb_spec (zlen v) n) as [Hle|Hgt].
  - destruct (put_inv ls ln large (zmem s) (msg_data msg) b size_pos I Hb) as (m1 & E1 & I1 & B1 & Y1).
    rewrite (on_mem_eq _ _ s tt m1 E1).
    assert (Hsame : slices m1 l = Some vs').
    { rewrite <- Hvs. apply slices_same; [|done]. intros q Hq. rewrite B1.
      apply lookup_delete_ne. by intros <-. }
    destruct (IH vs' (n - zlen v) (with_zmem m1 s)) as (l' & m' & E & T); [done|by split|lia|].
    exists l', m'. split; [exact E|]. destruct T as [(k & Ek & Hw & Hk) [vs2 [Hs2 E2]] T3 T4 T5]. split.
    + exists (S k). split_and!; [done|by apply sent_whole_cons|]. intros q. cbn [fmap list_fmap take]. rewrite list.elem_of_cons.
      intros [->|Hq]; [|by apply Hk]. rewrite T5 by done. cbn. rewrite B1. apply lookup_delete_eq.
    + exists vs2. split; [done|]. rewrite E2. cbn [concat].
      rewrite drop_app_ge by (unfold zlen in *; lia). f_equal. unfold zlen. lia.
    + done.
    + by rewrite T4.
    + intros q. cbn [fmap list_fmap]. rewrite list.elem_of_cons. intros Hq.
      rewrite T5 by tauto. cbn. rewrite B1. apply lookup_delete_ne. intros E0. apply Hq. by left.
  - rewrite (on_mem_eq _ _ s tt _ (update_buffer_eq (zmem s) (msg_data msg) b _ Hb)).
    eexists (msg :: l), _. split; [reflexivity|]. set (m' := with_buffers _ (zmem s)). split.
    + exists 0%nat. split_and!; [done|apply sent_whole_none; lia|]. by intros q ?%not_elem_of_nil.
    + exists (drop (Z.to_nat n) v :: vs'). split.
      * split; [by apply list.NoDup_cons|]. apply slices_cons. eexists _, _. split_and!; [| |done].
        -- unfold slice. cbn [buffers m' with_buffers]. rewrite lookup_insert_eq.
           cbn [start set_head]. change (bytes_at m') with (bytes_at (zmem s)). rewrite Hblock. cbn [head tail set_head].
           rewrite decide_True by lia. f_equal. rewrite Ev. rewrite skipn_firstn_comm, drop_drop.
           f_equal; [lia|f_equal; lia].
        -- rewrite <- Hvs. apply slices_same; [|done]. intros q Hq. cbn. apply lookup_insert_ne.
           by intros <-.
      * cbn [concat]. rewrite drop_app_le; [done|]. unfold zlen in Hgt. lia.
    + by eapply update_inv.
    + done.
    + intros q. cbn [fmap list_fmap]. rewrite list.elem_of_cons. intros Hq. cbn.
      apply lookup_insert_ne. intros E0. apply Hq. by left.
Qed.

(** C31: sending.  When the kernel takes [n] bytes, they are the first [n] bytes of
    the queue, the rest of the queue is what remains to be sent, in order, and a
    message that has bytes leaves the list, its buffer given back, exactly when all
    its bytes were sent.  The result asks to close as soon as closing was asked
    for, whether everything was sent or not. *)
Theorem writable_sends_front s vs n :
  pool_inv ls ln large (zmem s) -> sendable (zmem s) (send_msg_list_ (sock s)) vs ->
  0 < n <= zlen (concat vs) ->
  exists s', OnWritable n s = Ret (if decide (state_ (sock s) = S_OK) then 0 else 2) s' /\
    wire s' = wire s ++ take (Z.to_nat n) (concat vs) /\
    (exists vs', sendable (zmem s') (send_msg_list_ (sock s')) vs' /\
       concat vs = take (Z.to_nat n) (concat vs) ++ concat vs') /\
    (exists k, send_msg_list_ (sock s') = drop k (send_msg_list_ (sock s)) /\
       sent_whole vs n k /\
       forall q, q ∈ take k (msg_data <$> send_msg_list_ (sock s)) -> buffers (zmem s') !! q = None) /\
    pool_inv ls ln large (zmem s').
Proof.
  intros I Hs Hn. unfold OnWritable. rewrite bind_gets.
  destruct (send_msg_list_ (sock s)) as [|msg l] eqn:El.
  { destruct Hs as [_ [= <-]]. unfold zlen in Hn. simpl in Hn. lia. }
  rewrite <- El in *. rewrite (bind_Ret _ _ _ _ _ (vectors_eq _ vs s (proj2 Hs))).
  rewrite (proj2 (Z.ltb_ge n 0)), (proj2 (Z.eqb_neq n 0)) by lia. rewrite bind_modify.
  set (s1 := with_wire _ s).
  destruct (trim_eq (send_msg_list_ (sock s)) vs n s1) as (l' & m' & E & T); [done|done|lia|].
  rewrite (bind_Ret _ _ _ _ _ E). cbn [fst snd]. unfold on_sock. rewrite bind_modify.
  rewrite bind_assert by done. destruct T as [T1 [vs' [Hs' Ec]] T3 T4 T5].
  eexists. split; [unfold ret; f_equal; by destruct (state_ (sock s))|]. cbn.
  split_and!; [done| |done|done]. exists vs'. split; [done|]. by rewrite Ec, take_drop.
Qed.

End Sending.

(** ** Receiving *)

(** Nothing is ever received.  In every state the pool can reach, the first
    [OnReadable] of an LV socket reads through the null pointer it got for a small
    block, and the one of a datagram socket is -1 and takes no datagram. *)
Theorem receive_never_starts ls ln ss sn large small s u id from answer :
  0 < ls -> pool_reachable ls ln ss sn large small (zmem s) -> umem u = zmem s ->
  msg_in_recv_ (sock s) = None -> msg_in_recv_size_ (sock s) = 0 -> udp_msg_in_recv_ u = None ->
  (exists s', OnReadable id answer s = Halt HUndefined s') /\
  udp_OnReadable from answer u = Ret (-1) u.
Proof.
  intros Hls Hr Hu Hm Hz Hum. pose proof (reachable_pool_inv _ _ _ _ _ _ _ Hls Hr) as I.
  pose proof (no_small_block _ _ _ _ I) as E. split.
  - unfold OnReadable. rewrite bind_gets, Hm, Hz. cbn [Z.eqb].
    rewrite (bind_bind_Ret _ _ _ _ _ _ (eq_refl : assert_ true s = Ret tt s)).
    assert (Es : on_mem GetSmallBlock s = Ret 0%N s) by (unfold on_mem; rewrite E; by destruct s).
    rewrite (bind_bind_Ret _ _ _ _ _ _ Es). unfold on_sock. rewrite bind_modify.
    unfold MessageSize, bindM at 1 2, gets. cbn [sock with_sock msg_in_recv_ set_msg].
    assert (Eb : buffer_at 0%N (zmem s) = Halt HUndefined (zmem s))
      by (unfold buffer_at; by rewrite bind_gets, (pi_null _ _ _ _ I)).
    eexists. unfold bindM at 1, on_mem. cbn [zmem with_sock msg_data]. rewrite Eb. reflexivity.
  - unfold udp_OnReadable. rewrite bind_gets, Hum. rewrite bind_assert by done.
    assert (Es : on_umem GetSmallBlock u = Ret 0%N u) by (unfold on_umem; rewrite Hu, E, <- Hu; by destruct u).
    by rewrite (bind_Ret _ _ _ _ _ Es).
Qed.

(** The destructor of a socket with messages to send does not end: its loop gives
    the first buffer back again and again. *)
Lemma destroy_never_returns fuel : forall msg l s s',
  destroy_loop fuel (msg :: l) s <> Ret (Some tt) s'.
Proof.
  induction fuel as [|fuel IH]; intros msg l s s'; cbn [destroy_loop]; [done|].
  intros (u & s1 & _ & E)%bind_Ret_inv. by apply IH in E.
Qed.
