(* ===== verification/ZxDemo.v ===== *)
(** * The pool, the timers and the sockets of cppnf on concrete states

    A pool of two blocks, an engine with a timer that is late, sockets with two
    messages to send; the theorems of ZxPool, ZxEvent and ZxSocket are applied
    there. *)

From S2P Require Import Prelude Wire ZxPool ZxEvent ZxSocket.

(** ** A pool of two blocks of eight bytes *)

Definition eight : list byte := [x61; x62; x63; x64; x65; x66; x67; x68].
Definition demo_blocks : gmap Z (list byte) := {[1000 := eight; 1008 := eight]}.
Definition pool0 : Mem :=
  mkMem (mkMemPool 1000 [1000; 1008; 1000; 1008] 8 2 2000 [] 4 2) ∅ 1 demo_blocks.
Definition take_large (m : Mem) : Mem := after GetLargeBlock m.
Definition pool3 : Mem := take_large (take_large (take_large pool0)).

Lemma pool0_reachable : pool_reachable 8 2 4 2 1000 2000 pool0.
Proof. apply (pr_new 8 2 4 2 1000 2000 _ pool0); [vm_compute; reflexivity|done]. Qed.

Lemma take_reachable m q m' :
  GetLargeBlock m = Ret q m' -> pool_reachable 8 2 4 2 1000 2000 m -> pool_reachable 8 2 4 2 1000 2000 m'.
Proof. intros E H. eapply pr_step; [exact H|]. by eapply ps_large. Qed.

Lemma pool3_reachable : pool_reachable 8 2 4 2 1000 2000 pool3.
Proof.
  apply (take_reachable (take_large (take_large pool0)) 3%N); [vm_compute; reflexivity|].
  apply (take_reachable (take_large pool0) 2%N); [vm_compute; reflexivity|].
  apply (take_reachable pool0 1%N); [vm_compute; reflexivity|]. apply pool0_reachable.
Qed.

(** The third buffer is over the block of the first. *)
Lemma pool_hands_out_twice_witness :
  pool_reachable 8 2 4 2 1000 2000 pool3 /\ ~ base.NoDup (held pool3) /\
  GetSmallBlock pool3 = Ret 0%N pool3.
Proof.
  split; [exact pool3_reachable|].
  destruct (pool_hands_out_twice 8 2 4 2 1000 2000 pool3) as (_ & Hs & Hd & _);
    [lia|lia|exact pool3_reachable|].
  split; [apply Hd; vm_compute; reflexivity|exact Hs].
Defined.

(** ** Sending *)

(** Two messages of three and five bytes, of which the kernel takes four. *)
Definition pool2 : Mem := take_large (take_large pool0).
Definition demo_mem : Mem :=
  mkMem (pool pool2) {[1%N := mkBuffer 1000 0 3 8; 2%N := mkBuffer 1008 2 7 8]} 3 demo_blocks.
Definition demo_sock : DataSocket :=
  mkDataSocket S_TO_CLOSE_AFTER_SEND_ALL_DATA None 0 [mkTCPMessage 7 1; mkTCPMessage 8 2] 9.
Definition sender : ZState := mkZState demo_mem demo_sock [].

Lemma demo_mem_inv : pool_inv 8 2 1000 demo_mem.
Proof.
  assert (I : pool_inv 8 2 1000 pool2).
  { apply (reachable_pool_inv 8 2 4 2 1000 2000); [lia|].
    apply (take_reachable (take_large pool0) 2%N); [vm_compute; reflexivity|].
    apply (take_reachable pool0 1%N); [vm_compute; reflexivity|]. apply pool0_reachable. }
  assert (H1 : pool_inv 8 2 1000 (with_buffers (<[1%N := mkBuffer 1000 0 3 8]> (buffers pool2)) pool2))
    by (apply (update_inv 8 2 1000 pool2 1%N (mkBuffer 1000 0 0 8)); [done|vm_compute; reflexivity|done|done]).
  set (m1 := with_buffers _ pool2) in H1.
  assert (H2 : pool_inv 8 2 1000 (with_buffers (<[2%N := mkBuffer 1008 2 7 8]> (buffers m1)) m1))
    by (apply (update_inv 8 2 1000 m1 2%N (mkBuffer 1008 0 0 8)); [done|vm_compute; reflexivity|done|done]).
  assert (E : demo_mem =
              with_buffers (<[2%N := mkBuffer 1008 2 7 8]> (buffers m1)) m1) by (vm_compute; reflexivity).
  by rewrite E.
Qed.

Lemma writable_sends_front_witness :
  exists s', OnWritable 4 sender = Ret 2 s' /\ wire s' = [x61; x62; x63; x63] /\
    exists vs', sendable (zmem s') (send_msg_list_ (sock s')) vs' /\ concat vs' = [x64; x65; x66; x67].
Proof.
  destruct (writable_sends_front 8 2 1000 ltac:(lia) sender
    [[x61; x62; x63]; [x63; x64; x65; x66; x67]] 4) as (s' & E & Hw & (vs' & Hs & Hc) & _).
  - exact demo_mem_inv.
  - split; [|vm_compute; reflexivity]. apply (bool_decide_unpack _). vm_compute. exact I.
  - split; vm_compute; congruence.
  - exists s'. split; [exact E|]. split; [rewrite Hw; vm_compute; reflexivity|].
    exists vs'. split; [exact Hs|].
    cbn in Hc. by injection Hc as <-.
Defined.

Lemma receive_never_starts_witness :
  (exists s', OnReadable 0 (ReadBytes eight)
     (mkZState pool3 (mkDataSocket S_OK None 0 [] 0) []) = Halt HUndefined s') /\
  udp_OnReadable 5 (ReadBytes eight) (mkUState pool3 None [] []) = Ret (-1) (mkUState pool3 None [] []).
Proof.
  apply (receive_never_starts 8 2 4 2 1000 2000); [lia|exact pool3_reachable|done..].
Defined.

(** ** A late timer *)

Definition demo_timer : Timer := mkTimer 1 (100, 0) 0.
Definition engine0 : Engine := mkEngine [1%N] {[1%N := demo_timer]} ∅ ∅.
Definition interrupted : Answers := mkAnswers (100, 5000) (100, 5000) (100, 5000) (WaitError true).

Definition reported : Answers := mkAnswers (100, 5000) (100, 5000) (100, 5000) (WaitEvents [(1%N, 1)]).

Lemma overdue_timer_never_called_witness :
  let run l := RunForever (fun _ => ret 5) (fun _ _ => ret 1) l engine0 in
  run [interrupted; interrupted] = Ret None engine0 /\
  exists h s', run [interrupted; reported] = Halt h s'.
Proof.
  assert (H1 : overdue_turn demo_timer interrupted)
    by (split_and!; try done; vm_compute; congruence).
  assert (H2 : overdue_turn demo_timer reported).
  { destruct H1 as (A1 & A2 & A3 & _). refine (conj A1 (conj A2 (conj A3 (conj _ _)))).
    - intros w _. unfold wait_permitted, reported, zlen, kMaxEpoll. cbn [wait length]. lia.
    - intros evs [= <-]. unfold zlen, kMaxEpoll. cbn [length]. lia. }
  assert (F : forall a, overdue_turn demo_timer a -> Forall (overdue_turn demo_timer) [interrupted; a])
    by (intros a Ha; constructor; [exact H1|constructor; [exact Ha|constructor]]).
  pose proof (overdue_timer_never_called (fun _ => ret 5) (fun _ _ => ret 1) 1%N demo_timer
    [interrupted; interrupted] engine0 ltac:(vm_compute; reflexivity) ltac:(reflexivity) ltac:(done) (F _ H1)) as W1.
  pose proof (overdue_timer_never_called (fun _ => ret 5) (fun _ _ => ret 1) 1%N demo_timer
    [interrupted; reported] engine0 ltac:(vm_compute; reflexivity) ltac:(reflexivity) ltac:(done) (F _ H2)) as W2.
  split; cbv zeta.
  - destruct (RunForever _ _ [interrupted; interrupted] engine0) as [r s'|h s'].
    + destruct W1 as [-> [[-> _]|[_ (l1 & a & l2 & E & _ & Ew)]]]; [done|].
      assert (Ha : a ∈ [interrupted; interrupted]) by (rewrite E, elem_of_app; right; left).
      apply list.elem_of_cons in Ha as [->|Ha%list_elem_of_singleton]; [done|by subst].
    + destruct W1 as (l1 & a & l2 & evs & E & _ & Ew).
      assert (Ha : a ∈ [interrupted; interrupted]) by (rewrite E, elem_of_app; right; left).
      apply list.elem_of_cons in Ha as [->|Ha%list_elem_of_singleton]; [done|by subst].
  - destruct (RunForever _ _ [interrupted; reported] engine0) as [r s'|h s']; [|by exists h, s'].
    destruct W2 as [_ [[_ F2]|[_ (l1 & a & l2 & E & _ & Ew)]]].
    + inversion_clear F2 as [|? ? _ F3]. inversion_clear F3 as [|? ? F4 _]. discriminate F4.
    + assert (Ha : a ∈ [interrupted; reported]) by (rewrite E, elem_of_app; right; left).
      apply list.elem_of_cons in Ha as [->|Ha%list_elem_of_singleton]; [done|by subst].
Defined.
