(* ===== verification/ZxServer.v ===== *)
(** * The TCP server of the C++ generation: [cppnf/server.hpp]

    A server has an engine, a table of its sockets by descriptor, and three
    callbacks: for the listening socket, for a connection and for a connect that
    is complete.  A pointer is a number, 0 the null pointer.

    The text does not compile as it stands.  It is read as follows: the functions
    of [Event] and of the sockets have the names of their classes ([is_readable] is
    [IsReadable], [socket()] is [fd()]); [event_engine_] is [engine_];
    [server_sockets_] is [server_fd_] and [idle_client_sockets_] is
    [idle_client_fd_], lists of what is put into them; [MakeNewSocket] is the one of
    [LVListenSocket]; [Messagize] is whatever the class of the socket has.
    [Restart] is declared nowhere and [ProcessMessage] and [AddClientSocket] are
    pure virtual: they are parameters. *)

From S2P Require Import Prelude ZxEvent.

Definition kMaxBackendNum : Z := 100.
Definition kMaxClientSocketNumPerBackend : Z := 100.
Definition kMaxServerSocketNum : Z := 1000000.
Definition kMaxSocketNum : Z := kMaxServerSocketNum + kMaxBackendNum * kMaxClientSocketNumPerBackend.

(** [class TCPServer] with the objects it points to: [sockets] has the descriptor
    of each socket object; the table holds a null pointer where it has no entry.
    [this_] is the address of the server. *)
Record TCPServer := mkServer {
  engine_ : Engine;
  all_tcp_sockets_ : gmap Z N;
  server_fd_ : list N;
  idle_client_fd_ : gmap Z (list N);
  sockets : gmap N Z;
  next_addr : N;
  this_ : N
}.
Definition with_engine e s := mkServer e (all_tcp_sockets_ s) (server_fd_ s) (idle_client_fd_ s) (sockets s) (next_addr s) (this_ s).
Definition with_table t s := mkServer (engine_ s) t (server_fd_ s) (idle_client_fd_ s) (sockets s) (next_addr s) (this_ s).
Definition with_server_fd l s := mkServer (engine_ s) (all_tcp_sockets_ s) l (idle_client_fd_ s) (sockets s) (next_addr s) (this_ s).
Definition with_idle m s := mkServer (engine_ s) (all_tcp_sockets_ s) (server_fd_ s) m (sockets s) (next_addr s) (this_ s).
Definition with_sockets m s := mkServer (engine_ s) (all_tcp_sockets_ s) (server_fd_ s) (idle_client_fd_ s) m (next_addr s) (this_ s).

Definition on_engine {A} (m : M Engine A) : M TCPServer A := fun s =>
  match m (engine_ s) with Ret a e => Ret a (with_engine e s) | Halt h e => Halt h (with_engine e s) end.

Definition new_addr : M TCPServer N :=
  let! q := gets next_addr in
  modify (fun s => mkServer (engine_ s) (all_tcp_sockets_ s) (server_fd_ s) (idle_client_fd_ s) (sockets s) (N.succ q) (this_ s)) ;;!
  ret q.

(** The descriptor of a socket, through a pointer that must be valid. *)
Definition fd_of (sk : N) : M TCPServer Z := let! m := gets sockets in of_option HUndefined (m !! sk).

(** [fd < all_tcp_sockets_.size()], in the unsigned type of the size. *)
Definition in_table (fd : Z) : bool := (0 <=? fd) && (fd <? kMaxSocketNum).

(** ** The table and the lists *)

Definition AddServerSocket (sk : N) : M TCPServer Z :=
  let! fd := fd_of sk in
  if negb (in_table fd) then ret (-1)
  else
    modify (fun s => with_server_fd (server_fd_ s ++ [sk]) s) ;;!
    modify (fun s => with_table (<[fd := sk]> (all_tcp_sockets_ s)) s) ;;! ret 0.

Definition GetSocket (fd : Z) : M TCPServer N :=
  assert_ (in_table fd) ;;!
  let! t := gets all_tcp_sockets_ in ret (default 0%N (t !! fd)).

Definition DestroySocket (fd : Z) : M TCPServer unit :=
  assert_ (in_table fd) ;;!
  let! t := gets all_tcp_sockets_ in
  let sk := default 0%N (t !! fd) in
  assert_ (negb (N.eqb sk 0)) ;;!
  modify (fun s => with_sockets (delete sk (sockets s)) s) ;;!
  modify (with_table (delete fd t)).

(** The front of an empty list is undefined. *)
Definition GetIdleClientSocket (backend_index : Z) : M TCPServer N :=
  assert_ ((0 <=? backend_index) && (backend_index <? kMaxBackendNum)) ;;!
  let! m := gets idle_client_fd_ in
  match default [] (m !! backend_index) with
  | [] => stop HUndefined
  | sk :: rest => (if N.eqb sk 0 then ret tt else modify (with_idle (<[backend_index := rest]> m))) ;;! ret sk
  end.

Definition ReturnClientSocket (backend_index : Z) (sk : N) : M TCPServer unit :=
  assert_ ((0 <=? backend_index) && (backend_index <? kMaxBackendNum)) ;;!
  modify (fun s => with_idle (<[backend_index := default [] (idle_client_fd_ s !! backend_index) ++ [sk]]> (idle_client_fd_ s)) s).

(** [MakeNewSocket] of [LVListenSocket]. *)
Definition MakeNewSocket (fd : Z) : M TCPServer N :=
  let! sk := new_addr in modify (fun s => with_sockets (<[sk := fd]> (sockets s)) s) ;;! ret sk.

(** ** The callbacks *)

(** The callbacks by number, as the engine calls them. *)
Definition CB_ListenSocket : nat := 0.
Definition CB_DataSocket : nat := 1.
Definition CB_Connect : nat := 2.

(** What [accept] answers: a descriptor, or an error ([again] for [EAGAIN] and
    [EINTR]). *)
Inductive AcceptAnswer := Accepted (fd : N) | AcceptFails (again : bool).

Section Callbacks.
  Variable Restart : Z -> M TCPServer unit.
  Variables OnReadable OnWritable Messagize : N -> M TCPServer Z.
  Variable ProcessMessage : Z -> M TCPServer Z.
  Variable AddClientSocket : Z -> M TCPServer Z.

(** The new connection: the result of [AddServerSocket] is not looked at, and the
    events of the new object are restored from a backup nobody made. *)
Definition serve (newfd : Z) : M TCPServer unit :=
  let! new_socket := MakeNewSocket newfd in
  AddServerSocket new_socket ;;!
  let! fd := fd_of new_socket in
  let! this := gets this_ in
  let! e := new_addr in
  on_engine (modify (fun g => with_events (<[e := RestoreEvents (new_Event fd (Some CB_DataSocket) this)]> (event_objs g)) g)) ;;!
  on_engine (AddEvent e) ;;! ret tt.

(** [while (count--)]; [None] when the loop has run out. *)
Fixpoint accept_loop (count : nat) (answers : list AcceptAnswer) : M TCPServer (option Z) :=
  match count with
  | O => ret None
  | S count' =>
      match answers with
      | Accepted newfd :: answers' => serve (Z.of_N newfd) ;;! accept_loop count' answers'
      | AcceptFails true :: _ | [] => ret (Some 1)
      | AcceptFails false :: _ => Restart 1000 ;;! ret (Some (-2))
      end
  end.

(** The listening socket, with the answers of [accept] in order: no more of them
    is that nobody connects. *)
Definition EventCallback_For_ListenSocket (e arg : N) (answers : list AcceptAnswer) : M TCPServer Z :=
  assert_ (negb (N.eqb e 0)) ;;! assert_ (negb (N.eqb arg 0)) ;;!
  let! ev := on_engine (event_at e) in
  assert_ (negb (IsWritable ev)) ;;! assert_ (negb (IsClosed ev)) ;;!
  if IsError ev then Restart 1000 ;;! ret (-1)
  else if negb (IsReadable ev) then ret 1
  else
    let listen_fd := fd_ ev in
    let! r := accept_loop 100 answers in
    match r with
    | Some z => ret z
    | None => on_engine (DeleteEvent listen_fd) ;;! ret 1
    end.

(** An operation of a socket that must still be there. *)
Definition on_socket {A} (sk : N) (m : M TCPServer A) : M TCPServer A := fd_of sk ;;! m.

(** The callback ends without a [return]: it has no value. *)
Definition EventCallback_For_DataSocket (e arg : N) : M TCPServer unit :=
  assert_ (negb (N.eqb e 0)) ;;! assert_ (negb (N.eqb arg 0)) ;;!
  let! ev := on_engine (event_at e) in
  let! sk := GetSocket (fd_ ev) in
  assert_ (negb (N.eqb sk 0)) ;;!
  let! ev := on_engine (event_at e) in
  (if IsReadable ev then
     let! r := on_socket sk (OnReadable sk) in
     if 0 <? r then
       on_socket sk (Messagize sk) ;;!
       let! fd := fd_of sk in ProcessMessage fd ;;! ret tt
     else if r =? 0 then ret tt
     else
       let! fd := fd_of sk in
       on_engine (DeleteEvent fd) ;;! DestroySocket fd
   else ret tt) ;;!
  let! ev := on_engine (event_at e) in
  if IsWritable ev then
    let! r := on_socket sk (OnWritable sk) in
    let! fd := fd_of sk in
    if r <? 0 then on_engine (DeleteEvent fd) ;;! DestroySocket fd
    else if r =? 0 then ret tt
    else on_engine (DeleteEvent fd) ;;! ret tt
  else ret tt.

Definition EventCallback_For_Connect (e arg : N) : M TCPServer Z :=
  assert_ (negb (N.eqb e 0)) ;;! assert_ (negb (N.eqb arg 0)) ;;!
  let! ev := on_engine (event_at e) in
  assert_ (negb (IsReadable ev)) ;;!
  AddClientSocket (fd_ ev) ;;!
  on_engine (DeleteEvent (fd_ ev)) ;;!
  on_engine (modify (fun g => with_events (delete e (event_objs g)) g)) ;;!
  ret 0.

(** The two timers only say when they want to be called again. *)
Definition TimerCallback_For_Sweep (t arg : N) : M TCPServer Z := ret 5000.
Definition TimerCallback_For_Nothing (t arg : N) : M TCPServer Z := ret 5000.
End Callbacks.

(** ** What is watched *)

Section Watched.
  Variable Restart : Z -> M TCPServer unit.
  Variables OnReadable OnWritable Messagize : N -> M TCPServer Z.
  Variable ProcessMessage : Z -> M TCPServer Z.

(** The event object of a connection. *)
Definition data_event (s : TCPServer) (fd : Z) : Event := mkEvent fd 0 0 (Some CB_DataSocket) (this_ s).

(** A connection that is in the table and in the set of [epoll], for no event. *)
Definition served (s : TCPServer) (n : N) : Prop :=
  let fd := Z.of_N n in
  exists q sk, epoll_set (engine_ s) !! fd = Some (q, 0) /\ event_objs (engine_ s) !! q = Some (data_event s fd) /\
    all_tcp_sockets_ s !! fd = Some sk /\ sockets s !! sk = Some fd /\
    (0 < q < next_addr s)%N /\ (0 < sk < next_addr s)%N.

Lemma serve_eq s n :
  (0 < next_addr s)%N -> Z.of_N n < kMaxSocketNum -> epoll_set (engine_ s) !! Z.of_N n = None ->
  exists s', serve (Z.of_N n) s = Ret tt s' /\ (0 < next_addr s')%N /\ this_ s' = this_ s /\ served s' n /\
    (forall fd, fd <> Z.of_N n -> epoll_set (engine_ s') !! fd = epoll_set (engine_ s) !! fd) /\
    (forall m, m <> n -> served s m -> served s' m).
Proof.
  intros H0 Hn He. set (fd := Z.of_N n) in *. set (sk := next_addr s). set (q := N.succ sk).
  set (e := mkEvent fd 0 0 (Some CB_DataSocket) (this_ s)).
  assert (Hfd : 0 <= fd) by (unfold fd; lia).
  set (g := with_epoll (<[fd := (q, 0)]> (epoll_set (engine_ s))) (with_events (<[q := e]> (event_objs (engine_ s))) (engine_ s))).
  assert (E : serve fd s = Ret tt
    (mkServer g (<[fd := sk]> (all_tcp_sockets_ s)) (server_fd_ s ++ [sk]) (idle_client_fd_ s) (<[sk := fd]> (sockets s)) (N.succ q) (this_ s))).
  { unfold serve, MakeNewSocket, AddServerSocket, new_addr, fd_of, on_engine, AddEvent, event_at, bindM, gets, modify, ret.
    cbn [next_addr engine_ all_tcp_sockets_ server_fd_ idle_client_fd_ sockets this_ with_sockets with_server_fd with_table with_engine].
    fold sk. rewrite lookup_insert_eq. cbn [of_option]. unfold ret, in_table.
    rewrite (proj2 (Z.leb_le _ _)), (proj2 (Z.ltb_lt _ _)) by done. cbn [andb negb].
    cbn [next_addr engine_ all_tcp_sockets_ server_fd_ idle_client_fd_ sockets this_ with_sockets with_server_fd with_table with_engine].
    rewrite lookup_insert_eq. cbn [of_option]. unfold ret.
    cbn [next_addr engine_ all_tcp_sockets_ server_fd_ idle_client_fd_ sockets this_
      with_sockets with_server_fd with_table with_engine event_objs with_events epoll_set].
    fold q. rewrite lookup_insert_eq. cbn [of_option]. unfold ret.
    cbn [engine_ epoll_set with_events event_objs].
    change (fd_ (RestoreEvents (new_Event fd (Some CB_DataSocket) (this_ s)))) with fd. rewrite He.
    rewrite (proj2 (Z.ltb_ge _ _)) by done. reflexivity. }
  rewrite E. eexists. split; [reflexivity|]. split; [cbn; lia|]. split; [done|]. split; [|split].
  - exists q, sk. cbn. fold fd. rewrite !lookup_insert_eq. unfold data_event. cbn.
    split_and!; try done; unfold q; lia.
  - intros fd' Hne. cbn. by rewrite lookup_insert_ne.
  - intros m Hne (q' & sk' & H1 & H2 & H3 & H4 & H5 & H6).
    assert (Z.of_N m <> fd) by (unfold fd; lia). exists q', sk'. cbn. unfold data_event in *. cbn in *.
    rewrite !lookup_insert_ne by (done || unfold q, sk; lia). split_and!; try done; unfold q; lia.
Qed.

(** All of them are accepted. *)
Lemma accept_loop_eq ns count s :
  (0 < next_addr s)%N -> (length ns <= count)%nat -> base.NoDup ns ->
  Forall (fun n => Z.of_N n < kMaxSocketNum /\ epoll_set (engine_ s) !! Z.of_N n = None) ns ->
  exists s', accept_loop Restart count (map Accepted ns) s = Ret (if Nat.eqb (length ns) count then None else Some 1) s' /\
    this_ s' = this_ s /\ Forall (served s') ns /\ (forall m, m ∉ ns -> served s m -> served s' m) /\
    (forall fd, fd ∉ map Z.of_N ns -> epoll_set (engine_ s') !! fd = epoll_set (engine_ s) !! fd).
Proof.
  revert count s. induction ns as [|n ns IH]; intros count s H0 Hlen Hnd Hns.
  - exists s. destruct count; by split_and!.
  - destruct count as [|count]; [simpl in Hlen; lia|]. apply list.NoDup_cons in Hnd as [Hnin Hnd].
    apply list.Forall_cons in Hns as [[Hn He] Hns].
    destruct (serve_eq s n H0 Hn He) as (s1 & E1 & N1 & T1 & V1 & O1 & K1).
    destruct (IH count s1 N1) as (s' & E & T & V & K & O); [simpl in Hlen; lia|done| |].
    { rewrite list.Forall_forall in Hns |- *. intros m Hm. destruct (Hns m Hm) as [Hm1 Hm2].
      split; [done|]. rewrite O1; [done|]. intros Heq%N2Z.inj. by subst. }
    exists s'. split; [|split; [congruence|split; [|split]]].
    + cbn [map accept_loop length Nat.eqb]. by rewrite (bind_Ret _ _ _ _ _ E1).
    + constructor; [|done]. by apply K.
    + intros m [Hne Hm]%not_elem_of_cons Hs. by apply K, K1.
    + intros fd [Hne Hfd]%not_elem_of_cons. by rewrite O, O1.
Qed.

(** The callback of such a connection does nothing. *)
Lemma served_idle s n :
  Z.of_N n < kMaxSocketNum -> served s n -> this_ s <> 0%N ->
  exists q e, epoll_set (engine_ s) !! Z.of_N n = Some (q, 0) /\
    event_objs (engine_ s) !! q = Some e /\ cb_ e = Some CB_DataSocket /\
    forall mask, has mask EPOLLIN = false -> has mask EPOLLOUT = false ->
      let s'' := with_engine (with_events (<[q := SetEpollEvents mask e]> (event_objs (engine_ s))) (engine_ s)) s in
      EventCallback_For_DataSocket OnReadable OnWritable Messagize ProcessMessage q (cb_arg_ e) s'' = Ret tt s''.
Proof.
  intros Hmax (q & sk & A1 & A2 & A3 & A4 & A5 & A6) Ht.
  exists q, (data_event s (Z.of_N n)). split; [done|split; [done|split; [done|]]].
  intros mask Hin Hout s''. unfold EventCallback_For_DataSocket. cbn [cb_arg_ data_event].
  set (e' := SetEpollEvents mask (data_event s (Z.of_N n))) in *.
  assert (He : forall B (k : Event -> M TCPServer B), bindM (on_engine (event_at q)) k s'' = k e' s'').
  { intros B k. unfold on_engine, event_at, bindM, gets. cbn [engine_ s'' with_engine event_objs with_events].
    rewrite lookup_insert_eq. done. }
  assert (Hfd' : fd_ e' = Z.of_N n /\ IsReadable e' = false /\ IsWritable e' = false).
  { unfold e', SetEpollEvents. rewrite Hin, Hout. by destruct (has mask EPOLLERR), (has mask EPOLLHUP). }
  destruct Hfd' as (Hfd' & Hr' & Hw').
  rewrite !bind_assert by (apply negb_true_iff, N.eqb_neq; lia || congruence).
  rewrite He, Hfd'. unfold GetSocket.
  rewrite (bind_Ret _ _ s'' sk s'').
  2: { rewrite bind_assert by (unfold in_table; apply andb_true_intro; split; [apply Z.leb_le; lia|by apply Z.ltb_lt]).
       rewrite bind_gets. cbn [all_tcp_sockets_ s'' with_engine]. by rewrite A3. }
  rewrite bind_assert by (apply negb_true_iff, N.eqb_neq; lia). rewrite He, Hr', bind_ret, He, Hw'. done.
Qed.

(** C37: a server never serves a connection.  The listening socket is readable and
    up to a hundred connections come: every one of them is in the table and in the
    set of [epoll], but for no event, so that whatever else [epoll] reports
    (errors and hang-ups, which it always does) the callback of the connection
    neither reads nor writes.  After exactly a hundred connections the listening
    socket itself is no longer watched, although the callback asks to go on. *)
Theorem connection_never_served s p ev w ns :
  (0 < next_addr s)%N -> p <> 0%N -> this_ s <> 0%N -> event_objs (engine_ s) !! p = Some ev ->
  IsReadable ev = true -> IsWritable ev = false -> IsClosed ev = false -> IsError ev = false ->
  0 <= fd_ ev -> epoll_set (engine_ s) !! fd_ ev = Some w ->
  (length ns <= 100)%nat -> base.NoDup ns ->
  Forall (fun n => Z.of_N n < kMaxSocketNum /\ epoll_set (engine_ s) !! Z.of_N n = None) ns ->
  exists s', EventCallback_For_ListenSocket Restart p (this_ s) (map Accepted ns) s = Ret 1 s' /\
    epoll_set (engine_ s') !! fd_ ev = (if Nat.eqb (length ns) 100 then None else Some w) /\
    forall n, n ∈ ns -> exists q e, epoll_set (engine_ s') !! Z.of_N n = Some (q, 0) /\
      event_objs (engine_ s') !! q = Some e /\ cb_ e = Some CB_DataSocket /\
      forall mask, has mask EPOLLIN = false -> has mask EPOLLOUT = false ->
        let s'' := with_engine (with_events (<[q := SetEpollEvents mask e]> (event_objs (engine_ s'))) (engine_ s')) s' in
        EventCallback_For_DataSocket OnReadable OnWritable Messagize ProcessMessage q (cb_arg_ e) s'' = Ret tt s''.
Proof.
  intros H0 Hp Ht Hev Hr Hw Hc Her Hfd Hl Hlen Hnd Hns.
  destruct (accept_loop_eq ns 100 s H0 Hlen Hnd Hns) as (s1 & E1 & T1 & V1 & _ & O1).
  assert (Hlis : epoll_set (engine_ s1) !! fd_ ev = Some w).
  { rewrite O1; [done|]. intros (n & Heq & Hn)%list_elem_of_In%in_map_iff.
    rewrite list.Forall_forall in Hns. apply list_elem_of_In in Hn. destruct (Hns n Hn) as [_ Hnone]. congruence. }
  assert (Hcb : EventCallback_For_ListenSocket Restart p (this_ s) (map Accepted ns) s =
    (if Nat.eqb (length ns) 100 then on_engine (DeleteEvent (fd_ ev)) ;;! ret 1 else ret 1) s1).
  { unfold EventCallback_For_ListenSocket.
    rewrite !bind_assert by (by apply negb_true_iff, N.eqb_neq).
    rewrite (bind_Ret _ _ s ev s)
      by (unfold on_engine, event_at, bindM, gets; rewrite Hev; by destruct s).
    rewrite !bind_assert by (by rewrite ?Hw, ?Hc). rewrite Her, Hr. cbn [negb].
    rewrite (bind_Ret _ _ _ _ _ E1). by destruct (Nat.eqb _ _). }
  rewrite Hcb. set (gone := Nat.eqb (length ns) 100) in *.
  set (s2 := if gone then with_engine (with_epoll (delete (fd_ ev) (epoll_set (engine_ s1))) (engine_ s1)) s1 else s1).
  exists s2. split; [|split].
  - unfold s2. destruct gone; [|done]. unfold on_engine, DeleteEvent, bindM, gets.
    rewrite (proj2 (Z.ltb_ge _ _)) by done. by rewrite Hlis.
  - unfold s2. destruct gone; [apply lookup_delete_eq|done].
  - intros n Hn. rewrite list.Forall_forall in V1, Hns. destruct (Hns n Hn) as [Hmax Hnone].
    apply served_idle; [done| |].
    + unfold s2. destruct gone; [|by apply V1]. destruct (V1 n Hn) as (q & sk & A1 & A).
      exists q, sk. cbn. rewrite lookup_delete_ne; [done|]. intros Heq. congruence.
    + unfold s2. destruct gone; cbn; congruence.
Qed.
End Watched.
