(* ===== verification/ZxServerDemo.v ===== *)
(** * The server of cppnf on a concrete state

    A server that listens on descriptor 3 and is offered a hundred connections;
    the theorem of ZxServer is applied there. *)

From S2P Require Import Prelude ZxEvent ZxServer.

Definition listen_event : Event := mkEvent 3 1 1 (Some CB_ListenSocket) 7.
Definition server0 : TCPServer :=
  mkServer (mkEngine [] ∅ {[1%N := listen_event]} {[3 := (1%N, 1)]}) ∅ [] ∅ ∅ 10 7.

Definition no_restart (msec : Z) : M TCPServer unit := ret tt.
Definition no_call (sk : N) : M TCPServer Z := ret 0.
Definition no_process (fd : Z) : M TCPServer Z := ret 0.

Definition hundred : list N := map N.of_nat (seq 10 100).

(** Two connections: the third and fourth object watch 4 and 5 for nothing. *)
Example two_accepted :
  match EventCallback_For_ListenSocket no_restart 1 7 [Accepted 4; Accepted 5] server0 with
  | Ret z s => (z, epoll_set (engine_ s) !! 3, epoll_set (engine_ s) !! 4, epoll_set (engine_ s) !! 5) =
      (1, Some (1%N, 1), Some (11%N, 0), Some (13%N, 0))
  | _ => False
  end.
Proof. vm_compute. reflexivity. Qed.

Lemma connection_never_served_witness :
  length hundred = 100%nat /\
  exists s', EventCallback_For_ListenSocket no_restart 1 7 (map Accepted hundred) server0 = Ret 1 s' /\
    epoll_set (engine_ s') !! 3 = None.
Proof.
  split; [vm_compute; reflexivity|].
  destruct (connection_never_served no_restart no_call no_call no_call no_process
    server0 1 listen_event (1%N, 1) hundred) as (s' & H1 & H2 & _).
  - reflexivity.
  - discriminate.
  - discriminate.
  - vm_compute; reflexivity.
  - reflexivity.
  - reflexivity.
  - reflexivity.
  - reflexivity.
  - vm_compute; discriminate.
  - vm_compute; reflexivity.
  - vm_compute; lia.
  - apply (bool_decide_eq_true _). vm_compute. reflexivity.
  - apply (bool_decide_eq_true _). vm_compute. reflexivity.
  - exists s'. split; [exact H1|exact H2].
Defined.
