(* ===== verification/Zxbnf.v ===== *)
(** * Buffers, messages and connections of [zxbnf]

    [zxbnf/buffer.hpp], [message.hpp] and the connection of [context.hpp]: blocks
    from a pool, lists of them that are a message to send, and a connection with
    a list of messages.  A pointer is a number, 0 the null pointer; [Buffer] and
    message objects are at addresses of their own.

    The text does not compile as it stands.  It is read as follows: the first
    class of [message.hpp] is [Message] throughout; [cur()] is a reference to
    [cur_]; [Reset()] is [Destroy()]; [send_msg_list_.remove(iter)] is [erase];
    [head()] of a message is [BufferList()].  The pool is that of [ZxPool]: the
    constructor is the same text. *)

From S2P Require Import Prelude ZxPool.

(** [class Buffer]. *)
Record Buffer := mkBuffer { start_ : Z; head_ : Z; tail_ : Z; length_ : Z; next_ : N; prev_ : N }.
Definition set_head_ (n : Z) (b : Buffer) : Buffer := mkBuffer (start_ b) n (tail_ b) (length_ b) (next_ b) (prev_ b).
Definition set_tail_ (n : Z) (b : Buffer) : Buffer := mkBuffer (start_ b) (head_ b) n (length_ b) (next_ b) (prev_ b).
Definition set_next_ (q : N) (b : Buffer) : Buffer := mkBuffer (start_ b) (head_ b) (tail_ b) (length_ b) q (prev_ b).
Definition set_prev_ (q : N) (b : Buffer) : Buffer := mkBuffer (start_ b) (head_ b) (tail_ b) (length_ b) (next_ b) q.

(** [class TCPMessageToSend] with its base [Message]. *)
Record TCPMessageToSend := mkMsg { m_head_ : N; message_size_ : Z; cur_ : N }.

(** The pool, the objects, the next free address, and the list of the connection. *)
Record State := mkState {
  pool_ : MemPool;
  buffers_ : gmap N Buffer;
  messages_ : gmap N TCPMessageToSend;
  next_object : N;
  send_msg_list_ : list N
}.
Definition with_pool_ p s := mkState p (buffers_ s) (messages_ s) (next_object s) (send_msg_list_ s).
Definition with_buffers_ b s := mkState (pool_ s) b (messages_ s) (next_object s) (send_msg_list_ s).
Definition with_messages_ m s := mkState (pool_ s) (buffers_ s) m (next_object s) (send_msg_list_ s).
Definition with_send_list l s := mkState (pool_ s) (buffers_ s) (messages_ s) (next_object s) l.

Definition new_object : M State N :=
  let! q := gets next_object in
  modify (fun s => mkState (pool_ s) (buffers_ s) (messages_ s) (N.succ q) (send_msg_list_ s)) ;;! ret q.
Definition the_buffer (q : N) : M State Buffer := let! m := gets buffers_ in of_option HUndefined (m !! q).
Definition put_buffer (q : N) (b : Buffer) : M State unit := modify (fun s => with_buffers_ (<[q := b]> (buffers_ s)) s).
Definition the_message (p : N) : M State TCPMessageToSend := let! m := gets messages_ in of_option HUndefined (m !! p).
Definition put_message (p : N) (m : TCPMessageToSend) : M State unit :=
  modify (fun s => with_messages_ (<[p := m]> (messages_ s)) s).

Section Zxbnf.
  (** What [next_] and [prev_] of a new buffer hold: the constructor does not set
      them. *)
  Variables garbage_next garbage_prev : N.

(** ** The pool *)

Definition new_block (start size : Z) : M State N :=
  let! q := new_object in put_buffer q (mkBuffer start 0 0 size garbage_next garbage_prev) ;;! ret q.

Definition GetSmallBlock : M State N :=
  let! p := gets pool_ in
  match idle_small_blocks_ p with
  | [] => ret 0%N
  | front :: rest =>
      let! buf := new_block front (small_block_size_ p) in
      modify (with_pool_ (set_idle_small rest p)) ;;! ret buf
  end.

Definition GetLargeBlock : M State N :=
  let! p := gets pool_ in
  match idle_large_blocks_ p with
  | [] => ret 0%N
  | front :: rest =>
      let! buf := new_block front (large_block_size_ p) in
      modify (with_pool_ (set_idle_large rest p)) ;;! ret buf
  end.

Definition PutBlock (buf : N) : M State unit :=
  assert_ (negb (N.eqb buf 0)) ;;!
  let! b := the_buffer buf in
  let! p := gets pool_ in
  (if length_ b =? large_block_size_ p then
     let! ok := multiple (start_ b - large_pool_ p) (large_block_size_ p) in
     assert_ ok ;;! modify (with_pool_ (set_idle_large (start_ b :: idle_large_blocks_ p) p))
   else if length_ b =? small_block_size_ p then
     let! ok := multiple (start_ b - small_pool_ p) (small_block_size_ p) in
     assert_ ok ;;! modify (with_pool_ (set_idle_small (start_ b :: idle_small_blocks_ p) p))
   else stop HAssert) ;;!
  modify (fun s => with_buffers_ (delete buf (buffers_ s)) s).

(** ** Messages *)

(** The loop of the constructor of [Message] over the list; [None]: the fuel was
    not enough. *)
Fixpoint Message_loop (fuel : nat) (it : N) (size : Z) : M State (option Z) :=
  match fuel with
  | O => ret None
  | S fuel' =>
      if N.eqb it 0 then ret (Some size)
      else
        let! b := the_buffer it in
        (if N.eqb (next_ b) 0 then ret tt
         else assert_ (head_ b =? 0) ;;! assert_ (tail_ b =? length_ b)) ;;!
        let! size' := int_op (size + tail_ b) in
        Message_loop fuel' (next_ b) size'
  end.

(** The constructors leave [head_] and [cur_] null. *)
Definition new_TCPMessageToSend (fuel : nat) (buffer_list : N) : M State (option N) :=
  let! size := Message_loop fuel buffer_list (-1) in
  match size with
  | None => ret None
  | Some size =>
      let! p := new_object in
      put_message p (mkMsg 0 size 0) ;;! ret (Some p)
  end.

Definition BufferList (m : TCPMessageToSend) : N := m_head_ m.
Definition AllSent (m : TCPMessageToSend) : bool := N.eqb (cur_ m) 0.

(** [Message::Destroy]: the list, which the message gives up. *)
Definition Destroy (p : N) : M State N :=
  let! m := the_message p in put_message p (mkMsg 0 (-1) 0) ;;! ret (m_head_ m).

Definition set_cur (q : N) (m : TCPMessageToSend) : TCPMessageToSend := mkMsg (m_head_ m) (message_size_ m) q.

(** [while (cur() && lft > 0)]: what is left. *)
Fixpoint SeekForward_loop (fuel : nat) (p : N) (lft : Z) : M State (option Z) :=
  match fuel with
  | O => ret None
  | S fuel' =>
      let! m := the_message p in
      if N.eqb (cur_ m) 0 || (lft <=? 0) then ret (Some lft)
      else
        let! b := the_buffer (cur_ m) in
        let! n := int_op (tail_ b - head_ b) in
        if n <=? lft then
          let! lft := int_op (lft - n) in
          put_buffer (cur_ m) (set_head_ (tail_ b) b) ;;!
          put_message p (set_cur (next_ b) m) ;;!
          SeekForward_loop fuel' p lft
        else
          let! h := int_op (head_ b + lft) in
          put_buffer (cur_ m) (set_head_ h b) ;;!
          SeekForward_loop fuel' p 0
  end.

Definition SeekForward (fuel : nat) (p : N) (num : Z) : M State (option Z) :=
  let! m := the_message p in
  assert_ (negb (AllSent m)) ;;!
  let! lft := SeekForward_loop fuel p num in
  match lft with None => ret None | Some lft => let! n := int_op (num - lft) in ret (Some n) end.

(** ** Connections *)

Definition PushMessageToSend (fuel : nat) (data : N) : M State (option Z) :=
  let! newmsg := new_TCPMessageToSend fuel data in
  match newmsg with
  | None => ret None
  | Some newmsg => modify (fun s => with_send_list (send_msg_list_ s ++ [newmsg]) s) ;;! ret (Some 0)
  end.

(** [while (to_release)]. *)
Fixpoint release_loop (fuel : nat) (to_release : N) : M State bool :=
  match fuel with
  | O => ret false
  | S fuel' =>
      if N.eqb to_release 0 then ret true
      else
        let! b := the_buffer to_release in
        PutBlock to_release ;;! release_loop fuel' (next_ b)
  end.

(** The loop over the list: [kept] is in front of the iterator, [rest] from it on. *)
Fixpoint shrink_loop (fuel : nat) (kept rest : list N) (lft : Z) : M State (option Z) :=
  match rest with
  | [] => ret (Some lft)
  | p :: rest' =>
      let! reduced := SeekForward fuel p lft in
      match reduced with
      | None => ret None
      | Some reduced =>
          let! m := the_message p in
          let go kept :=
            let! lft := int_op (lft - reduced) in
            if lft =? 0 then ret (Some lft) else shrink_loop fuel kept rest' lft in
          if AllSent m then
            let! to_release := Destroy p in
            let! ended := release_loop fuel to_release in
            if ended then modify (with_send_list (kept ++ rest')) ;;! go kept else ret None
          else go (kept ++ [p])
      end
  end.

Definition ShrinkSendMsgList (fuel : nat) (num : Z) : M State (option Z) :=
  let! l := gets send_msg_list_ in shrink_loop fuel [] l num.

(** The inner loop of [GetIOVectorToSend]: the entries filled, or [None] where it
    goes round in a buffer without data.  After an entry [it++] makes the pointer
    one to the memory behind the object. *)
Definition iov_inner (it : N) (iov_num : Z) (iovec : list (Z * Z)) : M State (option (list (Z * Z))) :=
  if N.eqb it 0 then ret (Some iovec)
  else
    let! b := the_buffer it in
    if tail_ b =? head_ b then ret None
    else if iov_num <=? zlen iovec then stop HUndefined
    else
      let iovec := iovec ++ [(start_ b + head_ b, tail_ b)] in
      if zlen iovec =? iov_num then ret (Some iovec) else stop HUndefined.

(** The outer loop never moves its iterator. *)
Fixpoint iov_outer (fuel : nat) (iter : N) (iov_num : Z) (iovec : list (Z * Z)) : M State (option (list (Z * Z))) :=
  match fuel with
  | O => ret None
  | S fuel' =>
      let! m := the_message iter in
      let! o := iov_inner (BufferList m) iov_num iovec in
      match o with None => ret None | Some iovec => iov_outer fuel' iter iov_num iovec end
  end.

Definition GetIOVectorToSend (fuel : nat) (iov_num : Z) : M State (option (list (Z * Z))) :=
  let! l := gets send_msg_list_ in
  match l with [] => ret (Some []) | iter :: _ => iov_outer fuel iter iov_num [] end.
End Zxbnf.

(** ** Seeking forward *)

(** The list of buffers from [h] on. *)
Fixpoint path (bs : gmap N Buffer) (h : N) (l : list N) : Prop :=
  match l with
  | [] => h = 0%N
  | q :: l' => h = q /\ q <> 0%N /\ exists b, bs !! q = Some b /\ path bs (next_ b) l'
  end.

(** The addresses of the bytes not sent yet, in order. *)
Definition unsent_of (b : Buffer) : list Z := seqZ (start_ b + head_ b) (tail_ b - head_ b).
Definition unsent (bs : gmap N Buffer) (l : list N) : list Z :=
  concat (map (fun q => default [] (unsent_of <$> bs !! q)) l).

Definition buffer_ok (b : Buffer) : Prop := 0 <= head_ b <= tail_ b /\ tail_ b <= int_max.

Lemma unsent_insert bs q b l : q ∉ l -> unsent (<[q := b]> bs) l = unsent bs l.
Proof.
  intros Hq. unfold unsent. f_equal. apply map_ext_in. intros r Hr%list_elem_of_In.
  by rewrite lookup_insert_ne by (intros ->; done).
Qed.

Lemma unsent_cons bs q b l : bs !! q = Some b -> unsent bs (q :: l) = unsent_of b ++ unsent bs l.
Proof. intros H. unfold unsent. cbn [map concat]. by rewrite H. Qed.

Lemma zlen_unsent_of b : buffer_ok b -> zlen (unsent_of b) = tail_ b - head_ b.
Proof. intros [H _]. unfold unsent_of, zlen. rewrite length_seqZ. lia. Qed.

(** Moving the head is dropping bytes. *)
Lemma unsent_of_head n b :
  buffer_ok b -> 0 <= n <= tail_ b - head_ b ->
  unsent_of (set_head_ (head_ b + n) b) = drop (Z.to_nat n) (unsent_of b).
Proof.
  intros [H _] Hn. unfold unsent_of. cbn [start_ head_ tail_ set_head_].
  replace (tail_ b - head_ b) with (n + (tail_ b - (head_ b + n))) by lia. rewrite seqZ_app by lia.
  rewrite drop_app_length' by (rewrite length_seqZ; lia). f_equal. lia.
Qed.

Lemma path_insert bs h l q b : path bs h l -> q ∉ l -> path (<[q := b]> bs) h l.
Proof.
  revert h. induction l as [|r l IH]; intros h; [done|]. intros (-> & Hr & c & Hc & Hp) [Hne Hq]%not_elem_of_cons.
  split_and!; [done|done|]. exists c. by rewrite lookup_insert_ne by done; split; [done|apply IH].
Qed.

Lemma in_int_length z : 0 <= z <= int_max -> in_int z = true.
Proof. intros H. apply in_int_spec. unfold int_min. lia. Qed.

(** The end is inside of the buffer [q]. *)
Lemma seek_inside fuel p s m l q b num :
  messages_ s !! p = Some m -> cur_ m = q -> q <> 0%N -> buffers_ s !! q = Some b ->
  path (buffers_ s) (next_ b) l -> q ∉ l -> buffer_ok b -> 0 <= num < tail_ b - head_ b ->
  exists bs m', (let! h := int_op (head_ b + num) in put_buffer q (set_head_ h b) ;;! SeekForward_loop (S fuel) p 0) s =
      Ret (Some (Z.max 0 (num - (tail_ b - head_ b + zlen (unsent (buffers_ s) l)))))
        (mkState (pool_ s) bs (<[p := m']> (messages_ s)) (next_object s) (send_msg_list_ s)) /\
    m_head_ m' = m_head_ m /\ message_size_ m' = message_size_ m /\
    unsent bs (q :: l) = drop (Z.to_nat num) (unsent_of b ++ unsent (buffers_ s) l) /\
    (exists l1 l2, q :: l = l1 ++ l2 /\ path bs (cur_ m') l2 /\ unsent bs l1 = []) /\
    (forall r, r ∉ q :: l -> bs !! r = buffers_ s !! r).
Proof.
  intros Hm Hq Hq0 Hb Hp Hnin [Hh Ht] Hn.
  rewrite (bind_Ret _ _ s (head_ b + num) s) by (unfold int_op; by rewrite in_int_length by lia).
  unfold put_buffer. rewrite bind_modify. set (bs1 := <[q := _]> (buffers_ s)). cbn [SeekForward_loop].
  rewrite (bind_Ret _ _ (with_buffers_ bs1 s) m (with_buffers_ bs1 s))
    by (unfold the_message; rewrite bind_gets; cbn [messages_ with_buffers_]; by rewrite Hm).
  rewrite orb_true_r. exists bs1, m. rewrite insert_id by done. pose proof (zlen_nonneg (unsent (buffers_ s) l)).
  split; [unfold ret; do 2 f_equal; lia|]. split; [done|split; [done|]].
  assert (Hb1 : bs1 !! q = Some (set_head_ (head_ b + num) b)) by apply lookup_insert_eq. split; [|split].
  - rewrite (unsent_cons _ _ _ _ Hb1). unfold bs1. rewrite unsent_insert by done.
    rewrite unsent_of_head by (try (split; done); lia). rewrite drop_app_le; [done|].
    unfold unsent_of. rewrite length_seqZ. lia.
  - exists [], (q :: l). split; [done|]. split; [|done]. rewrite Hq. split; [done|split; [done|]].
    exists (set_head_ (head_ b + num) b). split; [done|]. by apply path_insert.
  - intros r [Hne Hr]%not_elem_of_cons. by apply lookup_insert_ne.
Qed.

(** The number of bytes left after [num] were taken, and the bytes. *)
Lemma seek_loop_eq fuel p s m l num :
  messages_ s !! p = Some m -> path (buffers_ s) (cur_ m) l -> base.NoDup l ->
  (forall q b, q ∈ l -> buffers_ s !! q = Some b -> buffer_ok b) -> 0 <= num <= int_max -> (length l < fuel)%nat ->
  exists bs m', SeekForward_loop fuel p num s =
      Ret (Some (Z.max 0 (num - zlen (unsent (buffers_ s) l))))
        (mkState (pool_ s) bs (<[p := m']> (messages_ s)) (next_object s) (send_msg_list_ s)) /\
    m_head_ m' = m_head_ m /\ message_size_ m' = message_size_ m /\
    unsent bs l = drop (Z.to_nat num) (unsent (buffers_ s) l) /\
    (exists l1 l2, l = l1 ++ l2 /\ path bs (cur_ m') l2 /\ unsent bs l1 = []) /\
    (forall q, q ∉ l -> bs !! q = buffers_ s !! q).
Proof.
  revert s m l num. induction fuel as [|fuel IH]; intros s m l num Hm Hp Hnd Hok Hnum Hf; [lia|].
  cbn [SeekForward_loop]. rewrite (bind_Ret _ _ s m s) by (unfold the_message; rewrite bind_gets; by rewrite Hm).
  destruct (N.eqb (cur_ m) 0 || (num <=? 0)) eqn:E.
  - assert (Hs : mkState (pool_ s) (buffers_ s) (<[p := m]> (messages_ s)) (next_object s) (send_msg_list_ s) = s)
      by (rewrite insert_id by done; by destruct s).
    exists (buffers_ s), m. rewrite Hs. apply orb_true_iff in E as [E%N.eqb_eq|E%Z.leb_le].
    + destruct l as [|q l]; [|destruct Hp as (? & ? & _); congruence]. change (zlen (unsent (buffers_ s) [])) with 0.
      split; [unfold ret; do 2 f_equal; lia|]. split; [done|split; [done|]]. split; [change (@nil Z = drop (Z.to_nat num) []); by rewrite drop_nil|].
      split; [by exists [], []|done].
    + pose proof (zlen_nonneg (unsent (buffers_ s) l)). replace num with 0 by lia.
      split; [unfold ret; do 2 f_equal; lia|]. split; [done|split; [done|]]. split; [by rewrite drop_0|].
      split; [by exists [], l|done].
  - apply orb_false_iff in E as [E%N.eqb_neq E2%Z.leb_gt].
    destruct l as [|q l]; [by simpl in Hp|]. destruct Hp as (Hq & Hq0 & b & Hb & Hp). rewrite Hq.
    apply list.NoDup_cons in Hnd as [Hnin Hnd]. assert (Hbok : buffer_ok b) by (apply (Hok q); [by left|done]).
    rewrite (unsent_cons _ _ _ _ Hb), zlen_app, (zlen_unsent_of _ Hbok).
    rewrite (bind_Ret _ _ s b s) by (unfold the_buffer; rewrite bind_gets; by rewrite Hb).
    destruct Hbok as [Hh Ht]. set (n := tail_ b - head_ b) in *.
    rewrite (bind_Ret _ _ s n s) by (unfold int_op; by rewrite in_int_length by lia).
    destruct (Z.leb_spec n num) as [Hle|Hgt].
    + rewrite (bind_Ret _ _ s (num - n) s) by (unfold int_op; by rewrite in_int_length by lia).
      unfold put_buffer, put_message. rewrite !bind_modify.
      set (s1 := with_messages_ _ _). set (bs1 := <[q := set_head_ (tail_ b) b]> (buffers_ s)) in *.
      destruct (IH s1 (set_cur (next_ b) m) l (num - n)) as (bs & m' & Es & H1 & H2 & H3 & (l1 & l2 & -> & H4 & H5) & H6).
      * cbn. by rewrite lookup_insert_eq.
      * cbn. by apply path_insert.
      * done.
      * intros r c Hr Hc. cbn in Hc. unfold bs1 in Hc. rewrite lookup_insert_ne in Hc by (intros ->; done). apply (Hok r); [by right|done].
      * lia.
      * simpl in Hf. lia.
      * exists bs, m'. rewrite Es. cbn [s1 with_messages_ with_buffers_ messages_ pool_ next_object send_msg_list_ buffers_] in *.
        rewrite insert_insert_eq. fold bs1 in H3, H6 |- *.
        assert (Hu : unsent bs1 (l1 ++ l2) = unsent (buffers_ s) (l1 ++ l2)) by (by apply unsent_insert).
        rewrite Hu in *.
        assert (Hbq : bs !! q = Some (set_head_ (tail_ b) b)) by (rewrite H6 by done; apply lookup_insert_eq).
        assert (Hz : unsent_of (set_head_ (tail_ b) b) = []) by (unfold unsent_of; apply seqZ_nil; cbn; lia).
        split; [do 2 f_equal; lia|]. split; [done|split; [done|]]. split; [|split].
        { rewrite (unsent_cons _ _ _ _ Hbq), Hz, H3. cbn [app]. rewrite drop_app_ge
            by (unfold unsent_of; rewrite length_seqZ; fold n; lia).
          f_equal. unfold unsent_of. rewrite length_seqZ. fold n. lia. }
        { exists (q :: l1), l2. split; [done|]. split; [done|]. by rewrite (unsent_cons _ _ _ _ Hbq), Hz, H5. }
        { intros r [Hne Hr]%not_elem_of_cons. rewrite H6 by done. by apply lookup_insert_ne. }
    + destruct fuel as [|fuel]; [simpl in Hf; lia|]. apply (seek_inside fuel p s m l q b num Hm Hq Hq0 Hb Hp Hnin); fold n; (split; done) || lia.
Qed.

(** C39: seeking forward in a message.  Where the buffers of a message hold data
    and its cursor is at the first of the buffers [l], seeking by [num] reports
    the least of [num] and the bytes that are not sent yet, and exactly these are
    taken from the front: the buffers before the new cursor are sent whole, those
    of other messages are untouched. *)
Theorem seek_forward fuel p s m l num :
  messages_ s !! p = Some m -> cur_ m <> 0%N -> path (buffers_ s) (cur_ m) l -> base.NoDup l ->
  (forall q b, q ∈ l -> buffers_ s !! q = Some b -> buffer_ok b) -> 0 <= num <= int_max -> (length l < fuel)%nat ->
  exists bs m', SeekForward fuel p num s = Ret (Some (Z.min num (zlen (unsent (buffers_ s) l))))
        (mkState (pool_ s) bs (<[p := m']> (messages_ s)) (next_object s) (send_msg_list_ s)) /\
    unsent bs l = drop (Z.to_nat num) (unsent (buffers_ s) l) /\
    (exists l1 l2, l = l1 ++ l2 /\ path bs (cur_ m') l2 /\ unsent bs l1 = []) /\
    (AllSent m' = true -> unsent bs l = []) /\
    (forall q, q ∉ l -> bs !! q = buffers_ s !! q).
Proof.
  intros Hm Hcur Hp Hnd Hok Hnum Hf.
  destruct (seek_loop_eq fuel p s m l num Hm Hp Hnd Hok Hnum Hf)
    as (bs & m' & E & _ & _ & H1 & (l1 & l2 & -> & H3 & H4) & H5).
  exists bs, m'. split; [|split; [done|split; [by exists l1, l2|split; [|done]]]].
  - unfold SeekForward. rewrite (bind_Ret _ _ s m s) by (unfold the_message; rewrite bind_gets; by rewrite Hm).
    rewrite bind_assert by (by apply negb_true_iff, N.eqb_neq). rewrite (bind_Ret _ _ _ _ _ E).
    pose proof (zlen_nonneg (unsent (buffers_ s) (l1 ++ l2))).
    unfold int_op. rewrite in_int_length by lia. rewrite bind_ret. unfold ret. do 2 f_equal. lia.
  - intros H%N.eqb_eq. rewrite H in H3. destruct l2 as [|q l2]; [by rewrite app_nil_r|].
    by destruct H3 as (<- & ? & _).
Qed.

(** ** What a connection can send *)

Section Connection.
  Variables garbage_next garbage_prev : N.

(** The program takes blocks, fills them and links them, gives them back, and
    uses the connection. *)
Inductive conn_step (s : State) : State -> Prop :=
| zs_small q s' : GetSmallBlock garbage_next garbage_prev s = Ret q s' -> conn_step s s'
| zs_large q s' : GetLargeBlock garbage_next garbage_prev s = Ret q s' -> conn_step s s'
| zs_put q s' : PutBlock q s = Ret tt s' -> conn_step s s'
| zs_fill q b b' : buffers_ s !! q = Some b -> start_ b' = start_ b -> length_ b' = length_ b ->
    conn_step s (with_buffers_ (<[q := b']> (buffers_ s)) s)
| zs_push fuel data z s' : PushMessageToSend fuel data s = Ret z s' -> conn_step s s'
| zs_shrink fuel num z s' : ShrinkSendMsgList fuel num s = Ret z s' -> conn_step s s'
| zs_iov fuel num z s' : GetIOVectorToSend fuel num s = Ret z s' -> conn_step s s'.

Definition conn_initial (s : State) : Prop :=
  (exists ls ln ss sn large small, new_MemPool ls ln ss sn large small s = Ret (pool_ s) s) /\
  buffers_ s = ∅ /\ send_msg_list_ s = [].

(** No small block is there, buffers are large, and messages have no data. *)
Record conn_inv (s : State) : Prop := mkConnInv {
  ci_small : idle_small_blocks_ (pool_ s) = [];
  ci_large : forall q b, buffers_ s !! q = Some b -> length_ b = large_block_size_ (pool_ s);
  ci_dead : forall p, p ∈ send_msg_list_ s -> exists size, messages_ s !! p = Some (mkMsg 0 size 0)
}.

Lemma Message_loop_same fuel it size s z s' : Message_loop fuel it size s = Ret z s' -> s' = s.
Proof.
  revert it size. induction fuel as [|fuel IH]; intros it size E; [by injection E|]. cbn [Message_loop] in E.
  destruct (N.eqb it 0); [by injection E|]. unfold the_buffer in E.
  apply bind_Ret_inv in E as (b & s1 & E1 & E). rewrite bind_gets in E1.
  destruct (buffers_ s !! it); [|done]. injection E1 as _ <-.
  apply bind_Ret_inv in E as ([] & s1 & E1 & E).
  assert (s1 = s) as ->.
  { destruct (N.eqb (next_ b) 0); [by injection E1|]. unfold bindM, assert_ in E1.
    destruct (head_ b =? 0); [|done]. destruct (tail_ b =? length_ b); [by injection E1|done]. }
  clear E1. apply bind_Ret_inv in E as (size' & s1 & E1 & E). unfold int_op in E1. destruct (in_int _); [|done].
  injection E1 as _ <-. by apply IH in E.
Qed.

Lemma push_effect fuel data s z s' :
  PushMessageToSend fuel data s = Ret z s' ->
  (z = None /\ s' = s) \/
  exists p size, z = Some 0 /\ s' = mkState (pool_ s) (buffers_ s) (<[p := mkMsg 0 size 0]> (messages_ s)) (N.succ p)
    (send_msg_list_ s ++ [p]).
Proof.
  unfold PushMessageToSend, new_TCPMessageToSend. intros E. apply bind_Ret_inv in E as (o & s1 & E1 & E).
  apply bind_Ret_inv in E1 as (size & s2 & E2 & E1). apply Message_loop_same in E2 as ->.
  destruct size as [size|]; [|injection E1 as <- <-; injection E as <- <-; by left].
  right. injection E1 as <- <-. injection E as <- <-. by exists (next_object s), size.
Qed.

Lemma dead_nothing s p l fuel num size :
  send_msg_list_ s = p :: l -> messages_ s !! p = Some (mkMsg 0 size 0) ->
  GetIOVectorToSend fuel num s = Ret None s /\ ShrinkSendMsgList fuel num s = Halt HAssert s.
Proof.
  intros Hl Hm.
  assert (E : forall B (k : TCPMessageToSend -> M State B), bindM (the_message p) k s = k (mkMsg 0 size 0) s)
    by (intros B k; unfold the_message, bindM, gets; by rewrite Hm).
  unfold GetIOVectorToSend, ShrinkSendMsgList. rewrite !bind_gets, Hl. split.
  - generalize (@nil (Z * Z)). induction fuel as [|fuel IH]; intros iovec; [done|].
    cbn [iov_outer]. rewrite E. cbn [BufferList m_head_ iov_inner N.eqb]. by rewrite bind_ret.
  - cbn [shrink_loop]. unfold SeekForward. unfold bindM at 1. by rewrite E.
Qed.

Lemma new_block_effect start size q s s' :
  new_block garbage_next garbage_prev start size s = Ret q s' ->
  pool_ s' = pool_ s /\ messages_ s' = messages_ s /\ send_msg_list_ s' = send_msg_list_ s /\
  exists b, length_ b = size /\ buffers_ s' = <[q := b]> (buffers_ s).
Proof. intros [= <- <-]. split_and!; [done|done|done|]. eexists (mkBuffer _ _ _ _ _ _). by split. Qed.

Lemma conn_step_inv s s' : conn_step s s' -> conn_inv s -> conn_inv s'.
Proof.
  intros Hstep [Hs Hl Hd]. destruct Hstep as [q s' E|q s' E|q s' E|q b b' Hb Hst Hlen|fuel data z s' E|fuel num z s' E|fuel num z s' E].
  - unfold GetSmallBlock in E. rewrite bind_gets, Hs in E. injection E as <- <-. by split.
  - unfold GetLargeBlock in E. rewrite bind_gets in E. destruct (idle_large_blocks_ (pool_ s)) as [|a r].
    { injection E as <- <-. by split. }
    apply bind_Ret_inv in E as (q' & s1 & E1 & E). apply new_block_effect in E1 as (H1 & H2 & H3 & b & Hb & H4).
    injection E as <- <-. split; cbn [pool_ buffers_ send_msg_list_ messages_ with_pool_ set_idle_large idle_small_blocks_].
    + done.
    + rewrite H4. intros r' c [[_ <-]|[_ Hc]]%lookup_insert_Some; [done|by eapply Hl].
    + rewrite H2, H3. done.
  - unfold PutBlock in E. apply bind_Ret_inv in E as ([] & s1 & E1 & E). unfold assert_ in E1.
    destruct (negb _); [|done]. injection E1 as <-. unfold the_buffer in E.
    apply bind_Ret_inv in E as (b & s1 & E1 & E). rewrite bind_gets in E1.
    destruct (buffers_ s !! q) as [b'|] eqn:Hb; [|done]. injection E1 as <- <-. rewrite bind_gets in E.
    rewrite (proj2 (Z.eqb_eq _ _) (Hl q b' Hb)) in E. apply bind_Ret_inv in E as ([] & s1 & E1 & E).
    apply bind_Ret_inv in E1 as (ok & s2 & E2 & E1). unfold multiple in E2.
    destruct (_ =? 0); [done|]. injection E2 as <- <-. destruct (Z.rem _ _ =? 0); [|done]. injection E1 as <-.
    injection E as <-. split; cbn; [done| |done]. intros r c [_ Hc]%lookup_delete_Some. by eapply Hl.
  - split; cbn; [done| |done]. intros r c [[<- <-]|[_ Hc]]%lookup_insert_Some; [rewrite Hlen|]; by eapply Hl.
  - apply push_effect in E as [[_ ->]|(p & size & _ & ->)]; [by split|]. split; cbn; [done|done|].
    intros r Hr. destruct (decide (p = r)) as [->|Hne]; [exists size; apply lookup_insert_eq|].
    rewrite lookup_insert_ne by done. apply Hd. apply elem_of_app in Hr as [Hr|Hr%list_elem_of_singleton]; [done|congruence].
  - destruct (send_msg_list_ s) as [|p l] eqn:El.
    + unfold ShrinkSendMsgList in E. rewrite bind_gets, El in E. injection E as _ <-. by split; rewrite ?El.
    + destruct (Hd p ltac:(by left)) as [size Hp]. destruct (dead_nothing s p l fuel num size El Hp) as [_ H].
      by rewrite H in E.
  - destruct (send_msg_list_ s) as [|p l] eqn:El.
    + unfold GetIOVectorToSend in E. rewrite bind_gets, El in E. injection E as _ <-. by split; rewrite ?El.
    + destruct (Hd p ltac:(by left)) as [size Hp]. destruct (dead_nothing s p l fuel num size El Hp) as [H _].
      rewrite H in E. injection E as _ <-. by split; rewrite ?El.
Qed.

(** C40: a connection never sends anything.  Whatever the program does with the
    pool, the buffers and the connection: a small block is never to be had; a
    message that was pushed is on the list, and while one is there, collecting
    what is to be sent goes round for ever, and taking off what was sent fails an
    assertion, because a message forgets the buffers it is made of. *)
Theorem connection_never_sends s0 s :
  conn_initial s0 -> rtc conn_step s0 s ->
  GetSmallBlock garbage_next garbage_prev s = Ret 0%N s /\
  (forall fuel data z s', PushMessageToSend fuel data s = Ret (Some z) s' -> send_msg_list_ s' <> []) /\
  (send_msg_list_ s <> [] -> forall fuel num,
     GetIOVectorToSend fuel num s = Ret None s /\ ShrinkSendMsgList fuel num s = Halt HAssert s).
Proof.
  intros H0 Hrtc. assert (Hi : conn_inv s).
  { assert (Hi0 : conn_inv s0).
    { destruct H0 as ((ls & ln & ss & sn & large & small & Hp) & Hb & Hl). unfold new_MemPool in Hp.
      apply bind_Ret_inv in Hp as (n1 & s1 & E1 & Hp). unfold int_op in E1. destruct (in_int _); [|done].
      injection E1 as _ <-. apply bind_Ret_inv in Hp as (n2 & s1 & E1 & Hp). unfold int_op in E1.
      destruct (in_int _); [|done]. injection E1 as _ <-. injection Hp as Hp.
      split; [by rewrite <- Hp|by rewrite Hb|]. rewrite Hl. by intros p ?%list.elem_of_nil. }
    clear H0. induction Hrtc; [done|]. eauto using conn_step_inv. }
  destruct Hi as [Hs Hl Hd]. split; [|split].
  - unfold GetSmallBlock. by rewrite bind_gets, Hs.
  - intros fuel data z s' E. apply push_effect in E as [[? _]|(p & size & _ & ->)]; [done|]. cbn.
    by intros ?%app_nil%proj2.
  - intros Hne fuel num. destruct (send_msg_list_ s) as [|p l] eqn:El; [done|].
    destruct (Hd p ltac:(by left)) as [size Hp]. by apply (dead_nothing s p l fuel num size).
Qed.
End Connection.
