(* ===== verification/ZxbnfSocket.v ===== *)
(** * Sockets of [zxbnf]: [zxbnf/socket.hpp]

    Each operation is a few system calls, whose answers are arguments, and the
    code it returns.  [SetNonblock] is [SetNonBlock], [length()] of a list is
    [size()], and the missing semicolon and [)] are read in.  A function that ends
    without a [return] has no value: [None].  [AsyncSendTo] is left out: it tests a
    member that no class has. *)

From S2P Require Import Prelude.

Definition O_NONBLOCK : Z := 2048.
Definition EAGAIN : Z := 11.
Definition EINTR : Z := 4.

(** [SetNonBlock]: what [fcntl] answers to reading the flags and to setting them;
    the result, and the flags that were set. *)
Definition SetNonBlock (getfl setfl : Z) : bool * option Z :=
  if getfl =? -1 then (false, None)
  else if negb (Z.land getfl O_NONBLOCK =? 0) then (false, None)
  else
    let flags := Z.lor getfl O_NONBLOCK in
    if negb (setfl =? -1) then (false, Some flags) else (true, None).

(** [Create] of the three kinds: the descriptor, whatever [SetNonBlock] said. *)
Definition Create (new_fd getfl setfl : Z) : Z * option Z := (new_fd, (SetNonBlock getfl setfl).2).

(** The vector for [writev] and [readv]: one entry for each address; reading
    behind the end of the sizes is undefined. *)
Definition make_iov {S} (data_list size_list : list Z) : M S (list (Z * Z)) :=
  if (length size_list <? length data_list)%nat then stop HUndefined
  else ret (combine data_list size_list).

(** [AsyncSend] and [AsyncReceive]; [call] is the system call on the vector, its
    answer and [errno]. *)
Definition async_transfer {S} (socket_ : Z) (data_list size_list : list Z) (call : list (Z * Z) -> Z * Z) : M S Z :=
  if socket_ <? 0 then ret (-1)
  else
    let! iov := make_iov data_list size_list in
    let '(r, errno) := call iov in
    if r <? 0 then if negb (errno =? EAGAIN) then ret (-2) else ret r else ret r.
Definition AsyncSend {S} (socket_ : Z) (data_list size_list : list Z) (writev : list (Z * Z) -> Z * Z) : M S Z :=
  async_transfer socket_ data_list size_list writev.
Definition AsyncReceive {S} (socket_ : Z) (data_list size_list : list Z) (readv : list (Z * Z) -> Z * Z) : M S Z :=
  async_transfer socket_ data_list size_list readv.

Definition AsyncListenOn (socket_ bind_answer listen_answer : Z) : Z :=
  if socket_ <=? 0 then -1
  else if bind_answer =? -1 then -2
  else if listen_answer =? -1 then -3
  else 0.

(** [AsyncAccept] with a place for the new socket: the result, and the descriptor
    of the socket that is made. *)
Definition AsyncAccept (socket_ accept_answer errno : Z) : option Z * option Z :=
  if socket_ <? 0 then (Some (-2), None)
  else if accept_answer <? 0 then
    if negb (errno =? EAGAIN) then (Some (-2), None) else (Some (-3), None)
  else (None, Some accept_answer).

Definition AsyncConnectTo (socket_ connect_answer errno : Z) : Z :=
  if socket_ <? 0 then -2
  else if connect_answer <? 0 then if negb (errno =? EAGAIN) then -3 else 1
  else 0.

(** [AsyncReceiveFrom] with a place for the address: both branches have the same
    calls, on the caller's address or on one of their own. *)
Definition AsyncReceiveFrom (recv_answer errno : Z) : Z :=
  if recv_answer <? 0 then
    if negb (errno =? EAGAIN) || negb (errno =? EINTR) then -2 else 0
  else 0.

Definition AsyncBindOn (socket_ bind_answer : Z) : Z :=
  if socket_ <? 0 then -2 else if bind_answer <? 0 then -3 else 0.

(** What the results do not tell.  [SetNonBlock] is true exactly where the flag
    could not be set, and false where it was; a connect that goes on in the
    background, which the system reports by another number than [EAGAIN], is an
    error; -1 of a transfer means that it would block and that there is no
    socket; a received datagram of any size, and none at all, are 0. *)
Lemma results_ambiguous :
  (forall getfl setfl, (SetNonBlock getfl setfl).2 <> None -> (SetNonBlock getfl setfl).1 = false) /\
  (forall getfl setfl, (SetNonBlock getfl setfl).1 = true ->
     getfl <> -1 /\ Z.land getfl O_NONBLOCK = 0 /\ setfl = -1) /\
  (forall socket_, 0 <= socket_ -> AsyncConnectTo socket_ (-1) 115 = -3) /\
  (forall S (s : S) data sizes, (length data <= length sizes)%nat ->
     AsyncSend (-1) data sizes (fun _ => (0, 0)) s = AsyncSend 5 data sizes (fun _ => (-1, EAGAIN)) s) /\
  (forall n errno, 0 <= n -> AsyncReceiveFrom n errno = 0) /\
  (forall errno, AsyncReceiveFrom (-1) errno = -2).
Proof.
  split; [|split; [|split; [|split; [|split]]]].
  - intros getfl setfl. unfold SetNonBlock. by repeat case_match.
  - intros getfl setfl. unfold SetNonBlock.
    destruct (Z.eqb_spec getfl (-1)); [done|]. destruct (Z.eqb_spec (Z.land getfl O_NONBLOCK) 0); [|done].
    destruct (Z.eqb_spec setfl (-1)); [|done]. done.
  - intros socket_ H. unfold AsyncConnectTo. by rewrite (proj2 (Z.ltb_ge _ _)) by done.
  - intros S s data sizes H. unfold AsyncSend, async_transfer, make_iov. cbn [Z.ltb Z.compare].
    by rewrite (proj2 (Nat.ltb_ge _ _)) by done.
  - intros n errno H. unfold AsyncReceiveFrom. by rewrite (proj2 (Z.ltb_ge _ _)) by done.
  - intros errno. unfold AsyncReceiveFrom. cbn [Z.ltb Z.compare].
    destruct (Z.eqb_spec errno EAGAIN) as [->|]; [done|]. done.
Qed.
