(* ===== verification/ZxbnfDemo.v ===== *)
(** * Messages of [zxbnf] on concrete states

    A message whose cursor is set, and a connection to which a message was
    pushed; the theorems of Zxbnf are applied there. *)

From S2P Require Import Prelude ZxPool Zxbnf.

Definition empty_pool : MemPool := mkMemPool 1000 [] 100 0 5000 [] 10 0.

(** Two buffers of 4 and 3 bytes, the first byte of which is sent. *)
Definition buffer1 : Buffer := mkBuffer 1000 1 4 100 2 0.
Definition buffer2 : Buffer := mkBuffer 1100 0 3 100 0 1.
Definition message0 : TCPMessageToSend := mkMsg 1 7 1.
Definition state0 : State :=
  mkState empty_pool {[1%N := buffer1; 2%N := buffer2]} {[9%N := message0]} 20 [9%N].

(** Five bytes are taken: three of the first and two of the second. *)
Example seek_five :
  match SeekForward 5 9 5 state0 with
  | Ret (Some n) s => (n, unsent (buffers_ s) [1%N; 2%N]) = (5, [1102])
  | _ => False
  end.
Proof. vm_compute. reflexivity. Qed.

Lemma seek_forward_witness :
  unsent (buffers_ state0) [1%N; 2%N] = [1001; 1002; 1003; 1100; 1101; 1102] /\
  exists bs m', SeekForward 5 9 5 state0 = Ret (Some 5) (mkState empty_pool bs (<[9%N := m']> (messages_ state0)) 20 [9%N]) /\
    unsent bs [1%N; 2%N] = [1102].
Proof.
  split; [vm_compute; reflexivity|].
  destruct (seek_forward 5 9 state0 message0 [1%N; 2%N] 5) as (bs & m' & H1 & H2 & _).
  - vm_compute; reflexivity.
  - discriminate.
  - split; [reflexivity|split; [discriminate|]]. exists buffer1. split; [vm_compute; reflexivity|].
    split; [reflexivity|split; [discriminate|]]. exists buffer2. split; [vm_compute; reflexivity|reflexivity].
  - repeat constructor; set_solver.
  - intros q b Hq Hb.
    assert (q = 1%N \/ q = 2%N) as [->| ->] by set_solver; vm_compute in Hb; injection Hb as <-;
      (split; [split|]; vm_compute; discriminate).
  - split; vm_compute; discriminate.
  - cbn. lia.
  - exists bs, m'. split; [exact H1|exact H2].
Defined.

(** A pool of one large block; it is taken, filled, and pushed as a message. *)
Definition pool1 : MemPool := mkMemPool 1000 [1000; 1000] 100 1 5000 [] 10 1.
Definition start0 : State := mkState pool1 ∅ ∅ 1 [].
Definition start1 : State := after (GetLargeBlock 0 0) start0.
Definition start2 : State := after (PushMessageToSend 5 1) start1.

Lemma connection_never_sends_witness :
  send_msg_list_ start2 = [2%N] /\ GetSmallBlock 0 0 start2 = Ret 0%N start2 /\
  GetIOVectorToSend 100 10 start2 = Ret None start2 /\ ShrinkSendMsgList 100 10 start2 = Halt HAssert start2.
Proof.
  split; [vm_compute; reflexivity|].
  destruct (connection_never_sends 0 0 start0 start2) as (H1 & _ & H2).
  - split; [exists 100, 1, 10, 1, 1000, 5000; vm_compute; reflexivity|]. split; reflexivity.
  - eapply rtc_l; [|eapply rtc_once].
    + apply (zs_large 0 0 start0 1 start1). vm_compute. reflexivity.
    + apply (zs_push 0 0 start1 5 1 (Some 0) start2). vm_compute. reflexivity.
  - split; [exact H1|]. apply H2. vm_compute. discriminate.
Defined.
