(* ===== verification/NgSocket.v ===== *)
(** * Sockets of the generation with engines: [nf/socket.hpp], [nf/messagizor.hpp], [nf/event_listener.hpp]

    The headers are read with the spelling of the members they declare, with [i]
    in scope behind the loops that count with it, and with [receive_msg_length_]
    and the message of the socket as the members [LVMessagizor] uses.  What the
    system calls answer is an argument: one answer for each call.  A result
    [None] is a loop that has used its answers up and goes on.  The theorems: messages that the
    kernel takes whole are sent right ([whole_messages_sent]), a message it takes
    a part of is not ([partial_send_undefined]); the accept and receive loops do
    not end when nothing is there ([listener_spins], [datagrams_spin]). *)

From S2P Require Import Prelude Wire.

(** ** [class TCPSocket] *)

(** [TCPMessage]: the memory at [data], and the two lengths. *)
Record TCPMessage := mkTCPMessage { data : list byte; size : Z; capacity : Z }.

Record TCPSocket := mkTCPSocket {
  msg_ : option TCPMessage;
  received_ : Z;
  receive_msg_length_ : Z;
  send_msg_list_ : list TCPMessage;
  sent_ : Z;
  sk_closed : bool;
  wire : list byte
}.
Definition set_msg v (s : TCPSocket) : TCPSocket :=
  mkTCPSocket v (received_ s) (receive_msg_length_ s) (send_msg_list_ s) (sent_ s) (sk_closed s) (wire s).
Definition set_received v (s : TCPSocket) : TCPSocket :=
  mkTCPSocket (msg_ s) v (receive_msg_length_ s) (send_msg_list_ s) (sent_ s) (sk_closed s) (wire s).
Definition set_list v (s : TCPSocket) : TCPSocket :=
  mkTCPSocket (msg_ s) (received_ s) (receive_msg_length_ s) v (sent_ s) (sk_closed s) (wire s).
Definition set_sent v (s : TCPSocket) : TCPSocket :=
  mkTCPSocket (msg_ s) (received_ s) (receive_msg_length_ s) (send_msg_list_ s) v (sk_closed s) (wire s).
Definition set_wire v (s : TCPSocket) : TCPSocket :=
  mkTCPSocket (msg_ s) (received_ s) (receive_msg_length_ s) (send_msg_list_ s) (sent_ s) (sk_closed s) v.

Definition AsyncConnectTo (connect : Z) : bool := negb (connect <? 0).

(** One message more than [kMaxSendList], which nothing declares, is taken. *)
Definition AsyncSend (kMaxSendList : Z) (buf : list byte) (n cap : Z) : M TCPSocket bool :=
  let! l := gets send_msg_list_ in
  if kMaxSendList <? zlen l then ret false
  else modify (set_list (l ++ [mkTCPMessage buf n cap])) ;;! ret true.

(** [Close] deletes what [msg_] points to and leaves the pointer as it is. *)
Definition Close : M TCPSocket Z :=
  modify (fun s => mkTCPSocket (msg_ s) (received_ s) (receive_msg_length_ s) [] (sent_ s) true (wire s)) ;;!
  ret 0.

(** *** [LVMessagizor] *)

Definition IsComplete : M TCPSocket bool := gets (fun s => receive_msg_length_ s =? received_ s).

(** What was received is taken for the size of the message; the length field is
    not reached. *)
Definition MessageSize : M TCPSocket Z :=
  let! r := gets received_ in
  if 0 <? r then ret r
  else
    let! m := gets msg_ in
    let! msg := of_option HUndefined m in
    assert_ (4 <? size msg) ;;!
    ret 0.

Definition GetMessage : M TCPSocket (option TCPMessage) :=
  let! c := IsComplete in
  if c then
    let! m := gets msg_ in
    modify (fun s => set_received 0 (set_msg None s)) ;;! ret m
  else ret None.

Definition GetSendList (other : list TCPMessage) : M TCPSocket (list TCPMessage) :=
  let! l := gets send_msg_list_ in modify (set_list other) ;;! ret l.

(** *** [OnWritable] *)

Inductive WriteAnswer := Wrote (n : Z) | WriteIntr | WriteAgain | WriteBroken.

(** A vector of [n] bytes from [off] in a message. *)
Definition vector (off : Z) (msg : TCPMessage) : option (list byte) :=
  if decide (0 <= off /\ 0 <= size msg /\ off + size msg <= zlen (data msg))
  then Some (take (Z.to_nat (size msg)) (drop (Z.to_nat off) (data msg))) else None.

(** The vectors: the first from [sent_] on, of the whole size. *)
Definition vectors (sent : Z) (l : list TCPMessage) : option (list (list byte)) :=
  match l with
  | [] => Some []
  | msg :: l =>
      match vector sent msg, mapM (vector 0) l with
      | Some v, Some vs => Some (v :: vs)
      | _, _ => None
      end
  end.

(** The loop that takes the sent messages from the list; [left > 0] is its only
    condition.  It gives the list and the new [sent_]. *)
Fixpoint trim (l : list TCPMessage) (left sent : Z) : M TCPSocket (list TCPMessage * Z) :=
  if left <=? 0 then ret (l, sent)
  else match l with
  | [] => stop HUndefined
  | msg :: l' =>
      if size msg <=? left then trim l' (left - size msg) sent else ret (l, left)
  end.

Fixpoint write_loop (answers : list WriteAnswer) : M TCPSocket (option Z) :=
  match answers with
  | [] => ret None
  | a :: answers =>
      let! l := gets send_msg_list_ in
      let! sent := gets sent_ in
      let! vs := of_option HUndefined (vectors sent l) in
      match a with
      | WriteIntr => write_loop answers
      | WriteAgain => ret (Some 0)
      | WriteBroken => ret (Some (-1))
      | Wrote n =>
          assert_ (negb (n =? 0)) ;;!
          modify (fun s => set_wire (wire s ++ take (Z.to_nat n) (concat vs)) s) ;;!
          let! r := trim l n sent in
          modify (fun s => set_sent r.2 (set_list r.1 s)) ;;!
          match r.1 with
          | [] => ret (Some 1)
          | _ => write_loop answers
          end
      end
  end.

Definition OnWritable (answers : list WriteAnswer) : M TCPSocket (option Z) :=
  let! l := gets send_msg_list_ in
  assert_ (match l with [] => false | _ => true end) ;;!
  write_loop answers.

(** *** [OnReadable] *)

Inductive ReadAnswer := ReadBytes (bytes : list byte) | ReadEnd | ReadFails.

(** Any failure ends the loop: [errno] differs from [EAGAIN] or from [EINTR].
    [junk] is what new memory holds.  The size of the message stays what it was
    when its memory is exchanged for a larger one. *)
Fixpoint read_loop (junk : nat -> byte) (answers : list ReadAnswer) : M TCPSocket (option Z) :=
  match answers with
  | [] => ret None
  | a :: answers =>
      let! msg_size := MessageSize in
      let! m := gets msg_ in
      let! msg := of_option HUndefined m in
      let! received := gets received_ in
      let! buf_size :=
        if (0 <? msg_size) && (size msg <? msg_size) then
          let fresh := map junk (seq 0 (Z.to_nat (1024 * 1024))) in
          if decide (0 <= received <= zlen (data msg)) then
            let! larger := of_option HUndefined (overwrite fresh 0 (take (Z.to_nat received) (data msg))) in
            modify (set_msg (Some (mkTCPMessage larger (size msg) (capacity msg)))) ;;!
            ret (msg_size - received)
          else stop HUndefined
        else ret (size msg - received) in
      match a with
      | ReadFails => ret (Some (-2))
      | ReadEnd => ret (Some (-3))
      | ReadBytes bytes =>
          let got := take (Z.to_nat buf_size) bytes in
          if zlen got =? 0 then ret (Some (-3))
          else
            let! m := gets msg_ in
            let! msg := of_option HUndefined m in
            let! data' := of_option HUndefined (overwrite (data msg) (Z.to_nat received) got) in
            modify (set_msg (Some (mkTCPMessage data' (size msg) (capacity msg)))) ;;!
            let! n := int_op (received + zlen got) in
            modify (set_received n) ;;!
            let! c := IsComplete in
            if c then ret (Some 1) else read_loop junk answers
      end
  end.

(** [fresh] is what the members of a new message hold. *)
Definition OnReadable (junk : nat -> byte) (fresh : TCPMessage) (answers : list ReadAnswer) : M TCPSocket (option Z) :=
  let! m := gets msg_ in
  (match m with
   | Some _ => ret tt
   | None =>
       let! r := gets received_ in
       assert_ (r =? 0) ;;!
       modify (set_msg (Some (mkTCPMessage (map junk (seq 0 1024)) (size fresh) (capacity fresh))))
   end) ;;!
  let! c := IsComplete in
  assert_ (negb c) ;;!
  read_loop junk answers.

Definition OnError : M TCPSocket Z := Close ;;! ret 0.

(** ** [class TCPListener] *)

(** What [accept] answers. *)
Inductive AcceptAnswer := Accepted (fd : Z) | AcceptAgain | AcceptBroken.

Definition OnAcceptable (a : AcceptAnswer) : Z :=
  match a with Accepted fd => fd | AcceptAgain => -1 | AcceptBroken => -2 end.

(** The system calls of [ListenOn], by their results. *)
Definition ListenOn (sk bind listen : Z) : bool :=
  if sk <? 0 then false else if bind <? 0 then false else negb (listen <? 0).

Section Listener.
  (** The state of the program and its [ProcessNewConnection]. *)
  Context {S : Type}.
  Variable ProcessNewConnection : Z -> M S Z.

(** -1, nothing to accept, is not less than -1. *)
Fixpoint listener_loop (answers : list AcceptAnswer) : M S (option Z) :=
  match answers with
  | [] => ret None
  | a :: answers =>
      let newsk := OnAcceptable a in
      if newsk <? -1 then ret (Some 1)
      else
        let! r := ProcessNewConnection newsk in
        if r <? 0 then ret (Some (-2)) else listener_loop answers
  end.

Definition EPOLLIN : Z := 1.
Definition EPOLLOUT : Z := 4.

Definition listener_Handle (events : Z) (answers : list AcceptAnswer) : M S (option Z) :=
  assert_ (negb (Z.land events EPOLLIN =? 0)) ;;! listener_loop answers.

End Listener.

(** ** [class UDPSocket] *)

Record UDPMessage := mkUDPMessage { udata : list byte; usize : Z; ucapacity : Z }.
Record UDPSocket := mkUDPSocket { usend_list : list UDPMessage; uclosed : bool; uwire : list (list byte) }.

Definition udp_AsyncSend (buf : list byte) (n cap : Z) : M UDPSocket bool :=
  modify (fun s => mkUDPSocket (usend_list s ++ [mkUDPMessage buf n cap]) (uclosed s) (uwire s)) ;;! ret true.
Definition udp_Close : M UDPSocket unit := modify (fun s => mkUDPSocket [] true (uwire s)).
Definition udp_BindOn (bind : Z) : bool := negb (bind <? 0).

(** What [recvfrom] answers. *)
Inductive DatagramAnswer := Datagram (bytes : list byte) (from : Z) | NoDatagram | DatagramBroken.

Section Udp.
  (** [ProcessMessage] of the processor: from [OnReadable], with the datagram,
      and from [Handle], with the variables nobody has set. *)
  Variable ProcessMessage : list byte -> Z -> M UDPSocket Z.
  Variable ProcessGarbage : M UDPSocket Z.

Definition udp_OnReadable (a : DatagramAnswer) : M UDPSocket Z :=
  match a with
  | DatagramBroken => ret (-1)
  | NoDatagram => ret 0
  | Datagram bytes from => ProcessMessage (take 1024 bytes) from ;;! ret 1
  end.

(** The loop of [Handle]: the error at its end, [None] when it goes on. *)
Fixpoint udp_read_loop (answers : list DatagramAnswer) : M UDPSocket (option Z) :=
  match answers with
  | [] => ret None
  | a :: answers =>
      let! r := udp_OnReadable a in
      if r =? 0 then udp_read_loop answers
      else if r =? -1 then ret (Some (-1))
      else
        let! r := ProcessGarbage in
        if r <? 0 then ret (Some (-2)) else udp_read_loop answers
  end.

(** One [writev] of the whole list; a message that is not sent whole is a failing
    assertion. *)
Fixpoint udp_trim (l : list UDPMessage) (left : Z) : M UDPSocket (list UDPMessage) :=
  if left <=? 0 then ret l
  else match l with
  | [] => stop HUndefined
  | msg :: l' => if usize msg <=? left then udp_trim l' (left - usize msg) else stop HAssert
  end.

Definition udp_vector (msg : UDPMessage) : option (list byte) :=
  if decide (0 <= usize msg <= zlen (udata msg)) then Some (take (Z.to_nat (usize msg)) (udata msg)) else None.

Definition udp_OnWritable (writev : Z) : M UDPSocket Z :=
  let! l := gets usend_list in
  match l with
  | [] => ret (-1)
  | _ =>
      let! vs := of_option HUndefined (mapM udp_vector l) in
      if writev <? 0 then ret (-1)
      else if writev =? 0 then ret (-2)
      else
        modify (fun s => mkUDPSocket (usend_list s) (uclosed s) (uwire s ++ [take (Z.to_nat writev) (concat vs)])) ;;!
        let! l' := udp_trim l writev in
        modify (fun s => mkUDPSocket l' (uclosed s) (uwire s)) ;;!
        ret 0
  end.

Definition udp_Handle (events : Z) (answers : list DatagramAnswer) (writev : Z) : M UDPSocket (option Z) :=
  let! go :=
    if negb (Z.land events EPOLLIN =? 0) then
      let! error := udp_read_loop answers in
      match error with
      | None => ret false
      | Some e => (if e <? 0 then udp_Close else ret tt) ;;! ret true
      end
    else ret true in
  if go then
    if negb (Z.land events EPOLLOUT =? 0) then
      let! r := udp_OnWritable writev in
      if r <? 0 then ret (Some (-3)) else ret (Some 0)
    else ret (Some 0)
  else ret None.

End Udp.

(** ** Sending *)

(** The bytes of a message; a message with some, all in its memory. *)
Definition payload (msg : TCPMessage) : list byte := take (Z.to_nat (size msg)) (data msg).
Definition msg_ok (msg : TCPMessage) : Prop := 0 < size msg <= zlen (data msg).

Definition sizes (l : list TCPMessage) : Z := foldr Z.add 0 (size <$> l).

(** The kernel takes whole messages: the numbers of messages, and its answers. *)
Fixpoint whole_answers (ks : list nat) (l : list TCPMessage) : list WriteAnswer :=
  match ks with
  | [] => []
  | k :: ks => Wrote (sizes (take k l)) :: whole_answers ks (drop k l)
  end.

Lemma vector_payload msg : msg_ok msg -> vector 0 msg = Some (payload msg).
Proof. intros H. unfold vector, msg_ok in *. by rewrite decide_True by lia. Qed.

Lemma mapM_payload l : Forall msg_ok l -> mapM (vector 0) l = Some (payload <$> l).
Proof.
  induction l as [|msg l IH]; [done|]. intros H. inversion_clear H. cbn.
  rewrite vector_payload by done. cbn. by rewrite IH.
Qed.

Lemma vectors_payload l : Forall msg_ok l -> vectors 0 l = Some (payload <$> l).
Proof.
  destruct l as [|msg l]; [done|]. intros H. inversion_clear H. cbn.
  by rewrite vector_payload, mapM_payload.
Qed.

Lemma zlen_payload msg : msg_ok msg -> zlen (payload msg) = size msg.
Proof. unfold msg_ok, payload, zlen. rewrite length_take. lia. Qed.

Lemma sizes_pos l : Forall msg_ok l -> 0 <= sizes l /\ (l <> [] -> 0 < sizes l).
Proof.
  induction l as [|msg l IH]; intros H; [done|]. inversion_clear H as [|? ? Hm Hl].
  destruct (IH Hl). unfold sizes in *. cbn. unfold msg_ok in Hm. split; [lia|]. intros _. lia.
Qed.

Lemma take_payloads k l : Forall msg_ok l ->
  take (Z.to_nat (sizes (take k l))) (concat (payload <$> l)) = concat (payload <$> take k l).
Proof.
  revert l. induction k as [|k IH]; intros [|msg l] H; try done. inversion_clear H as [|? ? Hm Hl].
  destruct (sizes_pos (take k l)) as [Hp _]; [by apply Forall_take|].
  pose proof (zlen_payload msg Hm) as Hz. unfold zlen in Hz. unfold msg_ok in Hm.
  cbn [take fmap list_fmap concat]. change (sizes (msg :: take k l)) with (size msg + sizes (take k l)).
  rewrite take_app_ge by lia. f_equal. rewrite <- IH by done. f_equal. lia.
Qed.

Lemma trim_whole k l sent s : Forall msg_ok l -> trim l (sizes (take k l)) sent s = Ret (drop k l, sent) s.
Proof.
  revert l. induction k as [|k IH]; intros [|msg l] H; try done. inversion_clear H as [|? ? Hm Hl].
  destruct (sizes_pos (take k l)) as [Hp _]; [by apply Forall_take|]. unfold msg_ok in Hm.
  cbn [take drop trim]. change (sizes (msg :: take k l)) with (size msg + sizes (take k l)).
  rewrite (proj2 (Z.leb_gt _ 0)) by lia. rewrite (proj2 (Z.leb_le (size msg) _)) by lia.
  replace (size msg + sizes (take k l) - size msg) with (sizes (take k l)) by lia. by apply IH.
Qed.

Lemma write_loop_whole ks : forall s rest,
  sent_ s = 0 -> Forall msg_ok (send_msg_list_ s) -> send_msg_list_ s <> [] ->
  Forall (fun k => 0 < k)%nat ks -> foldr Nat.add 0%nat ks = length (send_msg_list_ s) ->
  exists s', write_loop (whole_answers ks (send_msg_list_ s) ++ rest) s = Ret (Some 1) s' /\
    wire s' = wire s ++ concat (payload <$> send_msg_list_ s) /\ send_msg_list_ s' = [] /\ sent_ s' = 0.
Proof.
  induction ks as [|k ks IH]; intros s rest H0 Hok Hne Hks Hsum.
  { destruct (send_msg_list_ s); done. }
  inversion_clear Hks as [|? ? Hk Hks'].
  destruct s as [m r rl l se c w]. cbn [send_msg_list_ sent_ wire] in *. subst se.
  cbn [whole_answers app write_loop]. rewrite !bind_gets. cbn [sent_ send_msg_list_].
  rewrite (bind_of_option _ _ _ _ _ (vectors_payload l Hok)).
  assert (Hpos : 0 < sizes (take k l)).
  { apply sizes_pos; [by apply Forall_take|]. destruct l, k; [done|done|lia|done]. }
  rewrite bind_assert by (apply negb_true_iff, Z.eqb_neq; lia). rewrite bind_modify.
  rewrite take_payloads by done.
  rewrite (bind_Ret _ _ _ _ _ (trim_whole k l 0 _ Hok)), bind_modify. cbn [fst snd].
  set (s1 := set_sent 0 _).
  assert (Hl : payload <$> l = (payload <$> take k l) ++ (payload <$> drop k l))
    by (by rewrite <- fmap_app, take_drop).
  destruct (drop k l) as [|msg l'] eqn:Ed.
  - eexists. split; [reflexivity|]. cbn. rewrite Hl. by rewrite app_nil_r.
  - destruct (IH s1 rest) as (s' & E & Hw & Hl' & Hs'); cbn; try done.
    + rewrite <- Ed. by apply Forall_drop.
    + pose proof (f_equal length Ed) as Hd. rewrite length_drop in Hd. cbn in Hd, Hsum. lia.
    + exists s'. split; [exact E|]. split; [|done]. rewrite Hw. cbn [wire s1 set_sent set_list set_wire send_msg_list_].
      by rewrite Hl, concat_app, app_assoc.
Qed.

(** C32: messages the kernel takes whole are sent.  On a socket whose [sent_] is 0
    (no constructor sets it), with a list of messages that have bytes, when each
    [writev] takes some whole messages, in whatever numbers, until all of them are
    taken, the bytes of the messages go out in order, once each, the list is empty
    and [sent_] is 0 again. *)
Theorem whole_messages_sent ks s rest :
  sent_ s = 0 -> Forall msg_ok (send_msg_list_ s) -> send_msg_list_ s <> [] ->
  Forall (fun k => 0 < k)%nat ks -> foldr Nat.add 0%nat ks = length (send_msg_list_ s) ->
  exists s', OnWritable (whole_answers ks (send_msg_list_ s) ++ rest) s = Ret (Some 1) s' /\
    wire s' = wire s ++ concat (payload <$> send_msg_list_ s) /\ send_msg_list_ s' = [] /\ sent_ s' = 0.
Proof.
  intros H0 Hok Hne Hks Hsum. unfold OnWritable. rewrite bind_gets.
  rewrite bind_assert by (by destruct (send_msg_list_ s)). by apply write_loop_whole.
Qed.

(** A message the kernel takes a part of ends the process.  After [k] bytes of
    a message the next vector starts [k] bytes further and is as long as before:
    it reaches [k] bytes behind the message, outside of its memory when that is
    no larger. *)
Theorem partial_send_undefined s msg l k a rest :
  sent_ s = 0 -> send_msg_list_ s = msg :: l -> Forall msg_ok (msg :: l) ->
  0 < k < size msg -> zlen (data msg) < k + size msg ->
  exists s', OnWritable (Wrote k :: a :: rest) s = Halt HUndefined s' /\
    wire s' = wire s ++ take (Z.to_nat k) (payload msg).
Proof.
  intros H0 El Hok Hk Hcap. unfold OnWritable. rewrite bind_gets, El. rewrite bind_assert by done.
  cbn [write_loop]. rewrite !bind_gets, H0, El.
  rewrite (bind_of_option _ _ _ _ _ (vectors_payload _ Hok)).
  rewrite bind_assert by (apply negb_true_iff, Z.eqb_neq; lia). rewrite bind_modify.
  assert (Et : forall s0, trim (msg :: l) k 0 s0 = Ret (msg :: l, k) s0).
  { intros s0. cbn [trim]. rewrite (proj2 (Z.leb_gt k 0)), (proj2 (Z.leb_gt (size msg) k)) by lia. done. }
  rewrite (bind_Ret _ _ _ _ _ (Et _)), bind_modify. cbn [fst snd]. rewrite !bind_gets.
  cbn [send_msg_list_ sent_ set_sent set_list].
  assert (Ev : vectors k (msg :: l) = None).
  { cbn. unfold vector. rewrite decide_False by lia. done. }
  unfold bindM, of_option. rewrite Ev. eexists. split; [reflexivity|]. cbn. f_equal.
  pose proof (Forall_inv Hok) as Hm. pose proof (zlen_payload msg Hm) as Hz. unfold zlen in Hz.
  rewrite take_app_le by lia. done.
Qed.

(** ** Loops that do not end *)

(** Accepting does not end when there is nothing to accept: the -1 of
    [EAGAIN] is not less than -1, so it is given to the program as a connection,
    again and again. *)
Theorem listener_spins {S} (P : Z -> M S Z) events n :
  Z.land events EPOLLIN <> 0 -> (forall s, exists r s', P (-1) s = Ret r s' /\ 0 <= r) ->
  forall s, exists s', listener_Handle P events (replicate n AcceptAgain) s = Ret None s'.
Proof.
  intros He HP s. unfold listener_Handle.
  rewrite bind_assert by (by apply negb_true_iff, Z.eqb_neq).
  revert s. induction n as [|n IH]; intros s; cbn; [by exists s|].
  destruct (HP s) as (r & s1 & E & Hr). rewrite (bind_Ret _ _ _ _ _ E).
  rewrite (proj2 (Z.ltb_ge r 0)) by done. apply IH.
Qed.

(** Nor does receiving datagrams: [EAGAIN] means try again. *)
Theorem datagrams_spin P G events n writev s :
  Z.land events EPOLLIN <> 0 -> udp_Handle P G events (replicate n NoDatagram) writev s = Ret None s.
Proof.
  intros He. unfold udp_Handle. rewrite (proj2 (Z.eqb_neq _ 0)) by done. cbn [negb].
  assert (E : udp_read_loop P G (replicate n NoDatagram) s = Ret None s).
  { induction n as [|n IH]; [done|]. cbn. exact IH. }
  by rewrite (bind_bind_Ret _ _ _ _ _ _ E).
Qed.
