(* ===== verification/NgService.v ===== *)
(** * The engines: [nf/io_service.hpp], [nf/timer.hpp]

    An [IOService] has several epoll sets, each with a loop of its own, a queue of
    timers, and a table of contexts by number.  The header is read with [i] for
    the [j] that the loop over the events counts, with [all_tcp_socket_] for the
    other two names of that vector, and with [gettimeofday] as it is spelled
    elsewhere.  [std::vector::reserve] does not make elements, so the vector of
    sockets stays empty ([socket_table_undefined]).  The clock and the answers of
    [epoll_wait] are arguments of a turn. *)

From S2P Require Import Prelude.

(** [struct timeval], in microseconds. *)
Definition timeval : Type := Z * Z.
Definition micros (t : timeval) : Z := t.1 * 1000000 + t.2.
Definition normal (t : timeval) : Prop := 0 <= t.2 < 1000000.

(** [class Timer]. *)
Record Timer := mkTimer { id : Z; fire_time : timeval; handler_ : nat; context_ : N }.

(** [operator<]: fires later, so that the greatest of the queue fires first. *)
Definition timer_lt (t1 t2 : Timer) : bool :=
  let '(s1, u1) := fire_time t1 in
  let '(s2, u2) := fire_time t2 in
  if s2 <? s1 then true
  else if s1 =? s2 then u2 <? u1 else false.

(** [class IOService]: the epoll sets by number, each with the listeners by
    descriptor and the events asked for. *)
Record IOService := mkIOService {
  epoll_fd_ : list (gmap Z (N * Z));
  all_tcp_socket_ : list N;
  timer_queue_ : list Timer;
  stop_ : bool;
  context_by_index_ : gmap Z N;
  listeners : gmap N Z
}.
Definition with_epolls v (s : IOService) : IOService :=
  mkIOService v (all_tcp_socket_ s) (timer_queue_ s) (stop_ s) (context_by_index_ s) (listeners s).
Definition with_timers v (s : IOService) : IOService :=
  mkIOService (epoll_fd_ s) (all_tcp_socket_ s) v (stop_ s) (context_by_index_ s) (listeners s).
Definition with_stop v (s : IOService) : IOService :=
  mkIOService (epoll_fd_ s) (all_tcp_socket_ s) (timer_queue_ s) v (context_by_index_ s) (listeners s).
Definition with_contexts v (s : IOService) : IOService :=
  mkIOService (epoll_fd_ s) (all_tcp_socket_ s) (timer_queue_ s) (stop_ s) v (listeners s).
Definition with_sockets v (s : IOService) : IOService :=
  mkIOService (epoll_fd_ s) v (timer_queue_ s) (stop_ s) (context_by_index_ s) (listeners s).

Definition EPOLLIN : Z := 1.
Definition EPOLLOUT : Z := 4.
Definition kMaxEpoll : Z := 1000000.

Inductive WaitAnswer := WaitTimeout | WaitError (again : bool) | WaitEvents (evs : list N).
Definition wait_permitted (timeout : Z) (w : WaitAnswer) : Prop :=
  match w with
  | WaitTimeout => 0 <= timeout
  | WaitError _ => True
  | WaitEvents evs => 0 < zlen evs <= kMaxEpoll
  end.

Section Service.
  (** A timer handler of the program and the [Handle] of a listener. *)
  Variable fire : nat -> N -> M IOService unit.
  Variable handle : N -> M IOService Z.

(** [epoll_create] fails when its result is negative. *)
Fixpoint Init (results : list Z) : M IOService Z :=
  match results with
  | [] => ret 0
  | fd :: results =>
      if fd <? 0 then ret (-1)
      else modify (fun s => with_epolls (epoll_fd_ s ++ [∅]) s) ;;! Init results
  end.

(** [epoll_ctl] with [EPOLL_ADD]: it fails for a descriptor that is there. *)
Definition add_listener (mask : Z) (l : N) (which : nat) : M IOService bool :=
  let! epolls := gets epoll_fd_ in
  let! set := of_option HAssert (epolls !! which) in
  let! ls := gets listeners in
  let! fd := of_option HUndefined (ls !! l) in
  match set !! fd with
  | Some _ => ret false
  | None => modify (with_epolls (<[which := <[fd := (l, mask)]> set]> epolls)) ;;! ret true
  end.
Definition AddReadListener : N -> nat -> M IOService bool := add_listener EPOLLIN.
Definition AddWriteListener : N -> nat -> M IOService bool := add_listener EPOLLOUT.
Definition AddReadWriteListener : N -> nat -> M IOService bool := add_listener (Z.lor EPOLLOUT EPOLLIN).

Definition DeleteEventListener (fd : Z) (which : nat) : M IOService bool :=
  let! epolls := gets epoll_fd_ in
  let! set := of_option HAssert (epolls !! which) in
  match set !! fd with
  | None => ret false
  | Some _ => modify (with_epolls (<[which := delete fd set]> epolls)) ;;! ret true
  end.

(** The queue in the order of insertion; the top is an element no other one is
    greater than, among equals the first inserted. *)
Fixpoint first_timer (best : Timer) (l : list Timer) : Timer :=
  match l with
  | [] => best
  | t :: l => first_timer (if timer_lt best t then t else best) l
  end.
Definition queue_top : M IOService Timer :=
  let! q := gets timer_queue_ in
  match q with [] => stop HUndefined | t :: l => ret (first_timer t l) end.

#[export] Instance Timer_eq_dec : EqDecision Timer.
Proof. solve_decision. Defined.

Fixpoint remove_first (t : Timer) (l : list Timer) : list Timer :=
  match l with [] => [] | u :: l => if decide (u = t) then l else u :: remove_first t l end.
(** [pop()] takes the top of the moment. *)
Definition queue_pop : M IOService unit :=
  let! t := queue_top in modify (fun s => with_timers (remove_first t (timer_queue_ s)) s).

Definition AddTimer (t : Timer) : M IOService unit :=
  modify (fun s => with_timers (timer_queue_ s ++ [t]) s).
Definition DeleteTimer (n : Z) : M IOService unit :=
  modify (fun s => with_timers (filter (fun t => id t <> n) (timer_queue_ s)) s).
Definition HandleTimer (t : Timer) : M IOService unit := fire (handler_ t) (context_ t).

(** [cur_engine++] gives the old value. *)
Definition ShiftEngine (l : N) (cur_engine : nat) : M IOService unit :=
  let! epolls := gets epoll_fd_ in
  if decide (length epolls = 0%nat) then stop HUndefined
  else AddReadListener l (cur_engine mod length epolls)%nat ;;! ret tt.

Definition HandleEvent (l : N) (which_engine : nat) : M IOService unit :=
  let! r := handle l in
  if r <? 0 then ret tt else if r =? 1 then ShiftEngine l which_engine else ret tt.

(** How late the timer is, in milliseconds; the arithmetic is that of [long], the
    result is stored in an [int] twice. *)
Definition late {S} (now : timeval) (t : Timer) : M S Z :=
  let timeout := to_int ((now.1 - (fire_time t).1) * 1000) in
  ret (to_int (timeout + Z.quot (now.2 - (fire_time t).2) 1000)).

(** One turn of [EngineStart], with the clock before and after the wait; [t] is a
    reference to the top of the queue.  [Some] when the loop ends. *)
Definition engine_turn (which : nat) (before after : timeval) (w : WaitAnswer) : M IOService (option unit) :=
  let! t := queue_top in
  let! timeout := late before t in
  match w with
  | WaitError again => ret (if again then None else Some tt)
  | _ =>
      let! timeout := late after t in
      (if timeout <? 10 then HandleTimer t ;;! queue_pop else ret tt) ;;!
      forM (match w with WaitEvents evs => evs | _ => [] end) (fun l => HandleEvent l which) ;;!
      ret None
  end.

(** The loop; [None] when the answers are used up. *)
Fixpoint EngineStart (which : nat) (turns : list (timeval * timeval * WaitAnswer)) : M IOService (option unit) :=
  let! b := gets stop_ in
  if b then ret (Some tt)
  else match turns with
  | [] => ret None
  | (before, after, w) :: turns =>
      let! r := engine_turn which before after w in
      match r with Some _ => ret (Some tt) | None => EngineStart which turns end
  end.

Definition EngineStop : M IOService unit := modify (with_stop true).

(** ** Sockets and contexts *)

(** [vector[fd]], read and written. *)
Definition socket_at (fd : Z) : M IOService N :=
  let! v := gets all_tcp_socket_ in
  of_option HUndefined (if fd <? 0 then None else v !! Z.to_nat fd).
Definition AddTCPSocket (fd : Z) (sk : N) : M IOService Z :=
  let! old := socket_at fd in
  assert_ (old =? 0)%N ;;!
  modify (fun s => with_sockets (<[Z.to_nat fd := sk]> (all_tcp_socket_ s)) s) ;;!
  ret 0.
Definition GetTCPSocket (fd : Z) : M IOService N := socket_at fd.

(** [context_by_index_[index]] inserts a null pointer for an index that is not
    there. *)
Definition GetContextByIndex (index : Z) : M IOService N :=
  let! m := gets context_by_index_ in
  match m !! index with
  | Some ctx => ret ctx
  | None => modify (with_contexts (<[index := 0%N]> m)) ;;! ret 0%N
  end.

(** [insert] does nothing for an index that is there. *)
Definition SetContextByIndex (index : Z) (ctx : N) : M IOService unit :=
  let! m := gets context_by_index_ in
  match m !! index with
  | Some _ => ret tt
  | None => modify (with_contexts (<[index := ctx]> m))
  end.

End Service.

(** ** Timers *)

(** Two clocks whose difference in milliseconds fits in an [int]. *)
Definition near (a b : timeval) : Prop := - 2000000 <= a.1 - b.1 <= 2000000.

Lemma late_eq {S} now t (s : S) :
  normal now -> normal (fire_time t) -> near now (fire_time t) ->
  late now t s = Ret ((now.1 - (fire_time t).1) * 1000 + Z.quot (now.2 - (fire_time t).2) 1000) s.
Proof.
  intros Hn Ht Hnear. unfold late, normal, near in *.
  rewrite (to_int_id (_ * 1000)) by (unfold int_min, int_max; lia).
  rewrite to_int_id; [done|]. unfold int_min, int_max. Z.to_euclidean_division_equations. lia.
Qed.

(** The bounds the engine compares with. *)
Lemma late_bounds now t :
  normal now -> normal (fire_time t) ->
  let l := (now.1 - (fire_time t).1) * 1000 + Z.quot (now.2 - (fire_time t).2) 1000 in
  (micros now <= micros (fire_time t) + 9000 -> l < 10) /\
  (micros (fire_time t) + 10000 <= micros now -> 10 <= l).
Proof.
  unfold normal, micros. intros Hn Ht. cbv zeta.
  split; Z.to_euclidean_division_equations; lia.
Qed.

Section Timers.
  Variable handle : N -> M IOService Z.
  Hypothesis handle_keeps : forall l s r s', handle l s = Ret r s' -> timer_queue_ s' = timer_queue_ s.

Definition clocks (t : Timer) (before after : timeval) : Prop :=
  normal before /\ normal after /\ near before (fire_time t) /\ near after (fire_time t).

Lemma add_listener_keeps mask l which s b s' :
  add_listener mask l which s = Ret b s' -> timer_queue_ s' = timer_queue_ s.
Proof.
  unfold add_listener. intros E. step_gets E.
  step_ret E as set s1 E1. destruct (epoll_fd_ s !! which); [injection E1 as _ <-|done].
  step_gets E. step_ret E as fd s1 E1. destruct (listeners s !! l); [injection E1 as _ <-|done].
  destruct (set !! fd); by injection E as _ <-.
Qed.

Lemma HandleEvent_keeps l which s u s' :
  HandleEvent handle l which s = Ret u s' -> timer_queue_ s' = timer_queue_ s.
Proof.
  unfold HandleEvent. intros (r & s1 & E1 & E)%bind_Ret_inv. rewrite <- (handle_keeps _ _ _ _ E1).
  destruct (r <? 0); [by injection E as _ <-|]. destruct (r =? 1); [|by injection E as _ <-].
  unfold ShiftEngine in E. step_gets E. case_decide; [done|].
  apply bind_Ret_inv in E as (b & s2 & E2 & E). injection E as _ <-. by eapply add_listener_keeps.
Qed.

Lemma events_keep evs which s u s' :
  forM evs (fun l => HandleEvent handle l which) s = Ret u s' -> timer_queue_ s' = timer_queue_ s.
Proof.
  revert s. induction evs as [|l evs IH]; intros s E; cbn in E; [by injection E as _ <-|].
  apply bind_Ret_inv in E as (u1 & s1 & E1 & E). rewrite <- (HandleEvent_keeps _ _ _ _ _ E1). by apply IH.
Qed.

(** A turn after which the first timer is ten milliseconds late. *)
Lemma engine_turn_late fire which t before after w s :
  queue_top s = Ret t s -> normal (fire_time t) -> clocks t before after ->
  micros (fire_time t) + 10000 <= micros after ->
  engine_turn fire handle which before after w s =
    (match w with
     | WaitError again => ret (if again then None else Some tt)
     | WaitTimeout => ret None
     | WaitEvents evs => forM evs (fun l => HandleEvent handle l which) ;;! ret None
     end) s.
Proof.
  intros Hq Ht (Hb & Ha & Hnb & Hna) Hlate. unfold engine_turn.
  rewrite (bind_Ret _ _ _ _ _ Hq), (bind_Ret _ _ _ _ _ (late_eq before t s Hb Ht Hnb)).
  destruct w as [|again|evs]; [| done |];
    rewrite (bind_Ret _ _ _ _ _ (late_eq after t s Ha Ht Hna));
    rewrite (proj2 (Z.ltb_ge _ 10)) by (by apply late_bounds); done.
Qed.

(** A timer is called before its time, or never.  While the first timer is
    less than nine milliseconds late, which it is as long as its time has not
    come, whatever ends the wait makes the engine call it; once it is ten
    milliseconds late at the end of every wait, the engine runs the same whatever the timer
    handlers are, so none is called, and the queue stays as it is. *)
Theorem timer_early_or_never fire fire' which t s :
  queue_top s = Ret t s -> normal (fire_time t) ->
  (forall before after w, clocks t before after -> micros after <= micros (fire_time t) + 9000 ->
     (forall again, w <> WaitError again) ->
     engine_turn fire handle which before after w s =
       (fire (handler_ t) (context_ t) ;;! queue_pop ;;!
        forM (match w with WaitEvents evs => evs | _ => [] end) (fun l => HandleEvent handle l which) ;;!
        ret None) s) /\
  (forall turns,
     Forall (fun a => clocks t a.1.1 a.1.2 /\ micros (fire_time t) + 10000 <= micros a.1.2) turns ->
     EngineStart fire handle which turns s = EngineStart fire' handle which turns s /\
     forall r s', EngineStart fire handle which turns s = Ret r s' -> timer_queue_ s' = timer_queue_ s).
Proof.
  intros Hq Ht. split.
  - intros before after w (Hb & Ha & Hnb & Hna) Hin Hw. unfold engine_turn.
    rewrite (bind_Ret _ _ _ _ _ Hq), (bind_Ret _ _ _ _ _ (late_eq before t s Hb Ht Hnb)).
    destruct w as [|again|evs]; [|by destruct (Hw again)|];
      rewrite (bind_Ret _ _ _ _ _ (late_eq after t s Ha Ht Hna));
      rewrite (proj2 (Z.ltb_lt _ 10)) by (by apply late_bounds);
      unfold HandleTimer, bindM; by destruct (fire _ _ s) as [? s1|]; [destruct (queue_pop s1)|].
  - intros turns. revert s Hq. induction turns as [|[[before after] w] turns IH]; intros s Hq Hall.
    { split; [done|]. intros r s'. cbn. unfold bindM, gets. by destruct (stop_ s); intros [= _ <-]. }
    inversion_clear Hall as [|? ? [Hc Hl] Hall']. cbn in Hc, Hl. cbn [EngineStart]. rewrite !bind_gets.
    destruct (stop_ s); [by split; [|intros ? ? [= _ <-]]|].
    assert (Hkeep : forall fire0 r s1, engine_turn fire0 handle which before after w s = Ret r s1 ->
              timer_queue_ s1 = timer_queue_ s).
    { intros fire0 r s1. rewrite (engine_turn_late fire0 which t) by done.
      destruct w as [|again|evs]; [by intros [= _ <-]|by intros [= _ <-]|].
      intros (u & s2 & E & E')%bind_Ret_inv. injection E' as _ <-. by eapply events_keep. }
    assert (Eeq : engine_turn fire handle which before after w s = engine_turn fire' handle which before after w s)
      by (by rewrite !(engine_turn_late _ which t) by done).
    unfold bindM at 1 2 3. rewrite <- Eeq.
    destruct (engine_turn fire handle which before after w s) as [r s1|h s1] eqn:E; [|done].
    pose proof (Hkeep _ _ _ E) as Hk.
    destruct r; [split; [done|intros ? ? [= _ <-]; done]|].
    assert (Hq1 : queue_top s1 = Ret t s1).
    { unfold queue_top in *. rewrite bind_gets in *. rewrite Hk.
      destruct (timer_queue_ s); [done|]. by injection Hq as ->. }
    destruct (IH s1 Hq1 Hall') as [IH1 IH2]. split; [exact IH1|].
    intros r s' E'. rewrite <- Hk. by eapply IH2.
Qed.

End Timers.

(** ** Contexts, engines and sockets *)

(** A program reads and sets contexts. *)
Inductive CtxOp := CtxGet (index : Z) | CtxSet (index : Z) (ctx : N).
Definition run_ctx (o : CtxOp) : M IOService unit :=
  match o with
  | CtxGet index => GetContextByIndex index ;;! ret tt
  | CtxSet index ctx => SetContextByIndex index ctx
  end.

(** What the table holds for an index: what its first use made of it. *)
Fixpoint first_use (index : Z) (ops : list CtxOp) : option N :=
  match ops with
  | [] => None
  | CtxGet i :: ops => if decide (i = index) then Some 0%N else first_use index ops
  | CtxSet i ctx :: ops => if decide (i = index) then Some ctx else first_use index ops
  end.

(** A context is what the first use of its index made it: the first context
    that was set, or null for ever when it was read before. *)
Theorem contexts_keep_first ops s :
  context_by_index_ s = ∅ ->
  exists s', forM ops run_ctx s = Ret tt s' /\
    (forall index, context_by_index_ s' !! index = first_use index ops) /\
    forall index, exists s2,
      GetContextByIndex index s' = Ret (default 0%N (first_use index ops)) s2.
Proof.
  intros Hempty.
  assert (H : forall ops s, exists s', forM ops run_ctx s = Ret tt s' /\
    forall index, context_by_index_ s' !! index =
      match context_by_index_ s !! index with Some c => Some c | None => first_use index ops end).
  { clear. induction ops as [|o ops IH]; intros s.
    { exists s. split; [done|]. intros index. by destruct (_ !! index). }
    cbn [forM].
    assert (E : exists s1, run_ctx o s = Ret tt s1 /\ forall index, context_by_index_ s1 !! index =
      match context_by_index_ s !! index with Some c => Some c | None => first_use index [o] end).
    { destruct o as [i|i c]; cbn; unfold GetContextByIndex, SetContextByIndex, bindM, gets, modify, ret;
        destruct (context_by_index_ s !! i) eqn:Ei; eexists; (split; [reflexivity|]); intros index; cbn;
        case_decide as Hd; subst; rewrite ?Ei, ?lookup_insert_eq, ?lookup_insert_ne by done; try done;
        by destruct (_ !! index). }
    destruct E as (s1 & E & H1). rewrite (bind_Ret _ _ _ _ _ E).
    destruct (IH s1) as (s' & E' & H2). exists s'. split; [done|]. intros index. rewrite H2, H1.
    destruct (context_by_index_ s !! index); [done|]. destruct o; cbn; by case_decide. }
  destruct (H ops s) as (s' & E & H'). rewrite Hempty in H'. exists s'. split; [done|]. split.
  - intros index. by rewrite H', lookup_empty.
  - intros index. unfold GetContextByIndex. rewrite bind_gets, H', lookup_empty.
    destruct (first_use index ops); eexists; reflexivity.
Qed.

(** A listener is never moved to another engine: it is added to the epoll set it
    is in, which fails. *)
Lemma shift_goes_nowhere l which fd set e s :
  epoll_fd_ s !! which = Some set -> listeners s !! l = Some fd -> set !! fd = Some e ->
  ShiftEngine l which s = Ret tt s.
Proof.
  intros Hw Hl He. pose proof (lookup_lt_Some _ _ _ Hw) as Hlt. unfold ShiftEngine.
  rewrite bind_gets, decide_False by lia. rewrite Nat.mod_small by done.
  unfold AddReadListener, add_listener, bindM, gets. rewrite Hw. cbn. rewrite Hl. cbn. by rewrite He.
Qed.

(** The constructor reserves room for sockets and makes none. *)
Lemma socket_table_undefined fd sk s :
  all_tcp_socket_ s = [] -> AddTCPSocket fd sk s = Halt HUndefined s /\ GetTCPSocket fd s = Halt HUndefined s.
Proof.
  intros H. assert (E : socket_at fd s = Halt HUndefined s).
  { unfold socket_at. rewrite bind_gets, H. by destruct (fd <? 0). }
  split; [|exact E]. unfold AddTCPSocket, bindM at 1. by rewrite E.
Qed.
