(* ===== verification/NgDemo.v ===== *)
(** * The sockets and engines of nf on concrete states

    A socket with two messages, a listener with nothing to accept, an engine with
    one timer; the theorems of NgSocket and NgService are applied there. *)

From S2P Require Import Prelude Wire NgSocket NgService.

Definition message1 : NgSocket.TCPMessage := NgSocket.mkTCPMessage [x61; x62; x63] 3 3.
Definition message2 : NgSocket.TCPMessage := NgSocket.mkTCPMessage [x64; x65] 2 2.
Definition ng_sender : TCPSocket := mkTCPSocket None 0 0 [message1; message2] 0 false [].

Lemma ng_sender_ok : Forall msg_ok [message1; message2].
Proof. repeat constructor; vm_compute; congruence. Qed.

Lemma whole_messages_sent_witness :
  exists s', NgSocket.OnWritable [Wrote 3; Wrote 2] ng_sender = Ret (Some 1) s' /\
    NgSocket.wire s' = [x61; x62; x63; x64; x65] /\ NgSocket.send_msg_list_ s' = [].
Proof.
  destruct (whole_messages_sent [1%nat; 1%nat] ng_sender []) as (s' & E & Hw & Hl & _);
    [done|exact ng_sender_ok|done|repeat constructor|done|].
  exists s'. split; [exact E|]. split; [rewrite Hw; vm_compute; reflexivity|exact Hl].
Defined.

Lemma partial_send_undefined_witness :
  exists s', NgSocket.OnWritable [Wrote 1; WriteAgain] ng_sender = Halt HUndefined s' /\
    NgSocket.wire s' = [] ++ take 1 (payload message1).
Proof.
  apply (partial_send_undefined ng_sender message1 [message2] 1 WriteAgain []);
    [done|done|exact ng_sender_ok|split; vm_compute; congruence|vm_compute; reflexivity].
Defined.

Lemma listener_spins_witness :
  exists s', listener_Handle (fun fd => modify (cons fd) ;;! ret 0) 1 (replicate 3 AcceptAgain) ([] : list Z) = Ret None s'.
Proof.
  apply (listener_spins (fun fd => modify (cons fd) ;;! ret 0) 1 3); [done|].
  intros s. exists 0, (-1 :: s). split; [reflexivity|lia].
Defined.

Definition ng_timer : NgService.Timer := NgService.mkTimer 1 (100, 0) 0 0.
Definition ng_engine : IOService := mkIOService [∅] [] [ng_timer] false ∅ ∅.
Definition fire1 : nat -> N -> M IOService unit := fun _ _ => EngineStop.
Definition fire2 : nat -> N -> M IOService unit := fun _ _ => ret tt.
Definition quiet : N -> M IOService Z := fun _ => ret 0.

(** Four seconds before its time the timer is called; a second after it no more. *)
Lemma timer_early_or_never_witness :
  engine_turn fire1 quiet 0 (96, 0) (96, 0) NgService.WaitTimeout ng_engine =
    (fire1 0 0 ;;! queue_pop ;;! forM [] (fun l => HandleEvent quiet l 0) ;;! ret None) ng_engine /\
  EngineStart fire1 quiet 0 [((101, 0), (101, 0), NgService.WaitTimeout)] ng_engine =
    EngineStart fire2 quiet 0 [((101, 0), (101, 0), NgService.WaitTimeout)] ng_engine.
Proof.
  destruct (timer_early_or_never quiet ltac:(by intros l s r s' [= _ <-]) fire1 fire2 0 ng_timer ng_engine)
    as [Hearly Hlate]; [vm_compute; reflexivity|done|].
  split.
  - apply (Hearly (96, 0) (96, 0) NgService.WaitTimeout); [by split_and!|by vm_compute|done].
  - apply (Hlate [((101, 0), (101, 0), NgService.WaitTimeout)]).
    constructor; [|constructor]. split; [by split_and!|by vm_compute].
Defined.

Lemma contexts_keep_first_witness :
  exists s', forM [CtxGet 3; CtxSet 3 7; CtxSet 4 8; CtxSet 4 9] run_ctx ng_engine = Ret tt s' /\
    context_by_index_ s' !! 3 = Some 0%N /\ context_by_index_ s' !! 4 = Some 8%N.
Proof.
  destruct (contexts_keep_first [CtxGet 3; CtxSet 3 7; CtxSet 4 8; CtxSet 4 9] ng_engine) as (s' & E & H & _);
    [done|].
  exists s'. split; [exact E|]. split; [exact (H 3)|exact (H 4)].
Defined.
